(* ===== verification/_CoqProject ===== *)
-Q . S2P
Prelude.v
External.v
Asset.v
UndoDb.v
Authority.v
Operations.v
Block.v
ForkDb.v
BlockStore.v
Chain.v
ForkSwitch.v
Pending.v
Vesting.v
State.v
Balance.v
WitnessSchedule.v
MaxDebt.v
Fill.v
Market.v
Trade.v
Evaluator.v
MarketOps.v
Ledger.v
Frame.v
OpFrame.v
Proposal.v
ApprovalIndex.v
Transaction.v
Expire.v
ExpireBooks.v
Budget.v
Election.v
Replay.v
Maintenance.v
ProposalRun.v
ApplyBlock.v
Generate.v
Names.v
Candidates.v
Accounts.v
AssetFrame.v
AssetConfig.v
