(* ===== verification/Prelude.v ===== *)
(** * A verification development of tusc-core, a graphene blockchain

    tusc-core is a delegated-proof-of-stake chain in C++.  Its core is under
    src/libraries: [protocol] (amounts, prices, authorities, operations, blocks),
    [db] (the object database with its undo history) and [chain] (the state, the
    evaluators of the operations, the market, the block logic).  This library
    translates that core into functions and proves what makes it correct.

    ** The parts and how they interact

    [push_block] puts a block into the fork database, a tree of the recent blocks,
    applies it on the head or switches to a longer branch, and puts the pending
    transactions back afterwards.  Applying a block ([_apply_block]) checks its header,
    applies its transactions ([_apply_transaction]: validation, duplicate check,
    authorities, reference block, expiration, then [apply_operation] per operation),
    updates the witness bookkeeping, performs maintenance when it is due (votes,
    elections, parameters, bids on settled assets, the budget) and runs the expiration
    handlers.  An evaluator
    checks an operation against the state and the fee schedule, pays the fee and
    changes objects; the market evaluators call the matching engine, which fills
    orders, calls margin positions and settles assets; a proposal stores operations
    that its approvals execute.  All changes go through the object database, whose
    undo history makes blocks and transactions reversible.

    ** Files

    - [Prelude]: results and exceptions, the state and error monad, machine integers,
      sums over maps, automation.
    - [External]: the arithmetic of fc and boost as a class with laws, and a
      reference instance that satisfies them.
    - [Asset]: protocol/asset.hpp and asset.cpp.
    - [UndoDb]: db/undo_database.cpp, db/index.hpp, db/generic_index.hpp.
    - [Authority]: protocol/authority.hpp and the [sign_state] of transaction.cpp.
    - [Operations]: the operations of protocol/*.hpp, their [validate], the fee
      schedule and the required authorities.
    - [Block]: protocol/block.cpp.  [ForkDb]: chain/fork_database.cpp.
      [BlockStore]: chain/block_database.cpp.
    - [Chain]: [push_block], [push_transaction], [pop_block] and fork switching of
      chain/db_block.cpp and db_with.hpp, on the interface [ChainState] of the state;
      [ForkSwitch], [Pending]: theorems on them.
    - [Vesting]: chain/vesting_balance_object.cpp.
    - [State]: the objects of chain/*_object.hpp, the database as a record of finite
      maps, typed access to it and weighted totals over it.
    - [Balance]: chain/db_balance.cpp and the fee distribution of account_object.cpp.
    - [WitnessSchedule]: chain/db_witness_schedule.cpp and the block bookkeeping of
      db_update.cpp.
    - [MaxDebt]: chain/market_object.cpp.
    - [Fill], [Market]: chain/db_market.cpp and the black swan check of db_update.cpp;
      [Trade]: theorems on them.
    - [Evaluator], [MarketOps]: chain/evaluator.cpp, transfer_, htlc_,
      withdraw_permission_, vesting_balance_, balance_, market_evaluator.cpp and the
      issue, reserve, pool, settlement and feed evaluators of asset_evaluator.cpp,
      with the median feed of asset_object.cpp.
    - [Ledger]: the market operations keep the books balanced.  [Frame], [OpFrame]: what
      the market and the other evaluators never touch.
    - [Proposal]: chain/proposal_evaluator.cpp, proposal_object.cpp and [push_proposal];
      [ApprovalIndex]: the index of proposals by account.
    - [Transaction]: [_apply_transaction] and [apply_operation] of chain/db_block.cpp.
    - [Expire]: the expiration handlers of chain/db_update.cpp; [ExpireBooks]: they keep
      the books balanced.
    - [Budget]: the pay of workers and [process_budget] of chain/db_maint.cpp.
      [Election]: its votes, elections and authorities, with vote_count.hpp.
      [Maintenance]: the rest of db_maint.cpp, [perform_chain_maintenance] and
      chain/fba_object.cpp.
    - [Replay]: what no operation changes.  [ProposalRun]: executing proposals, nested
      and when they are due.
    - [ApplyBlock]: [_apply_block] of chain/db_block.cpp, the instance of [ChainState].
    - [Generate]: [generate_block], [validate_transaction] and the queries of
      chain/db_block.cpp.
    - [Names]: account names and asset symbols of protocol/account.cpp and
      asset_ops.cpp.  [Candidates]: vote ids, votes, and the evaluators of witnesses,
      committee members and workers.  [Accounts]: chain/account_evaluator.cpp with the
      checks of special authorities and buyback accounts.  [AssetConfig]: the rest of
      asset_evaluator.cpp, which creates and updates assets; [AssetFrame]: what the
      market functions it calls leave alone.

    ** How the model reads

    A function that may throw returns [result]; one that changes the chain is in the
    monad [M database].  An exception discards the state, as the undo session of the
    caller does.  Integers are [Z] with the width written out where the source can
    wrap or overflow: [fc::safe] operations throw [overflow_exception], unsigned ones
    wrap with [u32] and [u64], signed overflow is [undefined_behaviour].  Ids are
    numbers; an object that exists once per account or asset is keyed by it.  An
    ordered index is the sorted list of the objects of its map.  Reading a dangling
    reference is [undefined_behaviour]; looking up the authority of an account that
    does not exist throws, as the database's [get] does.  What a block caches (its id
    and merkle root) is part of it in memory and lost in the block files.

    ** What the theorems show

    - The undo history refines a stack of snapshots; merging undo states composes
      them.  The fork database stays a tree whose head is the highest block.
    - A block is applied or forgotten; a fork switch that fails restores the old
      branch; the pending transactions that still apply, and no others, are put back on
      whatever head results.
    - An accepted block extends the head, is signed by its scheduled witness, keeps the
      books and the types of the state; no transaction is applied twice.  A generated
      block is an acceptable one made of pending transactions.
    - Prices are a strict weak order, rounding never creates value, the loops that
      shrink fractions end.
    - Authorization is sound, and complete up to the depth limit; an applied
      transaction was signed by those who pay for it, an executed proposal approved by
      those its operations need, nested executions end, and so does the clearing of due
      proposals, whatever these do to each other; the index of proposals by account
      is exact up to withdrawn approvals.
    - The ledger balances: whatever transactions are applied, what is held of an
      asset adds up to its supply.  The pieces of this are the conservation theorems
      of the market, the fee distribution, the witness pay and the vesting balances.
    - Orders have price-time priority, matches are fair, margin calls cover enough,
      settlement closes all positions.
    - Maintenance elects the witnesses with the most votes, in the number the stake asks
      for, and gives every voter of a counted authority its weight; the budget stays
      within its share of the reserve; bids revive a settled asset with the whole supply
      and the whole fund or not at all; the next maintenance is the first one due after
      the head; and the books are kept.
    - Configuration keeps what others rely on: accounts agree with their statistics,
      lists and special authorities and their names are unique; vote ids are never
      given twice and accepted votes name candidates; permissions that an issuer gave
      up stay given up, and no BitAsset is backed by one backed by a third.  A name is
      valid exactly when the grammar in its comment has it, with the least label length
      of config.hpp in the place of the comment's.
    - The witness schedule is a fair rotation, missed blocks are charged, and a block
      becomes irreversible by a supermajority only.

    ** Fuel

    Loops whose iterations look their position up again take fuel.  The shrinking
    loops of [Asset] use 128 steps, the searches of [MaxDebt] a bound on the halvings,
    [while_some] of [Expire] the number of objects of its table; theorems show that
    these suffice; the loop over accounts in maintenance uses the number of accounts,
    which a theorem shows to suffice; the nesting of proposals uses what the guard of
    [push_proposal] allows.  The fuel of the matching loops, and of the loop over what
    a buyback account holds, is a parameter; the safety theorems about them hold for
    every amount of it.

    ** Not modelled

    Networking, wallet, application API, plugins and programs (I/O around the core);
    serialization, reflection and cryptography (fc; digests, key recovery and packed
    sizes are parameters or fields); the notification of observers;
    assert operations and confidential transfers.  The evaluators of [Candidates],
    [Accounts] and [AssetConfig] start from the state after the fee is paid and are
    not among the operations [apply_operation] dispatches, so the theorems on whole
    transactions and blocks are about the operations of [Operations] only; the checks
    of [chain_parameters::validate] are left out.  Maintenance
    runs the orders of buyback accounts and the upgrade of annual members in [try]
    blocks without an undo session, so a failing one may leave half-done changes behind,
    which the error monad of this library cannot express: what a failing [buyback_order]
    leaves, and the upgrades, are open in the class [CaughtOperations] of [Maintenance],
    and the theorems on the books exclude maintenance that runs them.  The
    buffers of the vote tally are taken to be empty when maintenance starts.  Before the
    core-483 hard fork a failed proposal leaves empty entries in the list of applied operations, and a failed proposal leaves its
    entries in the set of assets affected by issue 453; both only concern observers and
    early history and are not kept here. *)

From stdpp Require Export base tactics numbers list gmap strings sorting.
From Stdlib Require Export Lia ZArith.

#[global] Open Scope Z_scope.

(** ** Exceptions and results

    A C++ function that may throw is a function to [result].  The
    constructors of [exn] are the exception classes the modelled code
    throws; [undefined_behaviour] marks the executions on which the C++
    standard gives the source no meaning (for instance a dereference of an
    end iterator). *)
Inductive exn :=
| assert_exception
| overflow_exception
| bad_rational
| unlinkable_block_exception
| black_swan_exception
| undo_database_exception
| key_not_found_exception
| transfer_from_account_not_whitelisted
| transfer_to_account_not_whitelisted
| transfer_restricted_transfer_asset
| override_transfer_not_permitted
| balance_claim_owner_mismatch
| balance_claim_invalid_claim_amount
| balance_claim_claimed_too_often
| invalid_committee_approval
| tx_missing_other_auth
| tx_missing_owner_auth
| tx_missing_active_auth
| tx_irrelevant_sig
| tx_duplicate_sig
| invalid_argument
| fc_exception
| insufficient_feeds
| insufficient_fee
| asset_reserve_invalid_on_mia
| call_order_update_unfilled_margin_call
| proposal_create_review_period_required
| proposal_create_review_period_insufficient
| internal_verify_auth_max_auth_exceeded
| internal_verify_auth_account_not_found
| account_create_max_auth_exceeded
| account_create_auth_account_not_found
| account_create_buyback_incorrect_issuer
| account_create_buyback_already_exists
| account_create_buyback_too_many_markets
| account_update_max_auth_exceeded
| account_update_auth_account_not_found
| out_of_fuel
| undefined_behaviour.

#[global] Instance exn_eq_dec : EqDecision exn.
Proof. solve_decision. Defined.

Inductive result (A : Type) :=
| Ok (a : A)
| Err (e : exn).
Arguments Ok {A} a.
Arguments Err {A} e.

#[global] Instance result_eq_dec `{EqDecision A} : EqDecision (result A).
Proof. solve_decision. Defined.

#[global] Instance result_ret : MRet result := @Ok.
#[global] Instance result_bind : MBind result := λ A B f m,
  match m with Ok a => f a | Err e => Err e end.
#[global] Instance result_fmap : FMap result := λ A B f m,
  match m with Ok a => Ok (f a) | Err e => Err e end.

(** [FC_ASSERT( b )] and [GRAPHENE_ASSERT( b, e, ... )]. *)
Definition fc_assert (b : bool) : result unit :=
  if b then Ok tt else Err assert_exception.
Definition graphene_assert (b : bool) (e : exn) : result unit :=
  if b then Ok tt else Err e.

Definition from_option_r {A} (e : exn) (o : option A) : result A :=
  match o with Some a => Ok a | None => Err e end.

Definition is_ok {A} (r : result A) : bool :=
  match r with Ok _ => true | Err _ => false end.

(** ** A state and exception monad

    [M S A] is a handler that reads and writes a state of type [S].  When it
    throws there is no resulting state: the callers run it inside an undo
    session, which throws the partial changes away. *)
Definition M (S A : Type) : Type := S → result (A * S).

#[global] Instance M_ret {S} : MRet (M S) := λ A a s, Ok (a, s).
#[global] Instance M_bind {S} : MBind (M S) := λ A B f m s,
  match m s with Ok (a, s') => f a s' | Err e => Err e end.

Definition lift {S A} (r : result A) : M S A := λ s,
  match r with Ok a => Ok (a, s) | Err e => Err e end.
Definition gets {S A} (f : S → A) : M S A := λ s, Ok (f s, s).
Definition puts {S} (f : S → S) : M S unit := λ s, Ok (tt, f s).
Definition throw {S A} (e : exn) : M S A := λ _, Err e.
Definition assert_that {S} (b : bool) : M S unit := lift (fc_assert b).
Definition when {S} (b : bool) (m : M S unit) : M S unit :=
  if b then m else mret tt.

(** [catch( const fc::exception& )]: undefined behaviour is not an exception. *)
Definition caught (e : exn) : bool :=
  match e with undefined_behaviour | out_of_fuel => false | _ => true end.
(** [try { ... } catch( const fc::exception& e )] around an undo session: what was
    done before the exception is gone. *)
Definition try_catch {S A} (m : M S A) (handler : exn → M S A) : M S A := λ s,
  match m s with
  | Ok x => Ok x
  | Err e => if caught e then handler e s else Err e
  end.

(** [for( x : l ) f( x );], where [f] throws or returns nothing. *)
Definition check_each {A} (f : A → result unit) : list A → result unit :=
  fix go l := match l with [] => Ok tt | x :: l => f x;; go l end.

(** ** Machine integers *)
Definition int64_min : Z := -9223372036854775808.
Definition int64_max : Z := 9223372036854775807.
Definition uint32_max : Z := 4294967295.
Definition uint64_max : Z := 18446744073709551615.
Definition int128_max : Z := 170141183460469231731687303715884105727.
Definition uint128_max : Z := 340282366920938463463374607431768211455.

Definition in_int64 (z : Z) : bool := (int64_min <=? z) && (z <=? int64_max).
Definition u32 (z : Z) : Z := z `mod` 4294967296.
Definition u64 (z : Z) : Z := z `mod` 18446744073709551616.

(** An arithmetic result of type [int64_t]: the standard gives no meaning to an
    overflow. *)
Definition raw_int64 (z : Z) : result Z :=
  if in_int64 z then Ok z else Err undefined_behaviour.

Ltac unfold_widths :=
  unfold in_int64, int64_min, int64_max, uint32_max, uint64_max, int128_max,
    uint128_max, u32, u64 in *.

(** ** Automation *)
Lemma result_bind_Ok {A B} (m : result A) (f : A → result B) b :
  (m ≫= f) = Ok b ↔ ∃ a, m = Ok a ∧ f a = Ok b.
Proof.
  destruct m as [a|e]; cbn; split; [eauto|intros (? & [= <-] & ?); done|done|].
  intros (? & ? & ?). done.
Qed.

Lemma M_bind_Ok {S A B} (m : M S A) (f : A → M S B) s b s' :
  (m ≫= f) s = Ok (b, s') ↔ ∃ a s1, m s = Ok (a, s1) ∧ f a s1 = Ok (b, s').
Proof.
  unfold mbind, M_bind. destruct (m s) as [[a s1]|e]; split; [eauto| |done|].
  - intros (? & ? & [= <- <-] & ?). done.
  - intros (? & ? & ? & ?). done.
Qed.

Lemma lift_Ok {S A} (r : result A) (s s' : S) a :
  lift r s = Ok (a, s') ↔ r = Ok a ∧ s' = s.
Proof.
  unfold lift. destruct r; split; [intros [= -> ->]|intros [[= ->] ->]| |intros [? ?]]; done.
Qed.

Lemma fc_assert_Ok b u : fc_assert b = Ok u ↔ b = true.
Proof. destruct b, u; cbn; naive_solver. Qed.

Lemma graphene_assert_Ok b e u : graphene_assert b e = Ok u ↔ b = true.
Proof. destruct b, u; cbn; naive_solver. Qed.

Lemma from_option_r_Ok {A} e (o : option A) a :
  from_option_r e o = Ok a ↔ o = Some a.
Proof. destruct o; cbn; naive_solver. Qed.

Lemma Ok_inj {A} (a b : A) : Ok a = Ok b → a = b.
Proof. congruence. Qed.

(** [monad_inv] turns every hypothesis that says a monadic term succeeded into
    the facts about its steps. *)
Ltac monad_inv_step :=
  match goal with
  | H : (_ ≫= _) _ = Ok (_, _) |- _ =>
      apply M_bind_Ok in H; destruct H as (? & ? & ? & H)
  | H : (_ ≫= _) = Ok _ |- _ => apply result_bind_Ok in H; destruct H as (? & ? & H)
  | H : lift _ _ = Ok (_, _) |- _ => apply lift_Ok in H; destruct H as [H ?]
  | H : assert_that _ _ = Ok (_, _) |- _ => unfold assert_that in H
  | H : fc_assert _ = Ok _ |- _ => apply fc_assert_Ok in H
  | H : graphene_assert _ _ = Ok _ |- _ => apply graphene_assert_Ok in H
  | H : from_option_r _ _ = Ok _ |- _ => apply from_option_r_Ok in H
  | H : gets _ _ = Ok (_, _) |- _ => unfold gets in H
  | H : puts _ _ = Ok (_, _) |- _ => unfold puts in H
  | H : throw _ _ = Ok _ |- _ => discriminate H
  | H : mret _ _ = Ok (_, _) |- _ => unfold mret, M_ret in H
  | H : mret _ = Ok _ |- _ => unfold mret, result_ret in H
  | H : Ok _ = Ok _ |- _ => apply Ok_inj in H
  | H : (_, _) = (_, _) |- _ => apply pair_equal_spec in H; destruct H
  | H : Err _ = Ok _ |- _ => discriminate H
  | H : Ok _ = Err _ |- _ => discriminate H
  end.

Ltac monad_inv := repeat (monad_inv_step; simplify_eq).

(** Boolean guards of the source as propositions. *)
Ltac bool_to_prop :=
  repeat match goal with
  | H : andb _ _ = true |- _ => apply andb_true_iff in H; destruct H
  | H : orb _ _ = false |- _ => apply orb_false_iff in H; destruct H
  | H : negb _ = true |- _ => apply negb_true_iff in H
  | H : negb _ = false |- _ => apply negb_false_iff in H
  | H : (_ =? _) = true |- _ => apply Z.eqb_eq in H
  | H : (_ =? _) = false |- _ => apply Z.eqb_neq in H
  | H : (_ <=? _) = true |- _ => apply Z.leb_le in H
  | H : (_ <=? _) = false |- _ => apply Z.leb_gt in H
  | H : (_ <? _) = true |- _ => apply Z.ltb_lt in H
  | H : (_ <? _) = false |- _ => apply Z.ltb_ge in H
  | H : (_ >? _) = true |- _ => rewrite Z.gtb_ltb in H
  | H : (_ >? _) = false |- _ => rewrite Z.gtb_ltb in H
  | H : (_ >=? _) = true |- _ => rewrite Z.geb_leb in H
  | H : (_ >=? _) = false |- _ => rewrite Z.geb_leb in H
  | H : bool_decide _ = true |- _ => apply bool_decide_eq_true in H
  | H : bool_decide _ = false |- _ => apply bool_decide_eq_false in H
  end.

Lemma in_int64_true z : in_int64 z = true ↔ int64_min ≤ z ≤ int64_max.
Proof. unfold in_int64. rewrite andb_true_iff, !Z.leb_le. done. Qed.

Lemma raw_int64_Ok z r : raw_int64 z = Ok r ↔ r = z ∧ int64_min ≤ z ≤ int64_max.
Proof. unfold raw_int64. rewrite <- in_int64_true. destruct (in_int64 z); naive_solver. Qed.

Create HintDb graphene.
#[export] Hint Resolve Z.le_refl Z.lt_le_incl : graphene.

(** ** Integer lemmas shared by the components *)
Section integers.

Lemma div_mul_le_self a b : 0 < b → a / b * b ≤ a.
Proof. intros. pose proof (Z.mul_div_le a b). lia. Qed.

Lemma div_lt_upper a b q : 0 < b → a < b * q → a / b < q.
Proof. intros. apply Z.div_lt_upper_bound; lia. Qed.

(** The ceiling written the way the source writes it. *)
Lemma ceil_div_spec a b q :
  0 < b → ((a + b - 1) / b ≤ q ↔ a ≤ b * q).
Proof.
  intros Hb. split; intros H.
  - pose proof (Z.div_mod (a + b - 1) b ltac:(lia)).
    pose proof (Z.mod_pos_bound (a + b - 1) b Hb). nia.
  - apply Z.lt_succ_r, Z.div_lt_upper_bound; lia.
Qed.

Lemma ceil_div_lower a b : 0 < b → a ≤ (a + b - 1) / b * b.
Proof.
  intros Hb. pose proof (ceil_div_spec a b ((a + b - 1) / b) Hb). lia.
Qed.

Lemma ceil_div_upper a b : 0 < b → (a + b - 1) / b * b < a + b.
Proof. intros Hb. pose proof (Z.mul_div_le (a + b - 1) b Hb). lia. Qed.

Lemma ceil_div_pos a b : 0 < b → 0 < a → 0 < (a + b - 1) / b.
Proof. intros. apply Z.div_str_pos. lia. Qed.

End integers.

(** ** Sums over finite maps *)
Section sum_map.
Context {K V : Type} `{Countable K}.
Implicit Types (f : K → V → Z) (m : gmap K V).

Definition sum_map f m : Z := map_fold (λ k v acc, f k v + acc) 0 m.

Lemma sum_map_empty f : sum_map f ∅ = 0.
Proof. unfold sum_map. by rewrite map_fold_empty. Qed.

Lemma sum_map_insert_new f m k v :
  m !! k = None → sum_map f (<[k := v]> m) = sum_map f m + f k v.
Proof.
  intros Hk. unfold sum_map. rewrite map_fold_insert_L; [lia| |done]. intros. lia.
Qed.

Lemma sum_map_delete f m k v :
  m !! k = Some v → sum_map f (delete k m) = sum_map f m - f k v.
Proof.
  intros Hk. rewrite <- (insert_delete_id m k v Hk) at 2.
  rewrite sum_map_insert_new by apply lookup_delete_eq. lia.
Qed.

Lemma sum_map_insert f m k v w :
  m !! k = Some v → sum_map f (<[k := w]> m) = sum_map f m - f k v + f k w.
Proof.
  intros Hk. rewrite <- insert_delete_eq, sum_map_insert_new by apply lookup_delete_eq.
  rewrite (sum_map_delete f m k v Hk). lia.
Qed.

Lemma sum_map_nonneg f m : (∀ k v, m !! k = Some v → 0 ≤ f k v) → 0 ≤ sum_map f m.
Proof.
  induction m as [|k v m Hk IH] using map_ind; intros Hf; [by rewrite sum_map_empty|].
  rewrite sum_map_insert_new by done.
  pose proof (Hf k v (lookup_insert_eq m k v)). 
  assert (0 ≤ sum_map f m); [|lia]. apply IH. intros k' v' Hk'. apply Hf.
  rewrite lookup_insert_ne; [done|]. intros <-. congruence.
Qed.

Lemma sum_map_null f m : (∀ k v, m !! k = Some v → f k v = 0) → sum_map f m = 0.
Proof.
  induction m as [|k v m Hk IH] using map_ind; intros Hf; [apply sum_map_empty|].
  rewrite sum_map_insert_new by done. rewrite (Hf k v) by apply lookup_insert_eq.
  rewrite IH; [done|]. intros k' v' Hk'. apply Hf. rewrite lookup_insert_ne; [done|]. congruence.
Qed.
Lemma sum_map_zero m : sum_map (λ _ _, 0) m = 0.
Proof. by apply sum_map_null. Qed.
End sum_map.

#[export] Hint Resolve div_mul_le_self ceil_div_lower : graphene.
