(* ===== verification/External.v ===== *)
(** * The arithmetic the sources take from fc and boost

    [share_type] is [fc::safe<int64_t>], times are [fc::time_point_sec], and
    prices are computed with [boost::multiprecision] and [boost::rational].
    None of these libraries is part of the repository, so the model takes them
    as a parameter: the class [Ext] lists the operations the sources call and,
    as laws, the documented behaviour the sources rely on.  The laws of the
    fixed-width types only speak about results that fit the width.  The
    instance [ext_ref] shows that the laws can hold together and is what the
    concrete examples run on. *)

From S2P Require Import Prelude.

Class Ext := {
  (** [fc::safe<int64_t>]: exact, or an overflow exception. *)
  safe_add : Z → Z → result Z;
  safe_sub : Z → Z → result Z;
  safe_mul : Z → Z → result Z;
  safe_neg : Z → result Z;
  safe_add_spec a b : safe_add a b =
    if in_int64 (a + b) then Ok (a + b) else Err overflow_exception;
  safe_sub_spec a b : safe_sub a b =
    if in_int64 (a - b) then Ok (a - b) else Err overflow_exception;
  safe_mul_spec a b : safe_mul a b =
    if in_int64 (a * b) then Ok (a * b) else Err overflow_exception;
  safe_neg_spec a : safe_neg a =
    if in_int64 (- a) then Ok (- a) else Err overflow_exception;

  (** [boost::multiprecision::uint128_t] and [fc::uint128_t]. *)
  u128_of : Z → Z;
  u128_add : Z → Z → Z;
  u128_sub : Z → Z → Z;
  u128_mul : Z → Z → Z;
  u128_div : Z → Z → Z;
  u128_to_int64 : Z → Z;
  u128_of_spec a : 0 ≤ a ≤ int64_max → u128_of a = a;
  u128_add_spec a b : 0 ≤ a → 0 ≤ b → a + b ≤ uint128_max → u128_add a b = a + b;
  u128_sub_spec a b : 0 ≤ b ≤ a → a ≤ uint128_max → u128_sub a b = a - b;
  u128_mul_spec a b : 0 ≤ a → 0 ≤ b → a * b ≤ uint128_max → u128_mul a b = a * b;
  u128_div_spec a b : 0 ≤ a ≤ uint128_max → 0 < b → u128_div a b = a / b;
  u128_div_nonneg a b : 0 ≤ u128_div a b;
  u128_to_int64_spec a : 0 ≤ a ≤ int64_max → u128_to_int64 a = a;

  (** [boost::rational<int128_t>]: a fraction kept in lowest terms with a
      positive denominator; a zero denominator throws [bad_rational]. *)
  rat : Type;
  rat_num : rat → Z;
  rat_den : rat → Z;
  rat_make : Z → Z → result rat;
  rat_mul : rat → rat → rat;
  rat_sub : rat → rat → rat;
  rat_abs : rat → rat;
  rat_lt : rat → rat → bool;
  rat_make_zero n : rat_make n 0 = Err bad_rational;
  rat_make_spec n d : 0 ≤ n ≤ int128_max → 0 < d ≤ int128_max →
    ∃ q, rat_make n d = Ok q ∧ 0 < rat_den q ∧ Z.gcd (rat_num q) (rat_den q) = 1
      ∧ rat_num q * d = n * rat_den q;
  rat_mul_spec p q : 0 ≤ rat_num p → 0 < rat_den p → 0 ≤ rat_num q → 0 < rat_den q →
    rat_num p * rat_num q ≤ int128_max → rat_den p * rat_den q ≤ int128_max →
    0 < rat_den (rat_mul p q) ∧ Z.gcd (rat_num (rat_mul p q)) (rat_den (rat_mul p q)) = 1
      ∧ rat_num (rat_mul p q) * (rat_den p * rat_den q)
        = rat_num p * rat_num q * rat_den (rat_mul p q);

  (** [ratio_type], which is [boost::rational<int32_t>]. *)
  ratio_make : Z → Z → result rat;
  ratio_make_zero n : ratio_make n 0 = Err bad_rational;
  ratio_make_spec n d : 0 ≤ n ≤ 2147483647 → 0 < d ≤ 2147483647 →
    ∃ q, ratio_make n d = Ok q ∧ 0 < rat_den q ∧ Z.gcd (rat_num q) (rat_den q) = 1
      ∧ rat_num q * d = n * rat_den q;

  (** [boost::multiprecision::int128_t], used on positive values. *)
  i128_shr : Z → Z → Z;
  i128_and : Z → Z → Z;
  i128_add : Z → Z → Z;
  i128_div : Z → Z → Z;
  i128_to_int64 : Z → Z;
  i128_shr_spec a n : 0 ≤ a ≤ int128_max → 0 ≤ n → i128_shr a n = Z.shiftr a n;
  i128_and_spec a b : 0 ≤ a ≤ int128_max → 0 ≤ b ≤ int128_max → i128_and a b = Z.land a b;
  i128_add_spec a b : 0 ≤ a → 0 ≤ b → a + b ≤ int128_max → i128_add a b = a + b;
  i128_div_spec a b : 0 ≤ a ≤ int128_max → 0 < b → i128_div a b = a / b;
  i128_to_int64_spec a : 0 ≤ a ≤ int64_max → i128_to_int64 a = a;

  (** [boost::multiprecision::int256_t]. *)
  i256_add : Z → Z → Z;
  i256_sub : Z → Z → Z;
  i256_mul : Z → Z → Z;
  i256_div : Z → Z → Z;
  i256_add_spec a b : Z.abs (a + b) < 2 ^ 255 → i256_add a b = a + b;
  i256_sub_spec a b : Z.abs (a - b) < 2 ^ 255 → i256_sub a b = a - b;
  i256_mul_spec a b : Z.abs (a * b) < 2 ^ 255 → i256_mul a b = a * b;
  i256_div_spec a b : 0 ≤ a < 2 ^ 255 → 0 < b → i256_div a b = a / b;

  (** [fc::time_point_sec], seconds since the epoch in 32 bits, and the
      difference of two of them in whole seconds. *)
  tps_add : Z → Z → Z;
  tps_diff : Z → Z → Z;
  tps_add_spec a b : 0 ≤ a → 0 ≤ b → a + b ≤ uint32_max → tps_add a b = a + b;
  tps_diff_spec a b : 0 ≤ a ≤ uint32_max → 0 ≤ b ≤ uint32_max → tps_diff a b = a - b
}.

(** ** A reference instance *)
Definition ref_safe (z : Z) : result Z :=
  if in_int64 z then Ok z else Err overflow_exception.
Definition ref_u128 (z : Z) : Z := z `mod` (2 ^ 128).
Definition ref_rat_make (n d : Z) : result (Z * Z) :=
  if d =? 0 then Err bad_rational
  else let g := Z.gcd n d in Ok (Z.sgn d * n / g, Z.abs d / g).
Definition ref_rat_mul (p q : Z * Z) : Z * Z :=
  let n := p.1 * q.1 in let d := p.2 * q.2 in
  let g := Z.gcd n d in (n / g, d / g).
Definition ref_rat_sub (p q : Z * Z) : Z * Z :=
  let n := p.1 * q.2 - q.1 * p.2 in let d := p.2 * q.2 in
  let g := Z.gcd n d in (n / g, d / g).

(** Dividing both parts by their gcd gives a fraction in lowest terms. *)
Lemma reduce_spec n d :
  0 < d → let g := Z.gcd n d in
  0 < d / g ∧ Z.gcd (n / g) (d / g) = 1 ∧ n / g * d = n * (d / g).
Proof.
  intros Hd g. assert (g ≠ 0) as Hg0 by (intros E; apply Z.gcd_eq_0 in E; lia).
  assert (0 < g) as Hg by (pose proof (Z.gcd_nonneg n d); lia).
  destruct (Z.gcd_divide_l n d) as [x Hx], (Z.gcd_divide_r n d) as [y Hy].
  fold g in Hx, Hy.
  assert (n / g = x) as E1 by (rewrite Hx; apply Z.div_mul; lia).
  assert (d / g = y) as E2 by (rewrite Hy; apply Z.div_mul; lia).
  split_and!; [nia|apply Z.gcd_div_gcd; done|rewrite E1, E2, Hx, Hy; ring].
Qed.

Lemma ref_u128_small z : 0 ≤ z ≤ uint128_max → ref_u128 z = z.
Proof. unfold_widths. intros. apply Z.mod_small. lia. Qed.

#[global, program] Instance ext_ref : Ext := {
  safe_add a b := ref_safe (a + b);
  safe_sub a b := ref_safe (a - b);
  safe_mul a b := ref_safe (a * b);
  safe_neg a := ref_safe (- a);
  u128_of a := ref_u128 a;
  u128_add a b := ref_u128 (a + b);
  u128_sub a b := ref_u128 (a - b);
  u128_mul a b := ref_u128 (a * b);
  u128_div a b := ref_u128 (a / b);
  u128_to_int64 a := a;
  rat := Z * Z;
  rat_num := fst;
  rat_den := snd;
  rat_make := ref_rat_make;
  rat_mul := ref_rat_mul;
  rat_sub := ref_rat_sub;
  rat_abs p := (Z.abs p.1, p.2);
  rat_lt p q := p.1 * q.2 <? q.1 * p.2;
  ratio_make := ref_rat_make;
  i128_shr := Z.shiftr;
  i128_and := Z.land;
  i128_add := Z.add;
  i128_div := Z.div;
  i128_to_int64 a := a;
  i256_add := Z.add;
  i256_sub := Z.sub;
  i256_mul := Z.mul;
  i256_div := Z.div;
  tps_add a b := u32 (a + b);
  tps_diff := Z.sub
}.
Solve Obligations with (try (intros; done)).
Next Obligation. intros. apply ref_u128_small. unfold_widths. lia. Qed.
Next Obligation. intros. apply ref_u128_small. lia. Qed.
Next Obligation. intros. apply ref_u128_small. lia. Qed.
Next Obligation. intros. apply ref_u128_small. nia. Qed.
Next Obligation.
  intros a b Ha Hb. apply ref_u128_small. split; [apply Z.div_pos; lia|].
  transitivity a; [apply Z.div_le_upper_bound; nia|lia].
Qed.
Next Obligation. intros. unfold ref_u128. pose proof (Z.mod_pos_bound (a / b) (2 ^ 128)). lia. Qed.
Next Obligation.
  intros n d Hn Hd. unfold ref_rat_make. rewrite (proj2 (Z.eqb_neq d 0)) by lia.
  rewrite Z.sgn_pos, Z.abs_eq, Z.mul_1_l by lia.
  destruct (reduce_spec n d) as (? & ? & ?); [lia|]. eexists. split_and!; eauto.
Qed.
Next Obligation.
  intros p q ? Hp ? Hq ? ?. destruct (reduce_spec (p.1 * q.1) (p.2 * q.2)) as (? & ? & ?);
    [cbn in *; nia|]. cbn in *. split_and!; done.
Qed.
Next Obligation.
  intros n d Hn Hd. unfold ref_rat_make. rewrite (proj2 (Z.eqb_neq d 0)) by lia.
  rewrite Z.sgn_pos, Z.abs_eq, Z.mul_1_l by lia.
  destruct (reduce_spec n d) as (? & ? & ?); [lia|]. eexists. split_and!; eauto.
Qed.
Next Obligation. intros. unfold_widths. apply Z.mod_small. lia. Qed.

(** ** Derived facts used all over the components *)
Section ext_facts.
Context `{EX : Ext}.

Lemma safe_add_Ok a b c :
  safe_add a b = Ok c ↔ c = a + b ∧ int64_min ≤ a + b ≤ int64_max.
Proof.
  rewrite safe_add_spec, <- in_int64_true. destruct (in_int64 (a + b)); naive_solver.
Qed.

Lemma safe_sub_Ok a b c :
  safe_sub a b = Ok c ↔ c = a - b ∧ int64_min ≤ a - b ≤ int64_max.
Proof.
  rewrite safe_sub_spec, <- in_int64_true. destruct (in_int64 (a - b)); naive_solver.
Qed.

Lemma safe_mul_Ok a b c :
  safe_mul a b = Ok c ↔ c = a * b ∧ int64_min ≤ a * b ≤ int64_max.
Proof.
  rewrite safe_mul_spec, <- in_int64_true. destruct (in_int64 (a * b)); naive_solver.
Qed.

Lemma safe_neg_Ok a c :
  safe_neg a = Ok c ↔ c = - a ∧ int64_min ≤ - a ≤ int64_max.
Proof.
  rewrite safe_neg_spec, <- in_int64_true. destruct (in_int64 (- a)); naive_solver.
Qed.

(** The product of two 63-bit values, possibly with an addend, fits 128 bits. *)
Lemma u128_mul_int64 a b :
  0 ≤ a ≤ int64_max → 0 ≤ b ≤ int64_max → u128_mul (u128_of a) b = a * b.
Proof.
  intros. rewrite u128_of_spec by lia. apply u128_mul_spec; unfold_widths; nia.
Qed.

Lemma mul_int64_le_u128 a b :
  0 ≤ a ≤ int64_max → 0 ≤ b ≤ int64_max → 0 ≤ a * b ≤ uint128_max - 2 * int64_max.
Proof. unfold_widths. nia. Qed.

End ext_facts.

Ltac safe_inv :=
  repeat match goal with
  | H : safe_add _ _ = Ok _ |- _ => apply safe_add_Ok in H; destruct H as [? H]
  | H : safe_sub _ _ = Ok _ |- _ => apply safe_sub_Ok in H; destruct H as [? H]
  | H : safe_mul _ _ = Ok _ |- _ => apply safe_mul_Ok in H; destruct H as [? H]
  | H : safe_neg _ = Ok _ |- _ => apply safe_neg_Ok in H; destruct H as [? H]
  end; simplify_eq.
