(* ===== verification/Asset.v ===== *)
(** * Amounts and prices: protocol/asset.hpp and protocol/asset.cpp

    [asset] and [price] with the operators of the source.  The rounding of
    [operator*] (down) and [multiply_and_round_up] (up), the comparison of
    prices by cross multiplication, and the loops that shrink a fraction until
    both parts fit [GRAPHENE_MAX_SHARE_SUPPLY] are written as in the code; the
    loops take fuel and the theorems show that the fuel always suffices. *)

From S2P Require Import Prelude External.

(** ** Constants of protocol/config.hpp *)
Definition GRAPHENE_MAX_SHARE_SUPPLY : Z := 1000000000000000.
Definition GRAPHENE_100_PERCENT : Z := 10000.
Definition GRAPHENE_COLLATERAL_RATIO_DENOM : Z := 1000.
Definition GRAPHENE_MIN_COLLATERAL_RATIO : Z := 1001.
Definition GRAPHENE_MAX_COLLATERAL_RATIO : Z := 32000.
Definition GRAPHENE_DEFAULT_MAINTENANCE_COLLATERAL_RATIO : Z := 1750.
Definition GRAPHENE_DEFAULT_MAX_SHORT_SQUEEZE_RATIO : Z := 1500.

(** ** Data *)
Record asset := Asset { amount : Z; asset_id : Z }.
Record price := Price { base : asset; quote : asset }.
Record price_feed := PriceFeed {
  settlement_price : price;
  core_exchange_rate : price;
  maintenance_collateral_ratio : Z;
  maximum_short_squeeze_ratio : Z
}.

#[global] Instance asset_eq_dec : EqDecision asset.
Proof. solve_decision. Defined.
#[global] Instance price_eq_dec : EqDecision price.
Proof. solve_decision. Defined.
#[global] Instance price_feed_eq_dec : EqDecision price_feed.
Proof. solve_decision. Defined.

Definition default_asset : asset := Asset 0 0.
Definition default_price : price := Price default_asset default_asset.
Definition default_price_feed : price_feed :=
  PriceFeed default_price default_price GRAPHENE_DEFAULT_MAINTENANCE_COLLATERAL_RATIO
    GRAPHENE_DEFAULT_MAX_SHORT_SQUEEZE_RATIO.

(** The fuel of the shrinking loops: one step per bit of an [int128_t]. *)
Definition shrink_fuel : nat := 128%nat.

Section operations.
Context `{EX : Ext}.

(** ** asset *)
Definition asset_add (a b : asset) : result asset :=
  fc_assert (asset_id a =? asset_id b);;
  s ← safe_add (amount a) (amount b);
  Ok (Asset s (asset_id a)).

Definition asset_sub (a b : asset) : result asset :=
  fc_assert (asset_id a =? asset_id b);;
  s ← safe_sub (amount a) (amount b);
  Ok (Asset s (asset_id a)).

Definition asset_neg (a : asset) : result asset :=
  n ← safe_neg (amount a); Ok (Asset n (asset_id a)).

Definition asset_eqb (a b : asset) : bool :=
  (asset_id a =? asset_id b) && (amount a =? amount b).

Definition asset_lt (a b : asset) : result bool :=
  fc_assert (asset_id a =? asset_id b);; Ok (amount a <? amount b).

Definition asset_le (a b : asset) : result bool :=
  r ← asset_lt b a; Ok (negb r).
Definition asset_gt (a b : asset) : result bool := asset_lt b a.
Definition asset_ge (a b : asset) : result bool :=
  r ← asset_lt a b; Ok (negb r).

(** [std::min] of the standard library: the second only if it is less. *)
Definition asset_min (a b : asset) : result asset :=
  r ← asset_lt b a; Ok (if r : bool then b else a).

Definition p10 (n : nat) : Z := 10 ^ Z.of_nat n.
Definition scaled_precision_lut : list Z := p10 <$> seq 0 19.
Definition scaled_precision (precision : Z) : result Z :=
  fc_assert (precision <? 19);;
  from_option_r undefined_behaviour (scaled_precision_lut !! Z.to_nat precision).

(** ** price *)
Definition price_eqb (a b : price) : bool :=
  if negb ((asset_id (base a) =? asset_id (base b))
           && (asset_id (quote a) =? asset_id (quote b)))
  then false
  else
    let amult := u128_mul (u128_of (amount (quote b))) (amount (base a)) in
    let bmult := u128_mul (u128_of (amount (quote a))) (amount (base b)) in
    amult =? bmult.

Definition price_ltb (a b : price) : bool :=
  if asset_id (base a) <? asset_id (base b) then true
  else if asset_id (base a) >? asset_id (base b) then false
  else if asset_id (quote a) <? asset_id (quote b) then true
  else if asset_id (quote a) >? asset_id (quote b) then false
  else
    let amult := u128_mul (u128_of (amount (quote b))) (amount (base a)) in
    let bmult := u128_mul (u128_of (amount (quote a))) (amount (base b)) in
    amult <? bmult.

Definition price_gtb (a b : price) : bool := price_ltb b a.
Definition price_leb (a b : price) : bool := negb (price_ltb b a).
Definition price_geb (a b : price) : bool := negb (price_ltb a b).

(** [a * b / c] in 128 bits, checked against the maximum supply; the common
    body of the branches of the two multiplications. *)
Definition checked_share (r : Z) : result Z :=
  fc_assert (r <=? GRAPHENE_MAX_SHARE_SUPPLY);; Ok (u128_to_int64 r).

Definition asset_mul (a : asset) (b : price) : result asset :=
  if asset_id a =? asset_id (base b) then
    fc_assert (amount (base b) >? 0);;
    r ← checked_share
          (u128_div (u128_mul (u128_of (amount a)) (amount (quote b))) (amount (base b)));
    Ok (Asset r (asset_id (quote b)))
  else if asset_id a =? asset_id (quote b) then
    fc_assert (amount (quote b) >? 0);;
    r ← checked_share
          (u128_div (u128_mul (u128_of (amount a)) (amount (base b))) (amount (quote b)));
    Ok (Asset r (asset_id (base b)))
  else Err assert_exception.

Definition multiply_and_round_up (a : asset) (b : price) : result asset :=
  if asset_id a =? asset_id (base b) then
    fc_assert (amount (base b) >? 0);;
    r ← checked_share
          (u128_div
             (u128_sub (u128_add (u128_mul (u128_of (amount a)) (amount (quote b)))
                          (amount (base b))) 1)
             (amount (base b)));
    Ok (Asset r (asset_id (quote b)))
  else if asset_id a =? asset_id (quote b) then
    fc_assert (amount (quote b) >? 0);;
    r ← checked_share
          (u128_div
             (u128_sub (u128_add (u128_mul (u128_of (amount a)) (amount (base b)))
                          (amount (quote b))) 1)
             (amount (quote b)));
    Ok (Asset r (asset_id (base b)))
  else Err assert_exception.

Definition price_div (b q : asset) : result price :=
  fc_assert (negb (asset_id b =? asset_id q));; Ok (Price b q).

Definition price_inv (p : price) : price := Price (quote p) (base p).

Definition price_max (b q : Z) : result price :=
  price_div (Asset GRAPHENE_MAX_SHARE_SUPPLY b) (Asset 1 q).
Definition price_min (b q : Z) : result price :=
  price_div (Asset 1 b) (Asset GRAPHENE_MAX_SHARE_SUPPLY q).
Definition unit_price (a : Z) : price := Price (Asset 1 a) (Asset 1 a).

Definition price_is_null (p : price) : bool :=
  (asset_id (base p) =? 0) && (asset_id (quote p) =? 0).

Definition price_validate (p : price) : result unit :=
  fc_assert (amount (base p) >? 0);;
  fc_assert (amount (quote p) >? 0);;
  fc_assert (negb (asset_id (base p) =? asset_id (quote p))).

(** The loop of [operator * ( price, ratio_type )]: the fraction, whether it
    was halved, and whether it was clamped to the maximum. *)
Fixpoint shrink_loop (fuel : nat) (cp : rat) (shrinked using_max : bool)
    : result (rat * bool * bool) :=
  match fuel with
  | O => Err out_of_fuel
  | S fuel' =>
      if (rat_num cp >? GRAPHENE_MAX_SHARE_SUPPLY) || (rat_den cp >? GRAPHENE_MAX_SHARE_SUPPLY)
      then
        if rat_num cp =? 1 then
          q ← rat_make 1 GRAPHENE_MAX_SHARE_SUPPLY; Ok (q, shrinked, true)
        else if rat_den cp =? 1 then
          q ← rat_make GRAPHENE_MAX_SHARE_SUPPLY 1; Ok (q, shrinked, true)
        else
          q ← rat_make (i128_shr (rat_num cp) 1) (i128_shr (rat_den cp) 1);
          shrink_loop fuel' q true using_max
      else Ok (cp, shrinked, using_max)
  end.

(** What follows the loop when the fraction was halved: choose between it and
    the fraction with one part equal to 1, whichever is closer to [ocp]. *)
Definition fix_shrinked (ocp cp : rat) : result rat :=
  let mx := GRAPHENE_MAX_SHARE_SUPPLY in
  let n0 := rat_num ocp in
  let d0 := rat_den ocp in
  let '(num, den) :=
    if n0 >? d0 then
      let n1 := i128_div n0 d0 in ((if n1 >? mx then mx else n1), 1)
    else
      let d1 := i128_div d0 n0 in (1, (if d1 >? mx then mx else d1)) in
  ncp ← rat_make num den;
  if (num =? mx) || (den =? mx) then Ok ncp
  else
    let diff1 := rat_abs (rat_sub ncp ocp) in
    let diff2 := rat_abs (rat_sub cp ocp) in
    Ok (if rat_lt diff1 diff2 then ncp else cp).

Definition price_mul_ratio (p : price) (r : rat) : result price :=
  price_validate p;;
  fc_assert ((rat_num r >? 0) && (rat_den r >? 0));;
  if rat_num r =? rat_den r then Ok p
  else
    p128 ← rat_make (amount (base p)) (amount (quote p));
    r128 ← rat_make (rat_num r) (rat_den r);
    let ocp := rat_mul p128 r128 in
    s ← shrink_loop shrink_fuel ocp false false;
    let '(cp, shrinked, using_max) := s in
    cp' ← (if shrinked : bool then fix_shrinked ocp cp else Ok cp);
    np ← price_div (Asset (i128_to_int64 (rat_num cp')) (asset_id (base p)))
                   (Asset (i128_to_int64 (rat_den cp')) (asset_id (quote p)));
    let np' :=
      if (shrinked || using_max)
         && (((rat_num r >? rat_den r) && price_ltb np p)
             || ((rat_num r <? rat_den r) && price_gtb np p))
      then p else np in
    price_validate np';;
    Ok np'.

Definition price_div_ratio (p : price) (r : rat) : result price :=
  r' ← ratio_make (rat_den r) (rat_num r); price_mul_ratio p r'.

(** The loop of [price::call_price]. *)
Fixpoint call_price_loop (fuel : nat) (cp : rat) : result rat :=
  match fuel with
  | O => Err out_of_fuel
  | S fuel' =>
      if (rat_num cp >? GRAPHENE_MAX_SHARE_SUPPLY) || (rat_den cp >? GRAPHENE_MAX_SHARE_SUPPLY)
      then
        q ← rat_make (i128_add (i128_shr (rat_num cp) 1) 1)
                     (i128_add (i128_shr (rat_den cp) 1) 1);
        call_price_loop fuel' q
      else Ok cp
  end.

Definition call_price (debt collateral : asset) (collateral_ratio : Z) : result price :=
  swan ← rat_make (amount debt) (amount collateral);
  ratio ← rat_make collateral_ratio GRAPHENE_COLLATERAL_RATIO_DENOM;
  cp ← call_price_loop shrink_fuel (rat_mul swan ratio);
  price_div (Asset (i128_to_int64 (rat_den cp)) (asset_id collateral))
            (Asset (i128_to_int64 (rat_num cp)) (asset_id debt)).

(** ** price_feed *)
Definition price_feed_validate (f : price_feed) : result unit :=
  (if negb (price_is_null (settlement_price f))
   then price_validate (settlement_price f) else Ok tt);;
  fc_assert (maximum_short_squeeze_ratio f >=? GRAPHENE_MIN_COLLATERAL_RATIO);;
  fc_assert (maximum_short_squeeze_ratio f <=? GRAPHENE_MAX_COLLATERAL_RATIO);;
  fc_assert (maintenance_collateral_ratio f >=? GRAPHENE_MIN_COLLATERAL_RATIO);;
  fc_assert (maintenance_collateral_ratio f <=? GRAPHENE_MAX_COLLATERAL_RATIO).

Definition price_feed_is_for (f : price_feed) (id : Z) : bool :=
  if negb (price_is_null (settlement_price f))
  then asset_id (base (settlement_price f)) =? id
  else if negb (price_is_null (core_exchange_rate f))
  then asset_id (base (core_exchange_rate f)) =? id
  else true.

(** The loop of [max_short_squeeze_price_before_hf_1270] halves and rounds up. *)
Fixpoint squeeze_loop (fuel : nat) (cp : rat) : result rat :=
  match fuel with
  | O => Err out_of_fuel
  | S fuel' =>
      if (rat_num cp >? GRAPHENE_MAX_SHARE_SUPPLY) || (rat_den cp >? GRAPHENE_MAX_SHARE_SUPPLY)
      then
        q ← rat_make (i128_add (i128_shr (rat_num cp) 1) (i128_and (rat_num cp) 1))
                     (i128_add (i128_shr (rat_den cp) 1) (i128_and (rat_den cp) 1));
        squeeze_loop fuel' q
      else Ok cp
  end.

Definition max_short_squeeze_price_before_hf_1270 (f : price_feed) : result price :=
  sp ← rat_make (amount (base (settlement_price f))) (amount (quote (settlement_price f)));
  ratio ← rat_make GRAPHENE_COLLATERAL_RATIO_DENOM (maximum_short_squeeze_ratio f);
  cp ← squeeze_loop shrink_fuel (rat_mul sp ratio);
  price_div (Asset (i128_to_int64 (rat_num cp)) (asset_id (base (settlement_price f))))
            (Asset (i128_to_int64 (rat_den cp)) (asset_id (quote (settlement_price f)))).

Definition max_short_squeeze_price (f : price_feed) : result price :=
  r ← ratio_make GRAPHENE_COLLATERAL_RATIO_DENOM (maximum_short_squeeze_ratio f);
  price_mul_ratio (settlement_price f) r.

Definition maintenance_collateralization (f : price_feed) : result price :=
  if price_is_null (settlement_price f) then Ok default_price
  else
    r ← ratio_make (maintenance_collateral_ratio f) GRAPHENE_COLLATERAL_RATIO_DENOM;
    price_mul_ratio (price_inv (settlement_price f)) r.

End operations.

(** ** Well-formedness *)
Definition share_ok (z : Z) : Prop := 0 ≤ z ≤ int64_max.
Definition pos_amounts (p : price) : Prop :=
  0 < amount (base p) ≤ int64_max ∧ 0 < amount (quote p) ≤ int64_max.
Definition wf_price (p : price) : Prop :=
  pos_amounts p ∧ asset_id (base p) ≠ asset_id (quote p).

(** The real value of a fraction, compared without division. *)
Definition same_ratio (n d n' d' : Z) : Prop := n * d' = n' * d.

Section asset_facts.
Context `{EX : Ext}.

(** *** Comparison of prices *)
Lemma price_ltb_cross a b :
  pos_amounts a → pos_amounts b →
  asset_id (base a) = asset_id (base b) → asset_id (quote a) = asset_id (quote b) →
  price_ltb a b = (amount (base a) * amount (quote b) <? amount (base b) * amount (quote a)).
Proof.
  intros [??] [??] E1 E2. unfold price_ltb. rewrite E1, E2, !Z.gtb_ltb, !Z.ltb_irrefl.
  rewrite !u128_mul_int64 by lia. f_equal; ring.
Qed.

Lemma price_eqb_cross a b :
  pos_amounts a → pos_amounts b →
  price_eqb a b = (asset_id (base a) =? asset_id (base b))
    && (asset_id (quote a) =? asset_id (quote b))
    && (amount (base a) * amount (quote b) =? amount (base b) * amount (quote a)).
Proof.
  intros [??] [??]. unfold price_eqb. rewrite !u128_mul_int64 by lia.
  destruct (asset_id (base a) =? _), (asset_id (quote a) =? _); cbn; try done.
  f_equal; ring.
Qed.

(** What [price_ltb] decides: the asset pairs lexicographically, then the
    ratio. *)
Definition price_lt_spec (a b : price) : Prop :=
  asset_id (base a) < asset_id (base b)
  ∨ asset_id (base a) = asset_id (base b)
    ∧ (asset_id (quote a) < asset_id (quote b)
       ∨ asset_id (quote a) = asset_id (quote b)
         ∧ amount (base a) * amount (quote b) < amount (base b) * amount (quote a)).

Lemma price_ltb_true a b :
  pos_amounts a → pos_amounts b → price_ltb a b = true ↔ price_lt_spec a b.
Proof.
  intros Ha Hb. unfold price_lt_spec.
  destruct (Z.lt_trichotomy (asset_id (base a)) (asset_id (base b))) as [H|[H|H]];
    [|destruct (Z.lt_trichotomy (asset_id (quote a)) (asset_id (quote b))) as [K|[K|K]]|].
  3: { rewrite price_ltb_cross, Z.ltb_lt by done. lia. }
  all: unfold price_ltb; rewrite ?H, ?K, !Z.gtb_ltb, ?Z.ltb_irrefl.
  all: repeat match goal with
    | |- context [?x <? ?y] => destruct (Z.ltb_spec x y); [try lia|]
    end; try lia.
  all: try (split; [done|lia]).
Qed.

Lemma price_eqb_true a b :
  pos_amounts a → pos_amounts b → price_eqb a b = true ↔
  asset_id (base a) = asset_id (base b) ∧ asset_id (quote a) = asset_id (quote b)
  ∧ amount (base a) * amount (quote b) = amount (base b) * amount (quote a).
Proof.
  intros. rewrite price_eqb_cross, !andb_true_iff, !Z.eqb_eq by done. tauto.
Qed.

Lemma cross_lt_trans a1 a2 b1 b2 c1 c2 :
  0 < a2 → 0 < b2 → 0 < c2 → 0 < b1 →
  a1 * b2 < b1 * a2 → b1 * c2 < c1 * b2 → a1 * c2 < c1 * a2.
Proof. intros. assert (b2 * (a1 * c2) < b2 * (c1 * a2)) by nia. nia. Qed.

Lemma cross_le_trans a1 a2 b1 b2 c1 c2 :
  0 < a2 → 0 < b2 → 0 < c2 → 0 < b1 →
  a1 * b2 ≤ b1 * a2 → b1 * c2 ≤ c1 * b2 → a1 * c2 ≤ c1 * a2.
Proof. intros. assert (b2 * (a1 * c2) ≤ b2 * (c1 * a2)) by nia. nia. Qed.

Lemma price_lt_spec_trans a b c :
  pos_amounts a → pos_amounts b → pos_amounts c →
  price_lt_spec a b → price_lt_spec b c → price_lt_spec a c.
Proof.
  intros [??] [??] [??] Hab Hbc. unfold price_lt_spec in *.
  destruct Hab as [|[? [|[? Hab]]]], Hbc as [|[? [|[? Hbc]]]]; try (left; lia);
    try (right; split; [lia|left; lia]).
  right. split; [lia|right]. split; [lia|].
  eapply cross_lt_trans with (b1 := amount (base b)) (b2 := amount (quote b)); try lia.
Qed.

(** *** Rounding *)
Lemma checked_share_spec r :
  0 ≤ r → checked_share r =
  if r <=? GRAPHENE_MAX_SHARE_SUPPLY then Ok r else Err assert_exception.
Proof.
  intros. unfold checked_share, fc_assert, GRAPHENE_MAX_SHARE_SUPPLY.
  destruct (Z.leb_spec r 1000000000000000); cbn; [|done].
  rewrite u128_to_int64_spec; [done|unfold_widths; lia].
Qed.

Lemma u128_floor a q b :
  share_ok a → share_ok q → 0 < b ≤ int64_max →
  u128_div (u128_mul (u128_of a) q) b = a * q / b.
Proof.
  unfold share_ok. intros. rewrite u128_mul_int64 by lia.
  pose proof (mul_int64_le_u128 a q ltac:(lia) ltac:(lia)).
  apply u128_div_spec; unfold_widths; lia.
Qed.

Lemma u128_ceil a q b :
  share_ok a → share_ok q → 0 < b ≤ int64_max →
  u128_div (u128_sub (u128_add (u128_mul (u128_of a) q) b) 1) b = (a * q + b - 1) / b.
Proof.
  unfold share_ok. intros. rewrite u128_mul_int64 by lia.
  pose proof (mul_int64_le_u128 a q ltac:(lia) ltac:(lia)).
  rewrite u128_add_spec by (unfold_widths; lia).
  rewrite u128_sub_spec by (unfold_widths; lia).
  apply u128_div_spec; unfold_widths; lia.
Qed.

(** [oriented p s d x y]: selling asset [s] at price [p] yields asset [d], and
    [x] units of [s] are worth [y] units of [d]. *)
Definition oriented (p : price) (s d x y : Z) : Prop :=
  (s = asset_id (base p) ∧ d = asset_id (quote p)
    ∧ x = amount (base p) ∧ y = amount (quote p))
  ∨ (s = asset_id (quote p) ∧ d = asset_id (base p)
    ∧ x = amount (quote p) ∧ y = amount (base p)).

Lemma oriented_pos p s d x y :
  pos_amounts p → oriented p s d x y → 0 < x ≤ int64_max ∧ 0 < y ≤ int64_max.
Proof. unfold pos_amounts, oriented. lia. Qed.

Lemma oriented_swap p s d x y : oriented p s d x y → oriented p d s y x.
Proof. unfold oriented. tauto. Qed.

Lemma asset_mul_spec p a d x y :
  wf_price p → share_ok (amount a) → oriented p (asset_id a) d x y →
  asset_mul a p =
  if amount a * y / x <=? GRAPHENE_MAX_SHARE_SUPPLY
  then Ok (Asset (amount a * y / x) d) else Err assert_exception.
Proof.
  intros [Hp Hne] Ha Ho. pose proof (oriented_pos _ _ _ _ _ Hp Ho) as [Hx Hy].
  assert (0 ≤ amount a * y / x) by (apply Z.div_pos; unfold share_ok in *; nia).
  unfold asset_mul. destruct Ho as [(-> & -> & -> & ->)|(-> & -> & -> & ->)].
  - rewrite Z.eqb_refl. unfold fc_assert. rewrite (proj2 (Z.gtb_lt _ 0)) by lia. cbn.
    rewrite u128_floor, checked_share_spec by (unfold share_ok in *; lia).
    by case_match.
  - rewrite (proj2 (Z.eqb_neq _ _)) by done.
    rewrite Z.eqb_refl. unfold fc_assert. rewrite (proj2 (Z.gtb_lt _ 0)) by lia. cbn.
    rewrite u128_floor, checked_share_spec by (unfold share_ok in *; lia).
    by case_match.
Qed.

Lemma multiply_and_round_up_spec p a d x y :
  wf_price p → share_ok (amount a) → oriented p (asset_id a) d x y →
  multiply_and_round_up a p =
  if (amount a * y + x - 1) / x <=? GRAPHENE_MAX_SHARE_SUPPLY
  then Ok (Asset ((amount a * y + x - 1) / x) d) else Err assert_exception.
Proof.
  intros [Hp Hne] Ha Ho. pose proof (oriented_pos _ _ _ _ _ Hp Ho) as [Hx Hy].
  assert (0 ≤ (amount a * y + x - 1) / x) by (apply Z.div_pos; unfold share_ok in *; nia).
  unfold multiply_and_round_up. destruct Ho as [(-> & -> & -> & ->)|(-> & -> & -> & ->)].
  - rewrite Z.eqb_refl. unfold fc_assert. rewrite (proj2 (Z.gtb_lt _ 0)) by lia. cbn.
    rewrite u128_ceil, checked_share_spec by (unfold share_ok in *; lia).
    by case_match.
  - rewrite (proj2 (Z.eqb_neq _ _)) by done.
    rewrite Z.eqb_refl. unfold fc_assert. rewrite (proj2 (Z.gtb_lt _ 0)) by lia. cbn.
    rewrite u128_ceil, checked_share_spec by (unfold share_ok in *; lia).
    by case_match.
Qed.

(** The stabilisation step of the matching code: paying for [floor(a*y/x)]
    the rounded-up cost never asks more than [a], and buys the same. *)
Lemma floor_ceil_stable a x y :
  0 < x → 0 < y → 0 ≤ a →
  let b := a * y / x in let c := (b * x + y - 1) / y in
  0 ≤ c ≤ a ∧ c * y / x = b.
Proof.
  intros Hx Hy Ha b c.
  assert (b * x ≤ a * y) as Hb by (apply div_mul_le_self; lia).
  assert (0 ≤ b) as Hb0 by (apply Z.div_pos; nia).
  assert (c ≤ a) as Hca by (apply ceil_div_spec; [lia|nia]).
  assert (b * x ≤ c * y) as Hc by (apply ceil_div_lower; lia).
  assert (0 ≤ c) by (apply Z.div_pos; nia).
  split; [lia|]. apply Z.le_antisymm.
  - apply Z.div_le_mono; [lia|nia].
  - apply Z.div_le_lower_bound; [lia|nia].
Qed.

End asset_facts.

(** ** The shrinking loops *)
Section ratio_facts.
Context `{EX : Ext}.

(** A positive fraction in lowest terms whose parts are at most [n] and [d]. *)
Definition rat_in (q : rat) (n d : Z) : Prop :=
  0 < rat_num q ≤ n ∧ 0 < rat_den q ≤ d.

Lemma lowest_terms_le n d n' d' :
  0 < n → 0 < d → 0 < d' → Z.gcd n' d' = 1 → n' * d = n * d' →
  0 < n' ≤ n ∧ d' ≤ d.
Proof.
  intros Hn Hd Hd' Hg E. assert (0 < n') by nia.
  assert (Z.divide n' n) as Hdiv.
  { apply (Z.gauss n' d' n); [|done]. exists d. lia. }
  assert (Z.divide d' d) as Hdiv'.
  { apply (Z.gauss d' n' d); [|by rewrite Z.gcd_comm]. exists n. lia. }
  apply Z.divide_pos_le in Hdiv, Hdiv'; lia.
Qed.

Lemma rat_make_pos n d :
  0 < n ≤ int128_max → 0 < d ≤ int128_max →
  ∃ q, rat_make n d = Ok q ∧ rat_in q n d ∧ same_ratio (rat_num q) (rat_den q) n d.
Proof.
  intros Hn Hd. destruct (rat_make_spec n d) as (q & E & ? & ? & ?); [lia..|].
  exists q. split; [done|]. unfold rat_in, same_ratio.
  pose proof (lowest_terms_le n d (rat_num q) (rat_den q)). lia.
Qed.

Lemma rat_mul_pos p q n d n' d' :
  rat_in p n d → rat_in q n' d' → n * n' ≤ int128_max → d * d' ≤ int128_max →
  rat_in (rat_mul p q) (n * n') (d * d')
  ∧ same_ratio (rat_num (rat_mul p q)) (rat_den (rat_mul p q))
      (rat_num p * rat_num q) (rat_den p * rat_den q).
Proof.
  intros [??] [??] ? ?.
  assert (rat_num p * rat_num q ≤ n * n') by nia.
  assert (rat_den p * rat_den q ≤ d * d') by nia.
  destruct (rat_mul_spec p q) as (? & ? & ?); [lia..|].
  pose proof (lowest_terms_le (rat_num p * rat_num q) (rat_den p * rat_den q)
    (rat_num (rat_mul p q)) (rat_den (rat_mul p q))) as L.
  unfold rat_in, same_ratio. split; [|lia]. nia.
Qed.

Lemma shr1_half z : 0 ≤ z ≤ int128_max → i128_shr z 1 = z / 2.
Proof. intros. rewrite i128_shr_spec by lia. by rewrite Z.shiftr_div_pow2. Qed.

Lemma and1_mod z : 0 ≤ z ≤ int128_max → i128_and z 1 = z `mod` 2.
Proof.
  intros. rewrite i128_and_spec by (unfold_widths; lia).
  apply (Z.land_ones z 1). lia.
Qed.

Lemma guard_false (q : rat) m :
  (rat_num q >? m) || (rat_den q >? m) = false ↔ rat_num q ≤ m ∧ rat_den q ≤ m.
Proof. rewrite orb_false_iff, !Z.gtb_ltb, !Z.ltb_ge. done. Qed.

(** Each loop ends with a positive fraction that fits the maximum supply as
    long as the fuel bounds the size of its parts. *)
Lemma call_price_loop_total fuel cp b :
  rat_in cp b b → b ≤ int128_max → b ≤ 2 ^ Z.of_nat fuel * (GRAPHENE_MAX_SHARE_SUPPLY - 2) + 2 →
  ∃ q, call_price_loop (S fuel) cp = Ok q
    ∧ rat_in q GRAPHENE_MAX_SHARE_SUPPLY GRAPHENE_MAX_SHARE_SUPPLY.
Proof.
  revert cp b. induction fuel as [|fuel IH]; intros cp b Hcp Hb Hf.
  - exists cp. cbn. unfold rat_in, GRAPHENE_MAX_SHARE_SUPPLY in *. cbn in Hf.
    rewrite (proj2 (guard_false _ _)) by lia. split; [done|lia].
  - cbn [call_price_loop]. destruct (_ || _) eqn:E.
    2: { apply guard_false in E. exists cp. unfold rat_in in *. split; [done|lia]. }
    unfold rat_in in Hcp. rewrite !shr1_half by lia.
    assert (∀ z, 0 < z ≤ b → i128_add (z / 2) 1 = z / 2 + 1
              ∧ 0 < z / 2 + 1 ≤ b / 2 + 1) as Hz.
    { intros z Hz. assert (0 ≤ z / 2 ≤ b / 2) by
        (split; [apply Z.div_pos; lia|apply Z.div_le_mono; lia]).
      assert (b / 2 < b) by (apply Z.div_lt; lia).
      split; [apply i128_add_spec; lia|lia]. }
    assert (b / 2 < b) by (apply Z.div_lt; lia).
    destruct (Hz (rat_num cp)) as [-> ?]; [lia|]. destruct (Hz (rat_den cp)) as [-> ?]; [lia|].
    destruct (rat_make_pos (rat_num cp / 2 + 1) (rat_den cp / 2 + 1)) as (q & -> & Hq & _);
      [unfold_widths; lia..|]. cbn.
    apply (IH q (b / 2 + 1)); [unfold rat_in in *; lia|unfold_widths; lia|].
    rewrite Nat2Z.inj_succ, Z.pow_succ_r in Hf by lia.
    assert (b / 2 ≤ 2 ^ Z.of_nat fuel * (GRAPHENE_MAX_SHARE_SUPPLY - 2) + 1); [|lia].
    apply Z.lt_succ_r, Z.div_lt_upper_bound; lia.
Qed.

Lemma squeeze_loop_total fuel cp b :
  rat_in cp b b → b ≤ int128_max → b ≤ 2 ^ Z.of_nat fuel * GRAPHENE_MAX_SHARE_SUPPLY →
  ∃ q, squeeze_loop (S fuel) cp = Ok q
    ∧ rat_in q GRAPHENE_MAX_SHARE_SUPPLY GRAPHENE_MAX_SHARE_SUPPLY.
Proof.
  revert cp b. induction fuel as [|fuel IH]; intros cp b Hcp Hb Hf.
  - exists cp. cbn. unfold rat_in, GRAPHENE_MAX_SHARE_SUPPLY in *. cbn in Hf.
    rewrite (proj2 (guard_false _ _)) by lia. split; [done|lia].
  - cbn [squeeze_loop]. destruct (_ || _) eqn:E.
    2: { apply guard_false in E. exists cp. unfold rat_in in *. split; [done|lia]. }
    unfold rat_in in Hcp. rewrite !shr1_half by lia.
    rewrite !and1_mod by lia.
    assert (∀ z, 0 < z ≤ b → i128_add (z / 2) (z `mod` 2) = z / 2 + z `mod` 2
              ∧ 0 < z / 2 + z `mod` 2 ≤ (b + 1) / 2) as Hz.
    { intros z Hz. pose proof (Z.div_mod z 2 ltac:(lia)).
      pose proof (Z.mod_pos_bound z 2 ltac:(lia)).
      assert (z / 2 + z `mod` 2 ≤ (b + 1) / 2) by (apply Z.div_le_lower_bound; lia).
      split; [apply i128_add_spec; unfold_widths; lia|lia]. }
    destruct (Hz (rat_num cp)) as [-> ?]; [lia|]. destruct (Hz (rat_den cp)) as [-> ?]; [lia|].
    assert ((b + 1) / 2 ≤ b) by (apply Z.lt_succ_r, Z.div_lt_upper_bound; lia).
    destruct (rat_make_pos (rat_num cp / 2 + rat_num cp `mod` 2)
      (rat_den cp / 2 + rat_den cp `mod` 2)) as (q & -> & Hq & _); [lia..|]. cbn.
    apply (IH q ((b + 1) / 2)); [unfold rat_in in *; lia|lia|].
    rewrite Nat2Z.inj_succ, Z.pow_succ_r in Hf by lia.
    apply Z.lt_succ_r, Z.div_lt_upper_bound; lia.
Qed.

Lemma shrink_loop_total fuel cp b s u :
  rat_in cp b b → b ≤ int128_max → b ≤ 2 ^ Z.of_nat fuel * GRAPHENE_MAX_SHARE_SUPPLY →
  ∃ q s' u', shrink_loop (S fuel) cp s u = Ok (q, s', u')
    ∧ rat_in q GRAPHENE_MAX_SHARE_SUPPLY GRAPHENE_MAX_SHARE_SUPPLY
    ∧ (s = true → s' = true) ∧ (s' || u' = false → q = cp).
Proof.
  revert cp b s. induction fuel as [|fuel IH]; intros cp b s Hcp Hb Hf.
  - exists cp, s, u. cbn. unfold rat_in, GRAPHENE_MAX_SHARE_SUPPLY in *. cbn in Hf.
    rewrite (proj2 (guard_false _ _)) by lia. split_and!; try done; lia.
  - cbn [shrink_loop]. destruct (_ || _) eqn:E.
    2: { apply guard_false in E. exists cp, s, u. unfold rat_in in *. split_and!; done || lia. }
    unfold rat_in in Hcp. destruct (Z.eqb_spec (rat_num cp) 1).
    { destruct (rat_make_pos 1 GRAPHENE_MAX_SHARE_SUPPLY) as (q & -> & Hq & _); [done..|].
      exists q, s, true. cbn. rewrite orb_true_r.
      unfold rat_in, GRAPHENE_MAX_SHARE_SUPPLY in *. split_and!; done || lia. }
    destruct (Z.eqb_spec (rat_den cp) 1).
    { destruct (rat_make_pos GRAPHENE_MAX_SHARE_SUPPLY 1) as (q & -> & Hq & _); [done..|].
      exists q, s, true. cbn. rewrite orb_true_r.
      unfold rat_in, GRAPHENE_MAX_SHARE_SUPPLY in *. split_and!; done || lia. }
    rewrite !shr1_half by lia.
    assert (∀ z, 1 < z ≤ b → 0 < z / 2 ≤ b / 2) as Hz.
    { intros z Hz. split; [apply Z.div_str_pos|apply Z.div_le_mono]; lia. }
    assert (b / 2 ≤ b) by (apply Z.div_le_upper_bound; lia).
    pose proof (Hz (rat_num cp)). pose proof (Hz (rat_den cp)).
    destruct (rat_make_pos (rat_num cp / 2) (rat_den cp / 2)) as (q & -> & Hq & _); [lia..|].
    cbn. destruct (IH q (b / 2) true) as (q' & s' & u' & E' & Hq' & Hsu);
      [unfold rat_in in *; lia|lia| |].
    { rewrite Nat2Z.inj_succ, Z.pow_succ_r in Hf by lia.
      apply Z.lt_succ_r, Z.div_lt_upper_bound; lia. }
    destruct Hsu as [Hs Hsu]. rewrite Hs in E' by done.
    exists q', true, u'. split; [exact E'|]. split_and!; done.
Qed.

Lemma fix_shrinked_total ocp cp b :
  rat_in ocp b b → b ≤ int128_max →
  rat_in cp GRAPHENE_MAX_SHARE_SUPPLY GRAPHENE_MAX_SHARE_SUPPLY →
  ∃ q, fix_shrinked ocp cp = Ok q
    ∧ rat_in q GRAPHENE_MAX_SHARE_SUPPLY GRAPHENE_MAX_SHARE_SUPPLY.
Proof.
  intros Ho Hb Hcp. unfold rat_in in Ho.
  assert (∀ num den, 0 < num ≤ GRAPHENE_MAX_SHARE_SUPPLY → 0 < den ≤ GRAPHENE_MAX_SHARE_SUPPLY →
    ∃ q, (ncp ← rat_make num den;
      if (num =? GRAPHENE_MAX_SHARE_SUPPLY) || (den =? GRAPHENE_MAX_SHARE_SUPPLY) then Ok ncp
      else Ok (if rat_lt (rat_abs (rat_sub ncp ocp)) (rat_abs (rat_sub cp ocp))
               then ncp else cp)) = Ok q
      ∧ rat_in q GRAPHENE_MAX_SHARE_SUPPLY GRAPHENE_MAX_SHARE_SUPPLY) as Hmk.
  { intros num den Hn Hd. destruct (rat_make_pos num den) as (q & -> & Hq & _);
      [unfold GRAPHENE_MAX_SHARE_SUPPLY in *; unfold_widths; lia..|].
    cbn. unfold rat_in in *. destruct (_ || _); [exists q|destruct (rat_lt _ _); [exists q|exists cp]];
      (split; [done|lia]). }
  unfold fix_shrinked. destruct (Z.gtb_spec (rat_num ocp) (rat_den ocp)).
  - rewrite i128_div_spec by lia.
    assert (0 < rat_num ocp / rat_den ocp) by (apply Z.div_str_pos; lia).
    apply Hmk; [|done]. destruct (Z.gtb_spec (rat_num ocp / rat_den ocp) GRAPHENE_MAX_SHARE_SUPPLY);
      unfold GRAPHENE_MAX_SHARE_SUPPLY in *; lia.
  - rewrite i128_div_spec by lia.
    assert (0 < rat_den ocp / rat_num ocp) by (apply Z.div_str_pos; lia).
    apply Hmk; [done|]. destruct (Z.gtb_spec (rat_den ocp / rat_num ocp) GRAPHENE_MAX_SHARE_SUPPLY);
      unfold GRAPHENE_MAX_SHARE_SUPPLY in *; lia.
Qed.

Definition wf_ratio (r : rat) : Prop :=
  0 < rat_num r ≤ 2147483647 ∧ 0 < rat_den r ≤ 2147483647.

Lemma price_validate_wf p : wf_price p → price_validate p = Ok tt.
Proof.
  intros [[??] ?]. unfold price_validate, fc_assert.
  rewrite !(proj2 (Z.gtb_lt _ 0)) by lia. rewrite (proj2 (Z.eqb_neq _ _)) by done. done.
Qed.

(** The exact product [p * r] as a reduced fraction. *)
Lemma price_times_ratio p r :
  wf_price p → wf_ratio r →
  ∃ p128 r128, rat_make (amount (base p)) (amount (quote p)) = Ok p128
    ∧ rat_make (rat_num r) (rat_den r) = Ok r128
    ∧ rat_in (rat_mul p128 r128) (2 ^ 94) (2 ^ 94)
    ∧ same_ratio (rat_num (rat_mul p128 r128)) (rat_den (rat_mul p128 r128))
        (amount (base p) * rat_num r) (amount (quote p) * rat_den r)
    ∧ Z.gcd (rat_num (rat_mul p128 r128)) (rat_den (rat_mul p128 r128)) = 1.
Proof.
  intros [[Hb Hq] _] [Hn Hd].
  destruct (rat_make_pos (amount (base p)) (amount (quote p))) as (x & Ex & Hx & Sx);
    [unfold_widths; lia..|].
  destruct (rat_make_pos (rat_num r) (rat_den r)) as (y & Ey & Hy & Sy);
    [unfold_widths; lia..|].
  exists x, y. split; [done|]. split; [done|].
  destruct (rat_mul_pos x y _ _ _ _ Hx Hy) as [Hm Sm]; [unfold_widths; nia..|].
  destruct (rat_mul_spec x y) as (_ & G & _); [unfold rat_in in *; unfold_widths; nia..|].
  split_and!; [unfold rat_in in *; unfold_widths; nia| |done].
  unfold same_ratio, rat_in in *.
  assert (rat_num x * rat_num y * (amount (quote p) * rat_den r)
    = amount (base p) * rat_num r * (rat_den x * rat_den y)) as E.
  { transitivity ((rat_num x * amount (quote p)) * (rat_num y * rat_den r)); [ring|].
    rewrite Sx, Sy. ring. }
  apply (Z.mul_reg_r _ _ (rat_den x * rat_den y)); [nia|].
  transitivity ((rat_num (rat_mul x y) * (rat_den x * rat_den y))
    * (amount (quote p) * rat_den r)); [ring|]. rewrite Sm.
  transitivity ((rat_num x * rat_num y * (amount (quote p) * rat_den r))
    * rat_den (rat_mul x y)); [ring|]. rewrite E. ring.
Qed.

(** The exact product lies on the side of [p] that the ratio says. *)
Lemma exact_direction pb pq n d rn rd :
  0 < pb → 0 < pq → 0 < n → 0 < d → 0 < rn → 0 < rd →
  n * (pq * rd) = pb * rn * d →
  (rd < rn → ¬ n * pq < pb * d) ∧ (rn < rd → ¬ pb * d < n * pq).
Proof.
  intros ? ? ? ? ? ? E.
  assert (n * pq * rd = pb * d * rn) as E' by lia.
  assert (0 < n * pq) by nia. assert (0 < pb * d) by nia. split; intros ? ?; nia.
Qed.

(** A reduced fraction is the smallest one of its value. *)
Lemma reduced_minimal n d n' d' x y :
  0 < n → 0 < d → 0 < d' → 0 < y → Z.gcd n' d' = 1 →
  same_ratio n d x y → same_ratio n' d' x y → n' ≤ n ∧ d' ≤ d.
Proof.
  unfold same_ratio. intros ? ? ? ? G E E'.
  destruct (lowest_terms_le n d n' d') as [[_ ?] ?]; try done.
  apply (Z.mul_reg_r _ _ y); [lia|].
  transitivity (n' * y * d); [ring|]. rewrite E'. transitivity (n * y * d'); [|ring].
  rewrite E. ring.
Qed.

Definition fraction_price (p : price) (q : rat) : price :=
  Price (Asset (rat_num q) (asset_id (base p))) (Asset (rat_den q) (asset_id (quote p))).

Lemma fraction_price_wf p q :
  wf_price p → rat_in q GRAPHENE_MAX_SHARE_SUPPLY GRAPHENE_MAX_SHARE_SUPPLY →
  wf_price (fraction_price p q).
Proof.
  intros [_ ?] [??]. unfold wf_price, pos_amounts, GRAPHENE_MAX_SHARE_SUPPLY in *.
  unfold_widths. cbn. split; [lia|done].
Qed.

(** The result of [price * ratio] for a ratio other than one: the final
    fraction, clamped back to [p] when it was approximated to the wrong side. *)
Lemma price_mul_ratio_steps p r :
  wf_price p → wf_ratio r → rat_num r ≠ rat_den r →
  ∃ ocp cp (approx : bool),
    rat_in ocp (2 ^ 94) (2 ^ 94)
    ∧ same_ratio (rat_num ocp) (rat_den ocp)
        (amount (base p) * rat_num r) (amount (quote p) * rat_den r)
    ∧ Z.gcd (rat_num ocp) (rat_den ocp) = 1
    ∧ rat_in cp GRAPHENE_MAX_SHARE_SUPPLY GRAPHENE_MAX_SHARE_SUPPLY
    ∧ (approx = false → cp = ocp)
    ∧ (rat_num ocp ≤ GRAPHENE_MAX_SHARE_SUPPLY → rat_den ocp ≤ GRAPHENE_MAX_SHARE_SUPPLY →
       approx = false)
    ∧ price_mul_ratio p r = Ok
        (if approx
            && (((rat_num r >? rat_den r) && price_ltb (fraction_price p cp) p)
                || ((rat_num r <? rat_den r) && price_gtb (fraction_price p cp) p))
         then p else fraction_price p cp).
Proof.
  intros Hp Hr Hne.
  destruct (price_times_ratio p r Hp Hr) as (x & y & Ex & Ey & Hm & Sm & Gm).
  set (ocp := rat_mul x y) in *.
  destruct (shrink_loop_total 127 ocp (2 ^ 94) false false Hm) as (q & s & u & El & Hq & _ & Hsu);
    [done..|].
  assert (∃ cp, (if s then fix_shrinked ocp q else Ok q) = Ok cp
    ∧ rat_in cp GRAPHENE_MAX_SHARE_SUPPLY GRAPHENE_MAX_SHARE_SUPPLY
    ∧ (s || u = false → cp = ocp)) as (cp & Ecp & Hcp & Hsame).
  { destruct s; [|by exists q].
    destruct (fix_shrinked_total ocp q (2 ^ 94)) as (cp & ? & ?); [done..|].
    exists cp. by split_and!. }
  exists ocp, cp, (s || u). split_and!; try done.
  { intros Hn Hd. cbn [shrink_loop] in El.
    rewrite (proj2 (guard_false _ _)) in El by done. by simplify_eq. }
  unfold price_mul_ratio. rewrite price_validate_wf by done. unfold fc_assert.
  rewrite !(proj2 (Z.gtb_lt _ 0)) by (unfold wf_ratio in Hr; lia).
  rewrite (proj2 (Z.eqb_neq _ _) Hne), Ex, Ey.
  unfold shrink_fuel. unfold mbind, result_bind. cbn [andb]. fold ocp. rewrite El, Ecp.
  pose proof (fraction_price_wf p cp Hp Hcp) as Hw.
  unfold price_div, fc_assert. cbn [asset_id]. rewrite (proj2 (Z.eqb_neq _ _)) by apply Hp.
  cbn [negb]. unfold mbind, result_bind.
  rewrite !i128_to_int64_spec
    by (unfold rat_in, GRAPHENE_MAX_SHARE_SUPPLY in Hcp; unfold_widths; lia).
  fold (fraction_price p cp).
  destruct ((s || u) && _); by rewrite price_validate_wf.
Qed.

Lemma reduced_product a b c d :
  0 < a ≤ int64_max → 0 < b ≤ int64_max → 0 < c < 65536 → 0 < d < 65536 →
  ∃ x y, rat_make a b = Ok x ∧ rat_make c d = Ok y
    ∧ rat_in (rat_mul x y) (2 ^ 80) (2 ^ 80).
Proof.
  intros. destruct (rat_make_pos a b) as (x & Ex & Hx & _); [unfold_widths; lia..|].
  destruct (rat_make_pos c d) as (y & Ey & Hy & _); [unfold_widths; lia..|].
  exists x, y. split; [done|]. split; [done|].
  destruct (rat_mul_pos x y _ _ _ _ Hx Hy) as [Hm _]; [unfold_widths; nia..|].
  unfold rat_in in *. unfold_widths. nia.
Qed.

(** A fraction within the supply bounds converts to a valid price. *)
Lemma fits_price_div n d b q :
  0 < n ≤ GRAPHENE_MAX_SHARE_SUPPLY → 0 < d ≤ GRAPHENE_MAX_SHARE_SUPPLY → b ≠ q →
  ∃ p, price_div (Asset (i128_to_int64 n) b) (Asset (i128_to_int64 d) q) = Ok p
    ∧ asset_id (base p) = b ∧ asset_id (quote p) = q
    ∧ 0 < amount (base p) ≤ GRAPHENE_MAX_SHARE_SUPPLY
    ∧ 0 < amount (quote p) ≤ GRAPHENE_MAX_SHARE_SUPPLY.
Proof.
  intros Hn Hd Hne. unfold price_div, fc_assert. cbn [asset_id].
  rewrite (proj2 (Z.eqb_neq b q)) by done. cbn [negb]. eexists. split; [done|].
  cbn [base quote amount asset_id].
  rewrite !i128_to_int64_spec by (unfold GRAPHENE_MAX_SHARE_SUPPLY in *; unfold_widths; lia).
  done.
Qed.

Lemma call_price_total debt collateral cr :
  0 < amount debt ≤ int64_max → 0 < amount collateral ≤ int64_max →
  asset_id debt ≠ asset_id collateral → 0 < cr < 65536 →
  ∃ p, call_price debt collateral cr = Ok p
     ∧ asset_id (base p) = asset_id collateral ∧ asset_id (quote p) = asset_id debt
     ∧ 0 < amount (base p) ≤ GRAPHENE_MAX_SHARE_SUPPLY
     ∧ 0 < amount (quote p) ≤ GRAPHENE_MAX_SHARE_SUPPLY.
Proof.
  intros Hd Hc Hids Hcr.
  destruct (reduced_product (amount debt) (amount collateral) cr GRAPHENE_COLLATERAL_RATIO_DENOM)
    as (x & y & Ex & Ey & Hm); [unfold GRAPHENE_COLLATERAL_RATIO_DENOM; lia..|].
  destruct (call_price_loop_total 127 (rat_mul x y) (2 ^ 80) Hm) as (q & El & Hq); [done..|].
  unfold call_price. rewrite Ex, Ey. unfold mbind, result_bind, shrink_fuel. rewrite El.
  destruct Hq. apply fits_price_div; done.
Qed.

Lemma price_mul_ratio_total p r :
  wf_price p → wf_ratio r →
  ∃ np, price_mul_ratio p r = Ok np ∧ wf_price np
    ∧ asset_id (base np) = asset_id (base p) ∧ asset_id (quote np) = asset_id (quote p).
Proof.
  intros Hp Hr. destruct (Z.eq_dec (rat_num r) (rat_den r)) as [E|Hne].
  { exists p. unfold price_mul_ratio. rewrite price_validate_wf by done. unfold fc_assert.
    rewrite !(proj2 (Z.gtb_lt _ 0)) by (unfold wf_ratio in Hr; lia).
    by rewrite (proj2 (Z.eqb_eq _ _) E). }
  destruct (price_mul_ratio_steps p r Hp Hr Hne) as (ocp & cp & approx & _ & _ & _ & Hcp & _ & _ & ->).
  pose proof (fraction_price_wf p cp Hp Hcp) as Hw. eexists. split; [done|].
  destruct (approx && _); done.
Qed.

End ratio_facts.

(** ** Properties *)
Section asset_properties.
Context `{EX : Ext}.

(** C27: the comparison operators of [price] order the books: on prices with
    positive 63-bit amounts [operator<] is irreflexive and transitive, exactly
    one of [a < b], [a == b], [b < a] holds, and [==] is transitive; so it is
    the strict weak order the ordered indexes need. *)
Theorem price_strict_weak_order (a b c : price)
    (Ha : pos_amounts a) (Hb : pos_amounts b) (Hc : pos_amounts c) :
  price_ltb a a = false
  ∧ (price_ltb a b = true → price_ltb b c = true → price_ltb a c = true)
  ∧ (price_eqb a b = negb (price_ltb a b) && negb (price_ltb b a))
  ∧ (price_ltb a b && price_ltb b a = false)
  ∧ (price_eqb a b = true → price_eqb b c = true → price_eqb a c = true).
Proof.
  split_and!.
  - apply not_true_is_false. rewrite price_ltb_true by done. unfold price_lt_spec. lia.
  - rewrite !price_ltb_true by done. by apply price_lt_spec_trans.
  - apply eq_true_iff_eq. rewrite andb_true_iff, !negb_true_iff, <- !not_true_iff_false.
    rewrite !price_ltb_true, price_eqb_true by done. unfold price_lt_spec. lia.
  - apply not_true_is_false. rewrite andb_true_iff, !price_ltb_true by done.
    unfold price_lt_spec. lia.
  - rewrite !price_eqb_true by done. intros (? & ? & E) (? & ? & E').
    destruct Ha, Hb, Hc. split_and!; [lia..|].
    apply Z.le_antisymm;
      eapply cross_le_trans with (b1 := amount (base b)) (b2 := amount (quote b)); lia.
Qed.

(** C28: rounding never creates value: what [a * p] yields is the floor of the exact
    product, in the other asset of the price; buying it back with
    [multiply_and_round_up] succeeds and costs at most [a], that cost yields the same
    amount again, and nothing cheaper does; the order matching relies on this to
    refund the dust of a filled order. *)
Theorem mul_round_up_stable (p : price) (a b : asset)
    (Hp : wf_price p) (Ha : 0 ≤ amount a ≤ GRAPHENE_MAX_SHARE_SUPPLY)
    (Hm : asset_mul a p = Ok b) :
  (asset_id a = asset_id (base p) ∧
     b = Asset (amount a * amount (quote p) / amount (base p)) (asset_id (quote p)) ∨
   asset_id a = asset_id (quote p) ∧
     b = Asset (amount a * amount (base p) / amount (quote p)) (asset_id (base p))) ∧
  ∃ c, multiply_and_round_up b p = Ok c ∧ asset_id c = asset_id a
    ∧ 0 ≤ amount c ≤ amount a ∧ asset_mul c p = Ok b
    ∧ ∀ c', asset_id c' = asset_id a → 0 ≤ amount c' ≤ GRAPHENE_MAX_SHARE_SUPPLY →
        asset_mul c' p = Ok b → amount c ≤ amount c'.
Proof.
  assert (share_ok (amount a)) as Hs by (unfold share_ok, GRAPHENE_MAX_SHARE_SUPPLY in *; unfold_widths; lia).
  assert (∃ d x y, oriented p (asset_id a) d x y) as (d & x & y & Ho).
  { unfold asset_mul in Hm. unfold oriented.
    destruct (Z.eqb_spec (asset_id a) (asset_id (base p))); [naive_solver|].
    destruct (Z.eqb_spec (asset_id a) (asset_id (quote p))); naive_solver. }
  destruct (oriented_pos _ _ _ _ _ (proj1 Hp) Ho) as [Hx Hy].
  rewrite (asset_mul_spec _ _ d x y) in Hm by done.
  destruct (Z.leb_spec (amount a * y / x) GRAPHENE_MAX_SHARE_SUPPLY) as [Hle|]; [|done].
  apply Ok_inj in Hm as <-. split.
  { destruct Ho as [(H1 & -> & -> & ->)|(H1 & -> & -> & ->)]; [by left|by right]. }
  destruct (floor_ceil_stable (amount a) x y) as [Hc Hcy]; [lia..|].
  assert (0 ≤ amount a * y / x) by (apply Z.div_pos; nia).
  rewrite (multiply_and_round_up_spec p _ (asset_id a) y x);
    [|done|unfold share_ok, GRAPHENE_MAX_SHARE_SUPPLY in *; unfold_widths; cbn; lia
     |by apply oriented_swap].
  cbn [amount]. rewrite (proj2 (Z.leb_le _ _)) by lia.
  eexists. split_and!; [done..|cbn; lia|cbn; lia| |].
  { rewrite (asset_mul_spec _ _ d x y); [|done|unfold share_ok in *; cbn; lia|done].
    cbn [amount]. rewrite Hcy, (proj2 (Z.leb_le _ _)) by lia. done. }
  intros c' Hi Hc' Em. rewrite (asset_mul_spec _ _ d x y) in Em; [|done| |by rewrite Hi].
  2: { unfold share_ok, GRAPHENE_MAX_SHARE_SUPPLY in *; unfold_widths; lia. }
  destruct (_ <=? _) in Em; [|done]. injection Em as Em. cbn [amount]. apply ceil_div_spec; [lia|].
  rewrite <- Em, (Z.mul_comm y). apply div_mul_le_self. lia.
Qed.

(** [price * ratio] always returns (the shrinking loop ends) a valid price
    for the same asset pair, never moves the price against the ratio, and is
    exact whenever the exact product fits the maximum supply. *)
Theorem price_mul_ratio_sound (p : price) (r : rat)
    (Hp : wf_price p) (Hr : wf_ratio r) :
  ∃ np, price_mul_ratio p r = Ok np ∧ wf_price np
    ∧ asset_id (base np) = asset_id (base p) ∧ asset_id (quote np) = asset_id (quote p)
    ∧ (rat_den r < rat_num r → price_ltb np p = false)
    ∧ (rat_num r < rat_den r → price_ltb p np = false)
    ∧ (∀ n d, 0 < n ≤ GRAPHENE_MAX_SHARE_SUPPLY → 0 < d ≤ GRAPHENE_MAX_SHARE_SUPPLY →
         same_ratio n d (amount (base p) * rat_num r) (amount (quote p) * rat_den r) →
         same_ratio (amount (base np)) (amount (quote np))
           (amount (base p) * rat_num r) (amount (quote p) * rat_den r)).
Proof.
  destruct (Z.eq_dec (rat_num r) (rat_den r)) as [E|Hne].
  { exists p. unfold price_mul_ratio. rewrite price_validate_wf by done. unfold fc_assert.
    rewrite !(proj2 (Z.gtb_lt _ 0)) by (unfold wf_ratio in Hr; lia).
    rewrite (proj2 (Z.eqb_eq _ _) E). cbn. unfold same_ratio.
    split_and!; try done; [lia..|]. intros. rewrite E. ring. }
  destruct (price_mul_ratio_steps p r Hp Hr Hne)
    as (ocp & cp & approx & Ho & So & Go & Hcp & Hsame & Hfits & ->).
  pose proof (fraction_price_wf p cp Hp Hcp) as Hw.
  eexists. split; [done|]. pose proof Hp as [Hpa Hids].
  pose proof Hpa as [Hpb Hpq]. destruct Hr as [Hrn Hrd].
  assert (∀ n d, 0 < n ≤ GRAPHENE_MAX_SHARE_SUPPLY → 0 < d ≤ GRAPHENE_MAX_SHARE_SUPPLY →
    same_ratio n d (amount (base p) * rat_num r) (amount (quote p) * rat_den r) →
    approx = false) as Hex.
  { intros n d Hn Hd Sn. unfold rat_in in Ho.
    destruct (reduced_minimal n d (rat_num ocp) (rat_den ocp) (amount (base p) * rat_num r)
      (amount (quote p) * rat_den r)); try done; [lia|lia|lia|nia|]. apply Hfits; lia. }
  unfold price_gtb. destruct approx.
  - destruct (_ || _) eqn:G; cbn [andb].
    + split_and!; try done; [intros; apply not_true_is_false; rewrite price_ltb_true by done;
        unfold price_lt_spec; lia..|].
      intros n d Hn Hd Sn. discriminate (Hex n d Hn Hd Sn).
    + apply orb_false_iff in G as [G1 G2].
      split_and!; try done; [intros; by destruct (Z.gtb_spec (rat_num r) (rat_den r)); [|lia]
        |intros; by destruct (Z.ltb_spec (rat_num r) (rat_den r)); [|lia]|].
      intros n d Hn Hd Sn. discriminate (Hex n d Hn Hd Sn).
  - cbn [andb]. rewrite Hsame in * by done. unfold rat_in, same_ratio in *.
    destruct (exact_direction (amount (base p)) (amount (quote p)) (rat_num ocp) (rat_den ocp)
      (rat_num r) (rat_den r)) as [D1 D2]; [lia..|].
    split_and!; try done; intros; rewrite price_ltb_cross by (done || apply Hw); cbn;
      apply Z.ltb_ge; lia.
Qed.

(** the two price formulas used before the core-1270 hard fork always
    return: the loops of [price::call_price] and
    [price_feed::max_short_squeeze_price_before_hf_1270] terminate and leave
    positive amounts of at most [GRAPHENE_MAX_SHARE_SUPPLY] on both sides. *)
Theorem legacy_prices_total (debt collateral : asset) (cr : Z) (f : price_feed)
    (Hd : 0 < amount debt ≤ int64_max) (Hc : 0 < amount collateral ≤ int64_max)
    (Hids : asset_id debt ≠ asset_id collateral) (Hcr : 0 < cr < 65536)
    (Hf : wf_price (settlement_price f)) (Hsq : 0 < maximum_short_squeeze_ratio f < 65536) :
  (∃ p, call_price debt collateral cr = Ok p
     ∧ asset_id (base p) = asset_id collateral ∧ asset_id (quote p) = asset_id debt
     ∧ 0 < amount (base p) ≤ GRAPHENE_MAX_SHARE_SUPPLY
     ∧ 0 < amount (quote p) ≤ GRAPHENE_MAX_SHARE_SUPPLY)
  ∧ (∃ p, max_short_squeeze_price_before_hf_1270 f = Ok p
     ∧ asset_id (base p) = asset_id (base (settlement_price f))
     ∧ asset_id (quote p) = asset_id (quote (settlement_price f))
     ∧ 0 < amount (base p) ≤ GRAPHENE_MAX_SHARE_SUPPLY
     ∧ 0 < amount (quote p) ≤ GRAPHENE_MAX_SHARE_SUPPLY).
Proof.
  split.
  - by apply call_price_total.
  - destruct Hf as [[Hb Hq] Hne].
    destruct (reduced_product (amount (base (settlement_price f)))
      (amount (quote (settlement_price f))) GRAPHENE_COLLATERAL_RATIO_DENOM
      (maximum_short_squeeze_ratio f)) as (x & y & Ex & Ey & Hm);
      [unfold GRAPHENE_COLLATERAL_RATIO_DENOM; lia..|].
    destruct (squeeze_loop_total 127 (rat_mul x y) (2 ^ 80) Hm) as (q & El & Hq'); [done..|].
    unfold max_short_squeeze_price_before_hf_1270. rewrite Ex, Ey.
    unfold mbind, result_bind, shrink_fuel. rewrite El.
    destruct Hq'. apply fits_price_div; done.
Qed.

End asset_properties.

(** ** Witnesses *)
Definition price_1_2 : price := Price (Asset 100 1) (Asset 21 2).

Lemma price_strict_weak_order_witness :
  price_ltb price_1_2 (Price (Asset 5 1) (Asset 1 2)) = true
  ∧ price_eqb price_1_2 (Price (Asset 200 1) (Asset 42 2)) = true.
Proof.
  destruct (price_strict_weak_order price_1_2 (Price (Asset 5 1) (Asset 1 2))
    (Price (Asset 6 1) (Asset 1 2))) as (_ & _ & _ & _ & _); [done..|].
  by vm_compute.
Defined.

Lemma mul_round_up_stable_witness :
  asset_mul (Asset 7 2) price_1_2 = Ok (Asset 33 1)
  ∧ ∃ c, multiply_and_round_up (Asset 33 1) price_1_2 = Ok c ∧ amount c = 7.
Proof.
  split; [by vm_compute|].
  destruct (mul_round_up_stable price_1_2 (Asset 7 2) (Asset 33 1)) as (_ & c & E & _);
    [done..|by vm_compute|].
  exists c. split; [done|]. vm_compute in E. by simplify_eq.
Defined.

Definition ratio_2_3 : @rat ext_ref := (2, 3).

Lemma price_mul_ratio_sound_witness :
  ∃ r np, ratio_make 1000 1500 = Ok r ∧ price_mul_ratio price_1_2 r = Ok np
    ∧ np = Price (Asset 200 1) (Asset 63 2).
Proof.
  exists ratio_2_3.
  destruct (price_mul_ratio_sound price_1_2 ratio_2_3) as (np & E & _); [done..|].
  exists np. split_and!; [by vm_compute|done|]. vm_compute in E. by simplify_eq.
Defined.

Lemma legacy_prices_total_witness :
  ∃ p, call_price (Asset 1000 2) (Asset 5000 1) 1750 = Ok p
    ∧ p = Price (Asset 20 1) (Asset 7 2).
Proof.
  destruct (legacy_prices_total (Asset 1000 2) (Asset 5000 1) 1750
    (PriceFeed price_1_2 default_price 1750 1500)) as [(p & E & _) _]; [done..|].
  exists p. split; [done|]. vm_compute in E. by simplify_eq.
Defined.
