(* ===== verification/UndoDb.v ===== *)
(** * The object database and its undo history: libraries/db

    An object database keeps one index per (space, type) pair; every index has
    a counter for the next instance and its objects by id.  All changes go
    through [create], [modify] and [remove], which tell the undo database what
    is needed to revert them.  The undo database is a stack of undo states, one
    per session.  The model keeps the stack with its back (the most recent
    state) at the head of the list.  Observers and secondary indexes only react
    to the changes and are left out.

    The refinement at the end relates this to the contract clients rely on: a
    stack of snapshots of the whole database. *)

From S2P Require Import Prelude.

(** An object id is its index and its instance number. *)
Notation oid := (Z * Z * Z)%type.
Definition index_of (i : oid) : Z * Z := i.1.
Definition instance_of (i : oid) : Z := i.2.

Fixpoint fold_result {A S} (f : S → A → result S) (s : S) (l : list A) : result S :=
  match l with
  | [] => Ok s
  | x :: l' => s' ← f s x; fold_result f s' l'
  end.

Section undo.
Context {V : Type}.

(** ** The indexes *)
Record odb := Odb {
  objs : gmap oid V;
  next_ids : gmap (Z * Z) Z
}.

(** [index::create]: the id is the next one of the index. *)
Definition idx_create (k : Z * Z) (v : V) (d : odb) : result (oid * odb) :=
  n ← from_option_r assert_exception (next_ids d !! k);
  match objs d !! (k, n) with
  | Some _ => Err assert_exception
  | None => Ok ((k, n), Odb (<[(k, n) := v]> (objs d)) (<[k := n + 1]> (next_ids d)))
  end.

Definition idx_insert (i : oid) (v : V) (d : odb) : result odb :=
  _ ← from_option_r assert_exception (next_ids d !! index_of i);
  match objs d !! i with
  | Some _ => Err assert_exception
  | None => Ok (Odb (<[i := v]> (objs d)) (next_ids d))
  end.

Definition idx_set (i : oid) (v : V) (d : odb) : odb :=
  Odb (<[i := v]> (objs d)) (next_ids d).

Definition idx_remove (i : oid) (d : odb) : odb :=
  Odb (delete i (objs d)) (next_ids d).

Definition get_object (i : oid) (d : odb) : result V :=
  _ ← from_option_r assert_exception (next_ids d !! index_of i);
  from_option_r assert_exception (objs d !! i).

Definition set_next_id (k : Z * Z) (n : Z) (d : odb) : result odb :=
  _ ← from_option_r assert_exception (next_ids d !! k);
  Ok (Odb (objs d) (<[k := n]> (next_ids d))).

(** ** undo_state and undo_database *)
Record undo_state := UndoState {
  old_values : gmap oid V;
  old_index_next_ids : gmap (Z * Z) Z;
  new_ids : gset oid;
  removed : gmap oid V
}.
Definition empty_state : undo_state := UndoState ∅ ∅ ∅ ∅.

Record undo_database := UndoDatabase {
  _db : odb;
  _active_sessions : Z;
  _disabled : bool;
  _stack : list undo_state;
  _max_size : nat
}.

Definition set_db (d : odb) (u : undo_database) : undo_database :=
  UndoDatabase d (_active_sessions u) (_disabled u) (_stack u) (_max_size u).
Definition set_disabled (b : bool) (u : undo_database) : undo_database :=
  UndoDatabase (_db u) (_active_sessions u) b (_stack u) (_max_size u).
Definition set_active (n : Z) (u : undo_database) : undo_database :=
  UndoDatabase (_db u) n (_disabled u) (_stack u) (_max_size u).
Definition set_stack (s : list undo_state) (u : undo_database) : undo_database :=
  UndoDatabase (_db u) (_active_sessions u) (_disabled u) s (_max_size u).

Definition enable (u : undo_database) : undo_database := set_disabled false u.
Definition disable (u : undo_database) : undo_database := set_disabled true u.

(** Change the top of the stack, which is created if the stack is empty. *)
Definition update_top (f : undo_state → undo_state) (s : list undo_state)
    : list undo_state :=
  match s with
  | [] => [f empty_state]
  | st :: s' => f st :: s'
  end.

Definition note_create (i : oid) (st : undo_state) : undo_state :=
  UndoState (old_values st)
    (match old_index_next_ids st !! index_of i with
     | None => <[index_of i := instance_of i]> (old_index_next_ids st)
     | Some _ => old_index_next_ids st
     end)
    ({[i]} ∪ new_ids st) (removed st).

Definition note_modify (i : oid) (v : V) (st : undo_state) : undo_state :=
  if bool_decide (i ∈ new_ids st) then st
  else match old_values st !! i with
       | Some _ => st
       | None => UndoState (<[i := v]> (old_values st)) (old_index_next_ids st)
                   (new_ids st) (removed st)
       end.

Definition note_remove (i : oid) (v : V) (st : undo_state) : undo_state :=
  if bool_decide (i ∈ new_ids st) then
    UndoState (old_values st) (old_index_next_ids st) (new_ids st ∖ {[i]}) (removed st)
  else match old_values st !! i with
       | Some w => UndoState (delete i (old_values st)) (old_index_next_ids st)
                     (new_ids st) (<[i := w]> (removed st))
       | None =>
           match removed st !! i with
           | Some _ => st
           | None => UndoState (old_values st) (old_index_next_ids st) (new_ids st)
                       (<[i := v]> (removed st))
           end
       end.

Definition on_create (i : oid) (u : undo_database) : undo_database :=
  if _disabled u then u else set_stack (update_top (note_create i) (_stack u)) u.
Definition on_modify (i : oid) (v : V) (u : undo_database) : undo_database :=
  if _disabled u then u else set_stack (update_top (note_modify i v) (_stack u)) u.
Definition on_remove (i : oid) (v : V) (u : undo_database) : undo_database :=
  if _disabled u then u else set_stack (update_top (note_remove i v) (_stack u)) u.

(** ** The mutators of primary_index *)
Definition db_create (k : Z * Z) (v : V) (u : undo_database) : result (oid * undo_database) :=
  r ← idx_create k v (_db u);
  Ok (r.1, on_create r.1 (set_db r.2 u)).

Definition db_insert (i : oid) (v : V) (u : undo_database) : result undo_database :=
  d ← idx_insert i v (_db u);
  Ok (on_create i (set_db d u)).

(** The callback may throw after it changed the object: the change stays and
    the exception is passed on. *)
Definition db_modify (i : oid) (m : V → V * result unit) (u : undo_database)
    : result (result unit * undo_database) :=
  v ← get_object i (_db u);
  let u1 := on_modify i v u in
  let '(v', r) := m v in
  Ok (r, set_db (idx_set i v' (_db u1)) u1).

Definition db_remove (i : oid) (u : undo_database) : result undo_database :=
  v ← get_object i (_db u);
  let u1 := on_remove i v u in
  Ok (set_db (idx_remove i (_db u1)) u1).

(** ** Sessions *)
Fixpoint pop_front (fuel : nat) (max : nat) (s : list undo_state) : list undo_state :=
  match fuel with
  | O => s
  | S n => if bool_decide (max < length s)%nat
           then pop_front n max (take (length s - 1) s) else s
  end.

Record session := Session { _apply_undo : bool; _disable_on_exit : bool }.

Definition start_undo_session (force_enable : bool) (u : undo_database)
    : session * undo_database :=
  if _disabled u && negb force_enable then (Session true false, u)
  else
    let disable_on_exit := _disabled u && force_enable in
    let u1 := if force_enable then set_disabled false u else u in
    let s := pop_front (length (_stack u1)) (_max_size u1) (_stack u1) in
    (Session true disable_on_exit,
     set_active (u32 (_active_sessions u1 + 1)) (set_stack (empty_state :: s) u1)).

(** What [undo] and [pop_commit] share: put the old values back, delete the
    new objects, reset the id counters, re-insert the removed objects. *)
Definition revert_state (st : undo_state) (u : undo_database) : result undo_database :=
  u1 ← fold_result (λ u '(i, v), r ← db_modify i (λ _, (v, Ok tt)) u; Ok r.2) u
         (map_to_list (old_values st));
  u2 ← fold_result (λ u i, db_remove i u) u1 (elements (new_ids st));
  u3 ← fold_result (λ u '(k, n), d ← set_next_id k n (_db u); Ok (set_db d u)) u2
         (map_to_list (old_index_next_ids st));
  fold_result (λ u '(i, v), db_insert i v u) u3 (map_to_list (removed st)).

Definition undo (u : undo_database) : result undo_database :=
  fc_assert (negb (_disabled u));;
  fc_assert (_active_sessions u >? 0);;
  match _stack u with
  | [] => Err undefined_behaviour
  | st :: s =>
      u1 ← revert_state st (disable u);
      Ok (set_active (_active_sessions u1 - 1) (enable (set_stack s u1)))
  end.

Definition merge_old_value (acc : undo_state) (i : oid) (v : V) : undo_state :=
  if bool_decide (i ∈ new_ids acc) then acc
  else match old_values acc !! i with
       | Some _ => acc
       | None => UndoState (<[i := v]> (old_values acc)) (old_index_next_ids acc)
                   (new_ids acc) (removed acc)
       end.

Definition merge_removed (acc : undo_state) (i : oid) (v : V) : undo_state :=
  if bool_decide (i ∈ new_ids acc) then
    UndoState (old_values acc) (old_index_next_ids acc) (new_ids acc ∖ {[i]}) (removed acc)
  else match old_values acc !! i with
       | Some w => UndoState (delete i (old_values acc)) (old_index_next_ids acc)
                     (new_ids acc) (<[i := w]> (removed acc))
       | None => UndoState (old_values acc) (old_index_next_ids acc) (new_ids acc)
                   (<[i := v]> (removed acc))
       end.

Definition merge_next_id (acc : undo_state) (k : Z * Z) (n : Z) : undo_state :=
  match old_index_next_ids acc !! k with
  | Some _ => acc
  | None => UndoState (old_values acc) (<[k := n]> (old_index_next_ids acc))
              (new_ids acc) (removed acc)
  end.

Definition merge_states (prev_state state : undo_state) : undo_state :=
  let a1 := foldl (λ a '(i, v), merge_old_value a i v) prev_state
              (map_to_list (old_values state)) in
  let a2 := UndoState (old_values a1) (old_index_next_ids a1)
              (new_ids a1 ∪ new_ids state) (removed a1) in
  let a3 := foldl (λ a '(k, n), merge_next_id a k n) a2
              (map_to_list (old_index_next_ids state)) in
  foldl (λ a '(i, v), merge_removed a i v) a3 (map_to_list (removed state)).

Definition merge (u : undo_database) : result undo_database :=
  fc_assert (_active_sessions u >? 0);;
  match _stack u with
  | [_] =>
      if _active_sessions u =? 1
      then Ok (set_active (_active_sessions u - 1) (set_stack [] u))
      else Err assert_exception
  | state :: prev_state :: s =>
      Ok (set_active (_active_sessions u - 1)
            (set_stack (merge_states prev_state state :: s) u))
  | [] => Err assert_exception
  end.

Definition commit (u : undo_database) : result undo_database :=
  fc_assert (_active_sessions u >? 0);;
  Ok (set_active (_active_sessions u - 1) u).

Definition pop_commit (u : undo_database) : result undo_database :=
  fc_assert (_active_sessions u =? 0);;
  match _stack u with
  | [] => Err assert_exception
  | st :: s =>
      u1 ← revert_state st (disable u);
      Ok (enable (set_stack s u1))
  end.

(** The methods of the session object and its destructor. *)
Definition session_commit (x : session) (u : undo_database) : result (session * undo_database) :=
  u' ← commit u; Ok (Session false (_disable_on_exit x), u').
Definition session_undo (x : session) (u : undo_database) : result (session * undo_database) :=
  u' ← (if _apply_undo x then undo u else Ok u);
  Ok (Session false (_disable_on_exit x), u').
Definition session_merge (x : session) (u : undo_database) : result (session * undo_database) :=
  u' ← (if _apply_undo x then merge u else Ok u);
  Ok (Session false (_disable_on_exit x), u').
Definition session_destroy (x : session) (u : undo_database) : result undo_database :=
  u' ← (if _apply_undo x then undo u else Ok u);
  Ok (if _disable_on_exit x then disable u' else u').
(** The move constructor copies [_apply_undo] only. *)
Definition session_move (mv : session) : session * session :=
  (Session (_apply_undo mv) false, Session false (_disable_on_exit mv)).

End undo.
Arguments odb : clear implicits.
Arguments undo_state : clear implicits.
Arguments undo_database : clear implicits.

(** ** Folds whose steps touch one key each

    [get] reads the part of the state a key owns and [rest] what no step
    touches. *)
Section local_folds.
Context {K W B E R : Type} `{Countable K} (get : B → K → E) (rest : B → R)
  (g : E → W → E).

Lemma foldl_local (f : B → K * W → B) (l : list (K * W)) b j :
  (∀ b i v j, get (f b (i, v)) j = if decide (i = j) then g (get b i) v else get b j) →
  (∀ b x, rest (f b x) = rest b) →
  NoDup l.*1 →
  get (foldl f b l) j = from_option (g (get b j)) (get b j) (list_to_map (M:=gmap K W) l !! j)
  ∧ rest (foldl f b l) = rest b.
Proof.
  intros Hf Hr. revert b. induction l as [|[i v] l IH]; intros b Hnd; [done|].
  apply NoDup_cons in Hnd as [Hi Hnd]. cbn [foldl].
  destruct (IH (f b (i, v)) Hnd) as [-> ->]. rewrite Hr, Hf. split; [|done].
  cbn [list_to_map foldr fst snd]. destruct (decide (i = j)) as [->|Hne].
  - cbn. rewrite lookup_insert_eq. rewrite (not_elem_of_list_to_map_1 l j Hi). done.
  - cbn. rewrite lookup_insert_ne by done. done.
Qed.

Lemma fold_result_local (f : B → K * W → result B) (pre : K → W → E → Prop)
    (keep : R → Prop) (l : list (K * W)) b :
  (∀ b i v, keep (rest b) → pre i v (get b i) →
     ∃ b', f b (i, v) = Ok b' ∧ rest b' = rest b ∧
       ∀ j, get b' j = if decide (i = j) then g (get b i) v else get b j) →
  NoDup l.*1 → keep (rest b) → (∀ i v, (i, v) ∈ l → pre i v (get b i)) →
  ∃ b', fold_result f b l = Ok b' ∧ rest b' = rest b ∧
    ∀ j, get b' j = from_option (g (get b j)) (get b j) (list_to_map (M:=gmap K W) l !! j).
Proof.
  intros Hf. revert b. induction l as [|[i v] l IH]; intros b Hnd Hk Hpre.
  { exists b. done. }
  apply NoDup_cons in Hnd as [Hi Hnd].
  destruct (Hf b i v Hk (Hpre i v ltac:(left))) as (b1 & E1 & R1 & G1).
  destruct (IH b1 Hnd ltac:(congruence)) as (b2 & E2 & R2 & G2).
  { intros i' v' Hin. rewrite G1. rewrite decide_False.
    - apply Hpre. by right.
    - intros ->. apply Hi. apply list_elem_of_fmap. by exists (i', v'). }
  exists b2. cbn [fold_result]. rewrite E1. split; [exact E2|]. split; [congruence|].
  intros j. rewrite G2, G1. destruct (decide (i = j)) as [->|Hne]; cbn.
  - rewrite lookup_insert_eq, (not_elem_of_list_to_map_1 l j Hi). done.
  - rewrite lookup_insert_ne by done. done.
Qed.

End local_folds.

(** ** The contract: a stack of snapshots

    What a client of the undo database relies on, for any type of states.
    [a_snaps] has, newest first, the state as it was when each entry of the stack
    was opened. *)
Section snapshots.
Context {O : Type}.

Record abs := Abs { a_cur : O; a_snaps : list O; a_active : Z; a_max : nat }.

(** A change made outside a session opens a state. *)
Definition a_change (d : O) (a : abs) : abs :=
  Abs d (match a_snaps a with [] => [a_cur a] | s => s end) (a_active a) (a_max a).

Definition a_start (a : abs) : abs :=
  Abs (a_cur a) (a_cur a :: take (a_max a) (a_snaps a)) (u32 (a_active a + 1)) (a_max a).
Definition a_undo (a : abs) : result abs :=
  fc_assert (a_active a >? 0);;
  match a_snaps a with
  | [] => Err undefined_behaviour
  | d :: s => Ok (Abs d s (a_active a - 1) (a_max a))
  end.
Definition a_merge (a : abs) : result abs :=
  fc_assert (a_active a >? 0);;
  match a_snaps a with
  | [] => Err assert_exception
  | [_] => if a_active a =? 1 then Ok (Abs (a_cur a) [] 0 (a_max a)) else Err assert_exception
  | _ :: s => Ok (Abs (a_cur a) s (a_active a - 1) (a_max a))
  end.
Definition a_commit (a : abs) : result abs :=
  fc_assert (a_active a >? 0);; Ok (Abs (a_cur a) (a_snaps a) (a_active a - 1) (a_max a)).
Definition a_pop_commit (a : abs) : result abs :=
  fc_assert (a_active a =? 0);;
  match a_snaps a with
  | [] => Err assert_exception
  | d :: s => Ok (Abs d s (a_active a) (a_max a))
  end.

End snapshots.
Arguments abs : clear implicits.

(** ** What an undo state says about two databases

    [undo_rel st d0 d1]: [st] describes how to get from [d1] back to [d0]. *)
Section undo_proofs.
Context {V : Type}.
Implicit Types (d : odb V) (st : undo_state V) (u : undo_database V) (i : oid) (v : V).

(** Every object's index exists and its instance number has been given out. *)
Definition wf_db d : Prop :=
  ∀ i v, objs d !! i = Some v →
    ∃ n, next_ids d !! index_of i = Some n ∧ instance_of i < n.

(** What an undo state records of one id: in [new_ids], in [old_values], in
    [removed]. *)
Definition entry st i : bool * option V * option V :=
  (bool_decide (i ∈ new_ids st), old_values st !! i, removed st !! i).

Definition entry_rel (e : bool * option V * option V) (o0 o1 : option V) : Prop :=
  match e with
  | (true, None, None) => o0 = None ∧ is_Some o1
  | (false, Some v, None) => o0 = Some v ∧ is_Some o1
  | (false, None, Some v) => o0 = Some v ∧ o1 = None
  | (false, None, None) => o0 = o1
  | _ => False
  end.

Definition next_rel (e n0 n1 : option Z) : Prop :=
  match e, n0, n1 with
  | Some n, Some a, Some b => n = a ∧ a ≤ b
  | None, Some a, Some b => a = b
  | None, None, None => True
  | _, _, _ => False
  end.

Lemma next_rel_le e n0 n1 :
  next_rel e n0 (Some n1) → ∃ n, n0 = Some n ∧ n ≤ n1.
Proof.
  destruct e, n0 as [a|]; cbn; intros; try done; exists a; split; done || lia.
Qed.

(** Ids are never given out twice: an object that appeared has an id the index
    had not reached. *)
Definition fresh_ids d0 d1 : Prop :=
  ∀ i, objs d0 !! i = None → is_Some (objs d1 !! i) →
    ∃ n, next_ids d0 !! index_of i = Some n ∧ n ≤ instance_of i.

Definition undo_rel st d0 d1 : Prop :=
  wf_db d0 ∧ wf_db d1 ∧
  (∀ i, entry_rel (entry st i) (objs d0 !! i) (objs d1 !! i)) ∧
  (∀ k, next_rel (old_index_next_ids st !! k) (next_ids d0 !! k) (next_ids d1 !! k)) ∧
  fresh_ids d0 d1.

Lemma odb_eq d0 d1 :
  (∀ i, objs d0 !! i = objs d1 !! i) → (∀ k, next_ids d0 !! k = next_ids d1 !! k) → d0 = d1.
Proof.
  destruct d0, d1; cbn. intros H1 H2. f_equal; apply map_eq; done.
Qed.

Lemma undo_rel_empty d : wf_db d → undo_rel empty_state d d.
Proof.
  intros Hw. split_and!; [done|done|..|intros i -> [? [=]]]; intros j.
  - unfold entry, empty_state. cbn [new_ids old_values removed]. rewrite bool_decide_eq_false_2, !lookup_empty by set_solver. done.
  - cbn. rewrite lookup_empty. destruct (next_ids d !! j); done.
Qed.

(** A new id is not known to the undo state. *)
Lemma entry_fresh st d0 d1 k n :
  undo_rel st d0 d1 → next_ids d1 !! k = Some n → entry st (k, n) = (false, None, None)
  ∧ objs d1 !! (k, n) = None ∧ objs d0 !! (k, n) = None.
Proof.
  intros (W0 & W1 & He & Hn & Hf) Hk. specialize (He (k, n)). specialize (Hn k).
  assert (objs d1 !! (k, n) = None) as E1.
  { destruct (objs d1 !! (k, n)) eqn:E; [|done]. apply W1 in E as (n' & E & ?). cbn in *.
    rewrite Hk in E. simplify_eq. lia. }
  assert (objs d0 !! (k, n) = None) as E0.
  { destruct (objs d0 !! (k, n)) eqn:E; [|done]. apply W0 in E as (n' & E & ?). cbn in *.
    rewrite E, Hk in Hn. destruct (old_index_next_ids st !! k); cbn in Hn; lia. }
  rewrite E0, E1 in He. destruct (entry st (k, n)) as [[[|] [|]] [|]]; cbn in He;
    try done; naive_solver.
Qed.

Lemma note_create_rel st d0 d1 k n v :
  undo_rel st d0 d1 → next_ids d1 !! k = Some n →
  undo_rel (note_create (k, n) st) d0 (Odb (<[(k, n) := v]> (objs d1)) (<[k := n + 1]> (next_ids d1))).
Proof.
  intros Hrel Hk. pose proof (entry_fresh _ _ _ _ _ Hrel Hk) as (Ef & E1 & E0).
  destruct Hrel as (W0 & W1 & He & Hn & Hf). split_and!; [done|..].
  - intros i w. cbn. destruct (decide (index_of i = k)) as [Hik|Hik].
    + rewrite Hik, lookup_insert_eq. intros Hi. exists (n + 1). split; [done|].
      destruct (decide ((k, n) = i)) as [<-|Hne]; [cbn; lia|].
      rewrite lookup_insert_ne in Hi by done. apply W1 in Hi as (n' & ? & ?).
      rewrite Hik, Hk in *. simplify_eq. lia.
    + rewrite (lookup_insert_ne (next_ids d1)) by congruence.
      rewrite lookup_insert_ne by (intros <-; by apply Hik). apply W1.
  - intros i. cbn [objs]. destruct (decide ((k, n) = i)) as [<-|Hne].
    + rewrite lookup_insert_eq. unfold entry in *. cbn. injection Ef as _ -> ->.
      rewrite bool_decide_eq_true_2 by set_solver. cbn. rewrite E0. eauto.
    + rewrite lookup_insert_ne by done. specialize (He i).
      replace (entry (note_create (k, n) st) i) with (entry st i); [done|].
      unfold entry. cbn. do 2 f_equal. apply bool_decide_ext. set_solver.
  - intros k'. cbn [note_create old_index_next_ids next_ids index_of instance_of fst snd].
    specialize (Hn k').
    destruct (decide (k = k')) as [<-|Hne].
    + rewrite lookup_insert_eq, Hk in *.
      destruct (old_index_next_ids st !! k) eqn:Eo.
      * rewrite Eo. destruct (next_ids d0 !! k); cbn in *; [lia|done].
      * rewrite lookup_insert_eq. destruct (next_ids d0 !! k); cbn in *; [lia|done].
    + rewrite lookup_insert_ne by done.
      destruct (old_index_next_ids st !! k) eqn:Eo; [done|]. by rewrite lookup_insert_ne.
  - intros i Hi0. cbn. destruct (decide ((k, n) = i)) as [<-|Hne].
    + intros _. specialize (Hn k). rewrite Hk in Hn. by apply next_rel_le in Hn.
    + rewrite lookup_insert_ne by done. by apply Hf.
Qed.

(** The entry of a single id after a modification or a removal. *)
Definition entry_modify (e : bool * option V * option V) v : bool * option V * option V :=
  match e with
  | (false, None, r) => (false, Some v, r)
  | _ => e
  end.
Definition entry_remove (e : bool * option V * option V) v : bool * option V * option V :=
  match e with
  | (true, o, r) => (false, o, r)
  | (false, Some w, r) => (false, None, Some w)
  | (false, None, Some w) => e
  | (false, None, None) => (false, None, Some v)
  end.

Lemma bool_decide_diff_ne (X : gset oid) i j :
  i ≠ j → bool_decide (j ∈ X ∖ {[i]}) = bool_decide (j ∈ X).
Proof. intros. apply bool_decide_ext. set_solver. Qed.
Lemma bool_decide_diff_eq (X : gset oid) i : bool_decide (i ∈ X ∖ {[i]}) = false.
Proof. apply bool_decide_eq_false_2. set_solver. Qed.

Lemma entry_note_modify st i v j :
  entry (note_modify i v st) j = if decide (i = j) then entry_modify (entry st i) v else entry st j.
Proof.
  unfold note_modify, entry, entry_modify. destruct (decide (i = j)) as [<-|Hne];
    destruct (bool_decide (i ∈ new_ids st)) eqn:Eb; destruct (old_values st !! i) eqn:E;
    cbn [new_ids old_values removed]; rewrite ?Eb, ?E; try done.
  - by rewrite lookup_insert_eq.
  - by rewrite lookup_insert_ne.
Qed.

Lemma entry_note_remove st i v j :
  entry (note_remove i v st) j = if decide (i = j) then entry_remove (entry st i) v else entry st j.
Proof.
  unfold note_remove, entry, entry_remove. destruct (decide (i = j)) as [<-|Hne];
    destruct (bool_decide (i ∈ new_ids st)) eqn:Eb; destruct (old_values st !! i) eqn:E;
    destruct (removed st !! i) eqn:E'; cbn [new_ids old_values removed];
    rewrite ?bool_decide_diff_eq, ?bool_decide_diff_ne, ?lookup_delete_eq, ?lookup_insert_eq,
      ?lookup_delete_ne, ?lookup_insert_ne, ?Eb, ?E, ?E' by done; done.
Qed.

Lemma note_modify_next st i v : old_index_next_ids (note_modify i v st) = old_index_next_ids st.
Proof. unfold note_modify. case_bool_decide; [done|]. destruct (old_values st !! i); done. Qed.
Lemma note_remove_next st i v : old_index_next_ids (note_remove i v st) = old_index_next_ids st.
Proof.
  unfold note_remove. case_bool_decide; [done|].
  destruct (old_values st !! i); [done|]. destruct (removed st !! i); done.
Qed.

Lemma wf_db_set d i v w : wf_db d → objs d !! i = Some v → wf_db (idx_set i w d).
Proof.
  intros W Hi j x. cbn. destruct (decide (i = j)) as [<-|Hne].
  - intros _. by apply (W i v).
  - rewrite lookup_insert_ne by done. apply W.
Qed.
Lemma wf_db_remove d i : wf_db d → wf_db (idx_remove i d).
Proof. intros W j x Hj. cbn in *. apply lookup_delete_Some in Hj as [_ Hj]. by apply (W j x). Qed.

Lemma note_modify_rel st d0 d1 i v w :
  undo_rel st d0 d1 → objs d1 !! i = Some v →
  undo_rel (note_modify i v st) d0 (idx_set i w d1).
Proof.
  intros (W0 & W1 & He & Hn & Hf) Hi. split_and!; [done|by eapply wf_db_set|..].
  - intros j. rewrite entry_note_modify. cbn [objs idx_set]. specialize (He j).
    case_decide; [subst j|by rewrite lookup_insert_ne].
    rewrite lookup_insert_eq, Hi in *.
    destruct (entry st i) as [[[|] [|]] [|]]; cbn in *; naive_solver.
  - intros k. rewrite note_modify_next. apply Hn.
  - intros j Hj. cbn. destruct (decide (i = j)) as [<-|Hne].
    + intros _. by apply Hf.
    + rewrite lookup_insert_ne by done. by apply Hf.
Qed.

Lemma note_remove_rel st d0 d1 i v :
  undo_rel st d0 d1 → objs d1 !! i = Some v →
  undo_rel (note_remove i v st) d0 (idx_remove i d1).
Proof.
  intros (W0 & W1 & He & Hn & Hf) Hi. split_and!; [done|by apply wf_db_remove|..].
  - intros j. rewrite entry_note_remove. cbn [objs idx_remove]. specialize (He j).
    case_decide; [subst j|by rewrite lookup_delete_ne].
    rewrite lookup_delete_eq, Hi in *.
    destruct (entry st i) as [[[|] [|]] [|]]; cbn in *; naive_solver.
  - intros k. rewrite note_remove_next. apply Hn.
  - intros j Hj [x Hx]. cbn in Hx. apply lookup_delete_Some in Hx as [_ Hx].
    apply Hf; eauto.
Qed.

(** ** Reverting a state *)
Definition same_frame u u' : Prop :=
  _active_sessions u' = _active_sessions u ∧ _disabled u' = _disabled u ∧
  _stack u' = _stack u ∧ _max_size u' = _max_size u.

Definition frame u := (next_ids (_db u), _active_sessions u, _disabled u, _stack u, _max_size u).
Definition frame_ids u := (objs (_db u), _active_sessions u, _disabled u, _stack u, _max_size u).
Definition get_obj u i : option V := objs (_db u) !! i.

Lemma on_modify_disabled i v u : _disabled u = true → on_modify i v u = u.
Proof. unfold on_modify. by intros ->. Qed.
Lemma on_remove_disabled i v u : _disabled u = true → on_remove i v u = u.
Proof. unfold on_remove. by intros ->. Qed.
Lemma on_create_disabled i u : _disabled u = true → on_create i u = u.
Proof. unfold on_create. by intros ->. Qed.

Lemma get_object_Ok i v d :
  is_Some (next_ids d !! index_of i) → objs d !! i = Some v → get_object i d = Ok v.
Proof. intros [n Hn] Ho. unfold get_object. rewrite Hn, Ho. done. Qed.

Lemma revert_old_values u (m : gmap oid V) :
  _disabled u = true →
  (∀ i v, m !! i = Some v → is_Some (next_ids (_db u) !! index_of i) ∧ is_Some (objs (_db u) !! i)) →
  ∃ u', fold_result (λ u '(i, v), r ← db_modify i (λ _, (v, Ok tt)) u; Ok r.2) u (map_to_list m) = Ok u'
    ∧ frame u' = frame u ∧ ∀ i, get_obj u' i = from_option Some (get_obj u i) (m !! i).
Proof.
  intros Hd Hm.
  destruct (fold_result_local (K:=oid) get_obj frame (λ _ v, Some v)
    (λ u '(i, v), r ← db_modify i (λ _, (v, Ok tt)) u; Ok r.2)
    (λ i _ o, is_Some (next_ids (_db u) !! index_of i) ∧ is_Some o) (λ r, r = frame u)
    (map_to_list m) u) as (u' & E & Hr & Hg).
  - intros b i v Hb [Hi [w Hw]]. unfold frame in Hb. injection Hb as Hn Ha Hdis Hs Hm'.
    unfold db_modify. erewrite get_object_Ok; [|by rewrite Hn|exact Hw]. cbn -[on_modify].
    rewrite on_modify_disabled by congruence. eexists; split; [done|]. split; [done|].
    intros j. unfold get_obj; cbn. case_decide; subst;
      [by rewrite lookup_insert_eq|by rewrite lookup_insert_ne].
  - apply NoDup_fst_map_to_list.
  - done.
  - intros i v Hin%elem_of_map_to_list. by apply (Hm i v).
  - exists u'. split; [exact E|]. split; [done|]. intros i. rewrite Hg, list_to_map_to_list.
    by destruct (m !! i).
Qed.

Lemma fold_result_fmap {A A' B} (h : A → A') (f : B → A' → result B) b l :
  fold_result f b (h <$> l) = fold_result (λ b x, f b (h x)) b l.
Proof.
  revert b. induction l as [|x l IH]; intros b; [done|]. cbn.
  destruct (f b (h x)); cbn; [apply IH|done].
Qed.

Lemma list_to_map_units (l : list oid) i :
  list_to_map (M:=gmap oid unit) ((λ i, (i, tt)) <$> l) !! i
  = if bool_decide (i ∈ l) then Some tt else None.
Proof.
  induction l as [|j l IH]; [done|]. cbn. destruct (decide (j = i)) as [<-|Hne].
  - rewrite lookup_insert_eq, bool_decide_eq_true_2 by set_solver. done.
  - rewrite lookup_insert_ne by done. etransitivity; [exact IH|].
    rewrite (bool_decide_ext (i ∈ l) (i ∈ j :: l)) by set_solver. done.
Qed.

Lemma revert_new_ids u (X : gset oid) :
  _disabled u = true →
  (∀ i, i ∈ X → is_Some (next_ids (_db u) !! index_of i) ∧ is_Some (objs (_db u) !! i)) →
  ∃ u', fold_result (λ u i, db_remove i u) u (elements X) = Ok u' ∧ frame u' = frame u
    ∧ ∀ i, get_obj u' i = if bool_decide (i ∈ X) then None else get_obj u i.
Proof.
  intros Hd HX.
  destruct (fold_result_local (K:=oid) get_obj frame (λ _ (_ : unit), None)
    (λ u p, db_remove p.1 u)
    (λ i _ o, is_Some (next_ids (_db u) !! index_of i) ∧ is_Some o) (λ r, r = frame u)
    ((λ i, (i, tt)) <$> elements X) u) as (u' & E & Hr & Hg).
  - intros b i v Hb [Hi [w Hw]]. unfold frame in Hb. injection Hb as Hn Ha Hdis Hs Hm'.
    unfold db_remove. cbn [fst]. erewrite get_object_Ok; [|by rewrite Hn|exact Hw].
    cbn -[on_remove]. rewrite on_remove_disabled by congruence.
    eexists; split; [done|]. split; [done|].
    intros j. unfold get_obj; cbn. case_decide; subst;
      [by rewrite lookup_delete_eq|by rewrite lookup_delete_ne].
  - rewrite <- list_fmap_compose, list_fmap_id. apply NoDup_elements.
  - done.
  - intros i v (j & [= <- _] & Hj)%list_elem_of_fmap. apply HX. set_solver.
  - exists u'. split; [rewrite fold_result_fmap in E; exact E|]. split; [done|].
    intros i. rewrite Hg, list_to_map_units.
    rewrite (bool_decide_ext (i ∈ elements X) (i ∈ X)) by set_solver.
    by destruct (bool_decide (i ∈ X)).
Qed.

Lemma revert_next_ids u (m : gmap (Z * Z) Z) :
  (∀ k n, m !! k = Some n → is_Some (next_ids (_db u) !! k)) →
  ∃ u', fold_result (λ u '(k, n), d ← set_next_id k n (_db u); Ok (set_db d u)) u (map_to_list m) = Ok u'
    ∧ frame_ids u' = frame_ids u
    ∧ ∀ k, next_ids (_db u') !! k = from_option Some (next_ids (_db u) !! k) (m !! k).
Proof.
  intros Hm.
  destruct (fold_result_local (K:=Z * Z) (λ u k, next_ids (_db u) !! k) frame_ids (λ _ n, Some n)
    (λ u '(k, n), d ← set_next_id k n (_db u); Ok (set_db d u))
    (λ _ _ o, is_Some o) (λ r, r = frame_ids u) (map_to_list m) u) as (u' & E & Hr & Hg).
  - intros b k n Hb [w Hw]. unfold set_next_id. rewrite Hw. cbn.
    eexists; split; [done|]. split; [done|]. intros j. cbn.
    case_decide; subst; [by rewrite lookup_insert_eq|by rewrite lookup_insert_ne].
  - apply NoDup_fst_map_to_list.
  - done.
  - intros k n Hin%elem_of_map_to_list. by apply (Hm k n).
  - exists u'. split; [exact E|]. split; [done|]. intros i. rewrite Hg, list_to_map_to_list.
    by destruct (m !! i).
Qed.

Lemma revert_removed u (m : gmap oid V) :
  _disabled u = true →
  (∀ i v, m !! i = Some v → is_Some (next_ids (_db u) !! index_of i) ∧ objs (_db u) !! i = None) →
  ∃ u', fold_result (λ u '(i, v), db_insert i v u) u (map_to_list m) = Ok u'
    ∧ frame u' = frame u ∧ ∀ i, get_obj u' i = from_option Some (get_obj u i) (m !! i).
Proof.
  intros Hd Hm.
  destruct (fold_result_local (K:=oid) get_obj frame (λ _ v, Some v)
    (λ u '(i, v), db_insert i v u)
    (λ i _ o, is_Some (next_ids (_db u) !! index_of i) ∧ o = None) (λ r, r = frame u)
    (map_to_list m) u) as (u' & E & Hr & Hg).
  - intros b i v Hb [[n Hi] Hw]. unfold frame in Hb. injection Hb as Hn Ha Hdis Hs Hm'.
    unfold db_insert, idx_insert. unfold get_obj in Hw. rewrite Hn, Hi, Hw. cbn -[on_create].
    rewrite on_create_disabled by (cbn; congruence). eexists; split; [done|].
    split; [unfold frame; cbn; congruence|].
    intros j. unfold get_obj; cbn. case_decide; subst;
      [by rewrite lookup_insert_eq|by rewrite lookup_insert_ne].
  - apply NoDup_fst_map_to_list.
  - done.
  - intros i v Hin%elem_of_map_to_list. by apply (Hm i v).
  - exists u'. split; [exact E|]. split; [done|]. intros i. rewrite Hg, list_to_map_to_list.
    by destruct (m !! i).
Qed.

Lemma next_rel_dom st d0 d1 k :
  undo_rel st d0 d1 → is_Some (next_ids d0 !! k) → is_Some (next_ids d1 !! k).
Proof.
  intros (_ & _ & _ & Hn & _) [n E]. specialize (Hn k). rewrite E in Hn.
  destruct (old_index_next_ids st !! k), (next_ids d1 !! k); cbn in Hn; eauto; done.
Qed.

Lemma wf_index d i v : wf_db d → objs d !! i = Some v → is_Some (next_ids d !! index_of i).
Proof. intros W Hi. apply W in Hi as (n & ? & _). eauto. Qed.

Lemma revert_state_restores st d0 u :
  _disabled u = true → undo_rel st d0 (_db u) →
  ∃ u', revert_state st u = Ok u' ∧ _db u' = d0 ∧ same_frame u u'.
Proof.
  intros Hd Hrel. pose proof Hrel as (W0 & W1 & He & Hn & Hf).
  destruct (revert_old_values u (old_values st) Hd) as (u1 & E1 & F1 & G1).
  { intros i v Hi. specialize (He i). unfold entry in He. rewrite Hi in He.
    destruct (bool_decide (i ∈ new_ids st)), (removed st !! i); cbn in He; try done.
    destruct He as [H0 [w H1]]. split; [by eapply wf_index|eauto]. }
  unfold frame in F1. injection F1 as N1 A1 D1 S1 M1.
  destruct (revert_new_ids u1 (new_ids st)) as (u2 & E2 & F2 & G2); [congruence| |].
  { intros i Hi. specialize (He i). unfold entry in He.
    rewrite bool_decide_eq_true_2 in He by done.
    destruct (old_values st !! i) eqn:Eo, (removed st !! i); cbn in He; try done.
    destruct He as [H0 [w H1]]. pose proof (G1 i) as Gi. unfold get_obj in Gi.
    rewrite Eo in Gi. rewrite N1. cbn in Gi. rewrite Gi, H1. split; [by eapply wf_index|eauto]. }
  unfold frame in F2. injection F2 as N2 A2 D2 S2 M2.
  destruct (revert_next_ids u2 (old_index_next_ids st)) as (u3 & E3 & F3 & G3).
  { intros k n Hk. rewrite N2, N1. specialize (Hn k). rewrite Hk in Hn.
    destruct (next_ids d0 !! k), (next_ids (_db u) !! k); cbn in Hn; eauto; done. }
  unfold frame_ids in F3. injection F3 as O3 A3 D3 S3 M3.
  assert (∀ k, next_ids (_db u3) !! k = next_ids d0 !! k) as N3.
  { intros k. rewrite G3, N2, N1. specialize (Hn k).
    destruct (old_index_next_ids st !! k), (next_ids d0 !! k), (next_ids (_db u) !! k);
      cbn in *; naive_solver congruence. }
  assert (∀ i, get_obj u3 i = match removed st !! i with
                              | Some _ => None | None => objs d0 !! i end) as G.
  { intros i. unfold get_obj. rewrite O3. pose proof (G2 i) as H2. unfold get_obj at 1 in H2.
    rewrite H2, G1. unfold get_obj. specialize (He i). unfold entry in He.
    destruct (bool_decide (i ∈ new_ids st)), (old_values st !! i), (removed st !! i);
      cbn in *; naive_solver congruence. }
  destruct (revert_removed u3 (removed st)) as (u4 & E4 & F4 & G4); [congruence| |].
  { intros i v Hi. pose proof (G i) as Gi. rewrite Hi in Gi. split; [|done].
    rewrite N3. specialize (He i). unfold entry in He. rewrite Hi in He.
    destruct (bool_decide (i ∈ new_ids st)), (old_values st !! i); cbn in He; try done.
    destruct He. by eapply wf_index. }
  unfold frame in F4. injection F4 as N4 A4 D4 S4 M4.
  exists u4. split.
  { unfold revert_state. rewrite E1. cbn. rewrite E2. cbn. rewrite E3. exact E4. }
  split; [|unfold same_frame; split_and!; congruence].
  apply odb_eq.
  - intros i. etransitivity; [apply G4|]. rewrite G. specialize (He i). unfold entry in He.
    destruct (bool_decide (i ∈ new_ids st)), (old_values st !! i), (removed st !! i);
      cbn in *; naive_solver.
  - intros k. by rewrite N4.
Qed.

(** ** Merging two states *)
Implicit Types (sa sb : undo_state V).

Definition entry_merge_removed (e : bool * option V * option V) v : bool * option V * option V :=
  match e with
  | (true, o, r) => (false, o, r)
  | (false, Some w, _) => (false, None, Some w)
  | (false, None, _) => (false, None, Some v)
  end.

Lemma entry_merge_old_value_eq st i v j :
  entry (merge_old_value st i v) j
  = if decide (i = j) then entry_modify (entry st i) v else entry st j.
Proof. apply entry_note_modify. Qed.

Lemma entry_merge_removed_eq st i v j :
  entry (merge_removed st i v) j
  = if decide (i = j) then entry_merge_removed (entry st i) v else entry st j.
Proof.
  unfold merge_removed, entry, entry_merge_removed. destruct (decide (i = j)) as [<-|Hne];
    destruct (bool_decide (i ∈ new_ids st)) eqn:Eb; destruct (old_values st !! i) eqn:E;
    cbn [new_ids old_values removed];
    rewrite ?bool_decide_diff_eq, ?bool_decide_diff_ne, ?lookup_delete_eq, ?lookup_insert_eq,
      ?lookup_delete_ne, ?lookup_insert_ne, ?Eb, ?E by done; done.
Qed.

Lemma merge_removed_next st i v :
  old_index_next_ids (merge_removed st i v) = old_index_next_ids st.
Proof.
  unfold merge_removed. case_bool_decide; [done|]. by destruct (old_values st !! i).
Qed.

Lemma foldl_merge_old_value st (m : gmap oid V) j :
  let st' := foldl (λ a '(i, v), merge_old_value a i v) st (map_to_list m) in
  entry st' j = from_option (entry_modify (entry st j)) (entry st j) (m !! j)
  ∧ old_index_next_ids st' = old_index_next_ids st.
Proof.
  cbn zeta. rewrite <- (list_to_map_to_list m) at 2. apply foldl_local.
  - intros. apply entry_merge_old_value_eq.
  - intros b [i v]. apply note_modify_next.
  - apply NoDup_fst_map_to_list.
Qed.

Lemma foldl_merge_removed st (m : gmap oid V) j :
  let st' := foldl (λ a '(i, v), merge_removed a i v) st (map_to_list m) in
  entry st' j = from_option (entry_merge_removed (entry st j)) (entry st j) (m !! j)
  ∧ old_index_next_ids st' = old_index_next_ids st.
Proof.
  cbn zeta. rewrite <- (list_to_map_to_list m) at 2. apply foldl_local.
  - intros. apply entry_merge_removed_eq.
  - intros b [i v]. apply merge_removed_next.
  - apply NoDup_fst_map_to_list.
Qed.

Lemma foldl_merge_next_id st (m : gmap (Z * Z) Z) k :
  let st' := foldl (λ a '(k, n), merge_next_id a k n) st (map_to_list m) in
  old_index_next_ids st' !! k
    = from_option (λ n, Some (default n (old_index_next_ids st !! k)))
        (old_index_next_ids st !! k) (m !! k)
  ∧ entry st' = entry st.
Proof.
  cbn zeta. rewrite <- (list_to_map_to_list m) at 2.
  apply (foldl_local (λ st k, old_index_next_ids st !! k) entry
           (λ o n, Some (default n o))).
  - intros b i n j. unfold merge_next_id. destruct (old_index_next_ids b !! i) eqn:E; cbn.
    + case_decide; [by subst|done].
    + case_decide; [subst; by rewrite lookup_insert_eq|by rewrite lookup_insert_ne].
  - intros b [i n]. unfold merge_next_id. by destruct (old_index_next_ids b !! i).
  - apply NoDup_fst_map_to_list.
Qed.

(** The entries of a merged state, id by id: the 4x4 matrix in the comment of
    [merge]. *)
Definition entry_merge (a b : bool * option V * option V) : bool * option V * option V :=
  let '(nb, ob, rb) := b in
  let a1 := from_option (entry_modify a) a ob in
  let a2 := (a1.1.1 || nb, a1.1.2, a1.2) in
  from_option (entry_merge_removed a2) a2 rb.

Lemma merge_states_entry sa sb i :
  entry (merge_states sa sb) i = entry_merge (entry sa i) (entry sb i).
Proof.
  unfold merge_states.
  set (a1 := foldl (λ a '(i, v), merge_old_value a i v) sa (map_to_list (old_values sb))).
  cbn zeta. rewrite (proj1 (foldl_merge_removed _ _ i)).
  rewrite (proj2 (foldl_merge_next_id _ _ (0, 0))).
  pose proof (proj1 (foldl_merge_old_value sa (old_values sb) i)) as E1.
  cbn zeta in E1. fold a1 in E1. unfold entry_merge.
  replace (entry sb i) with (bool_decide (i ∈ new_ids sb), old_values sb !! i, removed sb !! i)
    by done. rewrite <- E1. unfold entry. cbn [new_ids old_values removed fst snd].
  assert (bool_decide (i ∈ new_ids a1 ∪ new_ids sb)
          = bool_decide (i ∈ new_ids a1) || bool_decide (i ∈ new_ids sb)) as ->.
  { rewrite <- bool_decide_or. apply bool_decide_ext. set_solver. }
  done.
Qed.

Lemma merge_states_next sa sb k :
  old_index_next_ids (merge_states sa sb) !! k
  = from_option (λ n, Some (default n (old_index_next_ids sa !! k)))
      (old_index_next_ids sa !! k) (old_index_next_ids sb !! k).
Proof.
  unfold merge_states. cbn zeta. rewrite (proj2 (foldl_merge_removed _ _ (0, 0, 0))).
  rewrite (proj1 (foldl_merge_next_id _ _ k)). cbn [old_index_next_ids].
  rewrite (proj2 (foldl_merge_old_value _ _ (0, 0, 0))). done.
Qed.

(** The cells marked N/A in the source cannot occur. *)
Lemma entry_merge_rel a b (o0 o1 o2 : option V) :
  (o1 = None → is_Some o2 → o0 = None) →
  entry_rel a o0 o1 → entry_rel b o1 o2 → entry_rel (entry_merge a b) o0 o2.
Proof.
  destruct a as [[[|] [|]] [|]], b as [[[|] [|]] [|]]; cbn; intros; try done;
    destruct_and?; repeat match goal with H : is_Some _ |- _ => destruct H end;
    simplify_eq; try naive_solver.
Qed.

Lemma next_rel_trans a b n0 n1 n2 :
  next_rel a n0 n1 → next_rel b n1 n2 →
  next_rel (from_option (λ n, Some (default n a)) a b) n0 n2.
Proof. destruct a, b, n0, n1, n2; cbn; naive_solver lia. Qed.

Lemma fresh_ids_trans (d0 d1 d2 : odb V) :
  (∀ k n1, next_ids d1 !! k = Some n1 → ∃ n0, next_ids d0 !! k = Some n0 ∧ n0 ≤ n1) →
  fresh_ids d0 d1 → fresh_ids d1 d2 → fresh_ids d0 d2.
Proof.
  intros Hn H01 H12 i Hi0 Hi2. destruct (objs d1 !! i) eqn:Hi1.
  - apply H01; eauto.
  - destruct (H12 i Hi1 Hi2) as (n1 & Hn1 & ?). destruct (Hn _ _ Hn1) as (n0 & ? & ?).
    exists n0. split; [done|lia].
Qed.

Lemma undo_rel_next_le st d0 d1 k n1 :
  undo_rel st d0 d1 → next_ids d1 !! k = Some n1 →
  ∃ n0, next_ids d0 !! k = Some n0 ∧ n0 ≤ n1.
Proof.
  intros (_ & _ & _ & Hn & _) Hk. specialize (Hn k). rewrite Hk in Hn.
  by apply next_rel_le in Hn.
Qed.

Lemma merge_states_rel sa sb d0 d1 d2 :
  undo_rel sa d0 d1 → undo_rel sb d1 d2 → undo_rel (merge_states sa sb) d0 d2.
Proof.
  intros Ra Rb. pose proof (undo_rel_next_le sa d0 d1) as Hle.
  pose proof Ra as (W0 & W1 & Ha & Na & Fa). destruct Rb as (_ & W2 & Hb & Nb & Fb).
  assert (fresh_ids d0 d2) as F2 by (eapply fresh_ids_trans; eauto).
  split_and!; [done|done|..|done].
  - intros i. rewrite merge_states_entry. apply (entry_merge_rel _ _ _ (objs d1 !! i)); [|done..].
    intros Hi1 Hi2. destruct (objs d0 !! i) eqn:Hi0; [|done].
    destruct (Fb i Hi1 Hi2) as (n1 & Hn1 & ?). destruct (W0 _ _ Hi0) as (n0 & Hn0 & ?).
    destruct (Hle _ _ Ra Hn1) as (n0' & ? & ?). simplify_eq. lia.
  - intros k. rewrite merge_states_next. by eapply next_rel_trans.
Qed.

(** ** The contract at work: operations on the undo database and on its snapshots *)
Inductive op :=
| OpStart
| OpCreate (k : Z * Z) (v : V)
| OpModify (i : oid) (m : V → V * result unit)
| OpRemove (i : oid)
| OpUndo
| OpMerge
| OpCommit
| OpPopCommit.

Definition run_op (o : op) u : result (undo_database V) :=
  match o with
  | OpStart => Ok (start_undo_session false u).2
  | OpCreate k v => r ← db_create k v u; Ok r.2
  | OpModify i m => r ← db_modify i m u; Ok r.2
  | OpRemove i => db_remove i u
  | OpUndo => undo u
  | OpMerge => merge u
  | OpCommit => commit u
  | OpPopCommit => pop_commit u
  end.

Definition abs_op (o : op) (a : abs (odb V)) : result (abs (odb V)) :=
  match o with
  | OpStart => Ok (a_start a)
  | OpCreate k v =>
      r ← idx_create k v (a_cur a); Ok (a_change r.2 a)
  | OpModify i m =>
      v ← get_object i (a_cur a); Ok (a_change (idx_set i (m v).1 (a_cur a)) a)
  | OpRemove i =>
      _ ← get_object i (a_cur a); Ok (a_change (idx_remove i (a_cur a)) a)
  | OpUndo => a_undo a
  | OpMerge => a_merge a
  | OpCommit => a_commit a
  | OpPopCommit => a_pop_commit a
  end.

(** The states of the stack lead from each database to the snapshot below. *)
Fixpoint chain (stack : list (undo_state V)) (snaps : list (odb V)) (d : odb V) : Prop :=
  match stack, snaps with
  | [], [] => True
  | st :: stack', d0 :: snaps' => undo_rel st d0 d ∧ chain stack' snaps' d0
  | _, _ => False
  end.

Definition refines u (a : abs (odb V)) : Prop :=
  _db u = a_cur a ∧ _disabled u = false ∧ _active_sessions u = a_active a ∧
  _max_size u = a_max a ∧ wf_db (_db u) ∧ chain (_stack u) (a_snaps a) (_db u).

Definition agree (r : result (undo_database V)) (r' : result (abs (odb V))) : Prop :=
  match r, r' with
  | Ok u', Ok a' => refines u' a'
  | Err e, Err e' => e = e'
  | _, _ => False
  end.

Lemma pop_front_take fuel max (s : list (undo_state V)) :
  (length s ≤ fuel)%nat → pop_front fuel max s = take max s.
Proof.
  revert s. induction fuel as [|fuel IH]; intros s Hs; cbn [pop_front].
  - destruct s; [by rewrite take_nil|cbn in Hs; lia].
  - case_bool_decide.
    + rewrite IH by (rewrite length_take; lia). rewrite take_take. f_equal. lia.
    + rewrite take_ge; [done|lia].
Qed.

Lemma chain_take n stack snaps d : chain stack snaps d → chain (take n stack) (take n snaps) d.
Proof.
  revert stack snaps d. induction n as [|n IH]; intros [|st stack] [|d0 snaps] d H; cbn in *; try done.
  destruct H. eauto.
Qed.

(** A change that the top of the stack takes note of. *)
Lemma refines_change u a f d' :
  refines u a →
  (∀ st d0, undo_rel st d0 (_db u) → undo_rel (f st) d0 d') →
  refines (set_db d' (set_stack (update_top f (_stack u)) u)) (a_change d' a).
Proof.
  intros (Hd & Hdis & Ha & Hm & Hw & Hc) Hf. pose proof (Hf _ _ (undo_rel_empty _ Hw)) as He.
  assert (wf_db d') as Hw' by (by destruct He as (_ & ? & _)).
  unfold refines, a_change. cbn. rewrite Hm.
  destruct (_stack u) as [|st stack], (a_snaps a) as [|d0 snaps]; cbn in Hc; try done; cbn.
  - rewrite <- Hd. split_and!; done.
  - destruct Hc as [H1 H2]. split_and!; try done. by apply Hf.
Qed.

Lemma refines_start u a :
  refines u a → agree (run_op OpStart u) (abs_op OpStart a).
Proof.
  intros (Hd & Hdis & Ha & Hm & Hw & Hc). cbn.
  unfold start_undo_session. rewrite Hdis. cbn.
  unfold refines; cbn. rewrite Hd, Ha, Hm in *. split_and!; try done.
  - by apply undo_rel_empty.
  - rewrite pop_front_take by done. by apply chain_take.
Qed.

Lemma refines_create k v u a :
  refines u a →
  agree (run_op (OpCreate k v) u) (abs_op (OpCreate k v) a).
Proof.
  intros HR. pose proof HR as (Hd & Hdis & _). cbn -[a_change agree]. unfold db_create.
  rewrite <- Hd. destruct (idx_create k v (_db u)) as [[i d]|e] eqn:E; cbn -[a_change]; [|done].
  unfold idx_create in E. monad_inv.
  destruct (objs (_db u) !! (k, x)) eqn:Eo; monad_inv. unfold on_create. cbn -[a_change]. rewrite Hdis.
  apply (refines_change u a (note_create (k, x))); [done|].
  intros st d0 Hst. by apply note_create_rel.
Qed.

Lemma refines_modify i m u a :
  refines u a →
  agree (run_op (OpModify i m) u) (abs_op (OpModify i m) a).
Proof.
  intros HR. pose proof HR as (Hd & Hdis & _). cbn -[a_change agree]. unfold db_modify.
  rewrite <- Hd. destruct (get_object i (_db u)) as [v|e] eqn:E; cbn -[a_change]; [|done].
  unfold get_object in E. monad_inv.
  destruct (m v) as [v' r]. unfold on_modify. rewrite Hdis. cbn -[a_change idx_set].
  apply (refines_change u a (note_modify i v)); [done|].
  intros st d0 Hst. by apply note_modify_rel.
Qed.

Lemma refines_remove i u a :
  refines u a →
  agree (run_op (OpRemove i) u) (abs_op (OpRemove i) a).
Proof.
  intros HR. pose proof HR as (Hd & Hdis & _). cbn -[a_change agree]. unfold db_remove.
  rewrite <- Hd. destruct (get_object i (_db u)) as [v|e] eqn:E; cbn -[a_change]; [|done].
  unfold get_object in E. monad_inv. unfold on_remove. rewrite Hdis. cbn -[a_change idx_remove].
  apply (refines_change u a (note_remove i v)); [done|].
  intros st d0 Hst. by apply note_remove_rel.
Qed.

Lemma refines_revert u a st stack :
  refines u a → _stack u = st :: stack →
  ∃ d snaps u', a_snaps a = d :: snaps ∧ revert_state st (disable u) = Ok u' ∧
    _db u' = d ∧ wf_db d ∧ chain stack snaps d ∧ same_frame (disable u) u'.
Proof.
  intros (Hd & Hdis & Ha & Hm & Hw & Hc) Es. rewrite Es in Hc.
  destruct (a_snaps a) as [|d snaps]; [done|]. destruct Hc as [Hst Hc].
  destruct (revert_state_restores st d (disable u)) as (u' & E & Hdb & HF); [done|done|].
  exists d, snaps, u'. split_and!; try done. by destruct Hst.
Qed.

Lemma refines_undo u a :
  refines u a →
  agree (run_op OpUndo u) (abs_op OpUndo a).
Proof.
  intros HR. pose proof HR as (Hd & Hdis & Ha & Hm & Hw & Hc). cbn. unfold undo, a_undo.
  rewrite Hdis, Ha. cbn. destruct (a_active a >? 0); cbn; [|done].
  destruct (_stack u) as [|st stack] eqn:Es.
  { by destruct (a_snaps a). }
  destruct (refines_revert u a st stack HR Es) as (d & snaps & u' & -> & -> & Hdb & Hwd & Hch & HF).
  destruct HF as (F1 & F2 & F3 & F4). cbn in *. unfold refines. cbn.
  rewrite Hdb, F1, F4. split_and!; done || lia.
Qed.

Lemma refines_pop_commit u a :
  refines u a →
  agree (run_op OpPopCommit u) (abs_op OpPopCommit a).
Proof.
  intros HR. pose proof HR as (Hd & Hdis & Ha & Hm & Hw & Hc). cbn. unfold pop_commit, a_pop_commit.
  rewrite Ha. destruct (a_active a =? 0); cbn; [|done].
  destruct (_stack u) as [|st stack] eqn:Es.
  { by destruct (a_snaps a). }
  destruct (refines_revert u a st stack HR Es) as (d & snaps & u' & -> & -> & Hdb & Hwd & Hch & HF).
  destruct HF as (F1 & F2 & F3 & F4). cbn in *. unfold refines. cbn.
  rewrite Hdb, F1, F4. done.
Qed.

Lemma refines_merge u a :
  refines u a →
  agree (run_op OpMerge u) (abs_op OpMerge a).
Proof.
  intros (Hd & Hdis & Ha & Hm & Hw & Hc). cbn. unfold merge, a_merge. rewrite Ha.
  destruct (a_active a >? 0); cbn; [|done].
  destruct (_stack u) as [|s1 [|s2 stack]], (a_snaps a) as [|d1 [|d2 snaps]]; cbn in Hc; try tauto.
  - done.
  - destruct (a_active a =? 1) eqn:E1; [|done]. bool_to_prop. unfold agree, refines. cbn.
    split_and!; done || lia.
  - destruct Hc as (H1 & H2 & Hc). unfold agree, refines. cbn. split_and!; try done || lia.
    by eapply merge_states_rel.
Qed.

Lemma refines_commit u a :
  refines u a →
  agree (run_op OpCommit u) (abs_op OpCommit a).
Proof.
  intros (Hd & Hdis & Ha & Hm & Hw & Hc). cbn. unfold commit, a_commit. rewrite Ha.
  destruct (a_active a >? 0); cbn; [|done]. unfold agree, refines. cbn. split_and!; done || lia.
Qed.

Lemma run_op_refines o u a : refines u a → agree (run_op o u) (abs_op o a).
Proof.
  destruct o; auto using refines_start, refines_create, refines_modify, refines_remove,
    refines_undo, refines_merge, refines_commit, refines_pop_commit.
Qed.

Definition run_ops (l : list op) u : result (undo_database V) := fold_result (λ u o, run_op o u) u l.
Definition abs_ops (l : list op) (a : abs (odb V)) : result (abs (odb V)) := fold_result (λ a o, abs_op o a) a l.

Lemma run_ops_refines l u a : refines u a → agree (run_ops l u) (abs_ops l a).
Proof.
  revert u a. induction l as [|o l IH]; intros u a HR; [done|].
  unfold run_ops, abs_ops. cbn [fold_result]. pose proof (run_op_refines o u a HR) as H1.
  destruct (run_op o u) as [u'|e], (abs_op o a) as [a'|e']; cbn in H1 |- *; try done.
  by apply IH.
Qed.

(** A database with no history yet. *)
Lemma refines_init d max :
  wf_db d → refines (UndoDatabase d 0 false [] max) (Abs d [] 0 max).
Proof. intros. unfold refines. cbn. done. Qed.

(** C1: The undo history behaves as a stack of snapshots.  Whatever sequence of
    creations, modifications (of which the callback may throw), removals,
    session starts, undos, merges, commits and popped commits is run from a
    well-formed database, the undo database succeeds exactly when the machine
    that keeps whole copies of the database does, throws the same exception
    otherwise, and ends in the same database; the deltas it keeps are enough to
    restore every snapshot. *)
Theorem undo_refines_snapshots (l : list op) (d : odb V) (max : nat) :
  wf_db d →
  match run_ops l (UndoDatabase d 0 false [] max), abs_ops l (Abs d [] 0 max) with
  | Ok u, Ok a => _db u = a_cur a ∧ _active_sessions u = a_active a
                  ∧ chain (_stack u) (a_snaps a) (_db u) ∧ wf_db (_db u)
  | Err e, Err e' => e = e'
  | _, _ => False
  end.
Proof.
  intros Hw. pose proof (run_ops_refines l _ _ (refines_init d max Hw)) as H.
  destruct (run_ops _ _), (abs_ops _ _); try done. destruct H as (H1 & _ & H2 & _ & H3 & H4). done.
Qed.

(** Sequences of changes inside one session. *)
Definition change_op (o : op) : bool :=
  match o with OpCreate _ _ | OpModify _ _ | OpRemove _ => true | _ => false end.

Lemma abs_changes l a a' :
  Forall (λ o, change_op o = true) l → a_snaps a ≠ [] → abs_ops l a = Ok a' →
  a_snaps a' = a_snaps a ∧ a_active a' = a_active a ∧ a_max a' = a_max a.
Proof.
  revert a. induction l as [|o l IH]; intros a Hl Hs; [by intros [= <-]|].
  apply Forall_cons in Hl as [Ho Hl]. unfold abs_ops. cbn [fold_result].
  destruct (abs_op o a) as [a1|] eqn:E1; [|done]. intros H.
  assert (a_snaps a1 = a_snaps a ∧ a_active a1 = a_active a ∧ a_max a1 = a_max a) as (S1 & A1 & M1).
  { destruct o; try done; cbn -[idx_create get_object a_change] in E1; monad_inv; cbn;
      by destruct (a_snaps a). }
  destruct (IH a1 Hl ltac:(congruence) H) as (-> & -> & ->). done.
Qed.

(** A session that is undone leaves no trace: after any sequence of
    creations, modifications and removals made in it, [undo] succeeds and the
    objects and the id counters are what they were when the session was
    opened, and so are the earlier sessions. *)
Theorem session_undo_restores (l : list op) u a u1 :
  refines u a → Forall (λ o, change_op o = true) l → 0 ≤ _active_sessions u < uint32_max →
  run_ops l (start_undo_session false u).2 = Ok u1 →
  ∃ u2, undo u1 = Ok u2 ∧ _db u2 = _db u ∧ _active_sessions u2 = _active_sessions u
    ∧ refines u2 (Abs (a_cur a) (take (a_max a) (a_snaps a)) (a_active a) (a_max a)).
Proof.
  intros HR Hl Hact Hrun. pose proof (refines_start u a HR) as Hs. cbn in Hs.
  pose proof (run_ops_refines l _ _ Hs) as H1. rewrite Hrun in H1.
  destruct (abs_ops l _) as [a1|] eqn:E1; [|done]. cbn in H1.
  apply abs_changes in E1 as (S1 & A1 & M1); [|done|done]. cbn in S1, A1, M1.
  pose proof (refines_undo u1 a1 H1) as H2. cbn in H2. unfold a_undo in H2. rewrite S1, A1, M1 in H2.
  destruct HR as (Hd & _ & Ha & _).
  assert (u32 (a_active a + 1) = a_active a + 1) as Eu.
  { unfold_widths. apply Z.mod_small. lia. }
  rewrite Eu in H2. destruct (a_active a + 1 >? 0) eqn:Eg; [|lia]. cbn in H2.
  destruct (undo u1) as [u2|e]; [|done]. exists u2.
  replace (a_active a + 1 - 1) with (a_active a) in H2 by lia.
  split; [done|]. split_and!; [..|exact H2]; destruct H2 as (E2 & _ & E3 & _); cbn in *; congruence.
Qed.

(** Merging two undo states composes them: if the older state leads from
    [d1] back to [d0] and the newer one from [d2] back to [d1], the merged state
    leads from [d2] back to [d0], and reverting it from [d2] succeeds and gives
    [d0].  The cells marked N/A in the table of the source never occur. *)
Theorem merge_states_composes sa sb (d0 d1 d2 : odb V) u :
  undo_rel sa d0 d1 → undo_rel sb d1 d2 → _disabled u = true → _db u = d2 →
  (∀ i, entry (merge_states sa sb) i = entry_merge (entry sa i) (entry sb i)) ∧
  ∃ u', revert_state (merge_states sa sb) u = Ok u' ∧ _db u' = d0.
Proof.
  intros Ha Hb Hd <-. split; [apply merge_states_entry|].
  destruct (revert_state_restores (merge_states sa sb) d0 u) as (u' & ? & ? & _); [done| |eauto].
  by eapply merge_states_rel.
Qed.

End undo_proofs.
Arguments op : clear implicits.

(** ** The properties at a concrete database *)
Definition ex_db : odb Z :=
  Odb {[ ((1, 2), 0) := 10; ((1, 2), 1) := 11 ]} {[ (1, 2) := 2; (1, 3) := 0 ]}.
Definition ex_ops : list (op Z) :=
  [OpCreate (1, 2) 12; OpModify ((1, 2), 0) (λ v, (v + 1, Err assert_exception));
   OpRemove ((1, 2), 0); OpRemove ((1, 2), 1); OpCreate (1, 3) 5].

Lemma ex_db_wf : wf_db ex_db.
Proof.
  intros i v Hi. unfold ex_db in Hi. cbn [objs] in Hi.
  apply lookup_insert_Some in Hi as [[<- _]|[_ Hi]].
  - exists 2. by vm_compute.
  - apply lookup_singleton_Some in Hi as [<- _]. exists 2. by vm_compute.
Qed.

Lemma undo_refines_snapshots_witness :
  wf_db ex_db ∧
  match run_ops (OpStart :: ex_ops ++ [OpStart; OpMerge; OpUndo]) (UndoDatabase ex_db 0 false [] 8) with
  | Ok u => _db u = ex_db
  | Err _ => False
  end.
Proof.
  split; [apply ex_db_wf|].
  pose proof (undo_refines_snapshots (OpStart :: ex_ops ++ [OpStart; OpMerge; OpUndo]) ex_db 8 ex_db_wf) as H.
  destruct (run_ops _ _).
  - destruct (abs_ops _ _) eqn:E; [|done]. destruct H as [-> _]. vm_compute in E. by injection E as <-.
  - destruct (abs_ops _ _) eqn:E; [done|]. by vm_compute in E.
Defined.

Definition ex_changed : undo_database Z :=
  match run_ops ex_ops (start_undo_session false (UndoDatabase ex_db 0 false [] 8)).2 with
  | Ok u => u
  | Err _ => UndoDatabase ex_db 0 false [] 8
  end.

Lemma session_undo_restores_witness :
  refines (UndoDatabase ex_db 0 false [] 8) (Abs ex_db [] 0 8) ∧
  ∃ u2, undo ex_changed = Ok u2 ∧ _db u2 = ex_db.
Proof.
  pose proof (refines_init ex_db 8 ex_db_wf) as HR. split; [exact HR|].
  destruct (session_undo_restores ex_ops (UndoDatabase ex_db 0 false [] 8) (Abs ex_db [] 0 8)
              ex_changed HR) as (u2 & H1 & H2 & _).
  - by repeat constructor.
  - by vm_compute.
  - by vm_compute.
  - exists u2. split; [exact H1|exact H2].
Defined.

Lemma merge_states_composes_witness :
  ∃ sa sb d1 u, undo_rel sa ex_db d1 ∧ undo_rel sb d1 (_db u) ∧ _disabled u = true ∧
  ∃ u', revert_state (merge_states sa sb) u = Ok u' ∧ _db u' = ex_db.
Proof.
  pose proof (note_create_rel empty_state ex_db ex_db (1, 2) 2 7 (undo_rel_empty _ ex_db_wf) eq_refl) as Ha.
  pose proof (note_remove_rel empty_state _ _ ((1, 2), 0) 10
    (undo_rel_empty _ ltac:(by destruct Ha as (_ & ? & _))) eq_refl) as Hb.
  eexists _, _, _, (UndoDatabase _ 0 true [] 8). split; [exact Ha|]. split; [exact Hb|].
  split; [done|].
  exact (proj2 (merge_states_composes _ _ _ _ _ (UndoDatabase _ 0 true [] 8) Ha Hb eq_refl eq_refl)).
Defined.
