(* ===== verification/Authority.v ===== *)
(** * Authorities and signatures: protocol/authority.hpp, protocol/transaction.cpp

    Weighted authorities over keys, addresses and accounts, and the check that
    the signatures of a transaction satisfy the authorities its operations
    require.  A key and an address are numbers that respect the order of the
    source's types; the addresses a key stands for (hashes of the key) are a
    parameter.  A [flat_map] is a list in the order of its keys, because the order
    in which members are looked at decides which signatures count as used. *)

From S2P Require Import Prelude.

(** ** Data *)
Record authority := Authority {
  weight_threshold : Z;
  account_auths : list (Z * Z);
  key_auths : list (Z * Z);
  address_auths : list (Z * Z)
}.

Definition GRAPHENE_MAX_SIG_CHECK_DEPTH : nat := 2.

Definition sum_weights (l : list (Z * Z)) : Z := foldr Z.add 0 l.*2.
Definition is_impossible (a : authority) : bool :=
  u64 (sum_weights (account_auths a) + sum_weights (key_auths a) + sum_weights (address_auths a))
  <? weight_threshold a.
Definition num_auths (a : authority) : nat :=
  length (account_auths a) + length (key_auths a) + length (address_auths a).
Definition null_authority : authority := Authority 1 [(3, 1)] [] [].
Definition add_authority_accounts (result : gset Z) (a : authority) : gset Z :=
  result ∪ list_to_set (account_auths a).*1.

(** The mutable part of [sign_state]; the address maps are filled on first use. *)
Record sign_state := SignState {
  provided_signatures : gmap Z bool;
  approved_by : gset Z;
  address_sigs : option (gmap Z Z * gmap Z Z)
}.

(** The constant part.  The two callbacks give the authority of an account; for an
    account they do not know, [None], a callback either throws, as those of the chain
    do when they look the account up, or returns a null pointer. *)
Record sign_context := SignContext {
  get_active : Z → option authority;
  get_owner : Z → option authority;
  allow_non_immediate_owner : bool;
  max_recursion : nat;
  unknown_throws : bool
}.

Section sign.
(** [address( pts_address( k, ... ) )] for the four kinds and [address( k )]. *)
Context (key_addresses : Z → list Z).
(** [available_keys]: keys that could sign, besides those that did. *)
Context (ctx : sign_context) (available_keys : gset Z).

Definition mark (k : Z) : M sign_state unit :=
  puts (λ s, SignState (<[k := true]> (provided_signatures s)) (approved_by s) (address_sigs s)).

Definition signed_by (k : Z) : M sign_state bool :=
  s ← gets id;
  match provided_signatures s !! k with
  | None => if bool_decide (k ∈ available_keys) then mark k;; mret true else mret false
  | Some _ => mark k;; mret true
  end.

(** [for( item : keys ) sigs[ address ] = item]: later keys overwrite. *)
Definition address_map (keys : list Z) : gmap Z Z :=
  foldl (λ m k, foldl (λ m a, <[a := k]> m) m (key_addresses k)) ∅ keys.

(** The address maps: of the available keys and of the provided signatures. *)
Definition get_address_sigs : M sign_state (gmap Z Z * gmap Z Z) :=
  s ← gets id;
  match address_sigs s with
  | Some m => mret m
  | None =>
      let m := (address_map (merge_sort Z.le (elements (available_keys))),
                address_map (merge_sort Z.le (elements (dom (provided_signatures s))))) in
      puts (λ s, SignState (provided_signatures s) (approved_by s) (Some m));;
      mret m
  end.

Definition signed_by_address (a : Z) : M sign_state bool :=
  m ← get_address_sigs;
  let '(available, provided) := m in
  match provided !! a with
  | None =>
      match available !! a with
      | Some k => if bool_decide (k ∈ available_keys) then mark k;; mret true else mret false
      | None => throw undefined_behaviour
      end
  | Some k => mark k;; mret true
  end.

(** One of the three loops of [check_authority]: whether the threshold is reached
    and the weight so far. *)
Fixpoint weigh (check : Z → M sign_state bool) (threshold : Z) (l : list (Z * Z)) (total_weight : Z)
    : M sign_state (bool * Z) :=
  match l with
  | [] => mret (false, total_weight)
  | (k, w) :: l =>
      ok ← check k;
      if ok : bool then
        let total_weight := u32 (total_weight + w) in
        if total_weight >=? threshold then mret (true, total_weight)
        else weigh check threshold l total_weight
      else weigh check threshold l total_weight
  end.

Definition approve (a : Z) : M sign_state unit :=
  puts (λ s, SignState (provided_signatures s) ({[ a ]} ∪ approved_by s) (address_sigs s)).

(** A member account: approved already, or by its active or owner authority one
    level down; [deeper] is [None] at the maximal depth. *)
Definition check_member (deeper : option (option authority → M sign_state bool)) (a : Z)
    : M sign_state bool :=
  s ← gets id;
  if bool_decide (a ∈ approved_by s) then mret true
  else
    match deeper with
    | None => mret false
    | Some check =>
        ok ← check (get_active ctx a);
        ok ← (if ok : bool then mret true
              else if allow_non_immediate_owner ctx then check (get_owner ctx a)
              else mret false);
        (if ok : bool then approve a else mret tt);;
        mret ok
    end.

(** [check_authority( au, depth )] with [levels] levels to go; [au] is [None] for what
    a callback gives for an unknown account. *)
Fixpoint check_authority_at (levels : nat) (au : option authority) : M sign_state bool :=
  match au with
  | None => if unknown_throws ctx then throw assert_exception else mret false
  | Some auth =>
      r ← weigh signed_by (weight_threshold auth) (key_auths auth) 0;
      let '(done, total_weight) := r : bool * Z in
      if done then mret true
      else
        r ← weigh signed_by_address (weight_threshold auth) (address_auths auth) total_weight;
        let '(done, total_weight) := r : bool * Z in
        if done then mret true
        else
          r ← weigh (check_member (match levels with
                                   | O => None
                                   | S levels => Some (check_authority_at levels)
                                   end))
                (weight_threshold auth) (account_auths auth) total_weight;
          let '(done, total_weight) := r : bool * Z in
          if done then mret true
          else mret (total_weight >=? weight_threshold auth)
  end.
Definition check_authority (au : option authority) : M sign_state bool :=
  check_authority_at (max_recursion ctx) au.

(** [check_authority( account_id )]. *)
Definition check_account (id : Z) : M sign_state bool :=
  s ← gets Datatypes.id;
  if bool_decide (id ∈ approved_by s) then mret true
  else
    ok ← check_authority (get_active ctx id);
    if ok : bool then mret true
    else if allow_non_immediate_owner ctx then check_authority (get_owner ctx id)
    else mret false.

Definition remove_unused_signatures : M sign_state bool :=
  s ← gets id;
  let used := filter (λ x : Z * bool, x.2 = true) (provided_signatures s) in
  puts (λ s, SignState used (approved_by s) (address_sigs s));;
  mret (negb (size used =? size (provided_signatures s))%nat).

Definition init_sign_state (sigs : gset Z) : sign_state :=
  SignState (gset_to_gmap false sigs) {[ 4 ]} None.

End sign.

(** ** Verification of the required authorities

    The accounts and authorities the operations require are arguments;
    [Operations] computes them. *)
Section verify.
Context (key_addresses : Z → list Z).

(** [for( x : l ) GRAPHENE_ASSERT( check( x ), e, ... )]; the message of the
    exception reads the authorities of the account. *)
Fixpoint require_all {A} (check : A → M sign_state bool) (fail : A → exn) (l : list A) : M sign_state unit :=
  match l with
  | [] => mret tt
  | x :: l =>
      ok ← check x;
      if ok : bool then require_all check fail l else throw (fail x)
  end.

Definition unknown_account (ctx : sign_context) : exn :=
  if unknown_throws ctx then assert_exception else undefined_behaviour.
Definition missing_owner (ctx : sign_context) (id : Z) : exn :=
  match get_owner ctx id with Some _ => tx_missing_owner_auth | None => unknown_account ctx end.
Definition missing_active (ctx : sign_context) (id : Z) : exn :=
  match get_active ctx id, get_owner ctx id with
  | Some _, Some _ => tx_missing_active_auth
  | _, _ => unknown_account ctx
  end.

Definition check_owner (ctx : sign_context) (keys owner_approvals : gset Z) (id : Z) : M sign_state bool :=
  if bool_decide (id ∈ owner_approvals) then mret true
  else check_authority key_addresses ctx keys (get_owner ctx id).
Definition check_active (ctx : sign_context) (keys : gset Z) (id : Z) : M sign_state bool :=
  ok ← check_account key_addresses ctx keys id;
  if ok : bool then mret true else check_authority key_addresses ctx keys (get_owner ctx id).

Definition verify_authority (required_active required_owner : list Z) (other : list authority)
    (sigs : gset Z) (ctx : sign_context) (allow_committee : bool) (active_approvals owner_approvals : gset Z)
    : result unit :=
  (if allow_committee then Ok tt
   else graphene_assert (negb (bool_decide (0 ∈ required_active))) invalid_committee_approval);;
  let s := init_sign_state sigs in
  let s := SignState (provided_signatures s) (active_approvals ∪ owner_approvals ∪ approved_by s) None in
  r ← (require_all (λ au, check_authority key_addresses ctx ∅ (Some au)) (λ _, tx_missing_other_auth) other;;
       require_all (check_owner ctx ∅ owner_approvals) (missing_owner ctx) required_owner;;
       require_all (check_active ctx ∅) (missing_active ctx) required_active;;
       removed ← remove_unused_signatures;
       lift (graphene_assert (negb removed) tx_irrelevant_sig)) s;
  let '(_, _) := r : unit * sign_state in Ok tt.

(** [get_signature_keys]: the keys recovered from the signatures, all different. *)
Fixpoint get_signature_keys (recovered : list Z) (result : gset Z) : Prelude.result (gset Z) :=
  match recovered with
  | [] => Ok result
  | k :: l => if bool_decide (k ∈ result) then Err tx_duplicate_sig else get_signature_keys l ({[ k ]} ∪ result)
  end.

(** Runs the checks of [l] for their effect on the signatures. *)
Fixpoint run_all {A} (check : A → M sign_state bool) (l : list A) : M sign_state unit :=
  match l with [] => mret tt | x :: l => _ ← check x; run_all check l end.

(** [transaction::get_required_authorities]: owners need no active authority. *)
Definition erase_owners (active owner : list Z) : list Z := filter (λ id : Z, id ∉ owner) active.

Definition get_required_signatures (required_active required_owner : list Z) (other : list authority)
    (recovered : list Z) (available_keys : gset Z) (ctx : sign_context) : result (gset Z) :=
  signature_keys ← get_signature_keys recovered ∅;
  r ← (run_all (λ au, check_authority key_addresses ctx available_keys (Some au)) other;;
       run_all (λ id, check_authority key_addresses ctx available_keys (get_owner ctx id)) required_owner;;
       run_all (check_active ctx available_keys) (erase_owners required_active required_owner);;
       remove_unused_signatures) (init_sign_state signature_keys);
  let '(_, s) := r : bool * sign_state in
  Ok (filter (λ k : Z, k ∈ available_keys ∧ k ∉ signature_keys) (dom (provided_signatures s))).

(** The constant part with another owner rule and depth. *)
Definition with_rules (allow : bool) (depth : nat) (ctx : sign_context) : sign_context :=
  SignContext (get_active ctx) (get_owner ctx) allow depth (unknown_throws ctx).

(** Drops every key without which the authorities are still satisfied. *)
Fixpoint minimize_loop (verify : gset Z → result unit) (ks : list Z) (result : gset Z) : Prelude.result (gset Z) :=
  match ks with
  | [] => Ok result
  | k :: ks =>
      match verify (result ∖ {[ k ]}) with
      | Ok _ => minimize_loop verify ks (result ∖ {[ k ]})
      | Err tx_missing_owner_auth | Err tx_missing_active_auth | Err tx_missing_other_auth =>
          minimize_loop verify ks ({[ k ]} ∪ result)
      | Err e => Err e
      end
  end.

(** The call of [get_required_signatures] passes [max_recursion] where the owner
    rule is expected. *)
Definition minimize_required_signatures (required_active required_owner : list Z) (other : list authority)
    (recovered : list Z) (available_keys : gset Z) (ctx : sign_context) : result (gset Z) :=
  s ← get_required_signatures required_active required_owner other recovered available_keys
        (with_rules (negb (max_recursion ctx =? 0)%nat) GRAPHENE_MAX_SIG_CHECK_DEPTH ctx);
  minimize_loop
    (λ sigs, verify_authority required_active required_owner other sigs ctx false ∅ ∅)
    (merge_sort Z.le (elements s)) s.

End verify.

Lemma gets_bind {S A B} (f : S → A) (g : A → M S B) s : (gets f ≫= g) s = g (f s) s.
Proof. reflexivity. Qed.

Lemma M_ret_bind {S A B} (a : A) (f : A → M S B) : (mret a ≫= f) = f a.
Proof. reflexivity. Qed.

(** ** What an authority means *)
Definition wf_weights (l : list (Z * Z)) : Prop := Forall (λ x, 0 ≤ x.2) l.
(** Weights are unsigned and their sum fits 32 bits. *)
Definition wf_authority (au : authority) : Prop :=
  wf_weights (key_auths au) ∧ wf_weights (address_auths au) ∧ wf_weights (account_auths au) ∧
  sum_weights (key_auths au) + sum_weights (address_auths au) + sum_weights (account_auths au) ≤ uint32_max.

Section meaning.
Context (key_addresses : Z → list Z) (ctx : sign_context) (available_keys : gset Z).
Context (sigs approved : gset Z).

Definition signable (k : Z) : Prop := k ∈ sigs ∨ k ∈ available_keys.
Definition addr_ok (a : Z) : Prop := ∃ k, signable k ∧ a ∈ key_addresses k.

(** An authority is satisfied when satisfied members of enough weight exist; an
    account is satisfied by its active or, where allowed, its owner authority. *)
Inductive auth_ok : authority → Prop :=
| auth_ok_intro au ks ads acs :
    ks `sublist_of` key_auths au → ads `sublist_of` address_auths au → acs `sublist_of` account_auths au →
    (∀ x, x ∈ ks → signable x.1) → (∀ x, x ∈ ads → addr_ok x.1) → (∀ x, x ∈ acs → acct_ok x.1) →
    weight_threshold au ≤ sum_weights ks + sum_weights ads + sum_weights acs → auth_ok au
with acct_ok : Z → Prop :=
| acct_ok_approved a : a ∈ approved → acct_ok a
| acct_ok_active a au : get_active ctx a = Some au → auth_ok au → acct_ok a
| acct_ok_owner a au :
    allow_non_immediate_owner ctx = true → get_owner ctx a = Some au → auth_ok au → acct_ok a.

(** The same with a bound on the nesting of accounts, for authorities over keys
    and accounts. *)
Fixpoint auth_within (n : nat) (au : option authority) : Prop :=
  match au with
  | None => False
  | Some au => ∃ ks acs,
      ks `sublist_of` key_auths au ∧ acs `sublist_of` account_auths au ∧
      (∀ x, x ∈ ks → signable x.1) ∧
      (∀ x, x ∈ acs → x.1 ∈ approved ∨
         match n with
         | O => False
         | S n => auth_within n (get_active ctx x.1)
                  ∨ allow_non_immediate_owner ctx = true ∧ auth_within n (get_owner ctx x.1)
         end) ∧
      weight_threshold au ≤ sum_weights ks + sum_weights acs
  end.

(** ** Soundness *)
Record good (s : sign_state) : Prop := {
  gd_sigs : dom (provided_signatures s) ⊆ sigs ∪ available_keys;
  gd_all : sigs ⊆ dom (provided_signatures s);
  gd_base : approved ⊆ approved_by s;
  gd_approved : ∀ a, a ∈ approved_by s → acct_ok a;
  gd_address : ∀ av pr, address_sigs s = Some (av, pr) → ∀ a k,
    av !! a = Some k ∨ pr !! a = Some k → signable k ∧ a ∈ key_addresses k
}.

Definition sound {A} (m : M sign_state A) (Q : A → Prop) : Prop :=
  ∀ s r s', good s → m s = Ok (r, s') → good s' ∧ Q r.

Lemma sound_ret {A} (a : A) (Q : A → Prop) : Q a → sound (mret a) Q.
Proof. intros HQ s r s' G [= <- <-]. done. Qed.
Lemma sound_bind {A B} (m : M sign_state A) (f : A → M sign_state B) (Q : A → Prop) (R : B → Prop) :
  sound m Q → (∀ a, Q a → sound (f a) R) → sound (m ≫= f) R.
Proof.
  intros H1 H2 s r s' G E. apply M_bind_Ok in E as (a & s1 & E1 & E2).
  destruct (H1 _ _ _ G E1) as [G1 Qa]. exact (H2 a Qa _ _ _ G1 E2).
Qed.

Lemma sound_mark k : signable k → sound (mark k) (λ _, True).
Proof.
  intros Hk s r s' G [= <- <-]. split; [|done]. destruct G as [G1 G2 G3 G4 G5]. split; cbn; try done.
  - rewrite dom_insert_L. unfold signable in Hk. set_solver.
  - rewrite dom_insert_L. set_solver.
Qed.

Lemma sound_mark_true k (P : Prop) : signable k → P → sound (mark k;; mret true) (λ r, r = true → P).
Proof. intros Hk HP. eapply sound_bind; [by apply sound_mark|]. intros _ _. by apply sound_ret. Qed.

Lemma sound_signed_by k : sound (signed_by available_keys k) (λ r, r = true → signable k).
Proof.
  intros s r s' G E. unfold signed_by in E. apply M_bind_Ok in E as (s0 & s1 & [= <- <-] & E). cbn in E.
  destruct (provided_signatures s !! k) as [b|] eqn:Ek.
  - assert (signable k) as Hk.
    { apply elem_of_dom_2 in Ek. apply (gd_sigs _ G) in Ek. unfold signable. set_solver. }
    exact (sound_mark_true k (signable k) Hk Hk s r s' G E).
  - case_bool_decide as Ha; [|by injection E as <- <-].
    assert (signable k) as Hk by (by right).
    exact (sound_mark_true k (signable k) Hk Hk s r s' G E).
Qed.

Lemma address_map_spec keys a k :
  address_map key_addresses keys !! a = Some k → k ∈ keys ∧ a ∈ key_addresses k.
Proof.
  unfold address_map.
  assert (∀ l (m : gmap Z Z) k0, (foldl (λ m a, <[a:=k0]> m) m l) !! a = Some k →
    k = k0 ∧ a ∈ l ∨ m !! a = Some k) as Hin.
  { induction l as [|x l IH]; intros m k0 E; cbn in E; [by right|].
    apply IH in E as [[-> Ha]|E]; [left; set_solver|].
    apply lookup_insert_Some in E as [[-> ->]|[_ E]]; [left; set_solver|by right]. }
  assert (∀ l (m : gmap Z Z), (foldl (λ m k, foldl (λ m a, <[a:=k]> m) m (key_addresses k)) m l) !! a = Some k →
    k ∈ l ∧ a ∈ key_addresses k ∨ m !! a = Some k) as Hout.
  { induction l as [|x l IH]; intros m E; cbn in E; [by right|].
    apply IH in E as [[Hk Ha]|E]; [left; set_solver|].
    apply Hin in E as [[-> Ha]|E]; [left; set_solver|by right]. }
  intros E. apply Hout in E as [?|E]; [done|]. by rewrite lookup_empty in E.
Qed.

Lemma sound_address_sigs :
  sound (get_address_sigs key_addresses available_keys)
    (λ m, ∀ a k, m.1 !! a = Some k ∨ m.2 !! a = Some k → signable k ∧ a ∈ key_addresses k).
Proof.
  intros s r s' G E. unfold get_address_sigs in E. apply M_bind_Ok in E as (s0 & s1 & [= <- <-] & E).
  cbn in E. destruct (address_sigs s) as [[av pr]|] eqn:Ea.
  - injection E as <- <-. split; [done|]. cbn. by apply (gd_address _ G).
  - set (av := address_map _ _) in E. set (pr := address_map _ _) in E. injection E as <- <-.
    assert (∀ a k, av !! a = Some k ∨ pr !! a = Some k → signable k ∧ a ∈ key_addresses k) as Hm.
    { unfold av, pr. intros a k [E|E]; apply address_map_spec in E as [Hk Ha]; split; try done;
        rewrite merge_sort_Permutation, elem_of_elements in Hk; unfold signable; [by right|].
      apply (gd_sigs _ G) in Hk. set_solver. }
    split; [|done]. destruct G. split; cbn; try done. intros ?? [= <- <-]. done.
Qed.

Lemma sound_signed_by_address a :
  sound (signed_by_address key_addresses available_keys a) (λ r, r = true → addr_ok a).
Proof.
  unfold signed_by_address. eapply sound_bind; [apply sound_address_sigs|]. intros [av pr] Hm. cbn in Hm.
  destruct (pr !! a) as [k|] eqn:E1.
  - destruct (Hm a k (or_intror E1)) as [Hk Ha]. apply sound_mark_true; [done|by exists k].
  - destruct (av !! a) as [k|] eqn:E2; [|by intros s r s' _].
    destruct (Hm a k (or_introl E2)) as [Hk Ha]. case_bool_decide; [|by apply sound_ret].
    apply sound_mark_true; [done|by exists k].
Qed.

Lemma sum_weights_cons x l : sum_weights (x :: l) = x.2 + sum_weights l.
Proof. done. Qed.
Lemma sum_weights_nonneg l : wf_weights l → 0 ≤ sum_weights l.
Proof. induction 1; [done|]. rewrite sum_weights_cons. lia. Qed.

Lemma sound_weigh (check : Z → M sign_state bool) (P : Z → Prop) th l :
  (∀ k, sound (check k) (λ r, r = true → P k)) → wf_weights l →
  ∀ w, 0 ≤ w → sound (weigh check th l w) (λ r, 0 ≤ r.2 ∧ (r.1 = true → th ≤ r.2) ∧
    ∃ sub, sub `sublist_of` l ∧ (∀ x, x ∈ sub → P x.1) ∧ r.2 ≤ w + sum_weights sub).
Proof.
  intros Hc. induction l as [|[k x] l IH]; intros Hl w Hw; cbn.
  { apply sound_ret. cbn. split_and!; [done|done|]. exists []. split_and!; [done|set_solver|cbn; lia]. }
  apply Forall_cons in Hl as [Hx Hl]. cbn in Hx. eapply sound_bind; [apply Hc|]. intros [] Hk.
  - assert (0 ≤ u32 (w + x) ≤ w + x) as Hu by (unfold u32; split; [apply Z.mod_pos_bound|apply Z.mod_le]; lia).
    specialize (Hk eq_refl). destruct (u32 (w + x) >=? th) eqn:Et.
    + apply sound_ret. cbn. bool_to_prop. split_and!; [lia|lia|]. exists [(k, x)].
      split_and!; [by apply sublist_skip, sublist_nil_l| |cbn; lia].
      intros y Hy. apply list_elem_of_singleton in Hy as ->. done.
    + intros s r s' G E. destruct (IH Hl (u32 (w + x)) (proj1 Hu) s r s' G E) as (G' & H0 & H1 & sub & Hs & HP & Hr).
      split; [done|]. split_and!; [done|done|]. exists ((k, x) :: sub).
      split_and!; [by apply sublist_skip| |rewrite sum_weights_cons; cbn; lia].
      intros y [->|Hy]%elem_of_cons; [done|by apply HP].
  - intros s r s' G E. destruct (IH Hl w Hw s r s' G E) as (G' & H0 & H1 & sub & Hs & HP & Hr).
    split; [done|]. split_and!; [done|done|]. exists sub. split_and!; [by apply sublist_cons|done|lia].
Qed.

(** The authorities of the accounts are well formed. *)
Hypothesis accounts_wf : ∀ a au, get_active ctx a = Some au ∨ get_owner ctx a = Some au → wf_authority au.

Definition auth_approved (o : option authority) : Prop := ∃ au, o = Some au ∧ auth_ok au.

Lemma sound_check_member deeper a :
  (∀ check o, deeper = Some check → from_option wf_authority True o →
     sound (check o) (λ r, r = true → auth_approved o)) →
  sound (check_member ctx deeper a) (λ r, r = true → acct_ok a).
Proof.
  intros Hd s r s' G E. unfold check_member in E. apply M_bind_Ok in E as (s0 & s1 & [= <- <-] & E). cbn in E.
  case_bool_decide as Ha.
  { injection E as <- <-. split; [done|]. intros _. by apply (gd_approved _ G). }
  destruct deeper as [check|]; [|by injection E as <- <-].
  assert (∀ o, from_option wf_authority True o → sound (check o) (λ r, r = true → auth_approved o)) as Hc by eauto.
  clear Ha. revert s r s' G E. eapply sound_bind; [apply (Hc (get_active ctx a))|intros ok1 H1].
  { destruct (get_active ctx a) eqn:Ea; cbn; eauto. }
  eapply (sound_bind _ _ (λ ok, ok = true → acct_ok a)).
  - destruct ok1.
    + apply sound_ret. intros _. destruct (H1 eq_refl) as (au & Eau & Hau). by eapply acct_ok_active.
    + destruct (allow_non_immediate_owner ctx) eqn:Eo; [|by apply sound_ret].
      intros s r s' G E. destruct (Hc (get_owner ctx a)) with (2 := G) (3 := E) as [G' H2].
      { destruct (get_owner ctx a) eqn:Ea; cbn; eauto. }
      split; [done|]. intros Hr. destruct (H2 Hr) as (au & Eau & Hau). by eapply acct_ok_owner.
  - intros ok2 H2. destruct ok2; cbn.
    + intros s r s' G [= <- <-]. split; [|auto]. destruct G as [G1 G2 G3 G4 G5]. split; cbn; try done.
      * set_solver.
      * intros b [->%elem_of_singleton|Hb]%elem_of_union; [by apply H2|by apply G4].
    + eapply sound_bind; [by apply (sound_ret tt (λ _, True))|]. intros _ _. by apply sound_ret.
Qed.

Lemma sound_check_at n o :
  from_option wf_authority True o →
  sound (check_authority_at key_addresses ctx available_keys n o) (λ r, r = true → auth_approved o).
Proof.
  revert o. induction n as [|n IH]; intros [au|] Wo;
    try (cbn [check_authority_at]; destruct (unknown_throws ctx); [by intros s r s' _|by apply sound_ret]).
  all: destruct Wo as (W1 & W2 & W3 & _); cbn [check_authority_at].
  all: eapply sound_bind; [apply (sound_weigh _ signable); [apply sound_signed_by|done|done]|].
  all: intros [d1 t1] (Ht1 & Hd1 & ks & Sk & Pk & Lk); cbn in Ht1, Hd1, Lk.
  all: assert (∀ t ads acs, ads `sublist_of` address_auths au → acs `sublist_of` account_auths au →
      (∀ x, x ∈ ads → addr_ok x.1) → (∀ x, x ∈ acs → acct_ok x.1) →
      t ≤ t1 + sum_weights ads + sum_weights acs → weight_threshold au ≤ t → auth_approved (Some au)) as Hok
    by (intros; exists au; split; [done|eapply auth_ok_intro; eauto; lia]).
  all: destruct d1; [apply sound_ret; intros _;
    apply (Hok t1 [] []); [apply sublist_nil_l|apply sublist_nil_l|set_solver|set_solver|cbn; lia|auto]|].
  all: eapply sound_bind; [apply (sound_weigh _ addr_ok); [apply sound_signed_by_address|done|done]|].
  all: intros [d2 t2] (Ht2 & Hd2 & ads & Sa & Pa & La); cbn in Ht2, Hd2, La.
  all: destruct d2; [apply sound_ret; intros _;
    apply (Hok t2 ads []); [done|apply sublist_nil_l|done|set_solver|cbn; lia|auto]|].
  all: eapply sound_bind; [apply (sound_weigh _ acct_ok); [intros a; apply sound_check_member|done|done]|].
  all: try (intros check o [= <-]; apply IH).
  all: try done.
  all: intros [d3 t3] (Ht3 & Hd3 & acs & Sc & Pc & Lc); cbn in Ht3, Hd3, Lc.
  all: destruct d3; apply sound_ret; intros Hr; apply (Hok t3 ads acs); try done; try lia; auto.
  all: bool_to_prop; lia.
Qed.

(** ** Completeness up to the depth *)
Hypothesis no_addresses :
  ∀ a au, get_active ctx a = Some au ∨ get_owner ctx a = Some au → address_auths au = [].

(** A callback was asked for an account it does not know, and threw. *)
Definition unknown_met : Prop :=
  unknown_throws ctx = true ∧ ∃ a, get_active ctx a = None ∨ get_owner ctx a = None.
Definition delivers {A} (m : M sign_state A) (Q : A → Prop) : Prop :=
  ∀ s, good s → (∃ r s', m s = Ok (r, s') ∧ good s' ∧ Q r) ∨ (m s = Err assert_exception ∧ unknown_met).

Lemma total_ret {A} (a : A) (Q : A → Prop) : Q a → delivers (mret a) Q.
Proof. intros HQ s G. left. by exists a, s. Qed.
Lemma total_weaken {A} (m : M sign_state A) (Q R : A → Prop) :
  delivers m Q → (∀ r, Q r → R r) → delivers m R.
Proof. intros H HQR s G. destruct (H s G) as [(r & s' & E & G' & HQ)|?]; [left|by right]. exists r, s'. auto. Qed.
Lemma total_bind {A B} (m : M sign_state A) (f : A → M sign_state B) (Q : A → Prop) (R : B → Prop) :
  delivers m Q → (∀ a, Q a → delivers (f a) R) → delivers (m ≫= f) R.
Proof.
  intros H1 H2 s G. unfold mbind, M_bind.
  destruct (H1 s G) as [(a & s1 & E1 & G1 & Qa)|[-> ?]]; [rewrite E1|by right].
  by apply (H2 a Qa s1 G1).
Qed.

Lemma total_signed_by k : delivers (signed_by available_keys k) (λ r, signable k → r = true).
Proof.
  intros s G. destruct (signed_by available_keys k s) as [[r s']|e] eqn:E.
  - left. exists r, s'. split; [done|]. destruct (sound_signed_by k s r s' G E) as [G' _]. split; [done|].
    intros Hk. unfold signed_by in E. apply M_bind_Ok in E as (s0 & s1 & [= <- <-] & E). cbn in E.
    destruct (provided_signatures s !! k) eqn:Ek; [by injection E as <- <-|].
    case_bool_decide as Ha; [by injection E as <- <-|]. destruct Hk as [Hk|Hk]; [|done].
    apply (gd_all _ G), elem_of_dom in Hk as [? ?]. congruence.
  - unfold signed_by, mbind, M_bind, gets in E. cbn in E. destruct (provided_signatures s !! k); [done|].
    by destruct (bool_decide _).
Qed.

Lemma total_weigh (check : Z → M sign_state bool) (P : Z → Prop) th l :
  (∀ k, delivers (check k) (λ r, P k → r = true)) → wf_weights l →
  ∀ w, 0 ≤ w → w + sum_weights l ≤ uint32_max →
  delivers (weigh check th l w) (λ r, r.1 = true ∨ 0 ≤ r.2 ≤ w + sum_weights l ∧
    ∀ sub, sub `sublist_of` l → (∀ x, x ∈ sub → P x.1) → w + sum_weights sub ≤ r.2).
Proof.
  intros Hc. induction l as [|[k x] l IH]; intros Hl w Hw Hs; cbn [weigh].
  { apply total_ret. right. cbn in *. split; [lia|]. intros sub ->%sublist_nil_r _. cbn. lia. }
  apply Forall_cons in Hl as [Hx Hl]. cbn in Hx. rewrite sum_weights_cons in Hs. cbn [snd] in Hs.
  pose proof (sum_weights_nonneg _ Hl).
  eapply total_bind; [apply Hc|]. intros ok Hok. destruct ok.
  - assert (u32 (w + x) = w + x) as -> by (unfold u32, uint32_max in *; apply Z.mod_small; lia).
    destruct (_ >=? _); [apply total_ret; by left|].
    eapply total_weaken; [apply (IH Hl (w + x)); lia|]. intros r [|[Hb HQ]]; [by left|right].
    rewrite sum_weights_cons. cbn [snd]. split; [lia|].
    intros sub [Hsub|(sub' & -> & Hsub)]%sublist_cons_r HP.
    + specialize (HQ sub Hsub HP). lia.
    + rewrite sum_weights_cons. cbn [snd]. assert (∀ y, y ∈ sub' → P y.1) as HP' by set_solver.
      specialize (HQ sub' Hsub HP'). lia.
  - eapply total_weaken; [apply (IH Hl w); lia|]. intros r [|[Hb HQ]]; [by left|right].
    rewrite sum_weights_cons. cbn [snd]. split; [lia|].
    intros sub [Hsub|(sub' & -> & Hsub)]%sublist_cons_r HP; [by apply HQ|].
    discriminate (Hok (HP (k, x) ltac:(set_solver))).
Qed.

(** What a member account needs with [n] levels left. *)
Definition member_within (n : nat) (a : Z) : Prop :=
  a ∈ approved ∨
  match n with
  | O => False
  | S n => auth_within n (get_active ctx a)
           ∨ allow_non_immediate_owner ctx = true ∧ auth_within n (get_owner ctx a)
  end.

Lemma total_approve a : acct_ok a → delivers (approve a) (λ _, True).
Proof.
  intros Ha s G. left. eexists _, _. split; [done|]. split; [|done]. destruct G as [G1 G2 G3 G4 G5].
  split; cbn; try done; [set_solver|]. intros b [->%elem_of_singleton|Hb]%elem_of_union; [done|by apply G4].
Qed.

Lemma total_check_member n check a :
  (∀ o, (∃ b, get_active ctx b = o ∨ get_owner ctx b = o) →
     delivers (check o) (λ r, (r = true → auth_approved o) ∧ (auth_within n o → r = true))) →
  delivers (check_member ctx (Some check) a) (λ r, member_within (S n) a → r = true).
Proof.
  intros Hc s G. unfold check_member. 
  destruct (bool_decide (a ∈ approved_by s)) eqn:Ha.
  { left. exists true, s. rewrite gets_bind. unfold id. by rewrite Ha. }
  assert (a ∉ approved) as Hna.
  { apply bool_decide_eq_false in Ha. pose proof (gd_base _ G). set_solver. }
  rewrite gets_bind. unfold id. rewrite Ha. clear Ha. revert s G.
  eapply total_bind; [apply Hc; by eauto|]. intros ok1 [A1 B1].
  eapply (total_bind _ _ (λ ok, (ok = true → acct_ok a) ∧ (member_within (S n) a → ok = true))).
  - destruct ok1.
    { apply total_ret. split; [|done]. intros _. destruct (A1 eq_refl) as (au & Eau & Hau). by eapply acct_ok_active. }
    destruct (allow_non_immediate_owner ctx) eqn:Eo.
    + eapply total_weaken; [apply (Hc (get_owner ctx a)); eauto|]. intros r [A2 B2]. split.
      * intros Hr. destruct (A2 Hr) as (au & Eau & Hau). by eapply acct_ok_owner.
      * intros [?|[Hw|[_ Hw]]]; [done|by apply B1 in Hw|by apply B2].
    + apply total_ret. split; [done|]. intros [?|[Hw|[? _]]]; [done|by apply B1 in Hw|congruence].
  - intros ok2 [A2 B2]. eapply (total_bind _ _ (λ _, True)).
    + destruct ok2; [apply total_approve; by apply A2|by apply total_ret].
    + intros _ _. by apply total_ret.
Qed.

(** The loops of one authority, given the check of its member accounts. *)
Lemma total_check_loops n au member :
  wf_authority au → address_auths au = [] →
  (∀ a, delivers (member a) (λ r, member_within n a → r = true)) →
  delivers (r ← weigh (signed_by available_keys) (weight_threshold au) (key_auths au) 0;
         let '(done, total_weight) := r : bool * Z in
         if done then mret true
         else
           r ← weigh (signed_by_address key_addresses available_keys) (weight_threshold au) (address_auths au) total_weight;
           let '(done, total_weight) := r : bool * Z in
           if done then mret true
           else
             r ← weigh member (weight_threshold au) (account_auths au) total_weight;
             let '(done, total_weight) := r : bool * Z in
             if done then mret true else mret (total_weight >=? weight_threshold au))
    (λ r, auth_within n (Some au) → r = true).
Proof.
  intros (W1 & W2 & W3 & Hs) Hna Hm. rewrite Hna in Hs |- *. cbn [weigh sum_weights fmap list_fmap foldr] in Hs |- *.
  pose proof (sum_weights_nonneg _ W1). pose proof (sum_weights_nonneg _ W3).
  eapply total_bind; [apply (total_weigh _ signable); [apply total_signed_by|done|lia|lia]|].
  intros [d1 t1] H1. cbn [fst snd] in H1. destruct d1; [by apply total_ret|].
  destruct H1 as [|[B1 H1]]; [done|]. rewrite M_ret_bind.
  eapply total_bind; [apply (total_weigh _ (member_within n)); [done|done|lia|lia]|].
  intros [d2 t2] H2. cbn [fst snd] in H2. destruct d2; [by apply total_ret|].
  destruct H2 as [|[B2 H2]]; [done|]. apply total_ret.
  intros Hw. assert (∃ ks acs, ks `sublist_of` key_auths au ∧ acs `sublist_of` account_auths au ∧
      (∀ x, x ∈ ks → signable x.1) ∧ (∀ x, x ∈ acs → member_within n x.1) ∧
      weight_threshold au ≤ sum_weights ks + sum_weights acs) as (ks & acs & Sk & Sc & Pk & Pc & Ht)
    by (destruct n; exact Hw).
  specialize (H1 ks Sk Pk). specialize (H2 acs Sc Pc). apply Z.geb_le. lia.
Qed.

Lemma total_check_at n o :
  (o = None ∧ ∃ a, get_active ctx a = None ∨ get_owner ctx a = None) ∨ (∃ au, o = Some au ∧ wf_authority au ∧ address_auths au = []) →
  delivers (check_authority_at key_addresses ctx available_keys n o)
    (λ r, (r = true → auth_approved o) ∧ (auth_within n o → r = true)).
Proof.
  assert (∀ n au, wf_authority au →
    delivers (check_authority_at key_addresses ctx available_keys n (Some au)) (λ r, auth_within n (Some au) → r = true) →
    delivers (check_authority_at key_addresses ctx available_keys n (Some au))
      (λ r, (r = true → auth_approved (Some au)) ∧ (auth_within n (Some au) → r = true))) as Hboth.
  { intros m au W Ht s G. destruct (Ht s G) as [(r & s' & E & G' & Hr)|?]; [left|by right].
    exists r, s'. split_and!; try done. by apply (sound_check_at m (Some au) W s r s' G E). }
  assert (∀ n, (∃ a, get_active ctx a = None ∨ get_owner ctx a = None) →
    delivers (check_authority_at key_addresses ctx available_keys n None)
      (λ r, (r = true → auth_approved None) ∧ (auth_within n None → r = true))) as Hnone.
  { intros m Hu. destruct m; cbn [check_authority_at auth_within];
      (destruct (unknown_throws ctx) eqn:Et; [intros s G; right; done|by apply total_ret]). }
  revert o. induction n as [|n IH]; intros o [[-> Hu]|(au & -> & W & Hna)]; try (by apply Hnone);
    apply Hboth; try done.
  - apply (total_check_loops 0 au); [done|done|]. intros a s0 G0. unfold check_member. rewrite gets_bind. unfold id.
    left. destruct (bool_decide _) eqn:Ea; [by exists true, s0|]. exists false, s0. split_and!; [done|done|].
    intros [Hm|[]]. apply bool_decide_eq_false in Ea. pose proof (gd_base _ G0). set_solver.
  - apply (total_check_loops (S n) au); [done|done|]. intros a. apply total_check_member.
    intros o (b & Hb). apply IH. destruct o as [au'|]; [right|left; split; [done|by exists b]]. exists au'.
    split_and!; [done|eapply accounts_wf; destruct Hb as [Hb|Hb]; eauto|
      eapply no_addresses; destruct Hb as [Hb|Hb]; eauto].
Qed.

End meaning.

(** ** Verification *)
Section verification.
Context (key_addresses : Z → list Z) (ctx : sign_context) (available_keys sigs approved : gset Z).
Local Notation good := (good key_addresses ctx available_keys sigs approved).
Local Notation sound := (sound key_addresses ctx available_keys sigs approved).
Local Notation delivers := (delivers key_addresses ctx available_keys sigs approved).
Local Notation auth_ok := (auth_ok key_addresses ctx available_keys sigs approved).
Local Notation acct_ok := (acct_ok key_addresses ctx available_keys sigs approved).
Local Notation within := (auth_within ctx available_keys sigs approved (max_recursion ctx)).

Lemma good_init : good (SignState (gset_to_gmap false sigs) approved None).
Proof. split; cbn; try done; rewrite ?dom_gset_to_gmap; try set_solver. intros a Ha. by constructor. Qed.

Lemma sound_require_all {A} (check : A → M sign_state bool) fail (P : A → Prop) l :
  (∀ x, x ∈ l → sound (check x) (λ r, r = true → P x)) →
  sound (require_all check fail l) (λ _, ∀ x, x ∈ l → P x).
Proof.
  induction l as [|x l IH]; intros Hc; cbn; [apply sound_ret; set_solver|].
  eapply sound_bind; [apply Hc; set_solver|]. intros [] Hx; [|by intros s r s' _].
  intros s r s' G E. destruct (IH ltac:(set_solver) s r s' G E) as [G' Hl]. split; [done|].
  intros y [->|Hy]%elem_of_cons; auto.
Qed.

Lemma total_require_all {A} (check : A → M sign_state bool) fail (P : A → Prop) l s :
  (∀ x, x ∈ l → delivers (check x) (λ r, P x → r = true)) → good s →
  (∃ s', require_all check fail l s = Ok (tt, s') ∧ good s')
  ∨ (∃ x, x ∈ l ∧ ~ P x ∧ require_all check fail l s = Err (fail x))
  ∨ (require_all check fail l s = Err assert_exception ∧ unknown_met ctx).
Proof.
  revert s. induction l as [|x l IH]; intros s Hc G; cbn; [left; by exists s|].
  unfold mbind, M_bind. destruct (Hc x ltac:(set_solver) s G) as [(r & s1 & E & G1 & Hr)|[-> ?]]; [rewrite E|by right; right].
  destruct r.
  - destruct (IH s1 ltac:(set_solver) G1) as [?|[(y & Hy & HP & E')|?]]; [by left| |by right; right].
    right. left. exists y. set_solver.
  - right. left. exists x. split; [set_solver|]. split; [|done]. intros HP. discriminate (Hr HP).
Qed.

Context (accounts_wf : ∀ a au, get_active ctx a = Some au ∨ get_owner ctx a = Some au → wf_authority au).

Lemma wf_of a : from_option wf_authority True (get_active ctx a) ∧ from_option wf_authority True (get_owner ctx a).
Proof. split; [destruct (get_active ctx a) eqn:E|destruct (get_owner ctx a) eqn:E]; cbn; eauto. Qed.

Lemma sound_check o :
  from_option wf_authority True o →
  sound (check_authority key_addresses ctx available_keys o) (λ r, r = true → ∃ au, o = Some au ∧ auth_ok au).
Proof. apply sound_check_at; done. Qed.

Lemma sound_check_account a : sound (check_account key_addresses ctx available_keys a) (λ r, r = true → acct_ok a).
Proof.
  intros s r s' G E. unfold check_account in E. rewrite gets_bind in E. unfold id in E.
  case_bool_decide as Ha.
  { injection E as <- <-. split; [done|]. intros _. by apply (gd_approved _ _ _ _ _ _ G). }
  clear Ha. revert s r s' G E. eapply sound_bind; [apply sound_check, wf_of|]. intros [] H1.
  { apply sound_ret. intros _. destruct (H1 eq_refl) as (au & Eau & Hau). by eapply acct_ok_active. }
  destruct (allow_non_immediate_owner ctx) eqn:Eo; [|by apply sound_ret].
  intros s r s' G E. destruct (sound_check _ (proj2 (wf_of a)) s r s' G E) as [G' H2].
  split; [done|]. intros Hr. destruct (H2 Hr) as (au & Eau & Hau). by eapply acct_ok_owner.
Qed.

Definition owner_ok (owner_approvals : gset Z) (a : Z) : Prop :=
  a ∈ owner_approvals ∨ ∃ au, get_owner ctx a = Some au ∧ auth_ok au.
Definition active_ok (a : Z) : Prop := acct_ok a ∨ ∃ au, get_owner ctx a = Some au ∧ auth_ok au.

Lemma sound_check_owner oa a : sound (check_owner key_addresses ctx available_keys oa a) (λ r, r = true → owner_ok oa a).
Proof.
  unfold check_owner. case_bool_decide; [by apply sound_ret; left|].
  intros s r s' G E. destruct (sound_check _ (proj2 (wf_of a)) s r s' G E) as [G' H2].
  split; [done|]. intros Hr. right. by apply H2.
Qed.
Lemma sound_check_active a : sound (check_active key_addresses ctx available_keys a) (λ r, r = true → active_ok a).
Proof.
  unfold check_active. eapply sound_bind; [apply sound_check_account|]. intros [] H1.
  { apply sound_ret. intros _. left. by apply H1. }
  intros s r s' G E. destruct (sound_check _ (proj2 (wf_of a)) s r s' G E) as [G' H2].
  split; [done|]. intros Hr. right. by apply H2.
Qed.

Context (no_addresses : ∀ a au, get_active ctx a = Some au ∨ get_owner ctx a = Some au → address_auths au = []).

Lemma total_check o :
  (o = None ∧ ∃ a, get_active ctx a = None ∨ get_owner ctx a = None)
    ∨ (∃ au, o = Some au ∧ wf_authority au ∧ address_auths au = []) →
  delivers (check_authority key_addresses ctx available_keys o) (λ r, within o → r = true).
Proof. intros Ho. eapply total_weaken; [by apply total_check_at|]. by intros r [_ Hr]. Qed.
Lemma total_check_of a : delivers (check_authority key_addresses ctx available_keys (get_active ctx a)) (λ r, within (get_active ctx a) → r = true)
  ∧ delivers (check_authority key_addresses ctx available_keys (get_owner ctx a)) (λ r, within (get_owner ctx a) → r = true).
Proof.
  split; apply total_check; [destruct (get_active ctx a) as [au|] eqn:E|destruct (get_owner ctx a) as [au|] eqn:E];
    eauto 10.
Qed.

Lemma total_check_owner oa a :
  delivers (check_owner key_addresses ctx available_keys oa a) (λ r, a ∈ oa ∨ within (get_owner ctx a) → r = true).
Proof.
  unfold check_owner. case_bool_decide; [by apply total_ret|].
  eapply total_weaken; [apply total_check_of|]. intros r Hr. by intros [|?]; auto.
Qed.

Lemma total_check_active a :
  delivers (check_active key_addresses ctx available_keys a)
    (λ r, a ∈ approved ∨ within (get_active ctx a) ∨ within (get_owner ctx a) → r = true).
Proof.
  unfold check_active.
  eapply (total_bind _ _ _ _ _ _ _ (λ r, a ∈ approved ∨ within (get_active ctx a) → r = true)).
  - intros s G. unfold check_account. rewrite gets_bind. unfold id.
    destruct (bool_decide _) eqn:Ea; [left; by exists true, s|].
    assert (a ∉ approved) by (apply bool_decide_eq_false in Ea; pose proof (gd_base _ _ _ _ _ _ G); set_solver).
    clear Ea. revert s G. eapply total_bind; [apply total_check_of|]. intros [] H1; [by apply total_ret|].
    destruct (allow_non_immediate_owner ctx).
    + eapply total_weaken; [apply total_check_of|]. intros r _ [|Hw]; [done|]. discriminate (H1 Hw).
    + apply total_ret. intros [|Hw]; [done|]. exact (H1 Hw).
  - intros [] H1; [by apply total_ret|].
    eapply total_weaken; [apply total_check_of|]. intros r Hr [Ha|[Hw|Hw]]; [discriminate (H1 (or_introl Ha))|discriminate (H1 (or_intror Hw))|auto].
Qed.

End verification.

(** ** Properties *)
Lemma remove_unused_spec s :
  remove_unused_signatures s =
  let used := filter (λ x : Z * bool, x.2 = true) (provided_signatures s) in
  Ok (negb (size used =? size (provided_signatures s))%nat, SignState used (approved_by s) (address_sigs s)).
Proof. reflexivity. Qed.

Section authority_theorems.
Context (key_addresses : Z → list Z).

(** The accounts that count as approved from the start. *)
Definition initially_approved (active_approvals owner_approvals : gset Z) : gset Z :=
  active_approvals ∪ owner_approvals ∪ {[ 4 ]}.

(** Every requirement is met. *)
Definition requirements_met (ra ro : list Z) (other : list authority) (sigs : gset Z) (ctx : sign_context)
    (aa oa : gset Z) : Prop :=
  let approved := initially_approved aa oa in
  (∀ au, au ∈ other → auth_ok key_addresses ctx ∅ sigs approved au) ∧
  (∀ id, id ∈ ro → owner_ok key_addresses ctx ∅ sigs approved oa id) ∧
  (∀ id, id ∈ ra → active_ok key_addresses ctx ∅ sigs approved id).

(** The three loops of the verification, when they succeed. *)
Lemma loops_satisfied ra ro other sigs ctx aa oa u1 s1 u2 s2 u3 s3 :
  (∀ a au, get_active ctx a = Some au ∨ get_owner ctx a = Some au → wf_authority au) →
  Forall wf_authority other →
  require_all (λ au, check_authority key_addresses ctx ∅ (Some au)) (λ _, tx_missing_other_auth) other
    (SignState (gset_to_gmap false sigs) (initially_approved aa oa) None) = Ok (u1, s1) →
  require_all (check_owner key_addresses ctx ∅ oa) (missing_owner ctx) ro s1 = Ok (u2, s2) →
  require_all (check_active key_addresses ctx ∅) (missing_active ctx) ra s2 = Ok (u3, s3) →
  requirements_met ra ro other sigs ctx aa oa.
Proof.
  intros Wf Wo E1 E2 E3. set (approved := initially_approved aa oa) in *.
  pose proof (good_init key_addresses ctx ∅ sigs approved) as G0.
  eapply (sound_require_all key_addresses ctx ∅ sigs approved _ _ (auth_ok key_addresses ctx ∅ sigs approved)) in E1
    as [G1 H1]; [| |exact G0].
  2: { intros au Hau s r s' G Er.
       edestruct (sound_check key_addresses ctx ∅ sigs approved Wf (Some au)) as [G' Hr]; [|exact G|exact Er|].
       - cbn. by eapply Forall_forall in Wo.
       - split; [done|]. intros Ht. destruct (Hr Ht) as (au' & [= <-] & ?). done. }
  eapply (sound_require_all key_addresses ctx ∅ sigs approved) in E2 as [G2 H2]; [| |exact G1];
    [|intros id _; apply sound_check_owner; exact Wf].
  eapply (sound_require_all key_addresses ctx ∅ sigs approved) in E3 as [G3 H3]; [| |exact G2];
    [|intros id _; apply sound_check_active; exact Wf].
  by split_and!.
Qed.

(** What a successful verification has established. *)
Lemma verify_authority_satisfied ra ro other sigs ctx ac aa oa :
  (∀ a au, get_active ctx a = Some au ∨ get_owner ctx a = Some au → wf_authority au) →
  Forall wf_authority other →
  verify_authority key_addresses ra ro other sigs ctx ac aa oa = Ok tt →
  (ac = false → 0 ∉ ra) ∧ requirements_met ra ro other sigs ctx aa oa.
Proof.
  intros Wf Wo E. unfold verify_authority in E. apply result_bind_Ok in E as (u & E0 & E).
  apply result_bind_Ok in E as ([v s'] & E & _).
  apply M_bind_Ok in E as (u1 & s1 & E1 & E). apply M_bind_Ok in E as (u2 & s2 & E2 & E).
  apply M_bind_Ok in E as (u3 & s3 & E3 & E).
  split; [|by eapply loops_satisfied]. intros ->. apply graphene_assert_Ok in E0. by bool_to_prop.
Qed.

(** C7: Authorization is sound: when the verification of a transaction succeeds,
    every other, owner and active authority its operations require is satisfied by
    keys that signed and accounts that approved, through active (and, where
    allowed, owner) authorities of accounts. *)
Theorem verify_authority_sound ra ro other sigs ctx ac aa oa :
  (∀ a au, get_active ctx a = Some au ∨ get_owner ctx a = Some au → wf_authority au) →
  Forall wf_authority other →
  verify_authority key_addresses ra ro other sigs ctx ac aa oa = Ok tt →
  let approved := initially_approved aa oa in
  (ac = false → 0 ∉ ra) ∧
  (∀ au, au ∈ other → auth_ok key_addresses ctx ∅ sigs approved au) ∧
  (∀ id, id ∈ ro → owner_ok key_addresses ctx ∅ sigs approved oa id) ∧
  (∀ id, id ∈ ra → active_ok key_addresses ctx ∅ sigs approved id).
Proof. intros Wf Wo E approved. exact (verify_authority_satisfied _ _ _ _ _ _ _ _ Wf Wo E). Qed.

(** C26: Authorization is complete up to the maximal depth: for authorities over
    keys and accounts, each exception of the verification has its cause, and in
    particular an authority is reported missing only when no satisfied members of
    enough weight exist within the depth, a signature irrelevant only when all
    authorities are satisfied, and any other exception is that of a callback asked for
    an account it does not know. *)
Theorem verify_authority_errors ra ro other sigs ctx ac aa oa e :
  (∀ a au, get_active ctx a = Some au ∨ get_owner ctx a = Some au → wf_authority au ∧ address_auths au = []) →
  Forall (λ au, wf_authority au ∧ address_auths au = []) other →
  (∀ id, id ∈ ra ++ ro → is_Some (get_active ctx id) ∧ is_Some (get_owner ctx id)) →
  verify_authority key_addresses ra ro other sigs ctx ac aa oa = Err e →
  let approved := initially_approved aa oa in
  let within := auth_within ctx ∅ sigs approved (max_recursion ctx) in
  match e with
  | invalid_committee_approval => ac = false ∧ 0 ∈ ra
  | tx_missing_other_auth => ∃ au, au ∈ other ∧ ~ within (Some au)
  | tx_missing_owner_auth => ∃ id, id ∈ ro ∧ id ∉ oa ∧ ~ within (get_owner ctx id)
  | tx_missing_active_auth =>
      ∃ id, id ∈ ra ∧ id ∉ approved ∧ ~ within (get_active ctx id) ∧ ~ within (get_owner ctx id)
  | tx_irrelevant_sig => sigs ≠ ∅ ∧ requirements_met ra ro other sigs ctx aa oa
  | assert_exception => unknown_throws ctx = true ∧ ∃ a, get_active ctx a = None ∨ get_owner ctx a = None
  | _ => False
  end.
Proof.
  intros Wf Wo Hsome E approved within.
  assert (∀ a au, get_active ctx a = Some au ∨ get_owner ctx a = Some au → wf_authority au) as Wf1
    by (intros a au Ha; by apply (Wf a au)).
  assert (∀ a au, get_active ctx a = Some au ∨ get_owner ctx a = Some au → address_auths au = []) as Wf2
    by (intros a au Ha; by apply (Wf a au)).
  unfold verify_authority in E.
  destruct (if ac then Ok tt else _) as [u|e0] eqn:E0; cbn in E.
  2: { destruct ac; [done|]. unfold graphene_assert in E0. destruct (negb _) eqn:En; [done|].
       injection E0 as <-. injection E as <-. by bool_to_prop. }
  pose proof (good_init key_addresses ctx ∅ sigs approved) as G0. unfold approved in G0 at 2.
  unfold init_sign_state in E. cbn [provided_signatures approved_by] in E.
  unfold mbind, M_bind, result_bind in E.
  destruct (total_require_all key_addresses ctx ∅ sigs approved
    (λ au, check_authority key_addresses ctx ∅ (Some au)) (λ _, tx_missing_other_auth) (λ au, within (Some au))
    other _ (λ au Hau, total_check key_addresses ctx ∅ sigs approved Wf1 Wf2 (Some au)
      (or_intror (ex_intro _ au (conj eq_refl (proj1 (Forall_forall _ _) Wo au Hau))))) G0)
    as [(s1 & E1 & G1)|[(au & Hau & Hn & E1)|[E1 Hu]]]; unfold initially_approved in E1; rewrite E1 in E.
  2: { injection E as <-. eauto. }
  2: { by injection E as <-. }
  destruct (total_require_all key_addresses ctx ∅ sigs approved (check_owner key_addresses ctx ∅ oa)
    (missing_owner ctx) (λ id, id ∈ oa ∨ within (get_owner ctx id)) ro s1
    (λ id _, total_check_owner key_addresses ctx ∅ sigs approved Wf1 Wf2 oa id) G1)
    as [(s2 & E2 & G2)|[(id & Hid & Hn & E2)|[E2 Hu]]]; rewrite E2 in E.
  3: { by injection E as <-. }
  2: { unfold missing_owner in E. destruct (Hsome id ltac:(set_solver)) as [_ [au Ea]].
       rewrite Ea in E. injection E as <-. exists id. naive_solver. }
  destruct (total_require_all key_addresses ctx ∅ sigs approved (check_active key_addresses ctx ∅)
    (missing_active ctx) (λ id, id ∈ approved ∨ within (get_active ctx id) ∨ within (get_owner ctx id)) ra s2
    (λ id _, total_check_active key_addresses ctx ∅ sigs approved Wf1 Wf2 id) G2)
    as [(s3 & E3 & G3)|[(id & Hid & Hn & E3)|[E3 Hu]]]; rewrite E3 in E.
  3: { by injection E as <-. }
  2: { unfold missing_active in E. destruct (Hsome id ltac:(set_solver)) as [[a Ea] [o Eo]].
       rewrite Ea, Eo in E. injection E as <-. exists id. naive_solver. }
  rewrite remove_unused_spec in E. unfold lift, graphene_assert in E.
  destruct (negb (negb _)) eqn:En in E; [done|]. injection E as <-.
  split; [|eapply loops_satisfied; [exact Wf1| |exact E1|exact E2|exact E3]; eapply Forall_impl; [exact Wo|naive_solver]].
  intros Hs.
  assert (provided_signatures s3 = ∅) as Hp.
  { apply dom_empty_inv_L. pose proof (gd_sigs _ _ _ _ _ _ G3). set_solver. }
  by rewrite Hp, map_filter_empty in En.
Qed.

End authority_theorems.

(** *** A shared account

    Account 10 needs its key 100 and account 11, account 11 its key 101. *)
Definition ex_active (a : Z) : option authority :=
  if a =? 10 then Some (Authority 2 [(11, 1)] [(100, 1)] [])
  else if a =? 11 then Some (Authority 1 [] [(101, 1)] [])
  else None.
Definition ex_owner (a : Z) : option authority :=
  if (a =? 10) || (a =? 11) then Some (Authority 1 [] [(200 + a, 1)] []) else None.
Definition ex_ctx : sign_context := SignContext ex_active ex_owner false GRAPHENE_MAX_SIG_CHECK_DEPTH true.

Lemma ex_ctx_wf a au :
  get_active ex_ctx a = Some au ∨ get_owner ex_ctx a = Some au → wf_authority au ∧ address_auths au = [].
Proof.
  cbn. unfold ex_active, ex_owner. intros [E|E]; repeat case_match; simplify_eq;
    (split; [|done]); (split_and!; repeat constructor; by vm_compute).
Qed.

Lemma verify_authority_sound_witness :
  verify_authority (λ _, []) [10] [] [] {[ 100; 101 ]} ex_ctx false ∅ ∅ = Ok tt ∧
  active_ok (λ _, []) ex_ctx ∅ {[ 100; 101 ]} (initially_approved ∅ ∅) 10.
Proof.
  assert (verify_authority (λ _, []) [10] [] [] {[ 100; 101 ]} ex_ctx false ∅ ∅ = Ok tt) as E by reflexivity.
  split; [exact E|].
  destruct (verify_authority_sound (λ _, []) [10] [] [] {[ 100; 101 ]} ex_ctx false ∅ ∅) as (_ & _ & _ & H).
  - intros a au Ha. by apply (ex_ctx_wf a au).
  - constructor.
  - exact E.
  - apply H. by apply list_elem_of_singleton.
Defined.

Lemma verify_authority_errors_witness :
  verify_authority (λ _, []) [10] [] [] {[ 100 ]} ex_ctx false ∅ ∅ = Err tx_missing_active_auth ∧
  ~ auth_within ex_ctx ∅ {[ 100 ]} (initially_approved ∅ ∅) 2 (ex_active 10).
Proof.
  assert (verify_authority (λ _, []) [10] [] [] {[ 100 ]} ex_ctx false ∅ ∅ = Err tx_missing_active_auth) as E
    by reflexivity.
  split; [exact E|].
  destruct (verify_authority_errors (λ _, []) [10] [] [] {[ 100 ]} ex_ctx false ∅ ∅ tx_missing_active_auth)
    as (id & Hid & _ & H & _).
  - exact ex_ctx_wf.
  - constructor.
  - intros id [->%list_elem_of_singleton|?%not_elem_of_nil]%elem_of_app; [|done]. by vm_compute; eauto.
  - exact E.
  - apply list_elem_of_singleton in Hid as ->. exact H.
Defined.

(** Checking an authority with an address nobody signed for dereferences the end
    iterator. *)
Lemma unsigned_address_undefined key_addresses ctx a :
  check_authority key_addresses ctx ∅ (Some (Authority 1 [] [] [(a, 1)])) (init_sign_state ∅)
  = Err undefined_behaviour.
Proof.
  unfold check_authority. destruct (max_recursion ctx); cbn [check_authority_at weigh key_auths address_auths];
    rewrite M_ret_bind; reflexivity.
Qed.

(** Asked not to use the owner authorities of nested accounts,
    [minimize_required_signatures] still looks for keys with them. *)
Lemma minimize_ignores_owner_rule ra ro other recovered keys ctx :
  (0 < max_recursion ctx)%nat → allow_non_immediate_owner ctx = false →
  minimize_required_signatures (λ _, []) ra ro other recovered keys ctx =
  (s ← get_required_signatures (λ _, []) ra ro other recovered keys
        (with_rules true GRAPHENE_MAX_SIG_CHECK_DEPTH ctx);
   minimize_loop (λ sigs, verify_authority (λ _, []) ra ro other sigs ctx false ∅ ∅)
     (merge_sort Z.le (elements s)) s).
Proof.
  intros Hm _. unfold minimize_required_signatures. destruct (max_recursion ctx =? 0)%nat eqn:E; [|done].
  apply Nat.eqb_eq in E. lia.
Qed.
