(* ===== verification/Operations.v ===== *)
(** * Operations: the structs of protocol/*.hpp, their validation, fees and authorities

    The operations on balances, orders, debt positions, assets, permissions,
    vesting balances and hash time locks, with the state-independent validation,
    the fee schedule and the accounts that must authorize them.  The packed size
    of a memo is part of the operation; extensions other than the target
    collateral ratio carry nothing the chain reads. *)

From S2P Require Import Prelude External Asset Authority.

(** ** Well-known ids *)
Definition CORE : Z := 0.
Definition GRAPHENE_COMMITTEE_ACCOUNT : Z := 0.
Definition GRAPHENE_WITNESS_ACCOUNT : Z := 1.
Definition GRAPHENE_RELAXED_COMMITTEE_ACCOUNT : Z := 2.
Definition GRAPHENE_NULL_ACCOUNT : Z := 3.
Definition GRAPHENE_TEMP_ACCOUNT : Z := 4.


(** ** Data *)
Inductive vesting_policy_initializer :=
| linear_initializer (begin_timestamp vesting_cliff_seconds vesting_duration_seconds : Z)
| cdd_initializer (start_claim vesting_seconds : Z)
| instant_initializer.

Inductive operation :=
| transfer_operation (fee : asset) (from to : Z) (amt : asset) (memo_size : option Z)
| limit_order_create_operation (fee : asset) (seller : Z) (amount_to_sell min_to_receive : asset)
    (expiration : Z) (fill_or_kill : bool)
| limit_order_cancel_op (fee : asset) (fee_paying_account order : Z)
| call_order_update_operation (fee : asset) (funding_account : Z) (delta_collateral delta_debt : asset)
    (target_cr : option Z)
| asset_issue_operation (fee : asset) (issuer : Z) (asset_to_issue : asset) (issue_to_account memo_size : Z)
| asset_reserve_operation (fee : asset) (payer : Z) (amount_to_reserve : asset)
| asset_fund_fee_pool_operation (fee : asset) (from_account asset_type amt : Z)
| asset_settle_operation (fee : asset) (account : Z) (amt : asset)
| asset_global_settle_operation (fee : asset) (issuer asset_to_settle : Z) (settle_price : price)
| asset_publish_feed_operation (fee : asset) (publisher asset_type : Z) (feed : price_feed)
| withdraw_permission_create_operation (fee : asset) (from authorized : Z) (limit : asset)
    (period_sec periods_until_expiration start_time : Z)
| withdraw_permission_update_operation (fee : asset) (from authorized permission : Z) (limit : asset)
    (period_sec start_time periods_until_expiration : Z)
| withdraw_permission_claim_operation (fee : asset) (permission from to : Z) (amount_to_withdraw : asset)
    (memo_size : option Z)
| withdraw_permission_delete_operation (fee : asset) (from authorized permission : Z)
| vesting_balance_create_operation (fee : asset) (creator owner : Z) (amt : asset)
    (policy : vesting_policy_initializer)
| proposal_create_operation (fee : asset) (fee_paying_account : Z) (proposed_ops : list operation)
    (expiration_time : Z) (review_period_seconds : option Z) (packed_size : Z)
| proposal_update_operation (fee : asset) (fee_paying_account proposal : Z)
    (active_approvals_to_add active_approvals_to_remove owner_approvals_to_add owner_approvals_to_remove
     key_approvals_to_add key_approvals_to_remove : gset Z) (packed_size : Z)
| proposal_delete_operation (fee : asset) (fee_paying_account : Z) (using_owner_authority : bool) (proposal : Z)
| vesting_balance_withdraw_operation (fee : asset) (vesting_balance owner : Z) (amt : asset)
| balance_claim_operation (fee : asset) (deposit_to_account balance_to_claim balance_owner_key : Z)
    (total_claimed : asset)
| override_transfer_operation (fee : asset) (issuer from to : Z) (amt : asset) (memo_size : option Z)
| asset_claim_fees_operation (fee : asset) (issuer : Z) (amount_to_claim : asset)
| bid_collateral_op (fee : asset) (bidder : Z) (additional_collateral debt_covered : asset)
| asset_claim_pool_operation (fee : asset) (issuer asset_type : Z) (amount_to_claim : asset)
| htlc_create_operation (fee : asset) (from to : Z) (amt : asset) (hash : Z * Z)
    (pre_size claim_period_seconds : Z)
| htlc_redeem_operation (fee : asset) (htlc_id redeemer : Z) (preimage : list Z)
| htlc_extend_operation (fee : asset) (htlc_id update_issuer seconds_to_add : Z).

(** [operation_result]. *)
Inductive operation_result :=
| void_result
| object_id_result (id : Z)
| asset_result (a : asset).

Definition op_fee (op : operation) : asset :=
  match op with
  | transfer_operation fee _ _ _ _ | limit_order_create_operation fee _ _ _ _ _
  | limit_order_cancel_op fee _ _ | call_order_update_operation fee _ _ _ _
  | asset_issue_operation fee _ _ _ _ | asset_reserve_operation fee _ _
  | asset_fund_fee_pool_operation fee _ _ _ | asset_settle_operation fee _ _
  | asset_global_settle_operation fee _ _ _ | asset_publish_feed_operation fee _ _ _
  | withdraw_permission_create_operation fee _ _ _ _ _ _
  | withdraw_permission_update_operation fee _ _ _ _ _ _ _
  | withdraw_permission_claim_operation fee _ _ _ _ _ | withdraw_permission_delete_operation fee _ _ _
  | vesting_balance_create_operation fee _ _ _ _ | vesting_balance_withdraw_operation fee _ _ _
  | balance_claim_operation fee _ _ _ _ | override_transfer_operation fee _ _ _ _ _
  | asset_claim_fees_operation fee _ _ | bid_collateral_op fee _ _ _
  | asset_claim_pool_operation fee _ _ _ | htlc_create_operation fee _ _ _ _ _ _
  | htlc_redeem_operation fee _ _ _ | htlc_extend_operation fee _ _ _
  | proposal_create_operation fee _ _ _ _ _ | proposal_update_operation fee _ _ _ _ _ _ _ _ _
  | proposal_delete_operation fee _ _ _ => fee
  end.

Definition fee_payer (op : operation) : Z :=
  match op with
  | transfer_operation _ from _ _ _ => from
  | limit_order_create_operation _ seller _ _ _ _ => seller
  | limit_order_cancel_op _ fee_paying_account _ => fee_paying_account
  | call_order_update_operation _ funding_account _ _ _ => funding_account
  | asset_issue_operation _ issuer _ _ _ => issuer
  | asset_reserve_operation _ payer _ => payer
  | asset_fund_fee_pool_operation _ from_account _ _ => from_account
  | asset_settle_operation _ account _ => account
  | asset_global_settle_operation _ issuer _ _ => issuer
  | asset_publish_feed_operation _ publisher _ _ => publisher
  | withdraw_permission_create_operation _ from _ _ _ _ _ => from
  | withdraw_permission_update_operation _ from _ _ _ _ _ _ => from
  | withdraw_permission_claim_operation _ _ _ to _ _ => to
  | withdraw_permission_delete_operation _ from _ _ => from
  | vesting_balance_create_operation _ creator _ _ _ => creator
  | vesting_balance_withdraw_operation _ _ owner _ => owner
  | balance_claim_operation _ deposit_to_account _ _ _ => deposit_to_account
  | override_transfer_operation _ issuer _ _ _ _ => issuer
  | asset_claim_fees_operation _ issuer _ => issuer
  | bid_collateral_op _ bidder _ _ => bidder
  | asset_claim_pool_operation _ issuer _ _ => issuer
  | htlc_create_operation _ from _ _ _ _ _ => from
  | htlc_redeem_operation _ _ redeemer _ => redeemer
  | htlc_extend_operation _ _ update_issuer _ => update_issuer
  | proposal_create_operation _ account _ _ _ _ => account
  | proposal_update_operation _ account _ _ _ _ _ _ _ _ => account
  | proposal_delete_operation _ account _ _ => account
  end.

(** The index of the operation in the static variant. *)
Definition op_tag (op : operation) : Z :=
  match op with
  | transfer_operation _ _ _ _ _ => 0
  | limit_order_create_operation _ _ _ _ _ _ => 1
  | limit_order_cancel_op _ _ _ => 2
  | call_order_update_operation _ _ _ _ _ => 3
  | asset_issue_operation _ _ _ _ _ => 14
  | asset_reserve_operation _ _ _ => 15
  | asset_fund_fee_pool_operation _ _ _ _ => 16
  | asset_settle_operation _ _ _ => 17
  | asset_global_settle_operation _ _ _ _ => 18
  | asset_publish_feed_operation _ _ _ _ => 19
  | proposal_create_operation _ _ _ _ _ _ => 22
  | proposal_update_operation _ _ _ _ _ _ _ _ _ _ => 23
  | proposal_delete_operation _ _ _ _ => 24
  | withdraw_permission_create_operation _ _ _ _ _ _ _ => 25
  | withdraw_permission_update_operation _ _ _ _ _ _ _ _ => 26
  | withdraw_permission_claim_operation _ _ _ _ _ _ => 27
  | withdraw_permission_delete_operation _ _ _ _ => 28
  | vesting_balance_create_operation _ _ _ _ _ => 32
  | vesting_balance_withdraw_operation _ _ _ _ => 33
  | balance_claim_operation _ _ _ _ _ => 37
  | override_transfer_operation _ _ _ _ _ _ => 38
  | asset_claim_fees_operation _ _ _ => 43
  | bid_collateral_op _ _ _ _ => 45
  | asset_claim_pool_operation _ _ _ _ => 47
  | htlc_create_operation _ _ _ _ _ _ _ => 49
  | htlc_redeem_operation _ _ _ _ => 50
  | htlc_extend_operation _ _ _ _ => 52
  end.

Section operations.
Context `{EX : Ext}.

(** ** Validation: [validate()] of each operation *)
Definition transfer_validate (fee : asset) (from to : Z) (amt : asset) : result unit :=
  fc_assert (amount fee >=? 0);; fc_assert (negb (from =? to));; fc_assert (amount amt >? 0).
Definition override_transfer_validate (fee : asset) (issuer from to : Z) (amt : asset) : result unit :=
  fc_assert (amount fee >=? 0);; fc_assert (negb (from =? to));; fc_assert (amount amt >? 0);;
  fc_assert (negb (issuer =? from)).
Definition limit_order_create_validate (fee sell recv : asset) : result unit :=
  fc_assert (negb (asset_id sell =? asset_id recv));; fc_assert (amount fee >=? 0);;
  fc_assert (amount sell >? 0);; fc_assert (amount recv >? 0).
Definition limit_order_cancel_validate (fee : asset) : result unit := fc_assert (amount fee >=? 0).
Definition call_order_update_validate (fee delta_collateral delta_debt : asset) : result unit :=
  fc_assert (amount fee >=? 0);;
  fc_assert (negb (asset_id delta_collateral =? asset_id delta_debt));;
  fc_assert (negb (amount delta_collateral =? 0) || negb (amount delta_debt =? 0)).
Definition bid_collateral_validate (fee additional_collateral debt_covered : asset) : result unit :=
  fc_assert (amount fee >=? 0);;
  fc_assert ((amount debt_covered =? 0) ||
             ((amount debt_covered >? 0) && (amount additional_collateral >? 0))).
Definition asset_issue_validate (fee asset_to_issue : asset) : result unit :=
  fc_assert (amount fee >=? 0);; fc_assert (amount asset_to_issue <=? GRAPHENE_MAX_SHARE_SUPPLY);;
  fc_assert (amount asset_to_issue >? 0);; fc_assert (negb (asset_id asset_to_issue =? CORE)).
Definition asset_reserve_validate (fee amount_to_reserve : asset) : result unit :=
  fc_assert (amount fee >=? 0);; fc_assert (amount amount_to_reserve <=? GRAPHENE_MAX_SHARE_SUPPLY);;
  fc_assert (amount amount_to_reserve >? 0).
Definition asset_fund_fee_pool_validate (fee : asset) (amt : Z) : result unit :=
  fc_assert (amount fee >=? 0);; fc_assert (asset_id fee =? CORE);; fc_assert (amt >? 0).
Definition asset_settle_validate (fee amt : asset) : result unit :=
  fc_assert (amount fee >=? 0);; fc_assert (amount amt >=? 0).
Definition asset_global_settle_validate (fee : asset) (asset_to_settle : Z) (settle_price : price) : result unit :=
  fc_assert (amount fee >=? 0);; fc_assert (asset_to_settle =? asset_id (base settle_price)).
Definition asset_publish_feed_validate (fee : asset) (a : Z) (feed : price_feed) : result unit :=
  fc_assert (amount fee >=? 0);;
  price_feed_validate feed;;
  (if negb (price_is_null (core_exchange_rate feed)) then price_validate (core_exchange_rate feed)
   else Ok tt);;
  (if negb (price_is_null (settlement_price feed)) && negb (price_is_null (core_exchange_rate feed))
   then fc_assert (asset_id (base (settlement_price feed)) =? asset_id (base (core_exchange_rate feed)))
   else Ok tt);;
  fc_assert (negb (price_is_null (settlement_price feed)));;
  fc_assert (negb (price_is_null (core_exchange_rate feed)));;
  fc_assert (price_feed_is_for feed a).
Definition asset_claim_fees_validate (fee amount_to_claim : asset) : result unit :=
  fc_assert (amount fee >=? 0);; fc_assert (amount amount_to_claim >? 0).
Definition asset_claim_pool_validate (fee : asset) (a : Z) (amount_to_claim : asset) : result unit :=
  fc_assert (amount fee >=? 0);; fc_assert (negb (asset_id fee =? a));;
  fc_assert (amount amount_to_claim >? 0);; fc_assert (asset_id amount_to_claim =? CORE).
Definition withdraw_permission_create_validate (fee : asset) (from authorized : Z) (limit : asset)
    (period_sec periods : Z) : result unit :=
  fc_assert (amount fee >=? 0);; fc_assert (negb (from =? authorized));; fc_assert (amount limit >? 0);;
  fc_assert (period_sec >? 0);; fc_assert (periods >? 0).
Definition withdraw_permission_update_validate (fee : asset) (from authorized : Z) (limit : asset)
    (period_sec periods : Z) : result unit :=
  fc_assert (amount limit >? 0);; fc_assert (amount fee >=? 0);; fc_assert (period_sec >? 0);;
  fc_assert (negb (from =? authorized));; fc_assert (periods >? 0).
Definition withdraw_permission_claim_validate (fee : asset) (from to : Z) (amt : asset) : result unit :=
  fc_assert (negb (to =? from));; fc_assert (amount amt >? 0);; fc_assert (amount fee >=? 0).
Definition withdraw_permission_delete_validate (fee : asset) (from authorized : Z) : result unit :=
  fc_assert (amount fee >=? 0);; fc_assert (negb (from =? authorized)).
Definition vesting_balance_create_validate (fee amt : asset) : result unit :=
  fc_assert (amount fee >=? 0);; fc_assert (amount amt >? 0).
Definition vesting_balance_withdraw_validate (fee : asset) (owner : Z) (amt : asset) : result unit :=
  fc_assert (amount fee >=? 0);; fc_assert (amount amt >? 0);;
  fc_assert (negb (owner =? GRAPHENE_TEMP_ACCOUNT)).
(** [public_key_type()] is the key 0. *)
Definition balance_claim_validate (fee : asset) (balance_owner_key : Z) : result unit :=
  fc_assert (asset_eqb fee (Asset 0 CORE));; fc_assert (negb (balance_owner_key =? 0)).
Definition htlc_create_validate (fee amt : asset) : result unit :=
  fc_assert (amount fee >=? 0);; fc_assert (amount amt >? 0).
Definition htlc_redeem_validate (fee : asset) : result unit := fc_assert (amount fee >=? 0).
Definition htlc_extend_validate (fee : asset) : result unit := fc_assert (amount fee >=? 0).

(** No approval is both added and removed. *)
Definition approvals_disjoint (add remove : gset Z) : bool := bool_decide (add ## remove).
Definition proposal_update_validate (fee : asset) (aa ar oa or ka kr : gset Z) : result unit :=
  fc_assert (amount fee >=? 0);;
  fc_assert (negb (bool_decide (aa = ∅) && bool_decide (ar = ∅) && bool_decide (oa = ∅) && bool_decide (or = ∅)
                   && bool_decide (ka = ∅) && bool_decide (kr = ∅)));;
  fc_assert (approvals_disjoint aa ar);; fc_assert (approvals_disjoint oa or);;
  fc_assert (approvals_disjoint ka kr).
Definition proposal_delete_validate (fee : asset) : result unit := fc_assert (amount fee >=? 0).

Fixpoint operation_validate (op : operation) : result unit :=
  match op with
  | proposal_create_operation _ _ proposed_ops _ _ _ =>
      fc_assert (negb (Nat.eqb (length proposed_ops) 0));; check_each operation_validate proposed_ops
  | proposal_update_operation fee _ _ aa ar oa or ka kr _ => proposal_update_validate fee aa ar oa or ka kr
  | proposal_delete_operation fee _ _ _ => proposal_delete_validate fee
  | transfer_operation fee from to amt _ => transfer_validate fee from to amt
  | override_transfer_operation fee issuer from to amt _ => override_transfer_validate fee issuer from to amt
  | limit_order_create_operation fee _ sell recv _ _ => limit_order_create_validate fee sell recv
  | limit_order_cancel_op fee _ _ => limit_order_cancel_validate fee
  | call_order_update_operation fee _ dc dd _ => call_order_update_validate fee dc dd
  | bid_collateral_op fee _ ac dc => bid_collateral_validate fee ac dc
  | asset_issue_operation fee _ a _ _ => asset_issue_validate fee a
  | asset_reserve_operation fee _ a => asset_reserve_validate fee a
  | asset_fund_fee_pool_operation fee _ _ amt => asset_fund_fee_pool_validate fee amt
  | asset_settle_operation fee _ amt => asset_settle_validate fee amt
  | asset_global_settle_operation fee _ a p => asset_global_settle_validate fee a p
  | asset_publish_feed_operation fee _ a feed => asset_publish_feed_validate fee a feed
  | asset_claim_fees_operation fee _ a => asset_claim_fees_validate fee a
  | asset_claim_pool_operation fee _ a x => asset_claim_pool_validate fee a x
  | withdraw_permission_create_operation fee from auth limit period periods _ =>
      withdraw_permission_create_validate fee from auth limit period periods
  | withdraw_permission_update_operation fee from auth _ limit period _ periods =>
      withdraw_permission_update_validate fee from auth limit period periods
  | withdraw_permission_claim_operation fee _ from to amt _ => withdraw_permission_claim_validate fee from to amt
  | withdraw_permission_delete_operation fee from auth _ => withdraw_permission_delete_validate fee from auth
  | vesting_balance_create_operation fee _ _ amt _ => vesting_balance_create_validate fee amt
  | vesting_balance_withdraw_operation fee _ owner amt => vesting_balance_withdraw_validate fee owner amt
  | balance_claim_operation fee _ _ key _ => balance_claim_validate fee key
  | htlc_create_operation fee _ _ amt _ _ _ => htlc_create_validate fee amt
  | htlc_redeem_operation fee _ _ _ => htlc_redeem_validate fee
  | htlc_extend_operation fee _ _ _ => htlc_extend_validate fee
  end.

(** ** Fees *)

(** The fee of an operation and its price per kilobyte or per day, if it has one. *)
Record fee_parameters := FeeParameters { fp_fee : Z; fp_rate : Z }.

Definition GRAPHENE_BLOCKCHAIN_PRECISION : Z := 100000.
Definition SECONDS_PER_DAY : Z := 86400.

(** A [share_type] made from a [uint64_t], and back. *)
Definition share_of_u64 (z : Z) : Z := if z <=? int64_max then z else z - 18446744073709551616.

Definition calculate_data_fee (bytes price_per_kbyte : Z) : result Z :=
  let r := u128_div (u128_mul (u128_of bytes) price_per_kbyte) 1024 in
  fc_assert (r <=? GRAPHENE_MAX_SHARE_SUPPLY);; Ok (u128_to_int64 r).

(** [fee_parameters_type()] of each operation. *)
Definition default_fee_parameters (tag : Z) : fee_parameters :=
  let P := GRAPHENE_BLOCKCHAIN_PRECISION in
  if tag =? 0 then FeeParameters (20 * P) (10 * P)
  else if tag =? 1 then FeeParameters (5 * P) 0
  else if tag =? 2 then FeeParameters 0 0
  else if tag =? 3 then FeeParameters (20 * P) 0
  else if tag =? 14 then FeeParameters (20 * P) P
  else if tag =? 15 then FeeParameters (20 * P) 0
  else if tag =? 16 then FeeParameters P 0
  else if tag =? 17 then FeeParameters (100 * P) 0
  else if tag =? 18 then FeeParameters (500 * P) 0
  else if tag =? 19 then FeeParameters P 0
  else if tag =? 22 then FeeParameters (20 * P) 10
  else if tag =? 23 then FeeParameters (20 * P) 10
  else if tag =? 24 then FeeParameters P 0
  else if tag =? 25 then FeeParameters P 0
  else if tag =? 26 then FeeParameters P 0
  else if tag =? 27 then FeeParameters (20 * P) 10
  else if tag =? 28 then FeeParameters 0 0
  else if tag =? 32 then FeeParameters P 0
  else if tag =? 33 then FeeParameters (20 * P) 0
  else if tag =? 37 then FeeParameters 0 0
  else if tag =? 38 then FeeParameters (20 * P) 10
  else if tag =? 43 then FeeParameters (20 * P) 0
  else if tag =? 45 then FeeParameters (20 * P) 0
  else if tag =? 47 then FeeParameters (20 * P) 0
  else if tag =? 49 then FeeParameters P P
  else if tag =? 50 then FeeParameters P P
  else FeeParameters P P.

(** [fee_helper<Operation>().cget( parameters )]. *)
Definition fee_cget (fees : gmap Z fee_parameters) (tag : Z) : result fee_parameters :=
  match fees !! tag with
  | Some p => Ok p
  | None =>
      if tag =? 45 then
        match fees !! 3 with Some p => Ok (FeeParameters (fp_fee p) 0) | None => Err assert_exception end
      else if tag =? 47 then
        match fees !! 16 with Some p => Ok (FeeParameters (fp_fee p) 0) | None => Err assert_exception end
      else if (tag =? 49) || (tag =? 50) || (tag =? 52) then Ok (default_fee_parameters tag)
      else Err assert_exception
  end.

(** [fee + calculate_data_fee( ... )] for an optional memo. *)
Definition memo_fee (p : fee_parameters) (memo_size : option Z) : result Z :=
  match memo_size with
  | None => Ok (share_of_u64 (fp_fee p))
  | Some n => d ← calculate_data_fee n (fp_rate p); safe_add (share_of_u64 (fp_fee p)) d
  end.
(** [n] units at the rate, with the source's overflow check. *)
Definition unit_fee (p : fee_parameters) (n : Z) : result Z :=
  let product := u64 (fp_rate p * n) in
  fc_assert ((n =? 0) || (product / n =? fp_rate p));;
  Ok (share_of_u64 (u64 (fp_fee p + product))).

(** The fee and the price of [n] bytes, added as [uint64_t]. *)
Definition data_fee (p : fee_parameters) (n : Z) : result Z :=
  d ← calculate_data_fee n (fp_rate p); Ok (share_of_u64 (u64 (fp_fee p + d))).
Definition htlc_create_calculate_fee (p : fee_parameters) (claim_period_seconds : Z) : result Z :=
  unit_fee p (u32 (claim_period_seconds + SECONDS_PER_DAY - 1) / SECONDS_PER_DAY).
Definition htlc_redeem_calculate_fee (p : fee_parameters) (preimage : list Z) : result Z :=
  unit_fee p ((Z.of_nat (length preimage) + 1023) / 1024).
Definition htlc_extend_calculate_fee (p : fee_parameters) (seconds_to_add : Z) : result Z :=
  unit_fee p (u32 (seconds_to_add + SECONDS_PER_DAY - 1) / SECONDS_PER_DAY).

(** [op.calculate_fee( p )]; [base_operation] answers the fee itself. *)
Definition op_calculate_fee (op : operation) (p : fee_parameters) : result Z :=
  match op with
  | transfer_operation _ _ _ _ m | override_transfer_operation _ _ _ _ _ m
  | withdraw_permission_claim_operation _ _ _ _ _ m => memo_fee p m
  | asset_issue_operation _ _ _ _ n | proposal_create_operation _ _ _ _ _ n
  | proposal_update_operation _ _ _ _ _ _ _ _ _ n => data_fee p n
  | balance_claim_operation _ _ _ _ _ => Ok 0
  | htlc_create_operation _ _ _ _ _ _ secs => htlc_create_calculate_fee p secs
  | htlc_redeem_operation _ _ _ pre => htlc_redeem_calculate_fee p pre
  | htlc_extend_operation _ _ _ secs => htlc_extend_calculate_fee p secs
  | _ => Ok (share_of_u64 (fp_fee p))
  end.

(** [calc_fee_visitor]: a failed assertion is retried with the parameters of the
    schedule or the default ones. *)
Definition calc_fee (fees : gmap Z fee_parameters) (op : operation) : result Z :=
  match (p ← fee_cget fees (op_tag op); op_calculate_fee op p) with
  | Err assert_exception =>
      op_calculate_fee op (default (default_fee_parameters (op_tag op)) (fees !! op_tag op))
  | r => r
  end.

(** [fee_schedule::calculate_fee( op ).amount]. *)
Definition calculate_fee (fees : gmap Z fee_parameters) (scale : Z) (op : operation) : result Z :=
  f ← calc_fee fees op;
  let required_fee := u64 f in
  if negb (scale =? GRAPHENE_100_PERCENT) then
    let scaled := u128_div (u128_mul (u128_of required_fee) scale) GRAPHENE_100_PERCENT in
    fc_assert (scaled <=? GRAPHENE_MAX_SHARE_SUPPLY);; Ok (u128_to_int64 scaled)
  else Ok (share_of_u64 required_fee).

(** ** Required authorities *)
Definition required_other (op : operation) : list authority :=
  match op with
  | balance_claim_operation _ _ _ key _ => [Authority 1 [] [(key, 1)] []]
  | proposal_update_operation _ _ _ _ _ _ _ ka kr _ =>
      if bool_decide (ka ∪ kr = ∅) then []
      else [Authority (Z.of_nat (size (ka ∪ kr))) [] ((λ k, (k, 1)) <$> merge_sort Z.le (elements (ka ∪ kr))) []]
  | _ => []
  end.
Definition required_active (op : operation) : gset Z :=
  match op with
  | proposal_update_operation _ account _ aa ar _ _ _ _ _ => {[ account ]} ∪ aa ∪ ar
  | _ => {[ fee_payer op ]}
  end.
Definition required_owner (op : operation) : gset Z :=
  match op with proposal_update_operation _ _ _ _ _ oa or _ _ _ => oa ∪ or | _ => ∅ end.

(** The accounts whose active authority, those whose owner authority and the further
    authorities a list of operations requires. *)
Definition operation_get_required_authorities (ops : list operation) : list Z * list Z * list authority :=
  (merge_sort Z.le (elements (⋃ (required_active <$> ops))),
   merge_sort Z.le (elements (⋃ (required_owner <$> ops))), concat (required_other <$> ops)).

End operations.
