(* ===== verification/Block.v ===== *)
(** * Block headers: protocol/block.cpp and protocol/block.hpp

    Block ids carry the block number in their first word; the transactions of a
    block are hashed in pairs, in place, up to the merkle root.  The hash
    functions and the byte swap come from fc and boost: they are the members
    of the class [BlockExt]. *)

From S2P Require Import Prelude.

(** A block id as its first 32-bit word and the other words. *)
Notation block_id_type := (Z * Z)%type.
Definition null_id : block_id_type := (0, 0).

Record signed_block := SignedBlock {
  previous : block_id_type;
  timestamp : Z;
  witness : Z;
  transaction_merkle_root : Z;
  witness_signature : Z;
  transactions : list Z;
  _block_id : block_id_type;
  _calculated_merkle_root : Z
}.

#[global] Instance signed_block_eq_dec : EqDecision signed_block.
Proof. solve_decision. Defined.

(** The serialised part of the header: what is hashed. *)
Definition header_fields (b : signed_block) :=
  (previous b, timestamp b, witness b, transaction_merkle_root b, witness_signature b).

(** Byte swap and hashes.  A digest is a non-negative number; the checksum's
    first word is its value modulo 2^32. *)
Class BlockExt := {
  endian_reverse : Z → Z;
  endian_reverse_range : ∀ x, 0 ≤ x ≤ uint32_max → 0 ≤ endian_reverse x ≤ uint32_max;
  endian_reverse_invol : ∀ x, 0 ≤ x ≤ uint32_max → endian_reverse (endian_reverse x) = x;
  sha224_header : block_id_type * Z * Z * Z * Z → block_id_type;
  merkle_digest : Z → Z;
  hash_pair : Z → Z → Z;
  checksum_hash : Z → Z
}.

Section block.
Context `{BlockExt}.

Definition num_from_id (id : block_id_type) : Z := endian_reverse id.1.
Definition block_num (b : signed_block) : Z := u32 (num_from_id (previous b) + 1).

Definition set_block_id (b : signed_block) (id : block_id_type) : signed_block :=
  SignedBlock (previous b) (timestamp b) (witness b) (transaction_merkle_root b)
    (witness_signature b) (transactions b) id (_calculated_merkle_root b).

(** [signed_block_header::id]: computed once and kept in [_block_id]. *)
Definition compute_id (b : signed_block) : block_id_type :=
  let tmp := sha224_header (header_fields b) in
  (endian_reverse (block_num b), tmp.2).
Definition block_id (b : signed_block) : block_id_type * signed_block :=
  if (_block_id b).1 =? 0
  then (compute_id b, set_block_id b (compute_id b))
  else (_block_id b, b).

(** One round of [calculate_merkle_root]: [ids[k++] = hash( ids[i], ids[i+1] )]
    for [i] = 0, 2, ... below [i_max], in place. *)
Fixpoint merkle_round (fuel : nat) (i i_max k : nat) (ids : list Z) : nat * list Z :=
  match fuel with
  | O => (k, ids)
  | S n =>
      if bool_decide (i < i_max)%nat
      then merkle_round n (i + 2) i_max (k + 1)
             (<[k := hash_pair (ids !!! i) (ids !!! (i + 1)%nat)]> ids)
      else (k, ids)
  end.

Fixpoint merkle_loop (fuel : nat) (current_number_of_hashes : nat) (ids : list Z) : list Z :=
  match fuel with
  | O => ids
  | S n =>
      if bool_decide (1 < current_number_of_hashes)%nat then
        let odd := Nat.odd current_number_of_hashes in
        let i_max := (current_number_of_hashes - if odd then 1 else 0)%nat in
        let '(k, ids1) := merkle_round i_max 0 i_max 0 ids in
        let '(k, ids2) := if odd then ((k + 1)%nat, <[k := ids1 !!! i_max]> ids1)
                          else (k, ids1) in
        merkle_loop n k ids2
      else ids
  end.

Definition calculate_merkle_root (b : signed_block) : Z * signed_block :=
  match transactions b with
  | [] => (0, b)
  | txs =>
      if u32 (_calculated_merkle_root b) =? 0 then
        let ids := merkle_digest <$> txs in
        let ids' := merkle_loop (length ids) (length ids) ids in
        let r := checksum_hash (ids' !!! 0%nat) in
        (r, SignedBlock (previous b) (timestamp b) (witness b) (transaction_merkle_root b)
              (witness_signature b) (transactions b) (_block_id b) r)
      else (_calculated_merkle_root b, b)
  end.

(** ** The reference: pairwise hashing of a list *)
Fixpoint pair_up (l : list Z) : list Z :=
  match l with
  | x :: y :: l' => hash_pair x y :: pair_up l'
  | l => l
  end.
Fixpoint merkle_spec (fuel : nat) (l : list Z) : list Z :=
  match fuel with
  | O => l
  | S n => match l with _ :: _ :: _ => merkle_spec n (pair_up l) | _ => l end
  end.

Lemma length_pair_up l : length (pair_up l) = Nat.div2 (length l + 1).
Proof.
  induction l as [l IH] using (well_founded_induction (well_founded_ltof _ length)).
  destruct l as [|x [|y l]]; [done|done|]. cbn [pair_up length].
  rewrite IH by (unfold ltof; cbn; lia). cbn. f_equal.
Qed.

(** After [j] steps the first [j] cells hold the hashes of the first [j] pairs
    and the cells from [2 j] on are untouched. *)
Lemma merkle_round_spec n fuel k a done_ rest_ junk :
  (n ≤ fuel)%nat → length rest_ = (2 * n)%nat → length done_ = k → length junk = k →
  a = (done_ ++ junk ++ rest_) →
  ∀ tail, ∃ junk', merkle_round fuel (2 * k) (2 * k + 2 * n) k (a ++ tail)
    = ((k + n)%nat, (done_ ++ pair_up rest_ ++ junk') ++ tail) ∧ length junk' = (k + n)%nat.
Proof.
  revert fuel k a done_ rest_ junk.
  induction n as [|n IH]; intros fuel k a dn rs junk Hf Hr Hd Hj -> tail.
  - destruct rs; [|cbn in Hr; lia]. exists junk. rewrite app_nil_r. cbn [pair_up app].
    split; [|lia].
    destruct fuel; cbn [merkle_round]; [do 2 f_equal; lia|].
    rewrite bool_decide_eq_false_2 by lia. do 2 f_equal; lia.
  - destruct fuel as [|fuel]; [lia|]. destruct rs as [|x [|y rs]]; cbn in Hr; try lia.
    cbn [merkle_round]. rewrite bool_decide_eq_true_2 by lia.
    set (l := (dn ++ junk ++ x :: y :: rs) ++ tail).
    assert (l !!! (2 * k)%nat = x) as Ex.
    { unfold l. apply list_lookup_total_correct. rewrite <- !app_assoc.
      rewrite lookup_app_r, lookup_app_r by lia.
      replace (2 * k - length dn - length junk)%nat with 0%nat by lia. done. }
    assert (l !!! (2 * k + 1)%nat = y) as Ey.
    { unfold l. apply list_lookup_total_correct. rewrite <- !app_assoc.
      rewrite lookup_app_r, lookup_app_r by lia.
      replace (2 * k + 1 - length dn - length junk)%nat with 1%nat by lia. done. }
    rewrite Ex, Ey.
    assert (∃ junk1, <[k:=hash_pair x y]> l = ((dn ++ [hash_pair x y]) ++ junk1 ++ rs) ++ tail
              ∧ length junk1 = (k + 1)%nat) as (junk1 & -> & Hj1).
    { unfold l. destruct junk as [|z junk].
      - assert (k = 0%nat) as -> by done. destruct dn; [|done]. exists [y]. done.
      - exists (junk ++ [x; y]). split; [|rewrite length_app; cbn in *; lia].
        rewrite <- !app_assoc. rewrite insert_app_r_alt by lia.
        replace (k - length dn)%nat with 0%nat by lia. cbn. by rewrite <- ?app_assoc. }
    replace (2 * k + 2)%nat with (2 * (k + 1))%nat by lia.
    replace (2 * k + 2 * S n)%nat with (2 * (k + 1) + 2 * n)%nat by lia.
    destruct (IH fuel (k + 1)%nat _ (dn ++ [hash_pair x y]) rs junk1 ltac:(lia) ltac:(lia)
                ltac:(rewrite length_app; cbn; lia) Hj1 eq_refl tail) as (junk' & -> & Hl).
    exists junk'. split; [|lia]. f_equal; [lia|].
    cbn [pair_up]. by rewrite <- (app_assoc dn).
Qed.

Lemma merkle_round_full m l tail :
  length l = (2 * m)%nat →
  ∃ junk, merkle_round (2 * m) 0 (2 * m) 0 (l ++ tail) = (m, (pair_up l ++ junk) ++ tail)
    ∧ length junk = m.
Proof.
  intros Hl.
  destruct (merkle_round_spec m (2 * m) 0 l [] l [] ltac:(lia) Hl eq_refl eq_refl eq_refl tail)
    as (junk & E & Hj).
  exists junk. split; [exact E|done].
Qed.

Lemma pair_up_app_even l x : Nat.even (length l) = true → pair_up (l ++ [x]) = pair_up l ++ [x].
Proof.
  induction l as [l IH] using (well_founded_induction (well_founded_ltof _ length)).
  destruct l as [|a [|b l]]; [done|done|]. cbn -[ltof]. intros E.
  rewrite IH; [done|unfold ltof; cbn; lia|done].
Qed.

Lemma merkle_loop_spec fuel l junk :
  (length l ≤ fuel)%nat →
  ∃ junk', merkle_loop fuel (length l) (l ++ junk) = merkle_spec fuel l ++ junk'.
Proof.
  revert l junk. induction fuel as [|fuel IH]; intros l junk Hf.
  { exists junk. done. }
  cbn [merkle_loop merkle_spec]. case_bool_decide as Hn; cycle 1.
  { exists junk. by destruct l as [|? [|? ?]]; cbn in Hn; [..|lia]. }
  destruct l as [|x0 [|x1 l0]] eqn:El; [cbn in Hn; lia..|]. rewrite <- El in *. clear El x0 x1 l0.
  destruct (Nat.odd (length l)) eqn:Eodd.
  - apply Nat.odd_spec in Eodd as [m Em].
    destruct (exists_last (l:=l)) as (l0 & x & ->); [by destruct l; cbn in Hn; [lia|]|].
    rewrite length_app in *. cbn [length] in *. assert (length l0 = (2 * m)%nat) as E0 by lia.
    replace (length l0 + 1 - 1)%nat with (2 * m)%nat by lia.
    destruct (merkle_round_full m l0 ([x] ++ junk) E0) as (junk1 & E1 & Hj).
    rewrite <- app_assoc, E1. cbn [app].
    assert (length (pair_up l0 ++ junk1) = (2 * m)%nat) as Elen.
    { rewrite length_app, length_pair_up, Hj, E0, Nat.add_1_r, Nat.div2_succ_double. lia. }
    assert (((pair_up l0 ++ junk1) ++ x :: junk) !!! (2 * m)%nat = x) as ->.
    { apply list_lookup_total_correct. rewrite lookup_app_r by lia.
      replace (2 * m - length (pair_up l0 ++ junk1))%nat with 0%nat by lia. done. }
    destruct junk1 as [|z junk1]; [cbn in Hj; lia|].
    assert (<[m:=x]> ((pair_up l0 ++ z :: junk1) ++ x :: junk)
            = pair_up (l0 ++ [x]) ++ junk1 ++ x :: junk) as ->.
    { rewrite pair_up_app_even by (rewrite E0; apply Nat.even_spec; exists m; lia).
      rewrite <- !app_assoc. cbn [app]. rewrite insert_app_r_alt.
      - rewrite length_pair_up, E0, Nat.add_1_r, Nat.div2_succ_double, Nat.sub_diag. done.
      - rewrite length_pair_up, E0, Nat.add_1_r, Nat.div2_succ_double. lia. }
    assert ((m + 1)%nat = length (pair_up (l0 ++ [x]))) as ->.
    { rewrite length_pair_up, length_app, E0. cbn [length].
      replace (2 * m + 1 + 1)%nat with (2 * (m + 1))%nat by lia. rewrite Nat.div2_double. lia. }
    apply IH. rewrite length_pair_up, length_app, E0. cbn [length].
    replace (2 * m + 1 + 1)%nat with (2 * (m + 1))%nat by lia. rewrite Nat.div2_double. lia.
  - assert (Nat.even (length l) = true) as Eev by (by rewrite <- Nat.negb_odd, Eodd).
    apply Nat.even_spec in Eev as [m Em].
    replace (length l - 0)%nat with (2 * m)%nat by lia.
    destruct (merkle_round_full m l junk Em) as (junk1 & E1 & Hj).
    rewrite E1. rewrite <- app_assoc.
    assert (m = length (pair_up l)) as E2.
    { rewrite length_pair_up, Em, Nat.add_1_r, Nat.div2_succ_double. lia. }
    rewrite E2. apply IH. lia.
Qed.

(** The merkle root as a relation: hash in pairs until one digest is left. *)
Inductive merkle_tree : list Z → Z → Prop :=
| mt_one x : merkle_tree [x] x
| mt_round x y l r : merkle_tree (pair_up (x :: y :: l)) r → merkle_tree (x :: y :: l) r.

Lemma merkle_spec_tree fuel l :
  l ≠ [] → (length l ≤ fuel)%nat → ∃ r, merkle_spec fuel l = [r] ∧ merkle_tree l r.
Proof.
  revert l. induction fuel as [|fuel IH]; intros l Hl Hf.
  { destruct l; [done|cbn in Hf; lia]. }
  destruct l as [|x [|y l]]; [done| |].
  { exists x. split; [done|constructor]. }
  cbn [merkle_spec]. destruct (IH (pair_up (x :: y :: l))) as (r & E & Ht); [done| |].
  { rewrite length_pair_up. pose proof (Nat.div2_decr (length (x :: y :: l) + 1) (length (x :: y :: l))).
    cbn [length] in *. replace (S (S (length l)) + 1)%nat with (S (S (length l + 1))) by lia.
    cbn [Nat.div2]. pose proof (Nat.div2_decr (length l + 1) (length l)). lia. }
  exists r. split; [exact E|by constructor].
Qed.

Lemma merkle_loop_tree l :
  l ≠ [] → merkle_tree l (merkle_loop (length l) (length l) l !!! 0%nat).
Proof.
  intros Hl. destruct (merkle_loop_spec (length l) l [] ltac:(done)) as (junk & E).
  rewrite app_nil_r in E. rewrite E.
  destruct (merkle_spec_tree (length l) l Hl ltac:(done)) as (r & -> & Ht). exact Ht.
Qed.

(** C31: The merkle root of a block: the in-place loop terminates with the root
    of the tree that hashes the transaction digests in pairs (an odd one out is
    passed up unchanged); asking again returns the cached value, and an empty
    block has the null checksum. *)
Theorem calculate_merkle_root_correct (b : signed_block) :
  _calculated_merkle_root b = 0 →
  let '(r, b') := calculate_merkle_root b in
  match transactions b with
  | [] => r = 0 ∧ b' = b
  | txs => ∃ t, merkle_tree (merkle_digest <$> txs) t ∧ r = checksum_hash t
  end ∧ (calculate_merkle_root b').1 = r ∧ header_fields b' = header_fields b.
Proof.
  intros Hc. unfold calculate_merkle_root. destruct (transactions b) as [|t txs] eqn:Et.
  { rewrite Et. done. }
  rewrite Hc. cbn [Z.eqb u32]. split; [|split].
  - eexists. split; [|done]. rewrite length_fmap. rewrite <- (length_fmap merkle_digest).
    apply merkle_loop_tree. done.
  - cbn [transactions _calculated_merkle_root]. by case_match.
  - done.
Qed.

(** The cached id is either unset or the id of the header. *)
Definition id_coherent (b : signed_block) : Prop :=
  (_block_id b).1 = 0 ∨ _block_id b = compute_id b.

(** The number of a block can be read back from its id: [num_from_id] of
    [id()] is [block_num()], also when the cached id is used, the header is
    not changed, and a successor block has the next number (modulo 2^32). *)
Theorem block_id_num (b b' : signed_block) :
  id_coherent b → (previous b').1 = (block_id b).1.1 →
  let '(id, b1) := block_id b in
  num_from_id id = block_num b ∧ id = compute_id b ∧ header_fields b1 = header_fields b ∧
  id_coherent b1 ∧ block_num b' = u32 (block_num b + 1).
Proof.
  intros Hcoh Hp.
  assert (0 ≤ block_num b ≤ uint32_max) as Hr.
  { unfold block_num. unfold_widths. pose proof (Z.mod_pos_bound (num_from_id (previous b) + 1) 4294967296). lia. }
  assert (num_from_id (compute_id b) = block_num b) as Hn.
  { unfold num_from_id, compute_id. cbn. by apply endian_reverse_invol. }
  assert ((block_id b).1 = compute_id b) as Hid.
  { unfold block_id. destruct ((_block_id b).1 =? 0) eqn:E; [done|]. bool_to_prop.
    destruct Hcoh; [done|]. done. }
  assert (block_num b' = u32 (block_num b + 1)) as Hb'.
  { unfold block_num at 1, num_from_id. rewrite Hp, Hid, <- Hn. done. }
  destruct (block_id b) as [id b1] eqn:E. cbn in Hid. subst id.
  split_and!; [done|done|..|done]; unfold block_id in E; case_match; simplify_eq; try done.
  right. done.
Qed.

End block.

(** ** A concrete instance and the witnesses *)
Definition byte_swap (x : Z) : Z :=
  x mod 256 * 16777216 + x / 256 mod 256 * 65536 + x / 65536 mod 256 * 256 + x / 16777216.

Lemma byte_swap_range x : 0 ≤ x ≤ uint32_max → 0 ≤ byte_swap x ≤ uint32_max.
Proof. unfold byte_swap. unfold_widths. intros. Z.to_euclidean_division_equations. lia. Qed.

Lemma byte_swap_digits a b c d :
  0 ≤ a < 256 → 0 ≤ b < 256 → 0 ≤ c < 256 → 0 ≤ d < 256 →
  byte_swap (a * 16777216 + b * 65536 + c * 256 + d) = d * 16777216 + c * 65536 + b * 256 + a.
Proof.
  intros. unfold byte_swap. Z.to_euclidean_division_equations. lia.
Qed.

Lemma byte_swap_invol x : 0 ≤ x ≤ uint32_max → byte_swap (byte_swap x) = x.
Proof.
  intros Hx. unfold byte_swap at 2. rewrite byte_swap_digits;
    unfold_widths; Z.to_euclidean_division_equations; lia.
Qed.

#[export, refine] Instance block_ext_ref : BlockExt := {|
  endian_reverse := byte_swap;
  sha224_header := λ h, (u32 (h.1.1.1.2 * 31 + h.1.1.2), h.1.1.1.1.2 * 7 + h.1.1.1.2 * 31 + h.1.1.2);
  merkle_digest := λ t, t * 3 + 1;
  hash_pair := λ a b, 1000003 * a + b;
  checksum_hash := λ a, a + 17
|}.
Proof. - apply byte_swap_range. - apply byte_swap_invol. Defined.

Definition ex_block : signed_block := SignedBlock (byte_swap 41, 9) 1000 3 0 5 [1; 2; 3; 4; 5] null_id 0.

Lemma calculate_merkle_root_correct_witness :
  (calculate_merkle_root ex_block).1
    = 17 + (1000003 * (1000003 * (1000003 * 4 + 7) + (1000003 * 10 + 13)) + 16)
  ∧ ∃ t, merkle_tree [4; 7; 10; 13; 16] t ∧ (calculate_merkle_root ex_block).1 = checksum_hash t.
Proof.
  pose proof (calculate_merkle_root_correct ex_block eq_refl) as H.
  destruct (calculate_merkle_root ex_block) as [r b'] eqn:E. vm_compute in E. injection E as <- <-.
  split; [reflexivity|]. exact (proj1 H).
Defined.

Lemma block_id_num_witness :
  num_from_id (block_id ex_block).1 = 42
  ∧ block_num (SignedBlock (block_id ex_block).1 0 0 0 0 [] null_id 0) = 43.
Proof.
  pose proof (block_id_num ex_block (SignedBlock (block_id ex_block).1 0 0 0 0 [] null_id 0)
    (or_introl eq_refl) eq_refl) as H.
  destruct (block_id ex_block) as [id b1]. cbn [fst] in *. destruct H as (-> & _ & _ & _ & ->).
  by vm_compute.
Defined.
