(* ===== verification/ForkDb.v ===== *)
(** * The fork database: chain/fork_database.cpp

    Recent blocks as a tree.  The items are shared objects: the index and the
    head own them, the link to the previous block is a weak pointer that can
    be followed only while somebody owns the item.  The model keeps a heap of
    all items ever allocated and decides ownership from the index, the head
    and the set of items that callers hold. *)

From S2P Require Import Prelude Block.

Section forkdb.
Context `{BlockExt}.

Record fork_item := ForkItem {
  prev : option positive;
  num : Z;
  id : block_id_type;
  data : signed_block
}.

Record fork_database := ForkDatabase {
  heap : gmap positive fork_item;
  next_ptr : positive;
  _index : gmap block_id_type positive;
  _head : option positive;
  _max_size : Z;
  held : gset positive
}.

Definition empty_fork_db : fork_database := ForkDatabase ∅ 1 ∅ None 1024 ∅.

Definition set_index (idx : gmap block_id_type positive) (db : fork_database) : fork_database :=
  ForkDatabase (heap db) (next_ptr db) idx (_head db) (_max_size db) (held db).
Definition set_head (h : option positive) (db : fork_database) : fork_database :=
  ForkDatabase (heap db) (next_ptr db) (_index db) h (_max_size db) (held db).

Definition reset (db : fork_database) : fork_database := set_index ∅ (set_head None db).

(** [make_shared<fork_item>( b )]. *)
Definition make_item (b : signed_block) : fork_item :=
  ForkItem None (block_num b) (block_id b).1 b.
Definition alloc (it : fork_item) (db : fork_database) : positive * fork_database :=
  (next_ptr db,
   ForkDatabase (<[next_ptr db := it]> (heap db)) (next_ptr db + 1) (_index db) (_head db)
     (_max_size db) (held db)).

Definition item (db : fork_database) (p : positive) : result fork_item :=
  from_option_r undefined_behaviour (heap db !! p).

(** Whether some shared pointer owns the item, and [weak_ptr::lock]. *)
Definition alive (db : fork_database) (p : positive) : bool :=
  bool_decide (p ∈ (map_to_list (_index db)).*2) || bool_decide (_head db = Some p)
  || bool_decide (p ∈ held db).
Definition lock (db : fork_database) (w : option positive) : option positive :=
  match w with
  | Some p => if alive db p then Some p else None
  | None => None
  end.

Definition pop_block (db : fork_database) : result fork_database :=
  h ← from_option_r assert_exception (_head db);
  it ← item db h;
  p ← from_option_r assert_exception (lock db (prev it));
  Ok (set_head (Some p) db).

(** The id index is unique: inserting a known id changes nothing. *)
Definition index_insert (i : block_id_type) (p : positive) (db : fork_database) : fork_database :=
  match _index db !! i with
  | Some _ => db
  | None => set_index (<[i := p]> (_index db)) db
  end.

Definition start_block (b : signed_block) (db : fork_database) : fork_database :=
  let it := make_item b in
  let '(p, db1) := alloc it db in
  set_head (Some p) (index_insert (id it) p db1).

Definition num_at (db : fork_database) (p : positive) : Z :=
  from_option num 0 (heap db !! p).

(** The index ordered by block number. *)
Definition num_le (db : fork_database) (x y : block_id_type * positive) : Prop :=
  num_at db x.2 ≤ num_at db y.2.
#[global] Instance num_le_dec db x y : Decision (num_le db x y).
Proof. unfold num_le. apply _. Defined.
Definition by_num (db : fork_database) : list (block_id_type * positive) :=
  merge_sort (num_le db) (map_to_list (_index db)).

(** Erase from the front of the ordered index while the number is too small. *)
Fixpoint erase_below (db : fork_database) (min_num : Z) (l : list (block_id_type * positive))
    (idx : gmap block_id_type positive) : gmap block_id_type positive :=
  match l with
  | [] => idx
  | (i, p) :: l' =>
      if num_at db p <? min_num then erase_below db min_num l' (delete i idx) else idx
  end.
Definition prune (min_num : Z) (db : fork_database) : fork_database :=
  set_index (erase_below db min_num (by_num db) (_index db)) db.

Definition set_prev (p : positive) (w : option positive) (db : fork_database) : fork_database :=
  ForkDatabase (alter (λ it, ForkItem w (num it) (id it) (data it)) p (heap db)) (next_ptr db)
    (_index db) (_head db) (_max_size db) (held db).

(** The end of [_push_block] below a head with number [head_num]: insert, and
    move the head and prune if the block is higher. *)
Definition insert_item (p : positive) (it : fork_item) (head_num : Z) (db : fork_database)
    : fork_database :=
  let db1 := index_insert (id it) p db in
  if num it >? head_num then
    let db2 := set_head (Some p) db1 in
    prune (num it - Z.min (_max_size db2) (num it)) db2
  else db1.

Definition _push_block (p : positive) (db : fork_database) : result fork_database :=
  it ← item db p;
  match _head db with
  | None => Ok (set_head (Some p) (index_insert (id it) p db))
  | Some h =>
      hd ← item db h;
      fc_assert (num it >? Z.max 0 (num hd - _max_size db));;
      db1 ← (if bool_decide (previous (data it) = null_id) then Ok db
             else q ← from_option_r unlinkable_block_exception (_index db !! previous (data it));
                  Ok (set_prev p (Some q) db));
      Ok (insert_item p it (num hd) db1)
  end.

Definition push_block (b : signed_block) (db : fork_database)
    : result (option positive * fork_database) :=
  let '(p, db1) := alloc (make_item b) db in
  db2 ← _push_block p db1;
  Ok (_head db2, db2).

Definition set_max_size (s : Z) (db : fork_database) : result fork_database :=
  let db1 := ForkDatabase (heap db) (next_ptr db) (_index db) (_head db) s (held db) in
  match _head db1 with
  | None => Ok db1
  | Some h => hd ← item db1 h; Ok (prune (Z.max 0 (num hd - s)) db1)
  end.

Definition is_known_block (i : block_id_type) (db : fork_database) : bool :=
  match _index db !! i with Some _ => true | None => false end.
Definition fetch_block (i : block_id_type) (db : fork_database) : option positive :=
  _index db !! i.

(** [find( num )] on the ordered index, then forward while the number is right. *)
Fixpoint take_num (db : fork_database) (n : Z) (l : list (block_id_type * positive)) : list positive :=
  match l with
  | (_, p) :: l' => if num_at db p =? n then p :: take_num db n l' else []
  | [] => []
  end.
Fixpoint find_num (db : fork_database) (n : Z) (l : list (block_id_type * positive))
    : list (block_id_type * positive) :=
  match l with
  | (_, p) :: l' => if num_at db p =? n then l else find_num db n l'
  | [] => []
  end.
Definition fetch_block_by_number (n : Z) (db : fork_database) : list positive :=
  take_num db n (find_num db n (by_num db)).

(** The loops of [fetch_branch_from]. *)
Fixpoint down_to (fuel : nat) (db : fork_database) (p : positive) (n : Z) (acc : list positive)
    : result (positive * list positive) :=
  match fuel with
  | O => Err out_of_fuel
  | S fuel' =>
      it ← item db p;
      if block_num (data it) >? n then
        q ← from_option_r assert_exception (lock db (prev it));
        down_to fuel' db q n (acc ++ [p])
      else Ok (p, acc)
  end.

Fixpoint down_both (fuel : nat) (db : fork_database) (p q : positive) (acc1 acc2 : list positive)
    : result (list positive * list positive) :=
  match fuel with
  | O => Err out_of_fuel
  | S fuel' =>
      it1 ← item db p; it2 ← item db q;
      if bool_decide (previous (data it1) = previous (data it2)) then Ok (acc1 ++ [p], acc2 ++ [q])
      else
        p' ← from_option_r assert_exception (lock db (prev it1));
        q' ← from_option_r assert_exception (lock db (prev it2));
        down_both fuel' db p' q' (acc1 ++ [p]) (acc2 ++ [q])
  end.

(** Items are allocated after the items they link to, so a pointer bounds the
    number of links that can be followed from it. *)
Definition ptr_fuel (p : positive) : nat := S (Pos.to_nat p).

Definition fetch_branch_from (first second : block_id_type) (db : fork_database)
    : result (list positive * list positive) :=
  p ← from_option_r assert_exception (_index db !! first);
  q ← from_option_r assert_exception (_index db !! second);
  itq ← item db q;
  '(p', acc1) ← down_to (ptr_fuel p) db p (block_num (data itq)) [];
  itp ← item db p';
  '(q', acc2) ← down_to (ptr_fuel q) db q (block_num (data itp)) [];
  down_both (ptr_fuel p') db p' q' acc1 acc2.

Definition remove (i : block_id_type) (db : fork_database) : result fork_database :=
  let db1 := set_index (delete i (_index db)) db in
  match _head db1 with
  | None => Ok db1
  | Some h =>
      it ← item db1 h;
      if bool_decide (id it = i) then
        match pop_block db1 with
        | Ok db2 => Ok db2
        | Err _ => Ok (set_head None db1)
        end
      else Ok db1
  end.

End forkdb.

Section forkdb_proofs.
Context `{BlockExt}.
Implicit Types (db : fork_database) (p q : positive) (b : signed_block).

(** ** The invariant *)
Definition item_ok db p (it : fork_item) : Prop :=
  (p < next_ptr db)%positive ∧ num it = block_num (data it) ∧ id it = compute_id (data it) ∧
  ∀ q, prev it = Some q →
    (q < p)%positive ∧ ∃ itq, heap db !! q = Some itq ∧ id itq = previous (data it).

Record wf db : Prop := {
  wf_items : ∀ p it, heap db !! p = Some it → item_ok db p it;
  wf_index : ∀ i p, _index db !! i = Some p → ∃ it, heap db !! p = Some it ∧ id it = i;
  wf_head : ∀ p, _head db = Some p → is_Some (heap db !! p);
}.

Lemma num_from_compute_id b : num_from_id (compute_id b) = block_num b.
Proof.
  unfold num_from_id, compute_id. cbn. apply endian_reverse_invol.
  unfold block_num. unfold_widths. pose proof (Z.mod_pos_bound (num_from_id (previous b) + 1) 4294967296).
  lia.
Qed.

Lemma block_num_bounds b : 0 ≤ block_num b ≤ uint32_max.
Proof.
  unfold block_num. unfold_widths. pose proof (Z.mod_pos_bound (num_from_id (previous b) + 1) 4294967296).
  lia.
Qed.

Lemma block_id_coherent b : id_coherent b → (block_id b).1 = compute_id b.
Proof.
  intros Hc. unfold block_id. destruct ((_block_id b).1 =? 0) eqn:E; [done|]. bool_to_prop.
  by destruct Hc.
Qed.

Lemma wf_num_at db i p :
  wf db → _index db !! i = Some p → num_at db p = num_from_id i.
Proof.
  intros W Hi. destruct (wf_index _ W _ _ Hi) as (it & Hp & <-).
  destruct (wf_items _ W _ _ Hp) as (_ & En & Ei & _).
  unfold num_at. rewrite Hp. cbn. rewrite En, Ei. symmetry. apply num_from_compute_id.
Qed.

(** ** Pruning *)
Lemma erase_below_lookup db m l idx i :
  Sorted (num_le db) l → NoDup l.*1 →
  (∀ i p, idx !! i = Some p → (i, p) ∈ l ∨ m ≤ num_at db p) →
  (∀ i p, (i, p) ∈ l → idx !! i = Some p) →
  erase_below db m l idx !! i
  = match idx !! i with
    | Some p => if num_at db p <? m then None else Some p
    | None => None
    end.
Proof.
  intros Hs. apply Sorted_StronglySorted in Hs; [|intros ???; unfold num_le; lia].
  revert idx. induction Hs as [|[j p] l Hs IH Hall]; intros idx Hnd Hin Hl; cbn [erase_below].
  - destruct (idx !! i) as [p|] eqn:E; [|done].
    destruct (Hin _ _ E) as [Hc|Hc]; [set_solver|].
    destruct (num_at db p <? m) eqn:E'; [bool_to_prop; lia|done].
  - apply NoDup_cons in Hnd as [Hj Hnd].
    assert (∀ p', (j, p') ∉ l) as Hj'.
    { intros p' Hp'. apply Hj. apply list_elem_of_fmap. by exists (j, p'). }
    destruct (num_at db p <? m) eqn:Ep.
    + rewrite IH; [|done|..].
      * destruct (decide (j = i)) as [<-|Hne].
        -- rewrite lookup_delete_eq, (Hl j p) by left. by rewrite Ep.
        -- by rewrite lookup_delete_ne.
      * intros i' p' Hi'. apply lookup_delete_Some in Hi' as [Hne Hi'].
        destruct (Hin _ _ Hi') as [Hc|Hc]; [|by right].
        apply elem_of_cons in Hc as [[= -> ->]|Hc]; [done|by left].
      * intros i' p' Hi'. rewrite lookup_delete_ne; [apply Hl; by right|].
        intros <-. by eapply Hj'.
    + bool_to_prop. destruct (idx !! i) as [p'|] eqn:E; [|done].
      assert (m ≤ num_at db p') as Hm.
      { destruct (Hin _ _ E) as [Hc|Hc]; [|done].
        apply elem_of_cons in Hc as [[= -> ->]|Hc]; [done|].
        rewrite Forall_forall in Hall. specialize (Hall _ Hc). unfold num_le in Hall. cbn in Hall. lia. }
      destruct (num_at db p' <? m) eqn:E'; [bool_to_prop; lia|done].
Qed.

Lemma by_num_Permutation db : by_num db ≡ₚ map_to_list (_index db).
Proof. apply merge_sort_Permutation. Qed.

Lemma by_num_Sorted db : Sorted (num_le db) (by_num db).
Proof. apply Sorted_merge_sort. intros x y. unfold num_le. lia. Qed.

Lemma by_num_elem db i p : (i, p) ∈ by_num db ↔ _index db !! i = Some p.
Proof. rewrite by_num_Permutation. apply elem_of_map_to_list. Qed.

Lemma prune_lookup db m i :
  _index (prune m db) !! i
  = match _index db !! i with
    | Some p => if num_at db p <? m then None else Some p
    | None => None
    end.
Proof.
  unfold prune. cbn. apply erase_below_lookup.
  - apply by_num_Sorted.
  - rewrite by_num_Permutation. apply NoDup_fst_map_to_list.
  - intros. left. by apply by_num_elem.
  - intros ??. apply by_num_elem.
Qed.

(** ** Preservation *)
Lemma wf_sub db db' :
  wf db → heap db' = heap db → next_ptr db' = next_ptr db →
  (∀ i p, _index db' !! i = Some p → _index db !! i = Some p) →
  (∀ p, _head db' = Some p → is_Some (heap db !! p)) → wf db'.
Proof.
  intros [W1 W2 W3] Eh Ep Hi Hh. constructor; unfold item_ok; rewrite Eh, ?Ep; eauto.
Qed.

Lemma wf_prune m db : wf db → wf (prune m db).
Proof.
  intros W. eapply wf_sub; try done; [|apply W].
  intros i p. rewrite prune_lookup. destruct (_index db !! i); [|done]. by case_match.
Qed.

Lemma wf_alloc db b :
  wf db → id_coherent b → wf (alloc (make_item b) db).2.
Proof.
  intros [W1 W2 W3] Hc.
  assert (∀ p it, heap db !! p = Some it → next_ptr db ≠ p) as Hfresh.
  { intros p it Hp <-. destruct (W1 _ _ Hp) as (Hlt & _). lia. }
  constructor; cbn.
  - intros p it Hp. apply lookup_insert_Some in Hp as [[<- <-]|[Hne Hp]].
    + split_and!; cbn; [lia|done|by apply block_id_coherent|done].
    + destruct (W1 _ _ Hp) as (Hlt & En & Ei & Hq). split_and!; cbn; [lia|done|done|].
      intros q Hpq. destruct (Hq _ Hpq) as (Hqp & itq & Hitq & Eq). split; [done|].
      exists itq. rewrite lookup_insert_ne by eauto. done.
  - intros i p Hi. destruct (W2 _ _ Hi) as (it & Hp & E). exists it.
    rewrite lookup_insert_ne by eauto. done.
  - intros p Hp. destruct (W3 _ Hp) as (it & E). rewrite lookup_insert_ne by eauto. eauto.
Qed.

Lemma wf_index_insert db i p it :
  wf db → heap db !! p = Some it → id it = i → wf (index_insert i p db).
Proof.
  intros [W1 W2 W3] Hp Hi. unfold index_insert. destruct (_index db !! i) eqn:E; [done|].
  constructor; cbn; [done| |done].
  intros j q Hj. apply lookup_insert_Some in Hj as [[<- <-]|[_ Hj]]; eauto.
Qed.

Lemma wf_set_prev db p q it itq :
  wf db → heap db !! p = Some it → heap db !! q = Some itq → (q < p)%positive →
  id itq = previous (data it) → wf (set_prev p (Some q) db).
Proof.
  intros [W1 W2 W3] Hp Hq Hlt Hid.
  assert (∀ r itr, heap db !! r = Some itr →
    ∃ itr', heap (set_prev p (Some q) db) !! r = Some itr' ∧ id itr' = id itr) as Hkeep.
  { intros r itr Hr. cbn. destruct (decide (p = r)) as [<-|Hne].
    - rewrite lookup_alter_eq, Hr. cbn. eauto.
    - rewrite lookup_alter_ne, Hr by done. eauto. }
  constructor.
  - intros r itr Hr. cbn in Hr. destruct (decide (p = r)) as [<-|Hne].
    + rewrite lookup_alter_eq, Hp in Hr. cbn in Hr. simplify_eq.
      destruct (W1 _ _ Hp) as (H1 & H2 & H3 & _). split_and!; cbn; try done.
      intros q' [= <-]. split; [done|]. destruct (Hkeep _ _ Hq) as (itr' & ? & ?).
      exists itr'. split; [done|congruence].
    + rewrite lookup_alter_ne in Hr by done. destruct (W1 _ _ Hr) as (H1 & H2 & H3 & H4).
      split_and!; try done. intros q' Hq'. destruct (H4 _ Hq') as (Hl & itq' & Hi & Ei).
      split; [done|]. destruct (Hkeep _ _ Hi) as (itr' & ? & ?). exists itr'. split; [done|congruence].
  - intros i r Hi. destruct (W2 _ _ Hi) as (itr & Hr & E). destruct (Hkeep _ _ Hr) as (itr' & ? & ?).
    exists itr'. split; [done|congruence].
  - intros r Hr. destruct (W3 _ Hr) as (itr & E). destruct (Hkeep _ _ E) as (itr' & ? & ?). eauto.
Qed.

Lemma wf_set_head db h :
  wf db → (∀ p, h = Some p → is_Some (heap db !! p)) → wf (set_head h db).
Proof. intros W Hh. by eapply wf_sub. Qed.

Lemma lock_valid db p it q :
  wf db → heap db !! p = Some it → lock db (prev it) = Some q →
  prev it = Some q ∧ (q < p)%positive ∧ ∃ itq, heap db !! q = Some itq.
Proof.
  intros W Hp Hl. unfold lock in Hl. destruct (prev it) as [q'|] eqn:E; [|done].
  case_match; simplify_eq. destruct (wf_items _ W _ _ Hp) as (_ & _ & _ & Hq).
  destruct (Hq _ E) as (? & itq & ? & _). eauto.
Qed.

Lemma wf_pop_block db db' : wf db → pop_block db = Ok db' → wf db'.
Proof.
  intros W E. unfold pop_block, item in E. monad_inv.
  match goal with Hl : lock _ _ = Some _, Hp : heap _ !! _ = Some _ |- _ =>
    destruct (lock_valid _ _ _ _ W Hp Hl) as (_ & _ & itq & Hq) end.
  apply wf_set_head; [done|]. intros ? [= <-]. eauto.
Qed.

Lemma wf_remove i db : wf db → ∃ db', remove i db = Ok db' ∧ wf db'.
Proof.
  intros W. unfold remove. set (db1 := set_index (delete i (_index db)) db).
  assert (wf db1) as W1.
  { eapply wf_sub; try done; [|apply W]. intros j p Hj. cbn in Hj.
    by apply lookup_delete_Some in Hj as [_ ?]. }
  destruct (_head db1) as [h|] eqn:Eh; [|eauto].
  destruct (wf_head _ W1 _ Eh) as [it Hit]. unfold item. rewrite Hit. cbn.
  case_bool_decide; [|eauto]. destruct (pop_block db1) eqn:Ep.
  - eexists; split; [done|]. by eapply wf_pop_block.
  - eexists; split; [done|]. apply wf_set_head; done.
Qed.

Lemma wf_set_max_size s db : wf db → ∃ db', set_max_size s db = Ok db' ∧ wf db'.
Proof.
  intros W. unfold set_max_size. cbn.
  set (db1 := ForkDatabase _ _ _ _ s _). assert (wf db1) as W1 by (eapply wf_sub; [exact W|done..|apply W]).
  destruct (_head db) as [h|] eqn:Eh; [|eauto].
  destruct (wf_head _ W _ Eh) as [it Hit]. unfold item. cbn. rewrite Hit. cbn.
  eexists; split; [done|]. by apply wf_prune.
Qed.

Lemma wf_start_block b db : wf db → id_coherent b → wf (start_block b db).
Proof.
  intros W Hc. unfold start_block. pose proof (wf_alloc db b W Hc) as Wa.
  destruct (alloc (make_item b) db) as [p db1] eqn:Ea. cbn in Wa.
  assert (heap db1 !! p = Some (make_item b)) as Hp.
  { unfold alloc in Ea. simplify_eq. cbn. by rewrite lookup_insert_eq. }
  apply wf_set_head; [by eapply wf_index_insert|].
  intros ? [= <-]. unfold index_insert. case_match; cbn; eauto.
Qed.

(** ** Pushing a block *)
Lemma index_insert_lookup db i p j :
  is_Some (_index (index_insert i p db) !! j) ↔ j = i ∨ is_Some (_index db !! j).
Proof.
  unfold index_insert. destruct (_index db !! i) eqn:E; cbn.
  - split; [by right|]. intros [->|?]; [by rewrite E|done].
  - destruct (decide (i = j)) as [<-|Hne].
    + rewrite lookup_insert_eq. split; [by left|eauto].
    + rewrite lookup_insert_ne by done. split; [by right|]. by intros [->|?].
Qed.

Lemma index_insert_frame db i p :
  heap (index_insert i p db) = heap db ∧ _max_size (index_insert i p db) = _max_size db
  ∧ _head (index_insert i p db) = _head db.
Proof. unfold index_insert. by destruct (_index db !! i). Qed.

Lemma heap_num_set_prev p w db q : num_at (set_prev p w db) q = num_at db q.
Proof.
  unfold num_at. cbn. destruct (decide (p = q)) as [<-|Hne].
  - rewrite lookup_alter_eq. by destruct (heap db !! p).
  - by rewrite lookup_alter_ne.
Qed.

(** What the block index knows after a push onto a head with number [hn]. *)
Definition known_after (b : signed_block) (hn max : Z) db (j : block_id_type) : Prop :=
  (j = compute_id b ∨ is_Some (_index db !! j)) ∧
  (hn < block_num b → block_num b - Z.min max (block_num b) ≤ num_from_id j).

Lemma insert_item_spec b p it it0 hn h db1 :
  wf db1 → heap db1 !! p = Some it0 → num it = block_num b → id it = compute_id b →
  num it0 = num it → id it0 = id it → _head db1 = Some h → num_at db1 h = hn →
  let db2 := insert_item p it hn db1 in
  wf db2 ∧ (∃ q, _head db2 = Some q ∧ num_at db2 q = Z.max hn (block_num b)) ∧
  ∀ j, is_Some (_index db2 !! j) ↔ known_after b hn (_max_size db1) db1 j.
Proof.
  intros W Hp Hn Hi Hn0 Hi0 Hh Hhn. unfold insert_item. set (db2 := index_insert (id it) p db1).
  assert (wf db2) as W2 by (by eapply wf_index_insert).
  destruct (index_insert_frame db1 (id it) p) as (Fh & Fm & Fhd). fold db2 in Fh, Fm, Fhd.
  assert (∀ j, is_Some (_index db2 !! j) ↔ j = compute_id b ∨ is_Some (_index db1 !! j)) as Hk.
  { intros j. rewrite <- Hi. apply index_insert_lookup. }
  unfold known_after. rewrite <- Hn. cbn zeta. destruct (num it >? hn) eqn:E; bool_to_prop.
  - cbn [set_head _max_size]. rewrite Fm. split_and!.
    + apply wf_prune, wf_set_head; [done|]. intros ? [= <-]. rewrite Fh. eauto.
    + exists p. split; [done|]. unfold num_at. cbn. rewrite Fh, Hp. cbn. lia.
    + intros j. rewrite prune_lookup. cbn. rewrite <- Hk.
      destruct (_index db2 !! j) as [r|] eqn:Ej; cycle 1.
      { split; [intros [? [=]]|]. intros [[? [=]] _]. }
      replace (num_at (set_head (Some p) db2) r) with (num_from_id j)
        by (symmetry; apply (wf_num_at db2); done).
      destruct (num_from_id j <? _) eqn:El; bool_to_prop.
      * split; [intros [? [=]]|]. intros [_ Hl]. specialize (Hl ltac:(lia)). lia.
      * split; [|eauto]. intros _. split; [eauto|]. lia.
  - split_and!; [done| |].
    + exists h. split; [congruence|]. unfold num_at in *. rewrite Fh. lia.
    + intros j. rewrite Hk. split; [|by intros [? _]]. intros. split; [done|]. lia.
Qed.

(** C30: Pushing a block onto a fork database with a head.  It throws exactly
    when the block is too old for the cache or when its parent is unknown: what it
    accepts is within the window and names no parent or a known one.
    After that the database stays well formed (every link leads to the parent
    block, numbers and ids agree with the data), the block with the highest
    number becomes or stays the head, and the index holds the known blocks and
    the new one, less those more than [_max_size] below a new head. *)
Theorem push_block_correct b db h hd :
  wf db → id_coherent b → _head db = Some h → heap db !! h = Some hd → 0 ≤ _max_size db →
  match push_block b db with
  | Err e =>
      (e = assert_exception ∧ block_num b ≤ Z.max 0 (num hd - _max_size db)) ∨
      (e = unlinkable_block_exception ∧ Z.max 0 (num hd - _max_size db) < block_num b ∧
       previous b ≠ null_id ∧ _index db !! previous b = None)
  | Ok (h', db') =>
      Z.max 0 (num hd - _max_size db) < block_num b ∧ wf db' ∧ _head db' = h' ∧
      (∃ p, h' = Some p ∧ num_at db' p = Z.max (num hd) (block_num b)) ∧
      (previous b = null_id ∨ is_Some (_index db !! previous b)) ∧
      ∀ j, is_Some (_index db' !! j) ↔ known_after b (num hd) (_max_size db) db j
  end.
Proof.
  intros W Hc Hh Hhd Hmax. unfold push_block. pose proof (wf_alloc db b W Hc) as Wa.
  unfold alloc in *. cbn [snd] in Wa. set (p := next_ptr db) in *.
  set (dba := ForkDatabase (<[p:=make_item b]> (heap db)) _ _ _ _ _) in *.
  assert (heap dba !! p = Some (make_item b)) as Hp by (cbn; by rewrite lookup_insert_eq).
  assert (∀ q itq, heap db !! q = Some itq → (q < p)%positive ∧ heap dba !! q = Some itq) as Hold.
  { intros q itq Hq. destruct (wf_items _ W _ _ Hq) as (Hlt & _). split; [done|].
    cbn. rewrite lookup_insert_ne; [done|]. unfold p. lia. }
  destruct (Hold _ _ Hhd) as [_ Hhd']. unfold _push_block, item. rewrite Hp.
  change (_head dba) with (_head db). rewrite Hh. cbn [from_option_r mbind result_bind].
  rewrite Hhd'. cbn [from_option_r mbind result_bind].
  assert (id (make_item b) = compute_id b) as Eid by (cbn; by apply block_id_coherent).
  change (_max_size dba) with (_max_size db). change (num (make_item b)) with (block_num b).
  destruct (block_num b >? Z.max 0 (num hd - _max_size db)) eqn:Eold; cbn [fc_assert mbind result_bind]; cycle 1.
  { left. bool_to_prop. done. }
  bool_to_prop.
  change (previous (data (make_item b))) with (previous b). change (_index dba) with (_index db).
  destruct (decide (previous b = null_id)) as [En|En].
  - rewrite (bool_decide_eq_true_2 _ En). cbn [mbind result_bind].
    destruct (insert_item_spec b p (make_item b) (make_item b) (num hd) h dba) as (W2 & (q & Eq & Hq) & Hk);
      try done.
    { unfold num_at. rewrite Hhd'. done. }
    rewrite Eq. split; [lia|]. eauto 10.
  - rewrite (bool_decide_eq_false_2 _ En).
    destruct (_index db !! previous b) as [q|] eqn:Eq; cbn [from_option_r mbind result_bind].
    2: { right. done. }
    destruct (wf_index _ W _ _ Eq) as (itq & Hq & Eiq). destruct (Hold _ _ Hq) as [Hlt Hq'].
    destruct (insert_item_spec b p (make_item b) (ForkItem (Some q) (block_num b) (block_id b).1 b)
      (num hd) h (set_prev p (Some q) dba)) as (W2 & (r & Er & Hr) & Hk); try done.
    + by eapply wf_set_prev.
    + cbn -[make_item]. rewrite lookup_alter_eq, lookup_insert_eq. done.
    + rewrite heap_num_set_prev. unfold num_at. by rewrite Hhd'.
    + rewrite Er. split; [lia|]. eauto 10.
Qed.

(** ** Walking to the common ancestor *)

(** Following live links from [p] passes through [l] and reaches [r]. *)
Inductive links db : positive → list positive → positive → Prop :=
| links_nil p : links db p [] p
| links_cons p q l r it :
    heap db !! p = Some it → lock db (prev it) = Some q → links db q l r →
    links db p (p :: l) r.

(** Some live link chain from [p] ends at an item whose parent is gone. *)
Definition broken db p : Prop :=
  ∃ l r it, links db p l r ∧ heap db !! r = Some it ∧ lock db (prev it) = None.

Lemma broken_cons db p q it :
  heap db !! p = Some it → lock db (prev it) = Some q → broken db q → broken db p.
Proof. intros Hp Hl (l & r & itr & Hlk & ?). exists (p :: l), r, itr. split; [|done]. by econstructor. Qed.

Lemma prev_block_num db p it q itq :
  wf db → heap db !! p = Some it → lock db (prev it) = Some q → heap db !! q = Some itq →
  0 < block_num (data it) → block_num (data itq) = block_num (data it) - 1.
Proof.
  intros W Hp Hl Hq Hpos. destruct (lock_valid _ _ _ _ W Hp Hl) as (Hprev & _).
  destruct (wf_items _ W _ _ Hp) as (_ & _ & _ & Hlink).
  destruct (Hlink _ Hprev) as (_ & itq' & Hq' & Eid). rewrite Hq in Hq'. simplify_eq.
  destruct (wf_items _ W _ _ Hq) as (_ & _ & Ei & _).
  pose proof (num_from_compute_id (data itq')) as En. rewrite <- Ei, Eid in En.
  pose proof (block_num_bounds (data itq')) as Hb.
  assert (block_num (data it) = u32 (block_num (data itq') + 1)) as Eb.
  { unfold block_num at 1. by rewrite En. }
  rewrite Eb in *. unfold_widths.
  destruct (decide (block_num (data itq') = 4294967295)) as [E|E].
  - rewrite E in Hpos. done.
  - rewrite Z.mod_small by lia. lia.
Qed.

Lemma down_to_spec db n fuel p it acc :
  wf db → heap db !! p = Some it → 0 ≤ n → (Pos.to_nat p < fuel)%nat →
  (∃ q l itq, down_to fuel db p n acc = Ok (q, acc ++ l) ∧ links db p l q ∧ heap db !! q = Some itq ∧
     (q ≤ p)%positive ∧ block_num (data itq) + Z.of_nat (length l) = block_num (data it) ∧
     block_num (data itq) ≤ n ∧ (l ≠ [] → block_num (data itq) = n))
  ∨ (down_to fuel db p n acc = Err assert_exception ∧ broken db p).
Proof.
  intros W. revert p it acc. induction fuel as [|fuel IH]; intros p it acc Hp Hn Hf; [lia|].
  cbn [down_to]. unfold item. rewrite Hp. cbn [from_option_r mbind result_bind].
  destruct (block_num (data it) >? n) eqn:E; bool_to_prop; cycle 1.
  { left. exists p, [], it. rewrite app_nil_r. split_and!; try done; [constructor|cbn; lia]. }
  destruct (lock db (prev it)) as [q|] eqn:El; cbn [from_option_r mbind result_bind]; cycle 1.
  { right. split; [done|]. exists [], p, it. split; [constructor|done]. }
  destruct (lock_valid _ _ _ _ W Hp El) as (_ & Hlt & itq & Hq).
  pose proof (prev_block_num _ _ _ _ _ W Hp El Hq ltac:(lia)) as Hnum.
  destruct (IH q itq (acc ++ [p]) Hq Hn ltac:(lia)) as
    [(r & l & itr & Ed & Hlk & Hr & Hle & Hlen & Hrn & Hl)|[Ed Hb]]; rewrite Ed.
  - left. exists r, (p :: l), itr. rewrite <- app_assoc. split_and!; try done.
    + by econstructor.
    + lia.
    + cbn [length]. lia.
    + intros _. destruct l; [|by apply Hl]. cbn in Hlen. lia.
  - right. split; [done|]. by eapply broken_cons.
Qed.

(** Two items at the same height whose parents differ. *)
Definition parents_differ db p q : Prop :=
  ∃ itp itq, heap db !! p = Some itp ∧ heap db !! q = Some itq ∧
    previous (data itp) ≠ previous (data itq).
Definition same_parent db p q : Prop :=
  ∃ itp itq, heap db !! p = Some itp ∧ heap db !! q = Some itq ∧
    previous (data itp) = previous (data itq).

Lemma down_both_spec db fuel p q itp itq acc1 acc2 :
  wf db → heap db !! p = Some itp → heap db !! q = Some itq → (Pos.to_nat p < fuel)%nat →
  (∃ a c r1 r2, down_both fuel db p q acc1 acc2 = Ok (acc1 ++ a ++ [r1], acc2 ++ c ++ [r2]) ∧
     links db p a r1 ∧ links db q c r2 ∧ same_parent db r1 r2 ∧ Forall2 (parents_differ db) a c)
  ∨ (down_both fuel db p q acc1 acc2 = Err assert_exception ∧ (broken db p ∨ broken db q)).
Proof.
  intros W. revert p q itp itq acc1 acc2.
  induction fuel as [|fuel IH]; intros p q itp itq acc1 acc2 Hp Hq Hf; [lia|].
  cbn [down_both]. unfold item. rewrite Hp, Hq. cbn [from_option_r mbind result_bind].
  case_bool_decide as Hprev.
  { left. exists [], [], p, q. split_and!; [done|by constructor|by constructor| |by constructor].
    by exists itp, itq. }
  destruct (lock db (prev itp)) as [p'|] eqn:El1; cbn [from_option_r mbind result_bind]; cycle 1.
  { right. split; [done|]. left. exists [], p, itp. split; [constructor|done]. }
  destruct (lock db (prev itq)) as [q'|] eqn:El2; cbn [from_option_r mbind result_bind]; cycle 1.
  { right. split; [done|]. right. exists [], q, itq. split; [constructor|done]. }
  destruct (lock_valid _ _ _ _ W Hp El1) as (_ & Hlt1 & itp' & Hp').
  destruct (lock_valid _ _ _ _ W Hq El2) as (_ & Hlt2 & itq' & Hq').
  destruct (IH p' q' itp' itq' (acc1 ++ [p]) (acc2 ++ [q]) Hp' Hq' ltac:(lia)) as
    [(a & c & r1 & r2 & Ed & Hl1 & Hl2 & Hs & Hd)|[Ed [Hb|Hb]]]; rewrite Ed.
  - left. exists (p :: a), (q :: c), r1, r2. rewrite <- !app_assoc. split_and!; try done.
    + by econstructor.
    + by econstructor.
    + constructor; [by exists itp, itq|done].
  - right. split; [done|]. left. by eapply broken_cons.
  - right. split; [done|]. right. by eapply broken_cons.
Qed.

Lemma links_app db p l1 q l2 r : links db p l1 q → links db q l2 r → links db p (l1 ++ l2) r.
Proof. induction 1; intros; [done|]. cbn. econstructor; eauto. Qed.

Lemma broken_links db p l q : links db p l q → broken db q → broken db p.
Proof.
  intros Hl (l' & r & it & Hlk & ?). exists (l ++ l'), r, it. split; [|done]. by eapply links_app.
Qed.


(** ** Blocks by number *)
Lemma take_find_num db n l p :
  Sorted (num_le db) l →
  p ∈ take_num db n (find_num db n l) ↔ ∃ i, (i, p) ∈ l ∧ num_at db p = n.
Proof.
  intros Hs. apply Sorted_StronglySorted in Hs; [|intros ???; unfold num_le; lia].
  assert (∀ l, StronglySorted (num_le db) l → (∀ x, x ∈ l → n ≤ num_at db x.2) →
    (p ∈ take_num db n l ↔ ∃ i, (i, p) ∈ l ∧ num_at db p = n)) as Htake.
  { clear. intros l Hs. induction Hs as [|[i q] l Hs IH Hall]; intros Hge; cbn [take_num].
    { split; [set_solver|]. intros (i & Hi & _). set_solver. }
    destruct (num_at db q =? n) eqn:E; bool_to_prop.
    - rewrite elem_of_cons, IH by set_solver. split.
      + intros [->|(i' & ? & ?)]; [exists i; set_solver|exists i'; set_solver].
      + intros (i' & Hi & ?). apply elem_of_cons in Hi as [[= -> ->]|Hi]; [by left|right; eauto].
    - split; [set_solver|]. intros (i' & Hi & En). apply elem_of_cons in Hi as [[= -> ->]|Hi]; [done|].
      pose proof (Hge (i, q) ltac:(left)). rewrite Forall_forall in Hall.
      specialize (Hall _ Hi). unfold num_le in Hall. cbn in *. lia. }
  induction Hs as [|[i q] l Hs IH Hall]; cbn [find_num].
  { cbn. split; [set_solver|]. intros (i & Hi & _). set_solver. }
  destruct (num_at db q =? n) eqn:E; bool_to_prop.
  - apply Htake; [by constructor|]. intros x Hx. apply elem_of_cons in Hx as [->|Hx]; [cbn; lia|].
    rewrite Forall_forall in Hall. specialize (Hall _ Hx). unfold num_le in Hall. cbn in *. lia.
  - rewrite IH. split; intros (i' & Hi & En); exists i'.
    + set_solver.
    + apply elem_of_cons in Hi as [[= -> ->]|Hi]; done.
Qed.

Lemma fetch_block_by_number_elem db n p :
  p ∈ fetch_block_by_number n db ↔ ∃ i, _index db !! i = Some p ∧ num_at db p = n.
Proof.
  unfold fetch_block_by_number. rewrite take_find_num by apply by_num_Sorted.
  by setoid_rewrite by_num_elem.
Qed.

(** ** Reachable fork databases *)
Inductive step : fork_database → fork_database → Prop :=
| step_start db b : id_coherent b → step db (start_block b db)
| step_push db b h db' : id_coherent b → push_block b db = Ok (h, db') → step db db'
| step_pop db db' : pop_block db = Ok db' → step db db'
| step_remove db i db' : remove i db = Ok db' → step db db'
| step_max db s db' : set_max_size s db = Ok db' → step db db'
| step_set_head db i p : fetch_block i db = Some p → step db (set_head (Some p) db)
| step_hold db X : step db (ForkDatabase (heap db) (next_ptr db) (_index db) (_head db) (_max_size db) X)
| step_reset db : step db (reset db).

Lemma wf_push_block b db h db' :
  wf db → id_coherent b → push_block b db = Ok (h, db') → wf db'.
Proof.
  intros W Hc E. unfold push_block in E. pose proof (wf_alloc db b W Hc) as Wa.
  destruct (alloc (make_item b) db) as [p db1] eqn:Ea. cbn in Wa.
  assert (heap db1 !! p = Some (make_item b)) as Hp.
  { unfold alloc in Ea. simplify_eq. cbn. by rewrite lookup_insert_eq. }
  assert (∀ q itq, heap db !! q = Some itq → (q < p)%positive ∧ heap db1 !! q = Some itq) as Hold.
  { unfold alloc in Ea. simplify_eq. intros q itq Hq. destruct (wf_items _ W _ _ Hq) as (Hlt & _).
    split; [done|]. cbn. rewrite lookup_insert_ne; [done|]. lia. }
  assert (id (make_item b) = compute_id b) as Eid by (cbn; by apply block_id_coherent).
  assert (_index db1 = _index db) as Eix by (unfold alloc in Ea; by simplify_eq).
  apply result_bind_Ok in E as (db2 & E & E'). injection E' as <- <-.
  unfold _push_block, item in E. rewrite Hp in E. cbn [from_option_r mbind result_bind] in E.
  destruct (_head db1) as [hh|] eqn:Eh.
  - apply result_bind_Ok in E as (hd & Ehd & E). apply from_option_r_Ok in Ehd.
    apply result_bind_Ok in E as (? & _ & E). apply result_bind_Ok in E as (db3 & E3 & E).
    injection E as <-. destruct (bool_decide (previous (data (make_item b)) = null_id)).
    + simplify_eq. eapply (insert_item_spec b p (make_item b) (make_item b) (num hd) hh); try done.
      unfold num_at. by rewrite Ehd.
    + rewrite Eix in E3. apply result_bind_Ok in E3 as (q & Eq & E3). apply from_option_r_Ok in Eq. simplify_eq.
      destruct (wf_index _ W _ _ Eq) as (itq & Hq & Eiq). destruct (Hold _ _ Hq) as [Hlt Hq'].
      eapply (insert_item_spec b p (make_item b) (ForkItem (Some q) (block_num b) (block_id b).1 b)
        (num hd) hh); try done.
      * by eapply wf_set_prev.
      * cbn -[make_item]. rewrite lookup_alter_eq, Hp. done.
      * rewrite heap_num_set_prev. unfold num_at. by rewrite Ehd.
  - injection E as <-. apply wf_set_head; [by eapply wf_index_insert|].
    intros ? [= <-]. rewrite (proj1 (index_insert_frame _ _ _)). eauto.
Qed.

Lemma wf_step db db' : wf db → step db db' → wf db'.
Proof.
  intros W. destruct 1.
  - by apply wf_start_block.
  - by eapply wf_push_block.
  - by eapply wf_pop_block.
  - destruct (wf_remove i db W) as (db2 & ? & ?). by assert (db' = db2) as -> by congruence.
  - destruct (wf_set_max_size s db W) as (db2 & ? & ?). by assert (db' = db2) as -> by congruence.
  - apply wf_set_head; [done|]. intros ? [= <-]. destruct (wf_index _ W i p) as (? & ? & _); eauto.
  - eapply wf_sub; [done..|]. apply W.
  - eapply wf_sub; done.
Qed.

Lemma wf_steps db db' : rtc step db db' → wf db → wf db'.
Proof. induction 1; eauto using wf_step. Qed.

Lemma wf_empty : wf empty_fork_db.
Proof. constructor; done. Qed.

(** C29: Whatever sequence of operations is applied to an empty fork database,
    and whatever items callers hold on to, the tree stays well formed: each link
    leads to the item of the parent block, which was allocated earlier, numbers
    and ids agree with the block data, the index files every block under its id
    and its number, [remove] and [set_max_size] never fail, and looking a number
    up finds exactly the indexed blocks of that number. *)
Theorem fork_db_reachable_wf db :
  rtc step empty_fork_db db →
  wf db ∧
  (∀ i, is_ok (remove i db) = true) ∧ (∀ s, is_ok (set_max_size s db) = true) ∧
  (∀ i p, _index db !! i = Some p → p ∈ fetch_block_by_number (num_from_id i) db) ∧
  (∀ n p, p ∈ fetch_block_by_number n db → ∃ i, _index db !! i = Some p ∧ num_from_id i = n).
Proof.
  intros Hr. assert (wf db) as W by (eapply wf_steps; [done|apply wf_empty]).
  split_and!; [done|..].
  - intros i. by destruct (wf_remove i db W) as (? & -> & _).
  - intros s. by destruct (wf_set_max_size s db W) as (? & -> & _).
  - intros i p Hi. apply fetch_block_by_number_elem. exists i. split; [done|]. by apply wf_num_at.
  - intros n p (i & Hi & <-)%fetch_block_by_number_elem. exists i. split; [done|].
    symmetry. by apply wf_num_at.
Qed.

End forkdb_proofs.

(** ** A small fork *)
Definition fb (prev_id : block_id_type) (t : Z) : signed_block :=
  SignedBlock prev_id t 0 0 0 [] null_id 0.
Definition fb_id (b : signed_block) : block_id_type := (block_id b).1.
Definition b1 : signed_block := fb null_id 1.
Definition b2 : signed_block := fb (fb_id b1) 2.
Definition b3 : signed_block := fb (fb_id b2) 3.
Definition c2 : signed_block := fb (fb_id b1) 12.
Definition c3 : signed_block := fb (fb_id c2) 13.
Definition c4 : signed_block := fb (fb_id c3) 14.

Definition push_all (l : list signed_block) (db : fork_database) : fork_database :=
  foldl (λ db b, match push_block b db with Ok (_, db') => db' | Err _ => db end) db l.
Definition ex_fork : fork_database := push_all [b1; b2; b3; c2; c3; c4] empty_fork_db.

Lemma push_all_steps l db :
  Forall id_coherent l → rtc step db (push_all l db).
Proof.
  revert db. induction l as [|b l IH]; intros db Hl; [constructor|].
  apply Forall_cons in Hl as [Hb Hl]. cbn [push_all foldl].
  destruct (push_block b db) as [[h db']|e] eqn:E.
  - eapply rtc_l; [by eapply step_push|]. by apply IH.
  - by apply IH.
Qed.

Lemma ex_fork_steps : rtc step empty_fork_db ex_fork.
Proof. apply push_all_steps. repeat constructor. Qed.

Lemma fork_db_reachable_wf_witness :
  rtc step empty_fork_db ex_fork ∧ wf ex_fork ∧ length (fetch_block_by_number 3 ex_fork) = 2%nat.
Proof.
  split; [exact ex_fork_steps|]. split; [|reflexivity].
  exact (proj1 (fork_db_reachable_wf ex_fork ex_fork_steps)).
Defined.

Lemma ex_fork_wf : wf ex_fork.
Proof. eapply wf_steps; [apply ex_fork_steps|apply wf_empty]. Qed.


Lemma push_block_correct_witness :
  ∃ h hd h' db', _head ex_fork = Some h ∧ heap ex_fork !! h = Some hd ∧
    push_block (fb (fb_id c4) 15) ex_fork = Ok (h', db') ∧ wf db' ∧
    push_block (fb (fb_id b3) 15) ex_fork ≠ Err unlinkable_block_exception.
Proof.
  destruct (_head ex_fork) as [h|] eqn:Eh; [|by vm_compute in Eh].
  destruct (heap ex_fork !! h) as [hd|] eqn:Ehd; [|by vm_compute in Eh; injection Eh as <-; vm_compute in Ehd].
  pose proof (push_block_correct (fb (fb_id c4) 15) ex_fork h hd ex_fork_wf (or_introl eq_refl) Eh Ehd
    ltac:(by vm_compute)) as H.
  destruct (push_block (fb (fb_id c4) 15) ex_fork) as [[h' db']|e] eqn:Ep.
  - exists h, hd, h', db'. split_and!; [done..|exact (proj1 (proj2 H))|by vm_compute].
  - by vm_compute in Ep.
Defined.
