(* ===== verification/BlockStore.v ===== *)
(** * The block files: chain/block_database.cpp

    The blocks on disk: an index file with one fixed-size entry per block number and
    a file the blocks are appended to.  The index is the list of its entries; an
    entry keeps the block its position and size lead to, or nothing when its size is
    zero, as in the zeros a write past the end of the file leaves behind.  The bytes of
    a block have all its members but its two caches. *)

From S2P Require Import Prelude Block.

Record index_entry := IndexEntry { entry_id : block_id_type; entry_block : option signed_block }.
Definition zero_entry : index_entry := IndexEntry null_id None.
Notation block_database := (list index_entry).

Section block_database.
Context `{BlockExt}.

(** The position of a block in the index. *)
Definition index_pos (id : block_id_type) : nat := Z.to_nat (num_from_id id).

(** Seek and write: a gap reads as zeros. *)
Definition write_entry (n : nat) (e : index_entry) (db : block_database) : block_database :=
  <[n := e]> (db ++ replicate (S n - length db) zero_entry).

(** What is written of a block: its cached id and merkle root are not. *)
Definition without_caches (b : signed_block) : signed_block :=
  SignedBlock (previous b) (timestamp b) (witness b) (transaction_merkle_root b) (witness_signature b)
    (transactions b) null_id 0.

Definition store (_id : block_id_type) (b : signed_block) (db : block_database) : block_database :=
  let id := if bool_decide (_id = null_id) then (block_id b).1 else _id in
  write_entry (index_pos id) (IndexEntry id (Some (without_caches b))) db.

Definition remove_block (id : block_id_type) (db : block_database) : result block_database :=
  match db !! index_pos id with
  | None => Err key_not_found_exception
  | Some e =>
      Ok (if bool_decide (entry_id e = id) then write_entry (index_pos id) (IndexEntry id None) db else db)
  end.

Definition contains (id : block_id_type) (db : block_database) : bool :=
  if bool_decide (id = null_id) then false
  else match db !! index_pos id with
       | Some e => bool_decide (entry_id e = id) && bool_decide (is_Some (entry_block e))
       | None => false
       end.

Definition fetch_block_id (block_num : nat) (db : block_database) : result block_id_type :=
  match db !! block_num with
  | None => Err key_not_found_exception
  | Some e => fc_assert (bool_decide (entry_id e ≠ null_id));; Ok (entry_id e)
  end.

(** The block of an entry, when it is there and has the id of the entry; checking the id
    computes it and leaves it in the cache. *)
Definition read_entry (e : index_entry) : option signed_block :=
  b ← entry_block e;
  let '(id, b) := block_id b in
  if bool_decide (id = entry_id e) then Some b else None.
Definition fetch_optional (id : block_id_type) (db : block_database) : option signed_block :=
  e ← db !! index_pos id;
  if bool_decide (entry_id e = id) then read_entry e else None.
Definition fetch_by_number (block_num : nat) (db : block_database) : option signed_block :=
  e ← db !! block_num; read_entry e.

(** The last entry with a readable block; the entries after it are cut off.  [rdb]
    has the entries last first. *)
Fixpoint last_index_entry (rdb : list index_entry) : option index_entry * list index_entry :=
  match rdb with
  | [] => (None, [])
  | e :: rdb' => match read_entry e with Some _ => (Some e, rdb) | None => last_index_entry rdb' end
  end.
Definition last_block (db : block_database) : option signed_block * block_database :=
  let '(e, rdb) := last_index_entry (reverse db) in
  (e ← e; fetch_by_number (index_pos (entry_id e)) (reverse rdb), reverse rdb).
Definition last_id (db : block_database) : option block_id_type * block_database :=
  let '(e, rdb) := last_index_entry (reverse db) in (entry_id <$> e, reverse rdb).

(** ** What the files give back *)
Lemma lookup_write_entry n e db m :
  write_entry n e db !! m =
  if decide (m = n) then Some e
  else match db !! m with Some x => Some x | None => if decide (m < n)%nat then Some zero_entry else None end.
Proof.
  unfold write_entry. destruct (decide (m = n)) as [->|Hm].
  - rewrite list_lookup_insert_eq; [done|]. rewrite length_app, length_replicate. lia.
  - rewrite list_lookup_insert_ne by done. destruct (db !! m) as [x|] eqn:E.
    + by rewrite lookup_app_l by (by eapply lookup_lt_Some).
    + apply lookup_ge_None in E. rewrite lookup_app_r by done.
      destruct (decide (m < n)%nat).
      * apply lookup_replicate_2. lia.
      * apply lookup_ge_None. rewrite length_replicate. lia.
Qed.

Lemma fetch_optional_contains id db b : fetch_optional id db = Some b → id ≠ null_id → contains id db = true.
Proof.
  unfold fetch_optional, contains. intros E Hid. rewrite (bool_decide_eq_false_2 _ Hid).
  destruct (db !! index_pos id) as [e|]; [|done]. cbn in E. case_bool_decide as He; [|done].
  unfold read_entry in E. destruct (entry_block e); [|done]. by rewrite bool_decide_eq_true_2.
Qed.

(** The block that is read back. *)
Definition read_back (b : signed_block) : signed_block := (block_id (without_caches b)).2.
Lemma read_back_same b :
  header_fields (read_back b) = header_fields b ∧ transactions (read_back b) = transactions b ∧
  (block_id (without_caches b)).1 = compute_id b.
Proof. done. Qed.
Lemma read_entry_stored id b :
  compute_id b = id → read_entry (IndexEntry id (Some (without_caches b))) = Some (read_back b).
Proof.
  intros Hb. unfold read_entry, read_back. cbn [entry_block entry_id mbind option_bind].
  destruct (read_back_same b) as (_ & _ & E). destruct (block_id (without_caches b)) as [i c]. cbn in *.
  by rewrite bool_decide_eq_true_2 by congruence.
Qed.

(** The index below the end of the file has ids that belong where they are. *)
Definition wf_store (db : block_database) : Prop :=
  ∀ n e b, db !! n = Some e → entry_block e = Some b →
    entry_id e = (block_id b).1 ∧ index_pos (entry_id e) = n.

(** C40: A stored block is found again by its id and by its number, with the same header,
    signature and transactions, until another block of the same number is stored or it
    is removed; every other block is found as before. *)
Theorem store_fetch id b db :
  wf_store db → id ≠ null_id → compute_id b = id →
  wf_store (store id b db) ∧
  fetch_optional id (store id b db) = Some (read_back b) ∧
  fetch_by_number (index_pos id) (store id b db) = Some (read_back b) ∧
  header_fields (read_back b) = header_fields b ∧ transactions (read_back b) = transactions b ∧
  contains id (store id b db) = true ∧
  (∀ id', index_pos id' ≠ index_pos id → fetch_optional id' (store id b db) = fetch_optional id' db) ∧
  (∀ id', index_pos id' = index_pos id → id' ≠ id → fetch_optional id' (store id b db) = None) ∧
  ∃ db', remove_block id (store id b db) = Ok db' ∧ fetch_optional id db' = None ∧ contains id db' = false ∧
    ∀ id', id' ≠ id → fetch_optional id' db' = fetch_optional id' (store id b db).
Proof.
  intros W Hid Hb. assert (∀ m, store id b db !! m =
    if decide (m = index_pos id) then Some (IndexEntry id (Some (without_caches b)))
    else match db !! m with Some x => Some x | None => if decide (m < index_pos id)%nat then Some zero_entry else None end)
    as E by (intros m; unfold store; rewrite bool_decide_eq_false_2 by done; apply lookup_write_entry).
  assert (fetch_optional id (store id b db) = Some (read_back b)) as Hf.
  { unfold fetch_optional. rewrite E, decide_True by done. cbn [mbind option_bind entry_id].
    rewrite bool_decide_eq_true_2 by done. by apply read_entry_stored. }
  split_and!; try done.
  - intros n e c Hn Hc. rewrite E in Hn. destruct (decide (n = index_pos id)) as [->|Hne].
    + injection Hn as <-. cbn [entry_block] in Hc. injection Hc as <-. split; [|done].
      by rewrite (proj2 (proj2 (read_back_same b))).
    + destruct (db !! n) eqn:Edb; [injection Hn as ->; by eapply W|].
      destruct (decide _) in Hn; [by injection Hn as <-|done].
  - unfold fetch_by_number. rewrite E, decide_True by done. by apply read_entry_stored.
  - by eapply fetch_optional_contains.
  - intros id' Hne. unfold fetch_optional. rewrite E, decide_False by done. destruct (db !! _); [done|].
    destruct (decide _); [|done]. cbn. by case_bool_decide.
  - intros id' He Hne. unfold fetch_optional. rewrite E, decide_True by done. cbn.
    by rewrite bool_decide_eq_false_2 by congruence.
  - unfold remove_block. rewrite E, decide_True by done. cbn. rewrite bool_decide_eq_true_2 by done.
    eexists. split; [done|]. set (db1 := store id b db).
    assert (fetch_optional id (write_entry (index_pos id) (IndexEntry id None) db1) = None) as Hn.
    { unfold fetch_optional. rewrite lookup_write_entry, decide_True by done. cbn. by rewrite bool_decide_eq_true_2. }
    split_and!; [done| |].
    + unfold contains. rewrite (bool_decide_eq_false_2 _ Hid), lookup_write_entry, decide_True by done. cbn.
      by rewrite bool_decide_eq_true_2.
    + intros id' Hne. unfold fetch_optional. rewrite lookup_write_entry.
      destruct (decide (index_pos id' = index_pos id)) as [Ep|Ep].
      * rewrite Ep. unfold db1. rewrite E, decide_True by done. cbn. by rewrite !bool_decide_eq_false_2 by congruence.
      * unfold db1. rewrite E, decide_False by done. destruct (db !! index_pos id'); [done|].
        destruct (decide _); [|done]. done.
Qed.

(** The end of the index: the last readable block, and nothing readable is lost. *)
Lemma last_index_entry_spec rdb :
  let '(e, rdb') := last_index_entry rdb in
  (∃ l, rdb = l ++ rdb' ∧ Forall (λ x, read_entry x = None) l) ∧ head rdb' = e ∧
  (∀ x, e = Some x → is_Some (read_entry x)).
Proof.
  induction rdb as [|x rdb IH]; cbn; [split_and!; [by exists []|done|done]|].
  destruct (read_entry x) as [b|] eqn:Ex.
  - split_and!; [by exists []|done|]. intros y [= <-]. by rewrite Ex.
  - destruct (last_index_entry rdb) as [e rdb']. destruct IH as ((l & -> & Hl) & He & Hx).
    split_and!; [exists (x :: l); split; [done|by constructor]|done|done].
Qed.

End block_database.

Lemma store_fetch_witness :
  fetch_optional (block_id ex_block).1 (store (block_id ex_block).1 ex_block []) = Some (read_back ex_block) ∧
  contains (block_id ex_block).1 (store (block_id ex_block).1 ex_block []) = true.
Proof.
  destruct (store_fetch (block_id ex_block).1 ex_block []) as (_ & H & _ & _ & _ & Hc & _); [by intros n e b|by vm_compute|done|].
  by split.
Defined.
