(* ===== verification/Chain.v ===== *)
(** * Pushing blocks and transactions: chain/db_block.cpp, chain/db_with.hpp

    How the fork database, the undo history, the block files and the lists of
    pending and popped transactions work together.  The state of the objects is a
    type with the interface [ChainState]: what [push_block] relies on when it
    applies a block or a transaction.  The undo history is its contract of
    UndoDb.v, a stack of snapshots.

    Unlike a handler, [push_block] lives on after an exception: it catches, repairs
    and rethrows.  Its monad keeps the state of the moment an exception is thrown. *)

From S2P Require Import Prelude UndoDb Block ForkDb BlockStore.

(** ** Exceptions that leave a state behind *)
Definition P (S A : Type) : Type := S → result A * S.
#[global] Instance P_ret {S} : MRet (P S) := λ A a s, (Ok a, s).
#[global] Instance P_bind {S} : MBind (P S) := λ A B f m s,
  match m s with (Ok a, s') => f a s' | (Err e, s') => (Err e, s') end.

Definition raise {S A} (e : exn) : P S A := λ s, (Err e, s).
Definition run {S A} (f : S → result A) : P S A := λ s, (f s, s).
(** An update that throws leaves the state as it was. *)
Definition update {S} (f : S → result S) : P S unit := λ s,
  match f s with Ok s' => (Ok tt, s') | Err e => (Err e, s) end.

(** [catch( const fc::exception& )]. *)
Definition attempt {S A} (m : P S A) : P S (option exn) := λ s,
  match m s with
  | (Ok _, s') => (Ok None, s')
  | (Err e, s') => if caught e then (Ok (Some e), s') else (Err e, s')
  end.

(** The destructor of a guard. *)
Definition finally {S A} (body : P S A) (cleanup : P S unit) : P S A := λ s,
  let '(r, s1) := body s in
  match cleanup s1 with (Ok _, s2) => (r, s2) | (Err e, s2) => (Err e, s2) end.

(** ** What pushing relies on *)
Class ChainState `{BlockExt} (St : Type) := {
  head_block_id : St → block_id_type;
  head_block_num : St → Z;
  last_irreversible_num : St → Z;
  trx_known : Z → St → bool;
  trx_size : Z → Z;
  apply_trx : Z → Z → St → result St;
  (** [_apply_block] up to the new head, which tells whether the block is one of
      maintenance, and from there; the list has the numbers of the checkpoints *)
  begin_block : list Z → Z → signed_block → St → result (bool * St);
  end_block : Z → signed_block → bool → St → result St;
  (** A block extends the head and becomes the head. *)
  begin_block_head cps skip b o maint o' : begin_block cps skip b o = Ok (maint, o') →
    previous b = head_block_id o ∧ head_block_id o' = (block_id b).1 ∧
    head_block_num o' = block_num b ∧ last_irreversible_num o' = last_irreversible_num o;
  end_block_head skip b maint o o' : end_block skip b maint o = Ok o' →
    head_block_id o' = head_block_id o ∧ head_block_num o' = head_block_num o
}.

Section chain.
Context {St : Type} `{CS : ChainState St}.

Record chain_database := ChainDatabase {
  objects : abs St;
  _fork_db : fork_database;
  _block_id_to_block : block_database;
  _pending_tx : list Z;
  _popped_tx : list Z;
  _pending_tx_session : bool;
  _checkpoints : gmap Z block_id_type
}.
Implicit Types (c : chain_database) (b : signed_block).

Definition set_objects (x : abs St) c : chain_database :=
  ChainDatabase x (_fork_db c) (_block_id_to_block c) (_pending_tx c) (_popped_tx c) (_pending_tx_session c)
    (_checkpoints c).
Definition set_fork_db (x : fork_database) c : chain_database :=
  ChainDatabase (objects c) x (_block_id_to_block c) (_pending_tx c) (_popped_tx c) (_pending_tx_session c)
    (_checkpoints c).
Definition set_store (x : block_database) c : chain_database :=
  ChainDatabase (objects c) (_fork_db c) x (_pending_tx c) (_popped_tx c) (_pending_tx_session c) (_checkpoints c).
Definition set_pending (x : list Z) c : chain_database :=
  ChainDatabase (objects c) (_fork_db c) (_block_id_to_block c) x (_popped_tx c) (_pending_tx_session c)
    (_checkpoints c).
Definition set_popped (x : list Z) c : chain_database :=
  ChainDatabase (objects c) (_fork_db c) (_block_id_to_block c) (_pending_tx c) x (_pending_tx_session c)
    (_checkpoints c).
Definition set_session (x : bool) c : chain_database :=
  ChainDatabase (objects c) (_fork_db c) (_block_id_to_block c) (_pending_tx c) (_popped_tx c) x (_checkpoints c).

Definition cur c : St := a_cur (objects c).
Definition on_objects (f : abs St → result (abs St)) : P chain_database unit :=
  update (λ c, x ← f (objects c); Ok (set_objects x c)).
Definition on_fork_db (f : fork_database → result fork_database) : P chain_database unit :=
  update (λ c, x ← f (_fork_db c); Ok (set_fork_db x c)).
Definition change (f : St → result St) : P chain_database unit :=
  on_objects (λ a, o ← f (a_cur a); Ok (a_change o a)).

(** A block with a session of its own: the destructor undoes what was not committed. *)
Definition in_session (commit : abs St → result (abs St)) (body : P chain_database unit) : P chain_database unit :=
  λ c,
  match body (set_objects (a_start (objects c)) c) with
  | (Ok _, c') => on_objects commit c'
  | (Err e, c') => (on_objects a_undo;; raise e) c'
  end.

(** ** Applying a block *)
Definition checkpoint_numbers (m : gmap Z block_id_type) : list Z := merge_sort Z.le (elements (dom m)).
Definition last_checkpoint (m : gmap Z block_id_type) : option (Z * block_id_type) :=
  n ← last (checkpoint_numbers m); i ← m !! n; Some (n, i).
(** Blocks up to the last checkpoint are trusted once they match. *)
Definition checkpoint_skip (m : gmap Z block_id_type) b (skip : Z) : result Z :=
  match last_checkpoint m with
  | Some (n, i) =>
      if bool_decide (i ≠ null_id) then
        fc_assert (match m !! block_num b with Some j => bool_decide ((block_id b).1 = j) | None => true end);;
        Ok (if n >=? block_num b then uint32_max else skip)
      else Ok skip
  | None => Ok skip
  end.

(** [update_global_dynamic_data] bounds both histories by the distance to the last
    irreversible block. *)
Definition history_limit b (o : St) : Z := u32 (block_num b - last_irreversible_num o + 1).
Definition set_undo_limit (n : Z) (a : abs St) : abs St := Abs (a_cur a) (a_snaps a) (a_active a) (Z.to_nat n).

Definition apply_block (skip : Z) b : P chain_database unit :=
  skip ← run (λ c, checkpoint_skip (_checkpoints c) b skip);
  r ← run (λ c, begin_block (checkpoint_numbers (_checkpoints c)) skip b (cur c));
  let '(maint_needed, o) := r : bool * St in
  change (λ _, Ok o);;
  n ← run (λ c, Ok (history_limit b (cur c)));
  on_objects (λ a, Ok (set_undo_limit n a));;
  on_fork_db (set_max_size n);;
  change (end_block skip b maint_needed).

Definition store_block b : P chain_database unit :=
  update (λ c, Ok (set_store (store (block_id b).1 b (_block_id_to_block c)) c)).
Definition push_to_state (skip : Z) b : P chain_database unit :=
  in_session a_commit (apply_block skip b;; store_block b).

(** ** Popping *)
Definition reset_pending_session : P chain_database unit :=
  valid ← run (λ c, Ok (_pending_tx_session c));
  if valid : bool then on_objects a_undo;; update (λ c, Ok (set_session false c)) else mret tt.

Definition fork_item_at (p : positive) : P chain_database fork_item := run (λ c, item (_fork_db c) p).
Definition get_head_block_id : P chain_database block_id_type := run (λ c, Ok (head_block_id (cur c))).

Definition pop_block : P chain_database unit :=
  reset_pending_session;;
  h ← run (λ c, from_option_r assert_exception (_head (_fork_db c)));
  it ← fork_item_at h;
  head_id ← get_head_block_id;
  it ← (if bool_decide (id it = head_id) then on_fork_db ForkDb.pop_block;; mret it
        else p ← run (λ c, from_option_r assert_exception (fetch_block head_id (_fork_db c))); fork_item_at p);
  on_objects a_pop_commit;;
  update (λ c, Ok (set_popped (transactions (data it) ++ _popped_tx c) c)).

(** [while( head_block_id() != target ) pop_block();]: every round takes a snapshot
    off the stack. *)
Fixpoint pop_until (fuel : nat) (target : block_id_type) : P chain_database unit :=
  match fuel with
  | O => raise out_of_fuel
  | S fuel =>
      head_id ← get_head_block_id;
      if bool_decide (head_id = target) then mret tt else pop_block;; pop_until fuel target
  end.
Definition pop_to (target : block_id_type) : P chain_database unit := λ c,
  pop_until (S (length (a_snaps (objects c)))) target c.

(** ** Switching forks *)
Fixpoint remove_items (l : list positive) : P chain_database unit :=
  match l with
  | [] => mret tt
  | p :: l => it ← fork_item_at p; on_fork_db (remove (id it));; remove_items l
  end.
Fixpoint restore_branch (skip : Z) (l : list positive) : P chain_database unit :=
  match l with
  | [] => mret tt
  | p :: l => it ← fork_item_at p; push_to_state skip (data it);; restore_branch skip l
  end.

(** [target] is the block both branches are built on, [old] the old branch, oldest
    block first, with head [old_head]. *)
Fixpoint push_branch (skip : Z) (target : block_id_type) (old : list positive) (old_head : positive)
    (l : list positive) : P chain_database unit :=
  match l with
  | [] => mret tt
  | p :: l' =>
      it ← fork_item_at p;
      except ← attempt (push_to_state skip (data it));
      match except with
      | None => push_branch skip target old old_head l'
      | Some e =>
          remove_items l;;
          on_fork_db (λ f, Ok (set_head (Some old_head) f));;
          pop_to target;;
          restore_branch skip old;;
          raise e
      end
  end.

(** The branches own their items while they are in scope. *)
Definition hold (X : gset positive) : P chain_database unit :=
  on_fork_db (λ f, Ok (ForkDatabase (heap f) (next_ptr f) (_index f) (_head f) (_max_size f) X)).
Definition holding (X : gset positive) (m : P chain_database unit) : P chain_database unit := λ c,
  match (hold X;; m) c with (r, c') => (r, (hold (held (_fork_db c)) c').2) end.

Definition switch_forks (skip : Z) (new_head : fork_item) : P chain_database unit :=
  branches ← run (λ c, fetch_branch_from (block_id (data new_head)).1 (head_block_id (cur c)) (_fork_db c));
  let '(first, second) := branches : list positive * list positive in
  last_old ← run (λ _, from_option_r undefined_behaviour (last second));
  old_head ← run (λ _, from_option_r undefined_behaviour (head second));
  holding (list_to_set (first ++ second))
    (last_item ← fork_item_at last_old;
     let target := previous (data last_item) in
     pop_to target;;
     push_branch skip target (reverse second) old_head (reverse first)).

Definition _push_block (skip : Z) b : P chain_database bool :=
  on_fork_db (λ f, r ← push_block b f; Ok r.2);;
  h ← run (λ c, from_option_r undefined_behaviour (_head (_fork_db c)));
  new_head ← fork_item_at h;
  o ← run (λ c, Ok (cur c));
  if bool_decide (previous (data new_head) ≠ head_block_id o) then
    if block_num (data new_head) >? head_block_num o then switch_forks skip new_head;; mret true else mret false
  else
    except ← attempt (push_to_state skip b);
    match except with
    | None => mret false
    | Some e => on_fork_db (remove (block_id b).1);; raise e
    end.

(** ** Pending transactions *)
Definition _push_transaction (skip trx : Z) : P chain_database unit :=
  valid ← run (λ c, Ok (_pending_tx_session c));
  (if valid : bool then mret tt
   else on_objects (λ a, Ok (a_start a));; update (λ c, Ok (set_session true c)));;
  in_session a_merge
    (change (apply_trx skip trx);; update (λ c, Ok (set_pending (_pending_tx c ++ [trx]) c))).

Definition push_transaction (skip trx : Z) : P chain_database unit :=
  run (λ _, fc_assert (trx_size trx <? 1024 * 1024));; _push_transaction skip trx.

Definition clear_pending : P chain_database unit :=
  update (λ c, Ok (set_pending [] c));; reset_pending_session.

(** Transactions that are no longer valid are dropped. *)
Fixpoint repush (skip : Z) (l : list Z) : P chain_database unit :=
  match l with
  | [] => mret tt
  | trx :: l =>
      known ← run (λ c, Ok (trx_known trx (cur c)));
      (if known : bool then mret tt else _ ← attempt (_push_transaction skip trx); mret tt);;
      repush skip l
  end.

Definition restore_pending (skip : Z) (pending : list Z) : P chain_database unit :=
  popped ← run (λ c, Ok (_popped_tx c));
  repush skip popped;;
  update (λ c, Ok (set_popped [] c));;
  repush skip pending.

Definition without_pending_transactions {A} (skip : Z) (body : P chain_database A) : P chain_database A :=
  pending ← run (λ c, Ok (_pending_tx c));
  clear_pending;;
  finally body (restore_pending skip pending).

Definition push_block (skip : Z) b : P chain_database bool := without_pending_transactions skip (_push_block skip b).

End chain.

(** ** What one block does to the state *)
Section chain_proofs.
Context {St : Type} `{CS : ChainState St}.
Implicit Types (c : chain_database (St:=St)) (b : signed_block) (o : St).

(** The state after a block, as a function of the state before it. *)
Definition apply_to (cps : gmap Z block_id_type) (skip : Z) b o : result St :=
  sk ← checkpoint_skip cps b skip;
  '(maint_needed, o') ← begin_block (checkpoint_numbers cps) sk b o;
  end_block sk b maint_needed o'.
Fixpoint apply_all (cps : gmap Z block_id_type) (skip : Z) (l : list signed_block) o : result St :=
  match l with [] => Ok o | b :: l => o' ← apply_to cps skip b o; apply_all cps skip l o' end.

Lemma apply_to_head cps skip b o o' :
  apply_to cps skip b o = Ok o' →
  previous b = head_block_id o ∧ head_block_id o' = (block_id b).1 ∧ head_block_num o' = block_num b.
Proof.
  unfold apply_to. intros E. apply result_bind_Ok in E as (sk & _ & E). apply result_bind_Ok in E as ([maint o1] & E1 & E).
  apply begin_block_head in E1 as (H1 & H2 & H3 & _). apply end_block_head in E as (H4 & H5).
  split_and!; congruence.
Qed.

Lemma P_bind_run {S A B} (f : S → result A) (k : A → P S B) (s : S) :
  (run f ≫= k) s = match f s with Ok a => k a s | Err e => (Err e, s) end.
Proof. reflexivity. Qed.
Lemma P_bind_update {S B} (f : S → result S) (k : unit → P S B) (s : S) :
  (update f ≫= k) s = match f s with Ok s' => k tt s' | Err e => (Err e, s) end.
Proof. unfold mbind, P_bind, update. by destruct (f s). Qed.

(** A chain database whose histories may have been cut. *)
Definition fork_cut (f f' : fork_database) : Prop := f' = f ∨ ∃ n, set_max_size n f = Ok f'.

Definition with_state (a : abs St) (f : fork_database) (db : block_database) c : chain_database :=
  ChainDatabase a f db (_pending_tx c) (_popped_tx c) (_pending_tx_session c) (_checkpoints c).

(** A block is applied in its session, or nothing of it remains. *)
Lemma push_to_state_spec skip b c :
  wf (_fork_db c) → 0 ≤ a_active (objects c) < uint32_max →
  let a := objects c in
  match apply_to (_checkpoints c) skip b (cur c) with
  | Ok o' => ∃ f', set_max_size (history_limit b (cur c)) (_fork_db c) = Ok f' ∧
      push_to_state skip b c =
      (Ok tt, with_state (Abs o' (cur c :: take (a_max a) (a_snaps a)) (a_active a)
                            (Z.to_nat (history_limit b (cur c)))) f'
                (store (block_id b).1 b (_block_id_to_block c)) c)
  | Err e => ∃ f' m, (f' = _fork_db c ∨ set_max_size (history_limit b (cur c)) (_fork_db c) = Ok f') ∧
      push_to_state skip b c =
      (Err e, with_state (Abs (cur c) (take (a_max a) (a_snaps a)) (a_active a) m) f' (_block_id_to_block c) c)
  end.
Proof.
  destruct c as [[o s n m] f db pt pp ps cps]. cbn [_fork_db objects a_active a_max a_snaps cur a_cur _checkpoints
    _block_id_to_block].
  intros W Ha.
  assert (u32 (n + 1) = n + 1) as Hu by (unfold_widths; apply Z.mod_small; lia).
  assert ((n + 1 >? 0) = true) as Hg by lia. assert (n + 1 - 1 = n) as Hn by lia.
  unfold push_to_state, in_session, apply_to, apply_block, change, on_objects, on_fork_db, store_block,
    mbind, P_bind, run, update, raise, cur, a_start, result_bind, a_undo, a_commit.
  cbn [objects _checkpoints set_objects a_cur a_snaps a_active a_max]. rewrite Hu.
  destruct (checkpoint_skip cps b skip) as [sk|e].
  2: { cbn. rewrite Hg. cbn. rewrite Hn. exists f, m. split; [by left|done]. }
  cbn. destruct (begin_block (checkpoint_numbers cps) sk b o) as [[maint o1]|e] eqn:E1.
  2: { cbn. rewrite Hg. cbn. rewrite Hn. exists f, m. split; [by left|done]. }
  apply begin_block_head in E1 as (_ & _ & _ & El). unfold a_change, history_limit. cbn. rewrite El.
  fold (history_limit b o). destruct (wf_set_max_size (history_limit b o) f W) as (f' & Ef & _). rewrite Ef. cbn.
  destruct (end_block sk b maint o1) as [o2|e] eqn:E2.
  - cbn. rewrite Hg. cbn. rewrite Hn. exists f'. split; [done|]. done.
  - cbn. rewrite Hg. cbn. rewrite Hn. exists f'. eexists. split; [by right|done].
Qed.

(** ** The chain a state was built from

    [bs] has blocks newest first: the state is the result of applying the first to
    the newest snapshot, which is the result of applying the second to the snapshot
    below, and so on. *)
Fixpoint built (cps : gmap Z block_id_type) (skip : Z) (bs : list signed_block) o (snaps : list St) : Prop :=
  match bs with
  | [] => True
  | b :: bs =>
      match snaps with
      | [] => False
      | o' :: snaps => apply_to cps skip b o' = Ok o ∧ built cps skip bs o' snaps
      end
  end.

(** A block in the index of the fork database. *)
Definition indexed (f : fork_database) b : Prop :=
  ∃ p it, _index f !! (block_id b).1 = Some p ∧ heap f !! p = Some it ∧ data it = b.

Lemma pop_block_spec c b o1 snaps m hd ithd :
  _pending_tx_session c = false → objects c = Abs (cur c) (o1 :: snaps) 0 m →
  _head (_fork_db c) = Some hd → heap (_fork_db c) !! hd = Some ithd →
  head_block_id (cur c) = (block_id b).1 → id ithd ≠ (block_id b).1 → indexed (_fork_db c) b →
  pop_block c = (Ok tt, set_popped (transactions b ++ _popped_tx c) (set_objects (Abs o1 snaps 0 m) c)).
Proof.
  intros Hs Ho Hh Hhd Hc Hne (p & it & Hp & Hit & <-).
  unfold pop_block, reset_pending_session, fork_item_at, get_head_block_id, on_objects, item, fetch_block,
    mbind, P_bind, run, update. rewrite Hs. cbn [mret P_ret]. unfold mret, P_ret. rewrite Hh. cbn [from_option_r].
  rewrite Hhd. cbn [from_option_r]. rewrite Hc, (bool_decide_eq_false_2 _ Hne), Hp. cbn [from_option_r].
  rewrite Hit. cbn [from_option_r]. rewrite Ho. done.
Qed.

Lemma pop_until_spec target bs : ∀ fuel c m o1 hd ithd cps skip,
  _pending_tx_session c = false → objects c = Abs (cur c) (a_snaps (objects c)) 0 m →
  _head (_fork_db c) = Some hd → heap (_fork_db c) !! hd = Some ithd →
  built cps skip bs (cur c) (a_snaps (objects c)) →
  Forall (λ b, id ithd ≠ (block_id b).1 ∧ (block_id b).1 ≠ target ∧ indexed (_fork_db c) b) bs →
  (cur c :: a_snaps (objects c)) !! length bs = Some o1 → head_block_id o1 = target →
  (length bs < fuel)%nat →
  pop_until fuel target c =
  (Ok tt, set_popped (concat (transactions <$> reverse bs) ++ _popped_tx c)
            (set_objects (Abs o1 (drop (length bs) (a_snaps (objects c))) 0 m) c)).
Proof.
  induction bs as [|b bs IH]; intros [|fuel] c m o1 hd ithd cps skip Hs Ho Hh Hhd Hb Hf Ho1 Ht Hfuel; try (cbn in Hfuel; lia);
    cbn [pop_until]; unfold get_head_block_id; rewrite P_bind_run.
  - cbn in Ho1. injection Ho1 as <-. rewrite (bool_decide_eq_true_2 _ Ht), drop_0. cbn. unfold mret, P_ret.
    do 2 f_equal. rewrite <- Ho. by destruct c.
  - cbn [built] in Hb. destruct (a_snaps (objects c)) as [|o' snaps] eqn:Es; [done|]. destruct Hb as [Ha Hb].
    apply Forall_cons in Hf as [(H1 & H2 & H3) Hf]. apply apply_to_head in Ha as (_ & Hid & _).
    rewrite bool_decide_eq_false_2 by congruence. unfold mbind at 1, P_bind.
    rewrite (pop_block_spec c b o' snaps m hd ithd) by done.
    rewrite (IH fuel _ m o1 hd ithd cps skip); try done; [|cbn in Hfuel; lia]. rewrite reverse_cons, fmap_app, concat_app, <- app_assoc.
    cbn -[reverse]. by rewrite app_nil_r.
Qed.

(** *** What applying a block leaves alone *)
Record quiet c c' : Prop := {
  q_pending : _pending_tx c' = _pending_tx c;
  q_popped : _popped_tx c' = _popped_tx c;
  q_session : _pending_tx_session c' = _pending_tx_session c;
  q_checkpoints : _checkpoints c' = _checkpoints c;
  q_active : a_active (objects c') = a_active (objects c);
  q_wf : wf (_fork_db c) → wf (_fork_db c');
  q_heap : heap (_fork_db c') = heap (_fork_db c);
  q_head : _head (_fork_db c') = _head (_fork_db c);
  q_index : ∀ i p, _index (_fork_db c') !! i = Some p → _index (_fork_db c) !! i = Some p
}.
#[local] Instance quiet_preorder : PreOrder quiet.
Proof.
  split; [by split|]. intros c1 c2 c3 [] []. split; try congruence; auto.
Qed.

(** Entries at most [n] below the head survive a cut to size [n]. *)
Definition kept (n : Z) (f f' : fork_database) : Prop := ∀ hd it i p,
  _head f = Some hd → heap f !! hd = Some it → _index f !! i = Some p →
  num it - n ≤ num_from_id i → 0 ≤ num_from_id i → _index f' !! i = Some p.

Lemma set_max_size_frame n f f' :
  wf f → set_max_size n f = Ok f' →
  wf f' ∧ heap f' = heap f ∧ _head f' = _head f ∧ kept n f f' ∧
  ∀ i p, _index f' !! i = Some p → _index f !! i = Some p.
Proof.
  intros W E. destruct (wf_set_max_size n f W) as (f1 & E1 & W1). assert (f' = f1) as -> by congruence.
  split; [done|]. unfold set_max_size in E1. cbn in E1. destruct (_head f) as [hd|] eqn:Eh.
  - unfold item in E1. cbn in E1. destruct (heap f !! hd) as [it|] eqn:Eit; [|done]. cbn in E1. injection E1 as <-.
    split_and!; [done|done| |]; cycle 1.
    { intros i p. rewrite prune_lookup. cbn. destruct (_index f !! i); [|done]. by case_match. }
    intros hd' it' i p Eh' Eit' Ei H1 H2. rewrite prune_lookup. cbn. rewrite Ei.
    assert (num_at f p = num_from_id i) as En by by apply wf_num_at.
    unfold num_at in *. cbn. rewrite En. replace it' with it in H1 by congruence.
    destruct (num_from_id i <? _) eqn:El; [bool_to_prop; lia|done].
  - injection E1 as <-. split_and!; [done|done| |done]. by intros hd' it' i p Eh'; rewrite Eh in Eh'.
Qed.

Lemma push_Ok skip b c o' :
  wf (_fork_db c) → a_active (objects c) = 0 → apply_to (_checkpoints c) skip b (cur c) = Ok o' →
  ∃ c', push_to_state skip b c = (Ok tt, c') ∧ quiet c c' ∧ cur c' = o' ∧
    a_snaps (objects c') = cur c :: take (a_max (objects c)) (a_snaps (objects c)) ∧
    a_max (objects c') = Z.to_nat (history_limit b (cur c)) ∧
    _block_id_to_block c' = store (block_id b).1 b (_block_id_to_block c) ∧
    kept (history_limit b (cur c)) (_fork_db c) (_fork_db c').
Proof.
  intros W Ha E. pose proof (push_to_state_spec skip b c W) as Hs. rewrite E in Hs.
  destruct Hs as (f' & Ef & ->); [rewrite Ha; unfold_widths; lia|].
  destruct (set_max_size_frame _ _ _ W Ef) as (W' & Hh & Hhd & Hk & Hi). eexists. split; [done|]. split_and!; try done.
Qed.

Lemma push_Err skip b c e :
  wf (_fork_db c) → a_active (objects c) = 0 → apply_to (_checkpoints c) skip b (cur c) = Err e →
  ∃ c', push_to_state skip b c = (Err e, c') ∧ quiet c c' ∧ cur c' = cur c ∧
    a_snaps (objects c') = take (a_max (objects c)) (a_snaps (objects c)) ∧
    _block_id_to_block c' = _block_id_to_block c ∧
    (_fork_db c' = _fork_db c ∨ kept (history_limit b (cur c)) (_fork_db c) (_fork_db c')).
Proof.
  intros W Ha E. pose proof (push_to_state_spec skip b c W) as Hs. rewrite E in Hs.
  destruct Hs as (f' & m & Hf & ->); [rewrite Ha; unfold_widths; lia|]. eexists. split; [done|].
  assert (wf f' ∧ heap f' = heap (_fork_db c) ∧ _head f' = _head (_fork_db c) ∧
    (∀ i p, _index f' !! i = Some p → _index (_fork_db c) !! i = Some p) ∧
    (f' = _fork_db c ∨ kept (history_limit b (cur c)) (_fork_db c) f')) as (W' & Hh & Hhd & Hi & Hk).
  { destruct Hf as [->|Ef]; [split_and!; auto|]. destruct (set_max_size_frame _ _ _ W Ef) as (? & ? & ? & ? & ?).
    split_and!; auto. }
  split_and!; try done.
Qed.

(** *** Reapplying a branch *)
Definition has_data (f : fork_database) (p : positive) b : Prop := ∃ it, heap f !! p = Some it ∧ data it = b.

(** The snapshots a sequence of blocks leaves on top of [snaps]. *)
Fixpoint history (cps : gmap Z block_id_type) (skip : Z) (l : list signed_block) o (snaps : list St) : list St :=
  match l with
  | [] => snaps
  | b :: l => match apply_to cps skip b o with Ok o' => history cps skip l o' (o :: snaps) | Err _ => snaps end
  end.
Definition store_all (l : list signed_block) (db : block_database) : block_database :=
  foldl (λ db b, store (block_id b).1 b db) db l.

Lemma history_app cps skip l1 l2 o o' snaps :
  apply_all cps skip l1 o = Ok o' →
  history cps skip (l1 ++ l2) o snaps = history cps skip l2 o' (history cps skip l1 o snaps).
Proof.
  revert o snaps. induction l1 as [|b l1 IH]; intros o snaps E; cbn in *; [by injection E as ->|].
  apply result_bind_Ok in E as (o1 & E1 & E). rewrite E1. by apply IH.
Qed.
Lemma apply_all_app cps skip l1 l2 o :
  apply_all cps skip (l1 ++ l2) o = (o' ← apply_all cps skip l1 o; apply_all cps skip l2 o').
Proof.
  revert o. induction l1 as [|b l1 IH]; intros o; cbn; [done|]. destruct (apply_to cps skip b o); cbn; [apply IH|done].
Qed.

Lemma built_apply cps skip bs : ∀ o snaps o1,
  built cps skip bs o snaps → (o :: snaps) !! length bs = Some o1 →
  apply_all cps skip (reverse bs) o1 = Ok o ∧
  history cps skip (reverse bs) o1 (drop (length bs) snaps) = snaps.
Proof.
  induction bs as [|b bs IH]; intros o snaps o1 Hb Ho1; cbn [length] in Ho1.
  { cbn in Ho1. injection Ho1 as ->. by rewrite drop_0. }
  cbn [built] in Hb. destruct snaps as [|o' snaps]; [done|]. destruct Hb as [Ha Hb].
  destruct (IH o' snaps o1 Hb Ho1) as [IH1 IH2]. rewrite reverse_cons, apply_all_app, IH1. cbn [mbind result_bind apply_all].
  rewrite Ha. split; [done|]. rewrite (history_app _ _ _ _ _ _ _ IH1). cbn [length drop]. rewrite IH2. cbn. by rewrite Ha.
Qed.

Lemma prefix_take_cons {A} (x : A) n l k : l `prefix_of` k → (x :: take n l) `prefix_of` (x :: k).
Proof. intros [r ->]. exists (drop n l ++ r). by rewrite <- app_comm_cons, app_assoc, take_drop. Qed.

Lemma restore_spec skip : ∀ l bs c o' snaps,
  wf (_fork_db c) → a_active (objects c) = 0 → Forall2 (has_data (_fork_db c)) l bs →
  apply_all (_checkpoints c) skip bs (cur c) = Ok o' → a_snaps (objects c) `prefix_of` snaps →
  ∃ c', restore_branch skip l c = (Ok tt, c') ∧ quiet c c' ∧ cur c' = o' ∧
    a_snaps (objects c') `prefix_of` history (_checkpoints c) skip bs (cur c) snaps ∧
    _block_id_to_block c' = store_all bs (_block_id_to_block c).
Proof.
  induction l as [|p l IH]; intros bs c o' snaps W Ha Hd E Hs.
  - apply Forall2_nil_inv_l in Hd as ->. injection E as <-. exists c. by split_and!.
  - apply Forall2_cons_inv_l in Hd as (b & bs' & (it & Hit & Hb) & Hd & ->). cbn in E.
    apply result_bind_Ok in E as (o1 & E1 & E).
    destruct (push_Ok skip b c o1 W Ha E1) as (c1 & P1 & Q1 & C1 & S1 & M1 & B1 & _).
    destruct (IH bs' c1 o' (cur c :: snaps)) as (c' & P' & Q' & C' & S' & B').
    + by apply (q_wf _ _ Q1).
    + by rewrite (q_active _ _ Q1).
    + unfold has_data. by rewrite (q_heap _ _ Q1).
    + by rewrite (q_checkpoints _ _ Q1), C1.
    + rewrite S1. by apply prefix_take_cons.
    + exists c'. split_and!.
      * cbn [restore_branch]. unfold mbind, P_bind, fork_item_at, run, item. rewrite Hit. cbn [from_option_r].
        rewrite Hb, P1. exact P'.
      * by etransitivity.
      * done.
      * rewrite (q_checkpoints _ _ Q1), C1 in S'. cbn. by rewrite E1.
      * by rewrite B', B1.
Qed.

End chain_proofs.

(** ** A small chain

    The objects are the log of the transactions of the chain, where none may occur
    twice. *)
Record log_state := LogState { log_id : block_id_type; log_num : Z; log_trx : list Z }.

Definition log_append (trx : Z) (o : log_state) : result log_state :=
  if bool_decide (trx ∈ log_trx o) then Err assert_exception
  else Ok (LogState (log_id o) (log_num o) (log_trx o ++ [trx])).
Fixpoint log_append_all (l : list Z) (o : log_state) : result log_state :=
  match l with [] => Ok o | t :: l => o' ← log_append t o; log_append_all l o' end.
Definition log_begin (b : signed_block) (o : log_state) : result log_state :=
  if bool_decide (previous b = log_id o) then Ok (LogState (block_id b).1 (block_num b) (log_trx o))
  else Err assert_exception.

Lemma log_append_all_head l : ∀ o o', log_append_all l o = Ok o' → log_id o' = log_id o ∧ log_num o' = log_num o.
Proof.
  induction l as [|t l IH]; intros o o' E; cbn in E; [by simplify_eq|]. apply result_bind_Ok in E as (o1 & E1 & E).
  unfold log_append in E1. case_bool_decide; [done|]. injection E1 as <-. by apply IH in E.
Qed.

#[refine] Instance log_chain_state : ChainState log_state := {|
  head_block_id := log_id;
  head_block_num := log_num;
  last_irreversible_num := λ _, 0;
  trx_known := λ t o, bool_decide (t ∈ log_trx o);
  trx_size := λ _, 100;
  apply_trx := λ _, log_append;
  begin_block := λ _ _ b o, o' ← log_begin b o; Ok (false, o');
  end_block := λ _ b _, log_append_all (transactions b)
|}.
Proof.
  - intros _ _ b o m o' E. unfold log_begin in E. case_bool_decide; [|done]. by injection E as _ <-.
  - intros _ b m o o'. apply log_append_all_head.
Defined.

Definition tb (prev_id : block_id_type) (t : Z) (trxs : list Z) : signed_block :=
  SignedBlock prev_id t 0 0 0 trxs null_id 0.
Definition m1 : signed_block := tb null_id 1 [11].
Definition m2 : signed_block := tb (fb_id m1) 2 [12].
Definition n2 : signed_block := tb (fb_id m1) 12 [13].
Definition n3 : signed_block := tb (fb_id n2) 13 [14; 12].
(** A block with a transaction that is already in block [m1]. *)
Definition n3' : signed_block := tb (fb_id n2) 13 [14; 11].

Definition ex_genesis : chain_database :=
  ChainDatabase (Abs (LogState null_id 0 []) [] 0 10) empty_fork_db [] [] [] false ∅.
Definition push_blocks (l : list signed_block) (c : chain_database (St:=log_state)) : chain_database :=
  foldl (λ c b, (push_block 0 b c).2) c l.
Definition ex_main : chain_database := push_blocks [m1; m2; n2] ex_genesis.
