(* ===== verification/ForkSwitch.v ===== *)
(** * Switching forks

    What [_push_block] of Chain.v does with a block on the head and with the head of a
    longer branch: the new branch is applied as a whole, or the old one is restored. *)

From S2P Require Import Prelude UndoDb Block ForkDb BlockStore Chain.

(** ** Switching to another branch *)
Section switching.
Context {St : Type} `{CS : ChainState St}.
Implicit Types (c : chain_database (St:=St)) (b : signed_block) (o : St).
#[local] Existing Instance quiet_preorder.

Lemma remove_frame i f :
  wf f → ∃ f', remove i f = Ok f' ∧ wf f' ∧ heap f' = heap f ∧ _index f' = delete i (_index f).
Proof.
  intros W. destruct (wf_remove i f W) as (f' & E & W'). exists f'. split_and!; [done|done|..];
    unfold remove in E; cbn in E; destruct (_head f) as [h|] eqn:Eh; try (by injection E as <-);
    apply result_bind_Ok in E as (it & _ & E); (case_bool_decide; [|by injection E as <-]);
    (destruct (ForkDb.pop_block _) as [f2|] eqn:Ep; [|by injection E as <-]); injection E as <-;
    unfold ForkDb.pop_block in Ep; monad_inv; done.
Qed.

Lemma remove_items_spec : ∀ l bs c,
  wf (_fork_db c) → Forall2 (has_data (_fork_db c)) l bs → Forall id_coherent bs →
  ∃ f', remove_items l c = (Ok tt, set_fork_db f' c) ∧ wf f' ∧ heap f' = heap (_fork_db c) ∧
    ∀ i, _index f' !! i = (if decide (i ∈ (λ b, (block_id b).1) <$> bs) then None else _index (_fork_db c) !! i).
Proof.
  induction l as [|p l IH]; intros bs c W Hd Hc.
  - apply Forall2_nil_inv_l in Hd as ->. exists (_fork_db c). split_and!; [by destruct c|done|done|].
    intros i. rewrite decide_False; [done|]. by apply not_elem_of_nil.
  - apply Forall2_cons_inv_l in Hd as (b & bs' & (it & Hit & Hb) & Hd & ->). apply Forall_cons in Hc as [Hb' Hc].
    destruct (remove_frame (id it) (_fork_db c) W) as (f1 & E1 & W1 & Hh1 & Hi1).
    destruct (IH bs' (set_fork_db f1 c)) as (f' & P' & W' & Hh' & Hi'); [done| |done|].
    { unfold has_data. cbn. by rewrite Hh1. }
    exists f'. cbn [_fork_db set_fork_db] in *. split_and!.
    + cbn [remove_items]. unfold mbind, P_bind, fork_item_at, run, item. rewrite Hit. cbn [from_option_r].
      unfold on_fork_db, update. rewrite E1. cbn [mbind result_bind]. exact P'.
    + done.
    + congruence.
    + intros i. rewrite Hi', Hi1. destruct (wf_items _ W _ _ Hit) as (_ & _ & Eid & _).
      assert (id it = (block_id b).1) as Ei by (rewrite Eid, Hb; symmetry; by apply block_id_coherent).
      cbn [fmap list_fmap]. repeat case_decide; rewrite ?elem_of_cons in *; try done.
      * naive_solver.
      * assert (i = id it) as -> by naive_solver. by rewrite lookup_delete_eq.
      * rewrite lookup_delete_ne; [done|]. naive_solver.
Qed.

(** The states of the branch at which blocks are applied keep the fork point within
    the bounds of the histories: [f] is its number, [n] that of the head of the new
    branch. *)
Fixpoint within_limits (cps : gmap Z block_id_type) (skip f n : Z) (l : list signed_block) o : Prop :=
  match l with
  | [] => True
  | b :: l =>
      0 ≤ last_irreversible_num o ≤ f ∧ n + last_irreversible_num o ≤ 2 * f + 3 ∧
      match apply_to cps skip b o with Ok o' => within_limits cps skip f n l o' | Err _ => True end
  end.

(** The state in the middle of the new branch, of which [done] has been applied. *)
Record on_branch (skip : Z) (base : St) (below : list St) (f : Z) (done_ : list signed_block) c : Prop := {
  ob_wf : wf (_fork_db c);
  ob_active : a_active (objects c) = 0;
  ob_session : _pending_tx_session c = false;
  ob_built : built (_checkpoints c) skip done_ (cur c) (a_snaps (objects c));
  ob_base : (cur c :: a_snaps (objects c)) !! length done_ = Some base;
  ob_below : drop (length done_) (a_snaps (objects c)) `prefix_of` below;
  ob_indexed : Forall (indexed (_fork_db c)) done_;
  ob_numbers : Forall (λ b, f < block_num b) done_;
  ob_height : num_from_id (head_block_id (cur c)) = f + Z.of_nat (length done_);
  ob_room : f + Z.of_nat (length done_) < uint32_max
}.

Lemma length_built cps skip bs : ∀ o snaps, built cps skip bs o snaps → (length bs ≤ length snaps)%nat.
Proof.
  induction bs as [|b bs IH]; intros o snaps Hb; cbn; [lia|]. destruct snaps; [done|]. destruct Hb as [_ Hb].
  apply IH in Hb. cbn. lia.
Qed.
Lemma built_take cps skip n bs : ∀ o snaps,
  built cps skip bs o snaps → (length bs ≤ n)%nat → built cps skip bs o (take n snaps).
Proof.
  revert n. induction bs as [|b bs IH]; intros n o snaps Hb Hn; [done|]. cbn [built] in *.
  destruct snaps as [|o' snaps]; [done|]. destruct Hb as [Ha Hb]. destruct n as [|n]; [cbn in Hn; lia|]. cbn.
  split; [done|]. apply IH; [done|cbn in Hn; lia].
Qed.

(** The blocks of the branch stay in the index while later ones are applied. *)
Lemma indexed_kept n f f' bs lo hd it :
  wf f → _head f = Some hd → heap f !! hd = Some it → heap f' = heap f → kept n f f' →
  num it - n ≤ lo + 1 → 0 ≤ lo → Forall id_coherent bs →
  Forall (λ b, lo < block_num b) bs → Forall (indexed f) bs → Forall (indexed f') bs.
Proof.
  intros W Hh Hit Hheap Hk Hn Hlo Hc Hnum Hi. rewrite Forall_forall in *. intros b Hb.
  destruct (Hi b Hb) as (p & itp & Hp & Hitp & Hd). exists p, itp. split_and!; [|by rewrite Hheap|done].
  specialize (Hnum b Hb). cbn in Hnum. specialize (Hc b Hb). apply block_id_coherent in Hc.
  pose proof (num_from_compute_id b) as En. rewrite <- Hc in En.
  eapply Hk; [done|done|done|lia|lia].
Qed.


(** A block above the fork point. *)
Definition above (f : Z) b : Prop := id_coherent b ∧ f < block_num b < uint32_max.

Lemma next_number b o : previous b = head_block_id o → 0 < block_num b →
  0 ≤ num_from_id (head_block_id o) < uint32_max → block_num b = num_from_id (head_block_id o) + 1.
Proof. intros Hp Hb Hn. unfold block_num in *. rewrite Hp in *. unfold_widths. apply Z.mod_small. lia. Qed.

Lemma limit_value b o f n :
  0 ≤ last_irreversible_num o ≤ f → n + last_irreversible_num o ≤ 2 * f + 3 → f < block_num b < uint32_max →
  n - history_limit b o ≤ f + 1 ∧ block_num b - f + 1 ≤ history_limit b o.
Proof. intros Hl Hn Hb. unfold history_limit. unfold_widths. rewrite Z.mod_small by lia. lia. Qed.

Lemma on_branch_step skip base below f done_ c b o' hd ithd :
  on_branch skip base below f done_ c → (length done_ ≤ a_max (objects c))%nat → above f b → Forall (above f) done_ → 0 ≤ f →
  _head (_fork_db c) = Some hd → heap (_fork_db c) !! hd = Some ithd → 
  within_limits (_checkpoints c) skip f (num ithd) [b] (cur c) → indexed (_fork_db c) b →
  apply_to (_checkpoints c) skip b (cur c) = Ok o' →
  ∃ c', push_to_state skip b c = (Ok tt, c') ∧ quiet c c' ∧ cur c' = o' ∧
    on_branch skip base below f (b :: done_) c' ∧ (S (length done_) ≤ a_max (objects c'))%nat ∧
    _block_id_to_block c' = store (block_id b).1 b (_block_id_to_block c) ∧
    kept (history_limit b (cur c)) (_fork_db c) (_fork_db c').
Proof.
  intros [W A Hs B Hbase Hbelow Hi Hnum Hh Hhb] Hmax [Hc Hb] Hdone Hf Hhd Hithd Hlim Hib E.
  destruct (push_Ok skip b c o' W A E) as (c' & P1 & Q & C' & S' & M' & B' & K'). exists c'.
  cbn in Hlim. destruct Hlim as (Hl1 & Hl2 & _). pose proof E as E'. apply apply_to_head in E' as (Hp & Hid & _).
  assert (block_num b = f + Z.of_nat (length done_) + 1) as Hbn by (rewrite <- Hh; apply next_number; [done|lia|lia]).
  destruct (limit_value b (cur c) f (num ithd) Hl1 Hl2 ltac:(lia)) as [Hk1 Hk2].
  assert (Forall (λ b, f < block_num b) (b :: done_)) as Hnum' by (constructor; [lia|done]).
  assert (Forall id_coherent (b :: done_)) as Hcoh.
  { constructor; [done|]. eapply Forall_impl; [exact Hdone|]. by intros x []. }
  split_and!; try done; [|rewrite M'; lia]. split.
  - by apply (q_wf _ _ Q).
  - by rewrite (q_active _ _ Q).
  - by rewrite (q_session _ _ Q).
  - rewrite (q_checkpoints _ _ Q), C', S'. cbn [built]. split; [done|]. by apply built_take.
  - rewrite C', S'. cbn [length]. rewrite lookup_cons. destruct done_ as [|d ds]; [done|]. cbn [length] in *.
    rewrite lookup_cons in *. rewrite lookup_take_lt by lia. exact Hbase.
  - rewrite S'. cbn [length drop]. etransitivity; [|exact Hbelow]. rewrite <- take_drop_commute || rewrite skipn_firstn_comm.
    exists (drop (a_max (objects c) - length done_) (drop (length done_) (a_snaps (objects c)))). by rewrite take_drop.
  - eapply (indexed_kept _ (_fork_db c) _ _ f hd ithd); try done; [by apply (q_heap _ _ Q)|by constructor].
  - done.
  - cbn [length]. rewrite C', Hid, (block_id_coherent _ Hc), num_from_compute_id. lia.
  - cbn [length]. lia.
Qed.

Lemma on_branch_fails skip base below f done_ c b e hd ithd :
  on_branch skip base below f done_ c → (length done_ ≤ a_max (objects c))%nat → above f b → Forall (above f) done_ → 0 ≤ f →
  _head (_fork_db c) = Some hd → heap (_fork_db c) !! hd = Some ithd → 
  within_limits (_checkpoints c) skip f (num ithd) [b] (cur c) →
  apply_to (_checkpoints c) skip b (cur c) = Err e →
  ∃ c', push_to_state skip b c = (Err e, c') ∧ quiet c c' ∧ cur c' = cur c ∧ on_branch skip base below f done_ c' ∧
    _block_id_to_block c' = _block_id_to_block c.
Proof.
  intros [W A Hs B Hbase Hbelow Hi Hnum Hh Hhb] Hmax [Hc Hb] Hdone Hf Hhd Hithd Hlim E.
  destruct (push_Err skip b c e W A E) as (c' & P1 & Q & C' & S' & B' & K'). exists c'. split_and!; try done.
  cbn in Hlim. destruct Hlim as (Hl1 & Hl2 & _).
  destruct (limit_value b (cur c) f (num ithd) Hl1 Hl2 ltac:(lia)) as [Hk1 Hk2]. split.
  - by apply (q_wf _ _ Q).
  - by rewrite (q_active _ _ Q).
  - by rewrite (q_session _ _ Q).
  - rewrite (q_checkpoints _ _ Q), C', S'. by apply built_take.
  - rewrite C', S'. destruct done_ as [|d ds]; [done|]. cbn [length] in *. rewrite lookup_cons in *.
    rewrite lookup_take_lt by lia. exact Hbase.
  - rewrite S', skipn_firstn_comm. etransitivity; [|exact Hbelow].
    exists (drop (a_max (objects c) - length done_) (drop (length done_) (a_snaps (objects c)))). by rewrite take_drop.
  - destruct K' as [->|K']; [done|]. eapply (indexed_kept _ (_fork_db c) _ _ f hd ithd); try done.
    + by apply (q_heap _ _ Q).
    + eapply Forall_impl; [exact Hdone|]. by intros x [].
  - done.
  - by rewrite C'.
  - done.
Qed.

(** *** The way back *)
Section back.
Context (skip f : Z) (base : St) (below : list St) (old : list signed_block) (o_old : St).
Context (old_items : list positive) (old_head : positive) (old_head_item : fork_item).
Notation target := (head_block_id base).

(** What a failed switch leaves: the old state on a prefix of its history, the old
    head, and none of the blocks [gone] in the index; the transactions of the blocks
    [popped] are kept. *)
Record went_back (gone popped : list signed_block) c c' : Prop := {
  wb_cur : cur c' = o_old;
  wb_snaps : a_snaps (objects c') `prefix_of` history (_checkpoints c) skip old base below;
  wb_active : a_active (objects c') = 0;
  wb_session : _pending_tx_session c' = false;
  wb_pending : _pending_tx c' = _pending_tx c;
  wb_popped : _popped_tx c' = concat (transactions <$> popped) ++ _popped_tx c;
  wb_checkpoints : _checkpoints c' = _checkpoints c;
  wb_wf : wf (_fork_db c');
  wb_head : _head (_fork_db c') = Some old_head;
  wb_heap : heap (_fork_db c') = heap (_fork_db c);
  wb_gone : Forall (λ b, _index (_fork_db c') !! (block_id b).1 = None) gone;
  wb_index : ∀ i p, _index (_fork_db c') !! i = Some p → _index (_fork_db c) !! i = Some p;
  wb_store : ∃ db, _block_id_to_block c' = store_all old db
}.

Lemma above_target b : num_from_id target = f → above f b → (block_id b).1 ≠ target.
Proof.
  intros Ht [Hc Hb] E. pose proof (num_from_compute_id b) as En. rewrite <- (block_id_coherent _ Hc), E, Ht in En. lia.
Qed.

Lemma back_spec done_ l bs c e :
  on_branch skip base below f done_ c → Forall (above f) done_ → num_from_id target = f →
  Forall2 (has_data (_fork_db c)) l bs → Forall id_coherent bs →
  (∀ b x, b ∈ done_ → x ∈ bs → (block_id b).1 ≠ (block_id x).1) →
  heap (_fork_db c) !! old_head = Some old_head_item →
  Forall (λ b, id old_head_item ≠ (block_id b).1) done_ →
  Forall2 (has_data (_fork_db c)) old_items old → apply_all (_checkpoints c) skip old base = Ok o_old →
  ∃ c', (remove_items l;; on_fork_db (λ f, Ok (set_head (Some old_head) f));; pop_to target;;
         restore_branch skip old_items;; raise (A:=unit) e) c = (Err e, c') ∧
    went_back bs (reverse done_) c c'.
Proof.
  intros [W A Hs B Hbase Hbelow Hi Hnum Hh Hhb] Hdone Ht Hl Hc Hdist Hold Hne Hd Ha.
  destruct (remove_items_spec l bs c W Hl Hc) as (f1 & P1 & W1 & Hh1 & Hi1).
  set (f2 := set_head (Some old_head) f1). assert (wf f2) as W2.
  { apply wf_set_head; [done|]. intros p [= <-]. rewrite Hh1. eauto. }
  destruct (restore_spec skip old_items old (set_popped (concat (transactions <$> reverse done_) ++ _popped_tx c)
    (set_objects (Abs base (drop (length done_) (a_snaps (objects c))) 0 (a_max (objects c))) (set_fork_db f2 c)))
    o_old below) as (c' & P3 & Q3 & C3 & S3 & B3); try done.
  { eapply Forall2_impl; [exact Hd|]. intros p b (it & Hit & Hb). exists it. split; [|done]. cbn. by rewrite Hh1. }
  exists c'. split.
  - unfold mbind, P_bind. rewrite P1. unfold on_fork_db at 1, update. cbn [_fork_db set_fork_db].
    change (set_head (Some old_head) f1) with f2.
    unfold pop_to.
    cbn [mbind result_bind].
    change (set_fork_db f2 (set_fork_db f1 c)) with (set_fork_db f2 c). rewrite (pop_until_spec target done_ _ (set_fork_db f2 c) (a_max (objects c)) base
      old_head old_head_item (_checkpoints c) skip); try done.
    { match goal with |- context [restore_branch skip old_items ?x] =>
        assert (restore_branch skip old_items x = (Ok tt, c')) as -> by exact P3 end. done. }
    + cbn. unfold cur. cbn. rewrite <- A. by destruct (objects c).
    + cbn. by rewrite Hh1.
    + rewrite Forall_forall in *. intros b Hb. split_and!; [by apply Hne|by apply above_target; [|apply Hdone]|].
      destruct (Hi b Hb) as (p & it & Hp & Hit & Hdat). exists p, it. cbn. rewrite Hi1, Hh1, decide_False; [done|].
      intros (x & Hx & Hxb)%list_elem_of_fmap. by eapply Hdist.
    + apply length_built in B. cbn. lia.
  - destruct Q3 as [Q1 Q2 Q4 Q5 Q6 Q7 Q8 Q9 Q10]. cbn in *. split; try congruence.
    + by apply Q7.
    + rewrite Forall_forall. intros b Hb. destruct (_index (_fork_db c') !! (block_id b).1) eqn:Ei; [|done].
      apply Q10 in Ei. rewrite Hi1, decide_True in Ei; [done|].
      by apply (list_elem_of_fmap_2 (λ b, (block_id b).1)).
    + intros i p Hp. apply Q10 in Hp. rewrite Hi1 in Hp. by case_decide.
    + by eexists.
Qed.

Lemma attempt_Ok {A B} (m : P chain_database A) (k : option exn → P chain_database B) c a c1 :
  m c = (Ok a, c1) → (attempt m ≫= k) c = k None c1.
Proof. intros E. unfold mbind, P_bind, attempt. by rewrite E. Qed.
Lemma attempt_Err {A B} (m : P chain_database A) (k : option exn → P chain_database B) c e c1 :
  m c = (Err e, c1) → caught e = true → (attempt m ≫= k) c = k (Some e) c1.
Proof. intros E He. unfold mbind, P_bind, attempt. by rewrite E, He. Qed.

Lemma went_back_quiet gone popped c c1 c' :
  quiet c c1 → went_back gone popped c1 c' → went_back gone popped c c'.
Proof.
  intros [] []. split; try congruence; auto.
Qed.

Lemma push_branch_spec : ∀ l bs done_ c hd ithd,
  on_branch skip base below f done_ c → (length done_ ≤ a_max (objects c))%nat →
  Forall (above f) (done_ ++ bs) → 0 ≤ f → num_from_id target = f →
  NoDup ((λ b, (block_id b).1) <$> (reverse done_ ++ bs)) →
  Forall2 (has_data (_fork_db c)) l bs → Forall (indexed (_fork_db c)) bs →
  _head (_fork_db c) = Some hd → heap (_fork_db c) !! hd = Some ithd →
  within_limits (_checkpoints c) skip f (num ithd) bs (cur c) →
  heap (_fork_db c) !! old_head = Some old_head_item →
  Forall (λ b, id old_head_item ≠ (block_id b).1) (done_ ++ bs) →
  Forall2 (has_data (_fork_db c)) old_items old → apply_all (_checkpoints c) skip old base = Ok o_old →
  match apply_all (_checkpoints c) skip bs (cur c) with
  | Ok o' => ∃ c', push_branch skip target old_items old_head l c = (Ok tt, c') ∧ quiet c c' ∧ cur c' = o' ∧
      on_branch skip base below f (reverse bs ++ done_) c' ∧
      _block_id_to_block c' = store_all bs (_block_id_to_block c)
  | Err e => caught e = true → ∃ c' good bad rest o1, bs = good ++ bad :: rest ∧
      apply_all (_checkpoints c) skip good (cur c) = Ok o1 ∧ apply_to (_checkpoints c) skip bad o1 = Err e ∧
      push_branch skip target old_items old_head l c = (Err e, c') ∧
      went_back (bad :: rest) (reverse done_ ++ good) c c'
  end.
Proof.
  induction l as [|p l IH]; intros bs done_ c hd ithd Ob Hmax Hab Hf Ht Hnd Hl Hix Hhd Hithd Hlim Hoh Hne Hold Hao.
  { apply Forall2_nil_inv_l in Hl as ->. cbn. exists c. by split_and!. }
  apply Forall2_cons_inv_l in Hl as (b & bs' & Hb & Hl & ->). pose proof Hb as (it & Hit & Hdat).
  apply Forall_app in Hab as [Hab1 Hab2]. apply Forall_cons in Hab2 as [Habb Hab2].
  apply Forall_app in Hne as [Hne1 Hne2]. apply Forall_cons in Hix as [Hixb Hix].
  assert (push_branch skip target old_items old_head (p :: l) c =
    (except ← attempt (push_to_state skip b);
     match except with
     | None => push_branch skip target old_items old_head l
     | Some e => remove_items (p :: l);; on_fork_db (λ f, Ok (set_head (Some old_head) f));; pop_to target;;
         restore_branch skip old_items;; raise e
     end) c) as Ep.
  { cbn [push_branch]. unfold mbind at 1, P_bind, fork_item_at, run, item. rewrite Hit. cbn [from_option_r].
    by rewrite Hdat. }
  rewrite Ep. clear Ep. cbn [apply_all].
  assert (within_limits (_checkpoints c) skip f (num ithd) [b] (cur c)) as Hlim1.
  { cbn in Hlim |- *. destruct Hlim as (? & ? & _). split_and!; try lia. by destruct (apply_to _ _ _ _). }
  destruct (apply_to (_checkpoints c) skip b (cur c)) as [o1|e] eqn:E; cbn [mbind result_bind].
  - destruct (on_branch_step skip base below f done_ c b o1 hd ithd) as (c1 & P1 & Q1 & C1 & Ob1 & Hmax1 & B1 & K1);
      try done.
    cbn in Hlim. destruct Hlim as (Hl1 & Hl2 & Hlim). rewrite E in Hlim.
    specialize (IH bs' (b :: done_) c1 hd ithd).
    rewrite (q_checkpoints _ _ Q1), (q_heap _ _ Q1), (q_head _ _ Q1), C1 in IH.
    assert (Forall (indexed (_fork_db c1)) bs') as Hix1.
    { destruct (limit_value b (cur c) f (num ithd) Hl1 Hl2 ltac:(by destruct Habb)) as [Hk _].
      eapply (indexed_kept _ (_fork_db c) _ _ f hd ithd);
        [apply Ob|done|done|apply (q_heap _ _ Q1)|exact K1|lia|lia| | |done];
        (eapply Forall_impl; [exact Hab2|]); by intros x [? []]. }
    assert (∀ p b, has_data (_fork_db c1) p b ↔ has_data (_fork_db c) p b) as Hhas
      by (intros; unfold has_data; by rewrite (q_heap _ _ Q1)).
    ospecialize (IH Ob1 Hmax1 _ Hf Ht _ _ Hix1 Hhd Hithd Hlim Hoh _ _ Hao).
    { apply Forall_app. split; [by constructor|done]. }
    { by rewrite reverse_cons, <- app_assoc. }
    { eapply Forall2_impl; [exact Hl|]. intros. by apply Hhas. }
    { apply Forall_app. apply Forall_cons in Hne2 as [? ?]. split; [by constructor|done]. }
    { eapply Forall2_impl; [exact Hold|]. intros. by apply Hhas. }
    rewrite (attempt_Ok _ _ _ _ _ P1).
    destruct (apply_all (_checkpoints c) skip bs' o1) as [o'|e] eqn:Ea.
    + destruct IH as (c' & P' & Q' & C' & Ob' & B'). exists c'. split_and!; [done|by etransitivity|done| |].
      * rewrite reverse_cons, <- app_assoc. exact Ob'.
      * by rewrite B', B1.
    + intros He. destruct (IH He) as (c' & good & bad & rest & o2 & -> & G & Bad & P' & Wb).
      exists c', (b :: good), bad, rest, o2. split; [done|].
      split; [cbn; by rewrite E|]. split; [exact Bad|]. split; [exact P'|].
      { eapply went_back_quiet; [exact Q1|]. by rewrite reverse_cons, <- app_assoc in Wb. }
  - intros He. destruct (on_branch_fails skip base below f done_ c b e hd ithd) as (c1 & P1 & Q1 & C1 & Ob1 & B1); try done.
    assert (∀ p b, has_data (_fork_db c1) p b ↔ has_data (_fork_db c) p b) as Hhas
      by (intros; unfold has_data; by rewrite (q_heap _ _ Q1)).
    destruct (back_spec done_ (p :: l) (b :: bs') c1 e) as (c' & P' & Wb); try done.
    + constructor; [by apply Hhas|]. eapply Forall2_impl; [exact Hl|]. intros. by apply Hhas.
    + constructor; [apply Habb|]. eapply Forall_impl; [exact Hab2|]. by intros x [].
    + intros x y Hx Hy Hxy. rewrite fmap_app in Hnd. apply NoDup_app in Hnd as (_ & Hnd & _).
      apply (Hnd (block_id x).1).
      * apply (list_elem_of_fmap_2 (λ b, (block_id b).1)). by rewrite elem_of_reverse.
      * rewrite Hxy. by apply (list_elem_of_fmap_2 (λ b, (block_id b).1)).
    + by rewrite (q_heap _ _ Q1).
    + eapply Forall2_impl; [exact Hold|]. intros. by apply Hhas.
    + by rewrite (q_checkpoints _ _ Q1).
    + exists c', [], b, bs', (cur c). split_and!; [done|done|done| |].
      * by rewrite (attempt_Err _ _ _ _ _ P1 He).
      * rewrite app_nil_r. by eapply went_back_quiet.
Qed.
End back.
End switching.

(** ** The fork switch *)
Section switch.
Context {St : Type} `{CS : ChainState St}.
Implicit Types (c : chain_database (St:=St)) (b : signed_block) (o : St).
#[local] Existing Instance quiet_preorder.

(** The pushed block is the head of a longer branch: the fork database has the
    branches [new] and [old] (newest first) from their common parent; the state was
    built from [old] on [base], with enough history to get back there; blocks differ,
    and while [new] is applied neither history is cut above the fork point. *)
Record fork_switch (skip : Z) b c (f1 : fork_database) (h : positive) (new_head : fork_item)
    (first second : list positive) (new old : list signed_block) (base : St) : Prop := {
  fs_wf : wf (_fork_db c);
  fs_coherent : id_coherent b;
  fs_active : a_active (objects c) = 0;
  fs_session : _pending_tx_session c = false;
  fs_push : ForkDb.push_block b (_fork_db c) = Ok (Some h, f1);
  fs_head : heap f1 !! h = Some new_head;
  fs_forked : previous (data new_head) ≠ head_block_id (cur c);
  fs_longer : head_block_num (cur c) < block_num (data new_head);
  fs_fetch : fetch_branch_from (block_id (data new_head)).1 (head_block_id (cur c)) f1 = Ok (first, second);
  fs_first : Forall2 (has_data f1) first new;
  fs_second : Forall2 (has_data f1) second old;
  fs_new_head : head new = Some (data new_head);
  fs_old : old ≠ [];
  fs_built : built (_checkpoints c) skip old (cur c) (a_snaps (objects c));
  fs_base : (cur c :: a_snaps (objects c)) !! length old = Some base;
  fs_above : Forall (above (num_from_id (head_block_id base))) (old ++ new);
  fs_fork_num : 0 ≤ num_from_id (head_block_id base) < uint32_max;
  fs_distinct : NoDup ((λ b, (block_id b).1) <$> (old ++ new));
  fs_indexed : Forall (indexed f1) (old ++ new);
  fs_limits : within_limits (_checkpoints c) skip (num_from_id (head_block_id base)) (num new_head)
                (reverse new) base
}.

Lemma built_last cps skip bs : ∀ o snaps o1 b,
  built cps skip bs o snaps → (o :: snaps) !! length bs = Some o1 → last bs = Some b → previous b = head_block_id o1.
Proof.
  induction bs as [|x bs IH]; intros o snaps o1 b Hb Ho1 Hl; [done|]. cbn [built] in Hb.
  destruct snaps as [|o' snaps]; [done|]. destruct Hb as [Ha Hb]. destruct bs as [|y bs].
  - cbn in Hl, Ho1. injection Hl as <-. injection Ho1 as <-. by apply apply_to_head in Ha as [? _].
  - eapply IH; [done|exact Ho1|exact Hl].
Qed.

Lemma has_data_id f p it b : wf f → heap f !! p = Some it → data it = b → id_coherent b → id it = (block_id b).1.
Proof.
  intros W Hit <- Hc. destruct (wf_items _ W _ _ Hit) as (_ & _ & -> & _). symmetry. by apply block_id_coherent.
Qed.

Lemma P_bind_eq {S A B} (m : P S A) (k : A → P S B) s :
  (m ≫= k) s = match m s with (Ok a, s') => k a s' | (Err e, s') => (Err e, s') end.
Proof. reflexivity. Qed.
Lemma P_bind_on_fork_db {B} f (k : unit → P chain_database B) c :
  (on_fork_db f ≫= k) c = match f (_fork_db c) with Ok x => k tt (set_fork_db x c) | Err e => (Err e, c) end.
Proof. unfold on_fork_db, mbind at 1, P_bind, update. by destruct (f (_fork_db c)). Qed.
Lemma P_bind_on_objects {B} f (k : unit → P chain_database B) c :
  (on_objects f ≫= k) c = match f (objects c) with Ok x => k tt (set_objects x c) | Err e => (Err e, c) end.
Proof. unfold on_objects, mbind at 1, P_bind, update. by destruct (f (objects c)). Qed.

(** C6: Switching forks is atomic.  When the head of a longer branch is pushed, the
    blocks of the old branch are popped and those of the new one applied: if all
    apply, the state is the one built from the new branch, its blocks are in the
    block files and the transactions of the old blocks are kept for the pending list;
    if one fails, it and the later ones are forgotten, and the state, its history and
    the head of the fork database are those of the old branch again. *)
Theorem fork_switch_atomic skip b c f1 h new_head first second new old base :
  fork_switch skip b c f1 h new_head first second new old base →
  match apply_all (_checkpoints c) skip (reverse new) base with
  | Ok o' => ∃ c', _push_block skip b c = (Ok true, c') ∧ cur c' = o' ∧
      built (_checkpoints c) skip new o' (a_snaps (objects c')) ∧ a_active (objects c') = 0 ∧
      wf (_fork_db c') ∧ _head (_fork_db c') = Some h ∧
      _popped_tx c' = concat (transactions <$> reverse old) ++ _popped_tx c ∧ _pending_tx c' = _pending_tx c ∧
      _block_id_to_block c' = store_all (reverse new) (_block_id_to_block c)
  | Err e => caught e = true → ∃ c' good bad rest o1,
      reverse new = good ++ bad :: rest ∧ apply_all (_checkpoints c) skip good base = Ok o1 ∧
      apply_to (_checkpoints c) skip bad o1 = Err e ∧
      _push_block skip b c = (Err e, c') ∧ cur c' = cur c ∧ a_snaps (objects c') `prefix_of` a_snaps (objects c) ∧
      a_active (objects c') = 0 ∧ wf (_fork_db c') ∧ _head (_fork_db c') = head second ∧
      Forall (λ b, _index (_fork_db c') !! (block_id b).1 = None) (bad :: rest) ∧
      _popped_tx c' = concat (transactions <$> good) ++ concat (transactions <$> reverse old) ++ _popped_tx c ∧
      _pending_tx c' = _pending_tx c
  end.
Proof.
  intros []. set (f := num_from_id (head_block_id base)) in *.
  assert (wf f1) as W1 by by eapply wf_push_block.
  assert (_head f1 = Some h) as Hh1.
  { unfold ForkDb.push_block in fs_push0. destruct (alloc _ _) as [p d]. apply result_bind_Ok in fs_push0 as (d' & _ & E). by simplify_eq. }
  destruct old as [|b0 old'] eqn:Eold; [done|]. rewrite <- Eold in *. clear fs_old0.
  assert (∃ p0 second', second = p0 :: second' ∧ has_data f1 p0 b0) as (p0 & second' & Esec & Hp0).
  { rewrite Eold in fs_second0. apply Forall2_cons_inv_r in fs_second0 as (p0 & l' & ? & ? & ->). eauto. }
  destruct (last old) as [bl|] eqn:El; [|by rewrite Eold in El; apply last_None in El].
  assert (∃ pl, last second = Some pl ∧ has_data f1 pl bl) as (pl & Hpl & itl & Hitl & Hdl).
  { rewrite last_lookup in El. rewrite last_lookup, (Forall2_length _ _ _ fs_second0).
    destruct (Forall2_lookup_r _ _ _ _ _ fs_second0 El) as (pl & ? & ?). eauto. }
  pose proof (built_last _ _ _ _ _ _ _ fs_built0 fs_base0 El) as Htarget.
  set (X := list_to_set (first ++ second) : gset positive).
  set (fh := ForkDatabase (heap f1) (next_ptr f1) (_index f1) (_head f1) (_max_size f1) X).
  assert (wf fh) as Wh by (eapply wf_sub; [exact W1|done..|apply W1]).
  set (c2 := set_popped (concat (transactions <$> reverse old) ++ _popped_tx c)
    (set_objects (Abs base (drop (length old) (a_snaps (objects c))) 0 (a_max (objects c))) (set_fork_db fh c))).
  set (run_ := push_branch skip (head_block_id base) (reverse second) p0 (reverse first) c2).
  set (unhold := λ c' : chain_database (St:=St), set_fork_db (ForkDatabase (heap (_fork_db c')) (next_ptr (_fork_db c'))
    (_index (_fork_db c')) (_head (_fork_db c')) (_max_size (_fork_db c')) (held f1)) c').
  assert (pop_to (head_block_id base) (set_fork_db fh c) = (Ok tt, c2)) as Epop.
  { unfold pop_to. rewrite (pop_until_spec (head_block_id base) old _ (set_fork_db fh c) (a_max (objects c)) base h
      new_head (_checkpoints c) skip); try done.
    - cbn. unfold cur. cbn. rewrite <- fs_active0. by destruct (objects c).
    - apply Forall_app in fs_above0 as [Ha Hn]. apply Forall_app in fs_indexed0 as [Hi _].
      rewrite Forall_forall in *. intros x Hx. split_and!; [|by eapply above_target; [|apply Ha]|exact (Hi x Hx)].
      rewrite fmap_app in fs_distinct0. apply NoDup_app in fs_distinct0 as (_ & Hnd & _).
      intros Hid. apply (Hnd (block_id x).1); [by apply (list_elem_of_fmap_2 (λ b, (block_id b).1))|].
      rewrite <- Hid. destruct new as [|n0 new']; [done|]. injection fs_new_head0 as ->.
      rewrite (has_data_id f1 h new_head (data new_head)); try done; [by left|]. apply Hn. by left.
    - apply length_built in fs_built0. cbn. lia. }
  assert (_push_block skip b c = (match run_.1 with Ok _ => Ok true | Err e => Err e end, unhold run_.2)) as Erun.
  { unfold _push_block. rewrite P_bind_on_fork_db, fs_push0. cbn [mbind result_bind snd].
    rewrite P_bind_run. cbn [_fork_db set_fork_db]. rewrite Hh1. cbn [from_option_r]. unfold fork_item_at at 1.
    rewrite P_bind_run. cbn [_fork_db set_fork_db]. unfold item at 1. rewrite fs_head0. cbn [from_option_r].
    rewrite P_bind_run. change (cur (set_fork_db f1 c)) with (cur c). rewrite (bool_decide_eq_true_2 _ fs_forked0).
    assert ((block_num (data new_head) >? head_block_num (cur c)) = true) as -> by lia.
    rewrite P_bind_eq. unfold switch_forks. rewrite P_bind_run. change (cur (set_fork_db f1 c)) with (cur c).
    change (_fork_db (set_fork_db f1 c)) with f1. rewrite fs_fetch0. rewrite !P_bind_run, Hpl. cbn [from_option_r].
    rewrite P_bind_run, Esec. cbn [head from_option_r]. rewrite <- Esec. fold X. unfold holding, hold.
    rewrite P_bind_on_fork_db. cbn [_fork_db set_fork_db]. fold fh. unfold fork_item_at at 1. rewrite P_bind_run.
    change (_fork_db (set_fork_db fh (set_fork_db f1 c))) with fh.
    change (set_fork_db fh (set_fork_db f1 c)) with (set_fork_db fh c). unfold item at 1. change (heap fh) with (heap f1).
    rewrite Hitl. cbn [from_option_r]. rewrite Hdl, Htarget, P_bind_eq, Epop. fold run_.
    change (held (_fork_db (set_fork_db f1 c))) with (held f1).
    destruct run_ as [[[]|e] c']; done. }
  rewrite Erun. clear Erun.
  apply Forall_app in fs_above0 as [Ha1 Ha2]. apply Forall_app in fs_indexed0 as [Hi1 Hi2].
  rewrite fmap_app in fs_distinct0. apply NoDup_app in fs_distinct0 as (Hnd1 & Hnd2 & Hnd3).
  destruct Hp0 as (it0 & Hit0 & Hd0).
  pose proof (push_branch_spec skip f base (drop (length old) (a_snaps (objects c))) (reverse old) (cur c) (reverse second) p0 it0
    (reverse first) (reverse new) [] c2 h new_head) as Hrun.
  destruct (built_apply _ _ _ _ _ _ fs_built0 fs_base0) as [Hback Hhist].
  ospecialize (Hrun _ _ _ _ eq_refl _ _ _ Hh1 fs_head0 fs_limits0 Hit0 _ _ Hback).
  { split; try done; first [reflexivity|by constructor|cbn; unfold f; lia]. }
  { cbn. lia. }
  { by apply Forall_reverse. }
  { by apply fs_fork_num0. }
  { cbn. rewrite fmap_reverse. by rewrite reverse_Permutation. }
  { by apply Forall2_reverse. }
  { by apply Forall_reverse. }
  { apply Forall_reverse. rewrite Forall_forall. intros x Hx Hid. apply (Hnd2 (block_id b0).1).
    - apply (list_elem_of_fmap_2 (λ b, (block_id b).1)). rewrite Eold. by left.
    - rewrite Eold in Ha1. apply Forall_cons in Ha1 as [[? _] _]. rewrite <- (has_data_id _ _ _ _ W1 Hit0 Hd0), Hid by done.
      by apply (list_elem_of_fmap_2 (λ b, (block_id b).1)). }
  { by apply Forall2_reverse. }
  fold run_ in Hrun. change (_checkpoints c2) with (_checkpoints c) in Hrun. change (cur c2) with base in Hrun.
  destruct (apply_all (_checkpoints c) skip (reverse new) base) as [o'|e].
  - destruct Hrun as (c' & -> & Q & C' & Ob & B'). rewrite reverse_involutive, app_nil_r in Ob.
    exists (unhold c'). split_and!; [done|done| | | | | | |].
    + pose proof (ob_built _ _ _ _ _ _ Ob) as Hb. rewrite C', (q_checkpoints _ _ Q) in Hb. exact Hb.
    + exact (ob_active _ _ _ _ _ _ Ob).
    + pose proof (ob_wf _ _ _ _ _ _ Ob). by eapply wf_sub; [done|done..|apply H0].
    + exact (eq_trans (q_head _ _ Q) Hh1).
    + exact (q_popped _ _ Q).
    + exact (q_pending _ _ Q).
    + exact B'.
  - intros He. destruct (Hrun He) as (c' & good & bad & rest & o1 & Hnew & G & Bad & -> & Wb). destruct Wb.
    exists (unhold c'), good, bad, rest, o1. split_and!; try done.
    + change (_checkpoints c2) with (_checkpoints c) in wb_snaps0. by rewrite Hhist in wb_snaps0.
    + eapply wf_sub; [exact wb_wf0|done..|apply wb_wf0].
    + by rewrite Esec.
Qed.
End switch.

(** ** A block on top of the head *)
Section extending.
Context {St : Type} `{CS : ChainState St}.
Implicit Types (c : chain_database (St:=St)) (b : signed_block) (o : St).

(** A block on the head is applied or forgotten.  When the head of the fork
    database builds on the state, the block is applied in a session that becomes a
    part of the undo history; if that fails, the state is what it was and the fork
    database no longer knows the block. *)
Theorem push_block_extends skip b c f1 h new_head :
  wf (_fork_db c) → id_coherent b → a_active (objects c) = 0 →
  ForkDb.push_block b (_fork_db c) = Ok (Some h, f1) → heap f1 !! h = Some new_head →
  previous (data new_head) = head_block_id (cur c) →
  let snaps := take (a_max (objects c)) (a_snaps (objects c)) in
  match apply_to (_checkpoints c) skip b (cur c) with
  | Ok o' => ∃ c', _push_block skip b c = (Ok false, c') ∧ previous b = head_block_id (cur c) ∧
      cur c' = o' ∧ head_block_id o' = (block_id b).1 ∧ a_snaps (objects c') = cur c :: snaps ∧
      a_active (objects c') = 0 ∧ wf (_fork_db c') ∧ _head (_fork_db c') = Some h ∧
      _block_id_to_block c' = store (block_id b).1 b (_block_id_to_block c) ∧
      _pending_tx c' = _pending_tx c ∧ _popped_tx c' = _popped_tx c
  | Err e => caught e = true → ∃ c', _push_block skip b c = (Err e, c') ∧ cur c' = cur c ∧
      a_snaps (objects c') = snaps ∧ a_active (objects c') = 0 ∧ wf (_fork_db c') ∧
      _index (_fork_db c') !! (block_id b).1 = None ∧ _block_id_to_block c' = _block_id_to_block c ∧
      _pending_tx c' = _pending_tx c ∧ _popped_tx c' = _popped_tx c
  end.
Proof.
  intros W Hc Ha Hp Hh Hprev snaps. assert (wf f1) as W1 by by eapply wf_push_block.
  assert (_head f1 = Some h) as Hh1.
  { unfold ForkDb.push_block in Hp. destruct (alloc _ _) as [p d]. apply result_bind_Ok in Hp as (d' & _ & E). by simplify_eq. }
  assert (_push_block skip b c = (except ← attempt (push_to_state skip b);
    match except with
    | None => mret false
    | Some e => on_fork_db (remove (block_id b).1);; raise e
    end) (set_fork_db f1 c)) as Er.
  { unfold _push_block. rewrite P_bind_on_fork_db, Hp. cbn [mbind result_bind snd].
    rewrite P_bind_run. cbn [_fork_db set_fork_db]. rewrite Hh1. cbn [from_option_r]. unfold fork_item_at.
    rewrite P_bind_run. cbn [_fork_db set_fork_db]. unfold item. rewrite Hh. cbn [from_option_r].
    rewrite P_bind_run. change (cur (set_fork_db f1 c)) with (cur c). by rewrite bool_decide_eq_false_2 by congruence. }
  rewrite Er. clear Er. destruct (apply_to (_checkpoints c) skip b (cur c)) as [o'|e] eqn:E.
  - destruct (push_Ok skip b (set_fork_db f1 c) o' W1 Ha E) as (c' & P1 & Q & C' & S' & _ & B' & _).
    rewrite (attempt_Ok _ _ _ _ _ P1). apply apply_to_head in E as (Hpb & Hid & _). exists c'. destruct Q. cbn in *.
    split_and!; try done; [congruence..| |congruence]. auto.
  - intros He. destruct (push_Err skip b (set_fork_db f1 c) e W1 Ha E) as (c' & P1 & Q & C' & S' & B' & _).
    rewrite (attempt_Err _ _ _ _ _ P1 He), P_bind_on_fork_db. destruct Q. cbn in *.
    destruct (remove_frame (block_id b).1 (_fork_db c')) as (f2 & -> & W2 & Hh2 & Hi2); [by auto|].
    eexists. split; [done|]. split_and!; try done; try congruence.
    + cbn. congruence.
    + cbn. rewrite Hi2. apply lookup_delete_eq.
Qed.

End extending.

(** ** Examples *)
Definition pushed (b : signed_block) : fork_database :=
  match ForkDb.push_block b (_fork_db ex_main) with Ok (_, f) => f | Err _ => empty_fork_db end.

Lemma ex_main_wf : wf (_fork_db ex_main).
Proof.
  apply (wf_steps empty_fork_db); [|apply wf_empty].
  eapply rtc_l; [eapply (step_push _ m1); [by left|vm_compute; reflexivity]|].
  eapply rtc_l; [eapply (step_max _ 2); vm_compute; reflexivity|].
  eapply rtc_l; [eapply (step_push _ m2); [by left|vm_compute; reflexivity]|].
  eapply rtc_l; [eapply (step_max _ 3); vm_compute; reflexivity|].
  eapply rtc_l; [eapply (step_push _ n2); [by left|vm_compute; reflexivity]|].
  match goal with |- rtc _ ?x ?y => assert (x = y) as -> by (vm_compute; reflexivity) end. constructor.
Qed.

Ltac compute_data := eexists; split; [vm_compute; reflexivity|reflexivity].
Ltac compute_index := do 2 eexists; split; [vm_compute; reflexivity|split; [vm_compute; reflexivity|reflexivity]].

Lemma ex_switch b : b = n3 ∨ b = n3' →
  fork_switch 0 b ex_main (pushed b) 4%positive (ForkItem (Some 3%positive) 3 (fb_id b) b)
    [4; 3]%positive [2]%positive [b; n2] [m2] (LogState (fb_id m1) 1 [11]).
Proof.
  intros Hb. assert (∀ P : signed_block → Prop, P n3 → P n3' → P b) as Hcase by (by destruct Hb as [-> | ->]).
  split.
  - exact ex_main_wf.
  - by apply Hcase; left.
  - vm_compute. reflexivity.
  - vm_compute. reflexivity.
  - apply Hcase; vm_compute; reflexivity.
  - apply Hcase; vm_compute; reflexivity.
  - apply Hcase; vm_compute; done.
  - apply Hcase; vm_compute; reflexivity.
  - apply Hcase; vm_compute; reflexivity.
  - apply Hcase; (constructor; [compute_data|constructor; [compute_data|constructor]]).
  - apply Hcase; (constructor; [compute_data|constructor]).
  - reflexivity.
  - done.
  - assert (a_snaps (objects ex_main) = [LogState (fb_id m1) 1 [11]; LogState null_id 0 []]) as ->
      by (vm_compute; reflexivity).
    split; [vm_compute; reflexivity|exact I].
  - vm_compute. reflexivity.
  - apply Hcase; repeat constructor; vm_compute; done.
  - vm_compute. done.
  - apply Hcase; vm_compute; repeat (constructor; [set_solver|]); constructor.
  - apply Hcase; repeat (constructor; [compute_index|]); constructor.
  - apply Hcase; vm_compute; done.
Qed.

(** Both outcomes: the longer branch replaces [m2], whose transaction is kept; with a
    transaction of [m1] in its last block it is given up and [m2] is the head again. *)
Lemma fork_switch_atomic_witness :
  (∃ c', _push_block 0 n3 ex_main = (Ok true, c') ∧ log_trx (cur c') = [11; 13; 14; 12] ∧ _popped_tx c' = [12]) ∧
  (∃ c', _push_block 0 n3' ex_main = (Err assert_exception, c') ∧ cur c' = cur ex_main ∧
     log_trx (cur c') = [11; 12] ∧ _head (_fork_db c') = Some 2%positive).
Proof.
  split.
  - pose proof (fork_switch_atomic 0 n3 ex_main _ _ _ _ _ _ _ _ (ex_switch n3 (or_introl eq_refl))) as H.
    destruct (apply_all _ _ _ _) as [o'|e] eqn:E; [|by vm_compute in E].
    destruct H as (c' & H1 & H2 & _ & _ & _ & _ & H3 & _). exists c'. split; [exact H1|]. rewrite H2, H3.
    vm_compute in E. injection E as <-. split; vm_compute; reflexivity.
  - pose proof (fork_switch_atomic 0 n3' ex_main _ _ _ _ _ _ _ _ (ex_switch n3' (or_intror eq_refl))) as H.
    destruct (apply_all _ _ _ _) as [o'|e] eqn:E; [by vm_compute in E|].
    assert (e = assert_exception) as -> by (vm_compute in E; by injection E).
    destruct (H eq_refl) as (c' & good & bad & rest & o1 & _ & _ & _ & H1 & H2 & _ & _ & _ & H3 & _).
    exists c'. split; [exact H1|]. split; [exact H2|]. rewrite H2, H3. split; vm_compute; reflexivity.
Defined.

Lemma push_block_extends_witness :
  let m3 := tb (fb_id m2) 3 [15] in
  ∃ c', _push_block 0 m3 ex_main = (Ok false, c') ∧ log_trx (cur c') = [11; 12; 15] ∧
    _push_block 0 (tb (fb_id m2) 3 [12]) ex_main ≠ (Ok false, c').
Proof.
  intros m3. destruct (ForkDb.push_block m3 (_fork_db ex_main)) as [[h f1]|e] eqn:Ep; [|by vm_compute in Ep].
  destruct h as [h|]; [|by vm_compute in Ep].
  destruct (heap f1 !! h) as [nh|] eqn:Eh; [|vm_compute in Ep; injection Ep as <- <-; by vm_compute in Eh].
  pose proof (push_block_extends 0 m3 ex_main f1 h nh ex_main_wf (or_introl eq_refl) eq_refl Ep Eh) as H.
  ospecialize (H _). { vm_compute in Ep. injection Ep as <- <-. vm_compute in Eh. injection Eh as <-. by vm_compute. }
  destruct (apply_to _ _ _ _) as [o'|e] eqn:E; [|by vm_compute in E]. destruct H as (c' & H1 & _ & H2 & _).
  exists c'. split; [exact H1|]. rewrite H2. vm_compute in E. injection E as <-. split; [reflexivity|].
  intros H3. assert ((_push_block 0 (tb (fb_id m2) 3 [12]) ex_main).1 = Err assert_exception) as H4
    by (vm_compute; reflexivity). rewrite H3 in H4. done.
Defined.

(** *** Outside the limits

    A branch of four blocks from the genesis state: applying its first block cuts the
    fork database, whose head is already the fourth, to the blocks from number 2 on.
    When the fourth block fails, the first cannot be popped any more: the switch ends
    in the middle of the bad branch. *)
Definition g1 : signed_block := tb null_id 1 [31].
Definition g2 : signed_block := tb (fb_id g1) 2 [32].
Definition g3 : signed_block := tb (fb_id g2) 3 [33].
Definition h1 : signed_block := tb null_id 11 [41].
Definition h2 : signed_block := tb (fb_id h1) 12 [42].
Definition h3 : signed_block := tb (fb_id h2) 13 [43].
Definition h4 : signed_block := tb (fb_id h3) 14 [41].
Definition ex_long : chain_database := push_blocks [g1; g2; g3; h1; h2; h3] ex_genesis.

Example long_switch_is_stuck :
  log_trx (cur ex_long) = [31; 32; 33] ∧
  (_push_block 0 h4 ex_long).1 = Err assert_exception ∧
  log_trx (cur (_push_block 0 h4 ex_long).2) = [41] ∧
  (ForkDb.item (_fork_db (_push_block 0 h4 ex_long).2) 3 ≫= λ it, Ok (data it)) = Ok g3 ∧
  _head (_fork_db (_push_block 0 h4 ex_long).2) = Some 3%positive.
Proof. vm_compute. done. Qed.
