(* ===== verification/Pending.v ===== *)
(** * Pending transactions

    The pending session of Chain.v: what it holds, that pushing transactions keeps it
    on the state of the head block, and that pushing a block rebuilds it. *)

From S2P Require Import Prelude UndoDb Block ForkDb BlockStore Chain ForkSwitch.

(** ** Pending transactions *)
Section pending.
Context {St : Type} `{CS : ChainState St}.
Implicit Types (c : chain_database (St:=St)) (b : signed_block) (o : St).

(** *** Sessions are closed again, whatever happens *)
Definition preserves (I : chain_database (St:=St) → Prop) {A} (m : P chain_database A) : Prop :=
  ∀ c, I c → I (m c).2.

(** No pending transactions, and [n] open sessions. *)
Definition quiescent (n : Z) c : Prop :=
  _pending_tx_session c = false ∧ _pending_tx c = [] ∧ a_active (objects c) = n ∧
  (0 < n → a_snaps (objects c) ≠ []).

Lemma preserves_bind I {A B} (m : P chain_database A) (k : A → P chain_database B) :
  preserves I m → (∀ a, preserves I (k a)) → preserves I (m ≫= k).
Proof.
  intros Hm Hk c Hc. rewrite P_bind_eq. specialize (Hm c Hc). destruct (m c) as [[a|e] c1]; cbn in *; [by apply Hk|done].
Qed.
Lemma preserves_ret I {A} (a : A) : preserves I (mret a).
Proof. by intros c. Qed.
Lemma preserves_run I {A} (f : chain_database → result A) : preserves I (run f).
Proof. by intros c. Qed.
Lemma preserves_raise I {A} e : preserves I (raise (A:=A) e).
Proof. by intros c. Qed.
Lemma preserves_update I f : (∀ c c', I c → f c = Ok c' → I c') → preserves I (update f).
Proof. intros Hf c Hc. unfold update. destruct (f c) eqn:E; cbn; eauto. Qed.
Lemma preserves_attempt I {A} (m : P chain_database A) : preserves I m → preserves I (attempt m).
Proof.
  intros Hm c Hc. specialize (Hm c Hc). unfold attempt. destruct (m c) as [[a|e] c1]; cbn in *; [done|].
  by destruct (caught e).
Qed.
Lemma preserves_fork_db n f : preserves (quiescent n) (on_fork_db f).
Proof. apply preserves_update. intros c c' Hc E. by apply result_bind_Ok in E as (x & _ & [= <-]). Qed.
Lemma preserves_change n f : preserves (quiescent n) (change f).
Proof.
  apply preserves_update. intros c c' (H1 & H2 & H3 & H4) E. apply result_bind_Ok in E as (x & E & [= <-]).
  apply result_bind_Ok in E as (o & _ & [= <-]). split_and!; try done. cbn. by destruct (a_snaps (objects c)).
Qed.
Lemma preserves_undo_limit n k : preserves (quiescent n) (on_objects (λ a, Ok (set_undo_limit k a))).
Proof. by apply preserves_update; intros c c' Hc [= <-]. Qed.

Lemma preserves_in_session body :
  preserves (quiescent 1) body → preserves (quiescent 0) (in_session a_commit body).
Proof.
  intros Hb c (H1 & H2 & H3 & H4). unfold in_session.
  assert (quiescent 1 (body (set_objects (a_start (objects c)) c)).2) as Hq.
  { apply Hb. split_and!; try done. cbn. by rewrite H3. }
  destruct (body _) as [[[]|e] c1]; cbn in Hq; destruct Hq as (J1 & J2 & J3 & J4).
  - unfold on_objects, update, a_commit. rewrite J3. cbn. split_and!; [done..|lia].
  - rewrite P_bind_on_objects. unfold a_undo. rewrite J3. cbn.
    destruct (a_snaps (objects c1)) as [|s snaps]; [exfalso; by apply J4|]. cbn. split_and!; [done..|lia].
Qed.

Lemma preserves_store n b : preserves (quiescent n) (store_block b).
Proof. apply preserves_update. by intros c c' Hc [= <-]. Qed.

Ltac preserve_known := fail.
Ltac preserve :=
  repeat first
    [ done | preserve_known | apply preserves_bind | apply preserves_ret | apply preserves_run | apply preserves_raise
    | apply preserves_attempt | apply preserves_fork_db | apply preserves_change | apply preserves_undo_limit
    | apply preserves_store | apply preserves_in_session | progress intros
    | match goal with |- preserves _ (match ?x with _ => _ end) => destruct x end ].

Lemma preserves_push_to_state skip b : preserves (quiescent 0) (push_to_state skip b).
Proof. unfold push_to_state, apply_block. preserve. Qed.

Lemma preserves_reset n : preserves (quiescent n) reset_pending_session.
Proof. intros c Hc. unfold reset_pending_session. rewrite P_bind_run. by rewrite (proj1 Hc). Qed.
Lemma preserves_pop_commit : preserves (quiescent 0) (on_objects a_pop_commit).
Proof.
  apply preserves_update. intros c c' (H1 & H2 & H3 & H4) E. apply result_bind_Ok in E as (x & E & [= <-]).
  unfold a_pop_commit in E. rewrite H3 in E. cbn in E. destruct (a_snaps (objects c)); [done|]. injection E as <-.
  split_and!; [done..|lia].
Qed.
Lemma preserves_popped n f : preserves (quiescent n) (update (λ c, Ok (set_popped (f c) c))).
Proof. apply preserves_update. by intros c c' Hc [= <-]. Qed.

Ltac preserve_known ::= first
  [ apply preserves_reset | apply preserves_pop_commit | apply preserves_popped | apply preserves_push_to_state ].

Lemma preserves_pop_block : preserves (quiescent 0) pop_block.
Proof. unfold pop_block, fork_item_at, get_head_block_id. preserve. Qed.
Lemma preserves_pop_to t : preserves (quiescent 0) (pop_to t).
Proof.
  intros c. unfold pop_to. generalize (S (length (a_snaps (objects c)))). intros n. revert c.
  induction n as [|n IH]; cbn [pop_until]; unfold get_head_block_id; preserve.
Qed.
Lemma preserves_remove_items l : preserves (quiescent 0) (remove_items l).
Proof. induction l; cbn [remove_items]; unfold fork_item_at; preserve. Qed.
Lemma preserves_restore_branch skip l : preserves (quiescent 0) (restore_branch skip l).
Proof. induction l; cbn [restore_branch]; unfold fork_item_at; preserve. Qed.

Ltac preserve_known ::= first
  [ apply preserves_reset | apply preserves_push_to_state | apply preserves_remove_items | apply preserves_pop_to
  | apply preserves_restore_branch ].

Lemma preserves_push_branch skip t old h l : preserves (quiescent 0) (push_branch skip t old h l).
Proof. induction l as [|p l IH]; cbn [push_branch]; unfold fork_item_at; preserve. Qed.
Lemma preserves_holding X m : preserves (quiescent 0) m → preserves (quiescent 0) (holding X m).
Proof.
  intros Hm c Hc. unfold holding, hold. assert (preserves (quiescent 0) (on_fork_db (λ f, Ok (ForkDatabase (heap f)
    (next_ptr f) (_index f) (_head f) (_max_size f) X));; m)) as Hp by (apply preserves_bind; [apply preserves_fork_db|done]).
  specialize (Hp c Hc). by destruct ((on_fork_db _;; m) c) as [r c1].
Qed.
Lemma preserves__push_block skip b : preserves (quiescent 0) (_push_block skip b).
Proof.
  unfold _push_block, switch_forks, fork_item_at. preserve; apply preserves_holding; unfold fork_item_at; preserve;
    apply preserves_push_branch.
Qed.

(** *** The pending state

    The transactions [l], applied in order, each with the flags of its push. *)
Fixpoint applied (l : list Z) o o' : Prop :=
  match l with
  | [] => o = o'
  | trx :: l => ∃ skip o1, apply_trx skip trx o = Ok o1 ∧ applied l o1 o'
  end.
Lemma applied_snoc l trx skip : ∀ o o1 o', applied l o o1 → apply_trx skip trx o1 = Ok o' → applied (l ++ [trx]) o o'.
Proof.
  induction l as [|x l IH]; intros o o1 o' Ha E; cbn in *; [subst o1; by exists skip, o'|].
  destruct Ha as (sk & o2 & E2 & Ha). exists sk, o2. split; [done|]. by eapply IH.
Qed.

(** The state of the head block, below the pending session if there is one. *)
Definition head_state c : St :=
  if _pending_tx_session c then from_option (λ o, o) (cur c) (head (a_snaps (objects c))) else cur c.

(** Either nothing is pending, or the pending session has the state that the pending
    transactions lead to from the head block. *)
Definition pending_ok c : Prop :=
  (1 ≤ a_max (objects c))%nat ∧
  if _pending_tx_session c then
    a_active (objects c) = 1 ∧ a_snaps (objects c) ≠ [] ∧ applied (_pending_tx c) (head_state c) (cur c)
  else a_active (objects c) = 0 ∧ _pending_tx c = [].

(** What pushing transactions leaves alone. *)
Definition same_chain c c' : Prop :=
  head_state c' = head_state c ∧ _fork_db c' = _fork_db c ∧ _block_id_to_block c' = _block_id_to_block c ∧
  _popped_tx c' = _popped_tx c ∧ _checkpoints c' = _checkpoints c.
#[local] Instance same_chain_preorder : PreOrder same_chain.
Proof. split; [by intros c|]. intros c1 c2 c3 (?&?&?&?&?) (?&?&?&?&?). repeat split; congruence. Qed.

Lemma temp_session_spec skip trx c :
  pending_ok c → _pending_tx_session c = true →
  let r := in_session a_merge (change (apply_trx skip trx);;
             update (λ c, Ok (set_pending (_pending_tx c ++ [trx]) c))) c in
  pending_ok r.2 ∧ same_chain c r.2 ∧ _pending_tx_session r.2 = true ∧
  match apply_trx skip trx (cur c) with
  | Ok o' => r.1 = Ok tt ∧ cur r.2 = o' ∧ _pending_tx r.2 = _pending_tx c ++ [trx]
  | Err e => r.1 = Err e ∧ cur r.2 = cur c ∧ _pending_tx r.2 = _pending_tx c
  end.
Proof.
  destruct c as [[o s n m] f db pt pp ps cps]. unfold pending_ok, head_state, cur. cbn.
  intros (Hm & Hp) ->. destruct Hp as (-> & Hs & Ha). destruct s as [|base s]; [done|]. cbn in Ha.
  destruct m as [|m]; [lia|].
  unfold in_session, change, on_objects, update, mbind, P_bind, result_bind, a_start, raise, a_merge, a_undo.
  cbn -[u32]. change (u32 (1 + 1)) with 2.
  destruct (apply_trx skip trx o) as [o'|e] eqn:E; cbn; (split; [split; [lia|split; [done|]; split; [done|]]|split; [done|]; split; done]).
  - by eapply applied_snoc.
  - done.
Qed.

Lemma push_transaction_spec skip trx c :
  pending_ok c →
  let r := _push_transaction skip trx c in
  pending_ok r.2 ∧ same_chain c r.2 ∧
  match apply_trx skip trx (cur c) with
  | Ok o' => r.1 = Ok tt ∧ cur r.2 = o' ∧ _pending_tx r.2 = _pending_tx c ++ [trx]
  | Err e => r.1 = Err e ∧ cur r.2 = cur c ∧ _pending_tx r.2 = _pending_tx c
  end.
Proof.
  intros Ok_c. unfold _push_transaction. rewrite P_bind_run. destruct (_pending_tx_session c) eqn:Es.
  - rewrite P_bind_eq. cbn [mret P_ret]. unfold mret, P_ret.
    destruct (temp_session_spec skip trx c Ok_c Es) as (H1 & H2 & _ & H4). done.
  - set (c1 := set_session true (set_objects (a_start (objects c)) c)).
    assert (pending_ok c1 ∧ same_chain c c1) as [Ok1 S1].
    { unfold pending_ok, same_chain, head_state in *. rewrite Es in Ok_c |- *. destruct Ok_c as (Hm & Ha & Hp).
      cbn. rewrite Ha, Hp. done. }
    rewrite P_bind_eq, P_bind_on_objects. unfold update.
    change (set_session true (set_objects (a_start (objects c)) c)) with c1.
    destruct (temp_session_spec skip trx c1 Ok1 eq_refl) as (H1 & H2 & _ & H4).
    split; [exact H1|]. split; [by etransitivity|]. exact H4.
Qed.

Lemma push_transaction_ok skip trx c : pending_ok c → pending_ok (push_transaction skip trx c).2.
Proof.
  intros Ok_c. unfold push_transaction. rewrite P_bind_run. destruct (fc_assert _); [|done].
  by apply (push_transaction_spec skip trx c).
Qed.

(** Pending transactions build on the head block.  Pushing a transaction either
    applies it on top of the pending ones and appends it to them, or throws what
    applying it throws and leaves the pending state as it was; the state of the head
    block, the fork database and the block files are never touched. *)
Theorem push_transaction_pending skip trx c r c' :
  pending_ok c → push_transaction skip trx c = (r, c') →
  pending_ok c' ∧ same_chain c c' ∧
  match r with
  | Ok _ => trx_size trx < 1024 * 1024 ∧ apply_trx skip trx (cur c) = Ok (cur c') ∧
      _pending_tx c' = _pending_tx c ++ [trx]
  | Err e => (1024 * 1024 ≤ trx_size trx ∨ apply_trx skip trx (cur c) = Err e) ∧
      cur c' = cur c ∧ _pending_tx c' = _pending_tx c
  end.
Proof.
  intros Ok_c E. unfold push_transaction in E. rewrite P_bind_run in E.
  destruct (trx_size trx <? 1024 * 1024) eqn:Et; cbn in E; bool_to_prop.
  2: { injection E as <- <-. split; [done|]. split; [reflexivity|]. split_and!; auto. }
  destruct (push_transaction_spec skip trx c Ok_c) as (H1 & H2 & H4). rewrite E in H1, H2, H4. cbn in H1, H2, H4.
  split; [done|]. split; [done|]. destruct (apply_trx skip trx (cur c)); destruct H4 as (-> & <- & ->); auto.
Qed.

(** *** Pending transactions around a block *)

(** What becomes of a list of transactions on a state: those it knows already and those
    that no longer apply are dropped, each of the others is applied to what the ones
    before it left. *)
Fixpoint still_apply (skip : Z) (l : list Z) (o : St) : list Z * St :=
  match l with
  | [] => ([], o)
  | trx :: l =>
      if trx_known trx o then still_apply skip l o
      else match apply_trx skip trx o with
           | Ok o' => let '(kept, o'') := still_apply skip l o' in (trx :: kept, o'')
           | Err _ => still_apply skip l o
           end
  end.
Lemma still_apply_app skip l1 l2 o :
  still_apply skip (l1 ++ l2) o =
  let '(k1, o1) := still_apply skip l1 o in let '(k2, o2) := still_apply skip l2 o1 in (k1 ++ k2, o2).
Proof.
  revert o. induction l1 as [|trx l1 IH]; intros o; cbn; [by destruct (still_apply skip l2 o)|].
  destruct (trx_known trx o); [done|]. destruct (apply_trx skip trx o) as [o'|e]; [|done].
  rewrite IH. destruct (still_apply skip l1 o') as [k1 o1]. by destruct (still_apply skip l2 o1).
Qed.

(** One of the transactions raises what no handler catches. *)
Definition stuck_at (skip : Z) (l : list Z) (o : St) (e : exn) : Prop :=
  caught e = false ∧ ∃ l1 trx l2, l = l1 ++ trx :: l2 ∧ apply_trx skip trx (still_apply skip l1 o).2 = Err e.
Lemma stuck_at_cons skip trx l o e :
  stuck_at skip l (still_apply skip [trx] o).2 e → stuck_at skip (trx :: l) o e.
Proof.
  intros (He & l1 & x & l2 & -> & E). split; [done|]. exists (trx :: l1), x, l2. split; [done|].
  rewrite <- E. f_equal. change (trx :: l1) with ([trx] ++ l1). rewrite still_apply_app.
  destruct (still_apply skip [trx] o) as [k o1]. cbn. by destruct (still_apply skip l1 o1).
Qed.

Lemma repush_spec skip l : ∀ c,
  pending_ok c →
  let r := repush skip l c in
  pending_ok r.2 ∧ same_chain c r.2 ∧
  ((r.1 = Ok tt ∧ ∃ k, still_apply skip l (cur c) = (k, cur r.2) ∧ _pending_tx r.2 = _pending_tx c ++ k) ∨
   ∃ e, r.1 = Err e ∧ stuck_at skip l (cur c) e).
Proof.
  induction l as [|trx l IH]; intros c Ok_c; cbn [repush].
  - cbn. split; [done|]. split; [reflexivity|]. left. split; [done|]. exists []. by rewrite app_nil_r.
  - rewrite P_bind_run, P_bind_eq. pose proof (stuck_at_cons skip trx l (cur c)) as Hst. cbn in Hst |- *.
    destruct (trx_known trx (cur c)).
    + cbn [mret P_ret]. unfold mret, P_ret. destruct (IH c Ok_c) as (H1 & H2 & H3). split; [done|]. split; [done|].
      destruct H3 as [H3|(e & He & H3)]; [by left|right]. eauto.
    + destruct (push_transaction_spec skip trx c Ok_c) as (P1 & P2 & P3).
      destruct (_push_transaction skip trx c) as [[[]|e] c1] eqn:Ep; cbn in P1, P2, P3.
      * rewrite (attempt_Ok _ _ _ _ _ Ep). cbn [mret P_ret]. unfold mret, P_ret.
        destruct (IH c1 P1) as (H1 & H2 & H3). split; [done|]. split; [by etransitivity|].
        destruct (apply_trx skip trx (cur c)) as [o'|]; [|by destruct P3]. destruct P3 as (_ & <- & P3). cbn in Hst.
        destruct H3 as [(H3 & k & H4 & H5)|(e & He & H3)]; [left|right; eauto]. split; [done|]. exists (trx :: k).
        rewrite H4. split; [done|]. rewrite H5, P3, <- app_assoc. done.
      * destruct (apply_trx skip trx (cur c)) as [|e'] eqn:Ea; [by destruct P3|]. destruct P3 as ([= <-] & P4 & P3).
        destruct (caught e) eqn:He.
        -- rewrite (attempt_Err _ _ _ _ _ Ep He). cbn [mret P_ret]. unfold mret, P_ret.
           destruct (IH c1 P1) as (H1 & H2 & H3). split; [done|]. split; [by etransitivity|]. rewrite P4 in H3. cbn in Hst.
           destruct H3 as [(H3 & k & H4 & H5)|(e1 & He1 & H3)]; [left|right; eauto]. split; [done|]. exists k.
           split; [done|]. by rewrite H5, P3.
        -- rewrite P_bind_eq. unfold attempt. rewrite Ep, He. cbn. split; [done|]. split; [done|]. right.
           exists e. split; [done|]. split; [done|]. by exists [], trx, l.
Qed.

Lemma clear_pending_spec c :
  pending_ok c → ∃ c1, clear_pending c = (Ok tt, c1) ∧ quiescent 0 c1 ∧ cur c1 = head_state c ∧
    same_chain c c1 ∧ a_max (objects c1) = a_max (objects c).
Proof.
  destruct c as [[o s n m] f db pt pp ps cps]. unfold pending_ok, head_state, cur, clear_pending, reset_pending_session.
  cbn. intros (Hm & Hp). destruct ps; cbn in *.
  - destruct Hp as (-> & Hs & Ha). destruct s as [|base s]; [done|]. eexists. split; [reflexivity|].
    split; [by split_and!|]. by split_and!.
  - destruct Hp as (-> & ->). eexists. split; [reflexivity|]. split; [by split_and!|]. by split_and!.
Qed.

(** C12: A block does not lose the pending transactions.  Whatever pushing a block
    does, afterwards the pending state is rebuilt on the state the push left: of the
    transactions of popped blocks and those that were pending, in this order, exactly
    those that are not known there and still apply are pending again, the current state
    is the one they lead to, and the result is that of the push.  Only an exception no
    handler catches, raised by one of them, ends this early. *)
Theorem push_block_pending skip b c r c' :
  pending_ok c → push_block skip b c = (r, c') →
  ∃ c1 r2 c2, clear_pending c = (Ok tt, c1) ∧ cur c1 = head_state c ∧ quiescent 0 c1 ∧ same_chain c c1 ∧ _push_block skip b c1 = (r2, c2) ∧
    ((1 ≤ a_max (objects c2))%nat →
     pending_ok c' ∧ head_state c' = cur c2 ∧ _fork_db c' = _fork_db c2 ∧ _block_id_to_block c' = _block_id_to_block c2 ∧
     let candidates := _popped_tx c2 ++ _pending_tx c in
     ((r = r2 ∧ _popped_tx c' = [] ∧ still_apply skip candidates (cur c2) = (_pending_tx c', cur c')) ∨
      ∃ e, r = Err e ∧ stuck_at skip candidates (cur c2) e)).
Proof.
  intros Ok_c E. unfold push_block, without_pending_transactions in E. rewrite P_bind_run, P_bind_eq in E.
  destruct (clear_pending_spec c Ok_c) as (c1 & Ec & Hq & Hcur & Hs & _). rewrite Ec in E. unfold finally in E.
  destruct (_push_block skip b c1) as [r2 c2] eqn:E2. exists c1, r2, c2. do 5 (split; [done|]).
  intros Hmax. pose proof (preserves__push_block skip b c1 Hq) as Hq2. rewrite E2 in Hq2. cbn in Hq2.
  destruct Hq2 as (Q1 & Q2 & Q3 & _).
  assert (pending_ok c2) as Ok2 by (split; [done|]; by rewrite Q1).
  assert (head_state c2 = cur c2) as Hh2 by (unfold head_state; by rewrite Q1).
  unfold restore_pending in E. rewrite P_bind_run, P_bind_eq in E.
  destruct (repush_spec skip (_popped_tx c2) c2 Ok2) as (P1 & P2 & P3).
  destruct (repush skip (_popped_tx c2) c2) as [[[]|e] c3] eqn:E3; cbn in P1, P2, P3.
  - rewrite P_bind_update in E. set (c4 := set_popped [] c3) in E.
    assert (pending_ok c4 ∧ head_state c4 = head_state c3) as [Ok4 Hh4] by done.
    destruct (repush_spec skip (_pending_tx c) c4 Ok4) as (R1 & R2 & R3).
    destruct (repush skip (_pending_tx c) c4) as [r5 c5]. cbn in R1, R2, R3.
    destruct P2 as (S1 & S2 & S3 & _), R2 as (T1 & T2 & T3 & T4 & _).
    destruct P3 as [(_ & k1 & L1 & L1')|(e & [=] & _)].
    assert (c' = c5) as -> by (destruct r5; by simplify_eq).
    split; [done|]. split; [congruence|]. split; [by rewrite T2; cbn|]. split; [by rewrite T3; cbn|]. cbn zeta.
    change (cur c4) with (cur c3) in R3. change (_pending_tx c4) with (_pending_tx c3) in R3.
    destruct R3 as [(-> & k2 & L2 & L2')|(e & -> & He & l1 & x & l2 & Hl & Hx)]; [left|right; injection E as <-].
    + injection E as <-. split; [done|]. split; [done|]. rewrite still_apply_app, L1, L2, L2', L1', Q2. done.
    + exists e. split; [done|]. split; [done|]. exists (_popped_tx c2 ++ l1), x, l2. rewrite Hl, app_assoc. split; [done|].
      rewrite still_apply_app, L1. by destruct (still_apply skip l1 (cur c3)).
  - destruct P2 as (S1 & S2 & S3 & _). injection E as <- <-.
    destruct P3 as [[[=] _]|(e' & [= <-] & He & l1 & x & l2 & Hl & Hx)]. split; [done|]. split_and!; [congruence|done..|]. right.
    exists e. split; [done|]. split; [done|]. exists l1, x, (l2 ++ _pending_tx c). split; [|done].
    rewrite Hl, <- app_assoc. done.
Qed.

End pending.

(** ** Examples *)
Definition ex_pending : chain_database := (push_transaction 0 21 (push_transaction 0 20 ex_main).2).2.
Lemma ex_pending_ok : pending_ok ex_pending.
Proof. apply push_transaction_ok, push_transaction_ok. split; vm_compute; [lia|done]. Qed.

Lemma push_transaction_pending_witness :
  (push_transaction 0 11 ex_pending).1 = Err assert_exception ∧
  _pending_tx (push_transaction 0 11 ex_pending).2 = [20; 21] ∧
  _pending_tx (push_transaction 0 22 ex_pending).2 = [20; 21; 22].
Proof.
  destruct (push_transaction 0 11 ex_pending) as [r c'] eqn:E.
  assert (r = Err assert_exception) as -> by (by vm_compute in E; injection E).
  destruct (push_transaction_pending 0 11 ex_pending _ c' ex_pending_ok E) as (_ & _ & _ & _ & H). cbn.
  split; [done|]. rewrite H. split; vm_compute; reflexivity.
Defined.

(** A block with one of the pending transactions and a new one: the other stays
    pending. *)
Lemma push_block_pending_witness :
  let m3 := tb (fb_id m2) 3 [21; 15] in
  (push_block 0 m3 ex_pending).1 = Ok false ∧
  log_trx (cur (push_block 0 m3 ex_pending).2) = [11; 12; 21; 15; 20] ∧
  pending_ok (push_block 0 m3 ex_pending).2.
Proof.
  intros m3. destruct (push_block 0 m3 ex_pending) as [r c'] eqn:E.
  destruct (push_block_pending 0 m3 ex_pending r c' ex_pending_ok E) as (c1 & r2 & c2 & H1 & _ & _ & _ & H4 & H5).
  assert ((push_block 0 m3 ex_pending).1 = Ok false ∧ log_trx (cur (push_block 0 m3 ex_pending).2) = [11; 12; 21; 15; 20])
    as H6 by (split; vm_compute; reflexivity).
  rewrite E in H6. destruct H6 as [H6 H7]. split; [exact H6|]. split; [exact H7|]. apply H5.
  apply (f_equal (λ x, a_max (objects x.2))) in H4. cbn [snd] in H4. rewrite <- H4.
  apply (f_equal snd) in H1. cbn [snd] in H1. rewrite <- H1. vm_compute. lia.
Defined.

