(* ===== verification/Vesting.v ===== *)
(** * Vesting balances: chain/vesting_balance_object.cpp

    The three vesting policies, their [static_variant] and the vesting balance
    object.  Time stamps are seconds in 32 bits, coin seconds are
    [fc::uint128_t]; the assertions of the source that are compiled out in
    release builds are left out here and proved to hold. *)

From S2P Require Import Prelude External Asset.

Record vesting_policy_context := VestingPolicyContext {
  ctx_balance : asset;
  now : Z;
  ctx_amount : asset
}.

Record linear_vesting_policy := LinearVestingPolicy {
  begin_timestamp : Z;
  vesting_cliff_seconds : Z;
  vesting_duration_seconds : Z;
  begin_balance : Z
}.

Record cdd_vesting_policy := CddVestingPolicy {
  vesting_seconds : Z;
  coin_seconds_earned : Z;
  start_claim : Z;
  coin_seconds_earned_last_update : Z
}.

Inductive vesting_policy :=
| linear_policy (p : linear_vesting_policy)
| cdd_policy (p : cdd_vesting_policy)
| instant_policy.

Inductive vesting_balance_type :=
| vbt_unspecified | vbt_cashback | vbt_worker | vbt_witness | vbt_market_fee_sharing.

Record vesting_balance_object := VestingBalanceObject {
  vbo_owner : Z;
  vbo_balance : asset;
  vbo_policy : vesting_policy;
  vbo_balance_type : vesting_balance_type
}.

#[global] Instance vesting_balance_type_eq_dec : EqDecision vesting_balance_type.
Proof. solve_decision. Defined.
#[global] Instance linear_vesting_policy_eq_dec : EqDecision linear_vesting_policy.
Proof. solve_decision. Defined.
#[global] Instance cdd_vesting_policy_eq_dec : EqDecision cdd_vesting_policy.
Proof. solve_decision. Defined.
#[global] Instance vesting_policy_eq_dec : EqDecision vesting_policy.
Proof. solve_decision. Defined.
#[global] Instance vesting_balance_object_eq_dec : EqDecision vesting_balance_object.
Proof. solve_decision. Defined.

Section vesting.
Context `{EX : Ext}.

Definition sum_below_max_shares (a b : asset) : result bool :=
  if amount a <=? GRAPHENE_MAX_SHARE_SUPPLY then
    if amount b <=? GRAPHENE_MAX_SHARE_SUPPLY then
      s ← safe_add (amount a) (amount b); Ok (s <=? GRAPHENE_MAX_SHARE_SUPPLY)
    else Ok false
  else Ok false.

(** ** linear_vesting_policy *)
Definition linear_get_allowed_withdraw (p : linear_vesting_policy) (ctx : vesting_policy_context)
    : result asset :=
  allowed_withdraw ←
    (if now ctx >? begin_timestamp p then
       let elapsed_seconds := tps_diff (now ctx) (begin_timestamp p) in
       if elapsed_seconds >=? vesting_cliff_seconds p then
         let total_vested :=
           if elapsed_seconds <? vesting_duration_seconds p then
             u128_to_int64 (u128_div (u128_mul (u128_of (begin_balance p)) elapsed_seconds)
                              (vesting_duration_seconds p))
           else begin_balance p in
         withdrawn_already ← safe_sub (begin_balance p) (amount (ctx_balance ctx));
         safe_sub total_vested withdrawn_already
       else Ok 0
     else Ok 0);
  Ok (Asset allowed_withdraw (asset_id (ctx_balance ctx))).

Definition deposit_allowed_common (ctx : vesting_policy_context) : result bool :=
  if asset_id (ctx_amount ctx) =? asset_id (ctx_balance ctx)
  then sum_below_max_shares (ctx_amount ctx) (ctx_balance ctx)
  else Ok false.
Definition linear_is_deposit_allowed (p : linear_vesting_policy) ctx : result bool :=
  deposit_allowed_common ctx.

Definition linear_is_withdraw_allowed (p : linear_vesting_policy) ctx : result bool :=
  if asset_id (ctx_amount ctx) =? asset_id (ctx_balance ctx) then
    w ← linear_get_allowed_withdraw p ctx; asset_le (ctx_amount ctx) w
  else Ok false.

(** ** cdd_vesting_policy *)
Definition vs1 (p : cdd_vesting_policy) : Z := Z.max (vesting_seconds p) 1.

Definition compute_coin_seconds_earned (p : cdd_vesting_policy) (ctx : vesting_policy_context) : Z :=
  let delta_seconds := tps_diff (now ctx) (coin_seconds_earned_last_update p) in
  let delta_coin_seconds := u128_mul (u128_of (amount (ctx_balance ctx))) delta_seconds in
  let coin_seconds_earned_cap := u128_mul (u128_of (amount (ctx_balance ctx))) (vs1 p) in
  Z.min (u128_add (coin_seconds_earned p) delta_coin_seconds) coin_seconds_earned_cap.

Definition update_coin_seconds_earned (p : cdd_vesting_policy) ctx : cdd_vesting_policy :=
  CddVestingPolicy (vesting_seconds p) (compute_coin_seconds_earned p ctx) (start_claim p) (now ctx).

Definition cdd_get_allowed_withdraw (p : cdd_vesting_policy) (ctx : vesting_policy_context) : asset :=
  if now ctx <=? start_claim p then Asset 0 (asset_id (ctx_balance ctx))
  else
    let cs_earned := compute_coin_seconds_earned p ctx in
    let withdraw_available := u128_div cs_earned (vs1 p) in
    Asset (u128_to_int64 withdraw_available) (asset_id (ctx_balance ctx)).

Definition set_earned (p : cdd_vesting_policy) (e : Z) : cdd_vesting_policy :=
  CddVestingPolicy (vesting_seconds p) e (start_claim p) (coin_seconds_earned_last_update p).

Definition cdd_on_deposit (p : cdd_vesting_policy) ctx : cdd_vesting_policy :=
  update_coin_seconds_earned p ctx.

(** [ctx.amount.amount.value * std::max( vesting_seconds, 1u )] is an [int64_t]. *)
Definition cdd_on_deposit_vested (p : cdd_vesting_policy) ctx : result cdd_vesting_policy :=
  let p1 := cdd_on_deposit p ctx in
  x ← raw_int64 (amount (ctx_amount ctx) * vs1 p);
  Ok (set_earned p1 (u128_add (coin_seconds_earned p1) (u128_of x))).

Definition cdd_on_withdraw (p : cdd_vesting_policy) ctx : cdd_vesting_policy :=
  let p1 := update_coin_seconds_earned p ctx in
  let coin_seconds_needed := u128_mul (u128_of (amount (ctx_amount ctx))) (vs1 p) in
  set_earned p1 (u128_sub (coin_seconds_earned p1) coin_seconds_needed).

Definition cdd_is_deposit_allowed (p : cdd_vesting_policy) ctx : result bool :=
  deposit_allowed_common ctx.
Definition cdd_is_deposit_vested_allowed (p : cdd_vesting_policy) ctx : result bool :=
  cdd_is_deposit_allowed p ctx.
Definition cdd_is_withdraw_allowed (p : cdd_vesting_policy) ctx : result bool :=
  asset_le (ctx_amount ctx) (cdd_get_allowed_withdraw p ctx).

(** ** instant_vesting_policy *)
Definition instant_get_allowed_withdraw (ctx : vesting_policy_context) : asset := ctx_balance ctx.
Definition instant_is_deposit_allowed ctx : result bool := deposit_allowed_common ctx.
Definition instant_is_withdraw_allowed ctx : result bool :=
  if asset_id (ctx_amount ctx) =? asset_id (ctx_balance ctx)
  then asset_le (ctx_amount ctx) (instant_get_allowed_withdraw ctx)
  else Ok false.

(** ** The visitors *)
Definition policy_on_deposit (p : vesting_policy) ctx : vesting_policy :=
  match p with
  | linear_policy l => linear_policy l
  | cdd_policy c => cdd_policy (cdd_on_deposit c ctx)
  | instant_policy => instant_policy
  end.
Definition policy_on_deposit_vested (p : vesting_policy) ctx : result vesting_policy :=
  match p with
  | linear_policy _ => Err fc_exception
  | cdd_policy c => c' ← cdd_on_deposit_vested c ctx; Ok (cdd_policy c')
  | instant_policy => Ok instant_policy
  end.
Definition policy_on_withdraw (p : vesting_policy) ctx : vesting_policy :=
  match p with
  | linear_policy l => linear_policy l
  | cdd_policy c => cdd_policy (cdd_on_withdraw c ctx)
  | instant_policy => instant_policy
  end.
Definition policy_is_deposit_allowed (p : vesting_policy) ctx : result bool :=
  match p with
  | linear_policy l => linear_is_deposit_allowed l ctx
  | cdd_policy c => cdd_is_deposit_allowed c ctx
  | instant_policy => instant_is_deposit_allowed ctx
  end.
Definition policy_is_deposit_vested_allowed (p : vesting_policy) ctx : result bool :=
  match p with
  | linear_policy _ => Ok false
  | cdd_policy c => cdd_is_deposit_vested_allowed c ctx
  | instant_policy => Ok false
  end.
Definition policy_is_withdraw_allowed (p : vesting_policy) ctx : result bool :=
  match p with
  | linear_policy l => linear_is_withdraw_allowed l ctx
  | cdd_policy c => cdd_is_withdraw_allowed c ctx
  | instant_policy => instant_is_withdraw_allowed ctx
  end.
Definition policy_get_allowed_withdraw (p : vesting_policy) ctx : result asset :=
  match p with
  | linear_policy l => linear_get_allowed_withdraw l ctx
  | cdd_policy c => Ok (cdd_get_allowed_withdraw c ctx)
  | instant_policy => Ok (instant_get_allowed_withdraw ctx)
  end.

(** ** vesting_balance_object *)
Definition vbo_ctx (v : vesting_balance_object) (t : Z) (a : asset) : vesting_policy_context :=
  VestingPolicyContext (vbo_balance v) t a.

Definition is_deposit_allowed (v : vesting_balance_object) (t : Z) (a : asset) : result bool :=
  policy_is_deposit_allowed (vbo_policy v) (vbo_ctx v t a).
Definition is_deposit_vested_allowed (v : vesting_balance_object) (t : Z) (a : asset) : result bool :=
  policy_is_deposit_vested_allowed (vbo_policy v) (vbo_ctx v t a).
Definition is_withdraw_allowed (v : vesting_balance_object) (t : Z) (a : asset) : result bool :=
  policy_is_withdraw_allowed (vbo_policy v) (vbo_ctx v t a).

Definition deposit (v : vesting_balance_object) (t : Z) (a : asset) : result vesting_balance_object :=
  let p := policy_on_deposit (vbo_policy v) (vbo_ctx v t a) in
  b ← asset_add (vbo_balance v) a;
  Ok (VestingBalanceObject (vbo_owner v) b p (vbo_balance_type v)).

Definition deposit_vested (v : vesting_balance_object) (t : Z) (a : asset)
    : result vesting_balance_object :=
  p ← policy_on_deposit_vested (vbo_policy v) (vbo_ctx v t a);
  b ← asset_add (vbo_balance v) a;
  Ok (VestingBalanceObject (vbo_owner v) b p (vbo_balance_type v)).

Definition withdraw (v : vesting_balance_object) (t : Z) (a : asset) : result vesting_balance_object :=
  let p := policy_on_withdraw (vbo_policy v) (vbo_ctx v t a) in
  b ← asset_sub (vbo_balance v) a;
  Ok (VestingBalanceObject (vbo_owner v) b p (vbo_balance_type v)).

Definition get_allowed_withdraw (v : vesting_balance_object) (t : Z) : result asset :=
  policy_get_allowed_withdraw (vbo_policy v) (vbo_ctx v t default_asset).

End vesting.

(** ** What has vested, as a number *)
Definition linear_vested (p : linear_vesting_policy) (t : Z) : Z :=
  if (t >? begin_timestamp p) && (t - begin_timestamp p >=? vesting_cliff_seconds p) then
    if t - begin_timestamp p <? vesting_duration_seconds p
    then begin_balance p * (t - begin_timestamp p) / vesting_duration_seconds p
    else begin_balance p
  else 0.

Definition linear_open (p : linear_vesting_policy) (t : Z) : bool :=
  (t >? begin_timestamp p) && (t - begin_timestamp p >=? vesting_cliff_seconds p).

Definition cdd_earned (p : cdd_vesting_policy) (bal t : Z) : Z :=
  Z.min (coin_seconds_earned p + bal * (t - coin_seconds_earned_last_update p)) (bal * vs1 p).

Definition allowed (v : vesting_balance_object) (t : Z) : Z :=
  let bal := amount (vbo_balance v) in
  match vbo_policy v with
  | linear_policy p =>
      if linear_open p t then linear_vested p t - (begin_balance p - bal) else 0
  | cdd_policy p => if t <=? start_claim p then 0 else cdd_earned p bal t / vs1 p
  | instant_policy => bal
  end.

Definition u32_ok (z : Z) : Prop := 0 ≤ z ≤ uint32_max.

Definition wf_policy (p : vesting_policy) (bal t : Z) : Prop :=
  match p with
  | linear_policy p =>
      0 ≤ begin_balance p ≤ GRAPHENE_MAX_SHARE_SUPPLY ∧ u32_ok (begin_timestamp p) ∧
      u32_ok (vesting_cliff_seconds p) ∧ u32_ok (vesting_duration_seconds p) ∧
      begin_balance p - bal ≤ linear_vested p t
  | cdd_policy p =>
      u32_ok (vesting_seconds p) ∧ 0 ≤ coin_seconds_earned p ≤ bal * vs1 p ∧
      0 ≤ coin_seconds_earned_last_update p ≤ t
  | instant_policy => True
  end.

(** A vesting balance as it can be at time [t]: the balance fits the supply, no
    more than what has vested was taken out of a linear balance, the coin
    seconds stay below their cap. *)
Definition wf_vbo (v : vesting_balance_object) (t : Z) : Prop :=
  0 ≤ amount (vbo_balance v) ≤ GRAPHENE_MAX_SHARE_SUPPLY ∧ u32_ok t ∧
  wf_policy (vbo_policy v) (amount (vbo_balance v)) t.

Section vesting_proofs.
Context `{EX : Ext}.
Implicit Types (v : vesting_balance_object) (t : Z).

Lemma vs1_bounds p : u32_ok (vesting_seconds p) → 1 ≤ vs1 p ≤ uint32_max.
Proof. unfold u32_ok, vs1. unfold_widths. lia. Qed.

Lemma linear_vested_bounds p t :
  0 ≤ begin_balance p → 0 ≤ linear_vested p t ≤ begin_balance p.
Proof.
  intros Hb. unfold linear_vested. destruct (_ && _) eqn:E; [|lia]. bool_to_prop.
  destruct (_ <? _) eqn:El; bool_to_prop; [|lia]. split.
  - apply Z.div_pos; nia.
  - apply Z.div_le_upper_bound; nia.
Qed.

Lemma linear_vested_mono p t t' :
  0 ≤ begin_balance p → t ≤ t' → linear_vested p t ≤ linear_vested p t'.
Proof.
  intros Hb Ht. pose proof (linear_vested_bounds p t' Hb) as Hb'. unfold linear_vested in *.
  destruct ((t >? begin_timestamp p) && _) eqn:E; [|lia]. bool_to_prop.
  assert ((t' >? begin_timestamp p) && (t' - begin_timestamp p >=? vesting_cliff_seconds p) = true) as E'.
  { apply andb_true_iff. rewrite Z.gtb_ltb, Z.geb_leb, Z.ltb_lt, Z.leb_le. lia. }
  rewrite E' in *. destruct (t' - _ <? _) eqn:El'; bool_to_prop.
  - destruct (t - _ <? _) eqn:El; bool_to_prop; [|lia]. apply Z.div_le_mono; nia.
  - destruct (t - _ <? _) eqn:El; bool_to_prop; [|lia]. apply Z.div_le_upper_bound; nia.
Qed.

Lemma coin_bound bal x : 0 ≤ bal ≤ GRAPHENE_MAX_SHARE_SUPPLY → 0 ≤ x ≤ uint32_max →
  0 ≤ bal * x ≤ 4294967295000000000000000.
Proof. unfold GRAPHENE_MAX_SHARE_SUPPLY. unfold_widths. nia. Qed.

Lemma u128_mul_coin bal x : 0 ≤ bal ≤ GRAPHENE_MAX_SHARE_SUPPLY → 0 ≤ x ≤ uint32_max →
  u128_mul (u128_of bal) x = bal * x.
Proof.
  intros Hb Hx. apply u128_mul_int64; unfold GRAPHENE_MAX_SHARE_SUPPLY in *; unfold_widths; lia.
Qed.

Lemma wf_vbo_later v t t' : wf_vbo v t → t ≤ t' → u32_ok t' → wf_vbo v t'.
Proof.
  intros (Hb & Ht & Hp) Hle Ht'. split_and!; try done; [lia..|].
  destruct (vbo_policy v) as [p|p|]; cbn in *; [| |done].
  - destruct Hp as (? & ? & ? & ? & ?). split_and!; try done; try lia.
    pose proof (linear_vested_mono p t t'). lia.
  - destruct Hp as (? & ? & ?). split_and!; try done; lia.
Qed.

Lemma compute_earned_spec p bal t a i :
  0 ≤ bal ≤ GRAPHENE_MAX_SHARE_SUPPLY → u32_ok t → wf_policy (cdd_policy p) bal t →
  compute_coin_seconds_earned p (VestingPolicyContext (Asset bal i) t a) = cdd_earned p bal t
  ∧ 0 ≤ cdd_earned p bal t ≤ bal * vs1 p.
Proof.
  intros Hb Ht (Hvs & He & Hl). pose proof (vs1_bounds p Hvs) as Hv.
  unfold compute_coin_seconds_earned, cdd_earned, u32_ok in *. cbn.
  rewrite tps_diff_spec by lia.
  rewrite !u128_mul_coin by lia.
  pose proof (coin_bound bal (vs1 p) Hb ltac:(lia)) as C1.
  pose proof (coin_bound bal (t - coin_seconds_earned_last_update p) Hb ltac:(lia)) as C2.
  rewrite u128_add_spec by (unfold_widths; lia). split; [done|]. lia.
Qed.

Lemma cdd_allowed_bounds p bal t :
  0 ≤ bal → u32_ok (vesting_seconds p) → 0 ≤ cdd_earned p bal t ≤ bal * vs1 p →
  0 ≤ cdd_earned p bal t / vs1 p ≤ bal.
Proof.
  intros Hb Hv He. pose proof (vs1_bounds p Hv). split; [apply Z.div_pos; lia|].
  apply Z.div_le_upper_bound; lia.
Qed.

(** The amount of the operation does not matter to what may be withdrawn. *)
Lemma policy_allowed_spec v t a :
  wf_vbo v t →
  policy_get_allowed_withdraw (vbo_policy v) (vbo_ctx v t a)
    = Ok (Asset (allowed v t) (asset_id (vbo_balance v)))
  ∧ 0 ≤ allowed v t ≤ amount (vbo_balance v).
Proof.
  intros (Hb & Ht & Hp). unfold vbo_ctx, allowed.
  destruct v as [o [bal i] p ty]; cbn in *. destruct p as [p|p|]; cbn in *; [| |split; [done|lia]].
  - destruct Hp as (Hbb & Hbt & Hcl & Hdu & Hw). unfold u32_ok in *.
    unfold linear_get_allowed_withdraw, linear_open; cbn.
    pose proof (linear_vested_bounds p t ltac:(lia)) as Hv. unfold linear_vested in *.
    destruct (t >? begin_timestamp p) eqn:E1; cbn in *; [|split; [done|lia]].
    rewrite tps_diff_spec by lia.
    destruct (t - begin_timestamp p >=? vesting_cliff_seconds p) eqn:E2; cbn in *; [|split; [done|lia]].
    bool_to_prop. unfold GRAPHENE_MAX_SHARE_SUPPLY in *.
    destruct (t - begin_timestamp p <? vesting_duration_seconds p) eqn:E3; bool_to_prop.
    + rewrite u128_mul_coin by (unfold GRAPHENE_MAX_SHARE_SUPPLY; lia).
      pose proof (coin_bound (begin_balance p) (t - begin_timestamp p) ltac:(done) ltac:(lia)) as C.
      rewrite u128_div_spec by (unfold_widths; lia).
      rewrite u128_to_int64_spec by (unfold_widths; lia).
      rewrite safe_sub_spec, (proj2 (in_int64_true _)) by (unfold_widths; lia). cbn.
      rewrite safe_sub_spec, (proj2 (in_int64_true _)) by (unfold_widths; lia). cbn. split; [done|lia].
    + rewrite safe_sub_spec, (proj2 (in_int64_true _)) by (unfold_widths; lia). cbn.
      rewrite safe_sub_spec, (proj2 (in_int64_true _)) by (unfold_widths; lia). cbn. split; [done|lia].
  - unfold cdd_get_allowed_withdraw. cbn [now ctx_balance asset_id].
    destruct (t <=? start_claim p); [split; [done|lia]|].
    destruct (compute_earned_spec p bal t a i Hb Ht Hp) as [E1 E2].
    destruct Hp as (Hvs & He & Hl). pose proof (vs1_bounds p Hvs) as Hv.
    pose proof (cdd_allowed_bounds p bal t ltac:(lia) Hvs E2) as Ha. rewrite E1.
    pose proof (coin_bound bal (vs1 p) Hb ltac:(lia)) as C.
    rewrite u128_div_spec by (unfold_widths; lia).
    rewrite u128_to_int64_spec by (unfold GRAPHENE_MAX_SHARE_SUPPLY in *; unfold_widths; lia). done.
Qed.

Lemma asset_le_Ok (a b : asset) r :
  asset_le a b = Ok r ↔ asset_id a = asset_id b ∧ r = (amount a <=? amount b).
Proof.
  unfold asset_le, asset_lt. destruct (asset_id b =? asset_id a) eqn:E; cbn; bool_to_prop.
  - rewrite Z.leb_antisym. split; [intros [= <-]; done|]. intros [_ ->]. done.
  - split; [done|]. intros [? _]. lia.
Qed.

Lemma is_withdraw_allowed_spec v t a :
  wf_vbo v t → is_withdraw_allowed v t a = Ok true →
  asset_id a = asset_id (vbo_balance v) ∧ amount a ≤ allowed v t.
Proof.
  intros W H. destruct (policy_allowed_spec v t a W) as [E _].
  unfold is_withdraw_allowed in H. unfold vbo_ctx in *.
  destruct (vbo_policy v) as [p|p|] eqn:Ep; cbn -[linear_get_allowed_withdraw] in H, E.
  - unfold linear_is_withdraw_allowed in H. cbn -[linear_get_allowed_withdraw] in H.
    destruct (asset_id a =? _); [|done]. rewrite E in H. cbn in H.
    apply asset_le_Ok in H as [? H]. bool_to_prop. cbn in *. symmetry in H. bool_to_prop. done.
  - injection E as E. unfold cdd_is_withdraw_allowed in H. rewrite E in H. apply asset_le_Ok in H as [? H].
    symmetry in H. bool_to_prop. done.
  - unfold instant_is_withdraw_allowed in H. cbn in H. destruct (asset_id a =? _); [|done].
    injection E as E. unfold instant_get_allowed_withdraw in *. cbn in *. rewrite E in H.
    apply asset_le_Ok in H as [? H]. symmetry in H. bool_to_prop. done.
Qed.

Lemma asset_sub_same bal a i :
  int64_min ≤ bal - a ≤ int64_max → asset_sub (Asset bal i) (Asset a i) = Ok (Asset (bal - a) i).
Proof.
  intros H. unfold asset_sub. cbn. rewrite Z.eqb_refl. cbn.
  by rewrite safe_sub_spec, (proj2 (in_int64_true _) H).
Qed.
Lemma asset_add_same bal a i :
  int64_min ≤ bal + a ≤ int64_max → asset_add (Asset bal i) (Asset a i) = Ok (Asset (bal + a) i).
Proof.
  intros H. unfold asset_add. cbn. rewrite Z.eqb_refl. cbn.
  by rewrite safe_add_spec, (proj2 (in_int64_true _) H).
Qed.

Lemma div_sub_mul x a n : 0 < n → (x - a * n) / n = x / n - a.
Proof. intros. replace (x - a * n) with (x + (- a) * n) by lia. rewrite Z.div_add by lia. lia. Qed.
Lemma div_add_mul x a n : 0 < n → (x + a * n) / n = x / n + a.
Proof. intros. rewrite Z.div_add by lia. lia. Qed.

(** After the coin seconds were brought up to date at [t] and set to [e]. *)
Lemma cdd_earned_now p bal t e :
  e ≤ bal * vs1 p →
  cdd_earned (set_earned (CddVestingPolicy (vesting_seconds p) (cdd_earned p bal t) (start_claim p) t) e) bal t = e.
Proof. intros. unfold cdd_earned, set_earned, vs1 in *. cbn in *. lia. Qed.

(** C34: Withdrawing.  When the policy allows a withdrawal the amount is covered
    by the balance (the assertion of the source), the withdrawal succeeds, takes
    exactly the amount out of the balance and out of what may still be
    withdrawn, and leaves a well-formed vesting balance. *)
Theorem vesting_withdraw_correct v t a :
  wf_vbo v t → 0 ≤ amount a → is_withdraw_allowed v t a = Ok true →
  ∃ v', withdraw v t a = Ok v' ∧ wf_vbo v' t ∧ vbo_owner v' = vbo_owner v ∧
    vbo_balance v' = Asset (amount (vbo_balance v) - amount a) (asset_id (vbo_balance v)) ∧
    amount a ≤ amount (vbo_balance v) ∧ allowed v' t = allowed v t - amount a.
Proof.
  intros W Ha Hall. destruct (is_withdraw_allowed_spec v t a W Hall) as [Hid Hle].
  destruct (policy_allowed_spec v t a W) as [_ Hal]. destruct W as (Hb & Ht & Hp).
  destruct v as [o [bal i] p ty], a as [a ai]; cbn in Hid, Hle, Hal, Hb, Hp, Ha |- *. subst ai.
  unfold withdraw. cbn [vbo_balance vbo_policy vbo_owner vbo_balance_type].
  rewrite asset_sub_same by (unfold GRAPHENE_MAX_SHARE_SUPPLY in *; unfold_widths; lia).
  cbn [mbind result_bind]. eexists. split; [done|]. unfold wf_vbo. cbn [vbo_balance vbo_policy amount vbo_owner].
  destruct p as [p|p|]; cbn -[linear_open] in *.
  - destruct Hp as (? & ? & ? & ? & ?). unfold allowed in *. cbn -[linear_open] in *.
    split_and!; try done; try lia; destruct (linear_open p t) eqn:Eo; lia.
  - destruct (compute_earned_spec p bal t (Asset a i) i Hb Ht Hp) as [E1 E2].
    pose proof Hp as (Hvs & He & Hl). pose proof (vs1_bounds p Hvs) as Hv.
    unfold allowed in *. cbn in *. unfold cdd_on_withdraw, update_coin_seconds_earned, vbo_ctx.
    cbn [vbo_balance]. rewrite E1.
    cbn [ctx_amount amount now]. rewrite u128_mul_coin by lia. cbn [coin_seconds_earned].
    pose proof (coin_bound bal (vs1 p) Hb ltac:(lia)) as C.
    assert (a * vs1 p ≤ cdd_earned p bal t) as Hcov.
    { destruct (t <=? start_claim p); [lia|]. pose proof (Z.mul_div_le (cdd_earned p bal t) (vs1 p)). nia. }
    rewrite u128_sub_spec by (unfold_widths; nia).
    assert (vs1 (set_earned (CddVestingPolicy (vesting_seconds p) (cdd_earned p bal t) (start_claim p) t)
             (cdd_earned p bal t - a * vs1 p)) = vs1 p) as Ev by done.
    split_and!; try done; try lia; cbn [set_earned coin_seconds_earned coin_seconds_earned_last_update start_claim vesting_seconds];
      try (unfold u32_ok in *; nia).
    destruct (t <=? start_claim p); [lia|].
      assert (cdd_earned (set_earned (CddVestingPolicy (vesting_seconds p) (cdd_earned p bal t) (start_claim p) t)
             (cdd_earned p bal t - a * vs1 p)) (bal - a) t = cdd_earned p bal t - a * vs1 p) as E3.
      { unfold cdd_earned at 1. cbn. rewrite Ev. unfold vs1 in *. cbn. nia. }
      rewrite E3, Ev. apply div_sub_mul. lia.
  - unfold allowed in *. cbn in *. split_and!; try done; lia.
Qed.

Lemma is_deposit_allowed_spec v t a :
  wf_vbo v t → 0 ≤ amount a → is_deposit_allowed v t a = Ok true →
  asset_id a = asset_id (vbo_balance v) ∧ amount a + amount (vbo_balance v) ≤ GRAPHENE_MAX_SHARE_SUPPLY.
Proof.
  intros (Hb & _) Ha H. assert (deposit_allowed_common (vbo_ctx v t a) = Ok true) as Hc.
  { unfold is_deposit_allowed in H. by destruct (vbo_policy v). }
  unfold deposit_allowed_common, sum_below_max_shares in Hc. cbn in Hc.
  destruct (asset_id a =? _) eqn:E1; [|done].
  destruct (amount a <=? _) eqn:E2; [|done]. destruct (amount (vbo_balance v) <=? _) eqn:E3; [|done].
  monad_inv. safe_inv. match goal with H : _ = true |- _ => idtac end. bool_to_prop. done.
Qed.

(** Depositing.  An allowed deposit succeeds, adds exactly the amount and
    keeps the balance well formed.  Funds added to a coin-days policy have to
    vest: what may be withdrawn does not change; with the instant policy they
    are available at once; with the linear policy they are available at once
    after the cliff and not before. *)
Theorem vesting_deposit_correct v t a :
  wf_vbo v t → 0 ≤ amount a → is_deposit_allowed v t a = Ok true →
  ∃ v', deposit v t a = Ok v' ∧ wf_vbo v' t ∧ vbo_owner v' = vbo_owner v ∧
    vbo_balance v' = Asset (amount (vbo_balance v) + amount a) (asset_id (vbo_balance v)) ∧
    allowed v' t = allowed v t +
      match vbo_policy v with
      | linear_policy p => if linear_open p t then amount a else 0
      | cdd_policy _ => 0
      | instant_policy => amount a
      end.
Proof.
  intros W Ha Hall. destruct (is_deposit_allowed_spec v t a W Ha Hall) as [Hid Hle].
  destruct W as (Hb & Ht & Hp).
  destruct v as [o [bal i] p ty], a as [a ai]; cbn in Hid, Hle, Hb, Hp, Ha |- *. subst ai.
  unfold deposit. cbn [vbo_balance vbo_policy vbo_owner vbo_balance_type].
  rewrite asset_add_same by (unfold GRAPHENE_MAX_SHARE_SUPPLY in *; unfold_widths; lia).
  cbn [mbind result_bind]. eexists. split; [done|]. unfold wf_vbo. cbn [vbo_balance vbo_policy amount vbo_owner].
  destruct p as [p|p|]; cbn -[linear_open] in *.
  - destruct Hp as (? & ? & ? & ? & ?). unfold allowed in *. cbn -[linear_open] in *.
    split_and!; try done; try lia; destruct (linear_open p t) eqn:Eo; lia.
  - destruct (compute_earned_spec p bal t (Asset a i) i Hb Ht Hp) as [E1 E2].
    pose proof Hp as (Hvs & He & Hl). pose proof (vs1_bounds p Hvs) as Hv.
    unfold allowed in *. cbn in *. unfold cdd_on_deposit, update_coin_seconds_earned, vbo_ctx.
    cbn [vbo_balance]. rewrite E1. cbn [now].
    set (p' := CddVestingPolicy (vesting_seconds p) (cdd_earned p bal t) (start_claim p) t).
    assert (vs1 p' = vs1 p) as Ev by done.
    split_and!; try done; try lia; cbn [p' coin_seconds_earned coin_seconds_earned_last_update start_claim vesting_seconds];
      try rewrite Ev; try (unfold u32_ok in *; nia).
    destruct (t <=? start_claim p); [lia|].
      assert (cdd_earned p' (bal + a) t = cdd_earned p bal t) as ->; [|lia].
      unfold cdd_earned at 1. cbn [p' coin_seconds_earned coin_seconds_earned_last_update]. rewrite Ev. nia.
  - unfold allowed in *. cbn in *. split_and!; try done; lia.
Qed.

(** Depositing vested funds into a coin-days policy makes exactly the
    deposited amount available, provided the [int64_t] product of the amount
    and the vesting period does not overflow; when it does, the source has
    undefined behaviour.  A linear balance rejects vested deposits. *)
Theorem vesting_deposit_vested_correct v t a :
  wf_vbo v t → 0 ≤ amount a → is_deposit_allowed v t a = Ok true →
  match vbo_policy v with
  | linear_policy _ => deposit_vested v t a = Err fc_exception
  | cdd_policy p =>
      if amount a * vs1 p <=? int64_max then
        ∃ v', deposit_vested v t a = Ok v' ∧ wf_vbo v' t ∧
          amount (vbo_balance v') = amount (vbo_balance v) + amount a ∧
          (start_claim p < t → allowed v' t = allowed v t + amount a)
      else deposit_vested v t a = Err undefined_behaviour
  | instant_policy =>
      ∃ v', deposit_vested v t a = Ok v' ∧ wf_vbo v' t ∧
        amount (vbo_balance v') = amount (vbo_balance v) + amount a ∧ allowed v' t = allowed v t + amount a
  end.
Proof.
  intros W Ha Hall. destruct (is_deposit_allowed_spec v t a W Ha Hall) as [Hid Hle].
  destruct W as (Hb & Ht & Hp).
  destruct v as [o [bal i] p ty], a as [a ai]; cbn in Hid, Hle, Hb, Hp, Ha |- *. subst ai.
  unfold deposit_vested. cbn [vbo_balance vbo_policy vbo_owner vbo_balance_type].
  rewrite asset_add_same by (unfold GRAPHENE_MAX_SHARE_SUPPLY in *; unfold_widths; lia).
  destruct p as [p|p|]; cbn -[cdd_on_deposit_vested] in *; [done| |].
  - destruct (compute_earned_spec p bal t (Asset a i) i Hb Ht Hp) as [E1 E2].
    pose proof Hp as (Hvs & He & Hl). pose proof (vs1_bounds p Hvs) as Hv.
    unfold cdd_on_deposit_vested, cdd_on_deposit, update_coin_seconds_earned.
    unfold vbo_ctx. cbn [vbo_balance ctx_amount amount]. rewrite E1. cbn [now coin_seconds_earned].
    unfold raw_int64. destruct (a * vs1 p <=? int64_max) eqn:El; bool_to_prop; cycle 1.
    { destruct (in_int64 (a * vs1 p)) eqn:Ei; [|done]. apply in_int64_true in Ei. lia. }
    rewrite (proj2 (in_int64_true _)) by (unfold_widths; nia). cbn [mbind result_bind].
    rewrite u128_of_spec by nia. pose proof (coin_bound bal (vs1 p) Hb ltac:(lia)) as C.
    rewrite u128_add_spec by (unfold_widths; nia).
    eexists. split; [done|]. unfold wf_vbo. cbn [vbo_balance vbo_policy amount wf_policy].
    assert (∀ l e, vs1 (set_earned (CddVestingPolicy (vesting_seconds p) e (start_claim p) l)
      (cdd_earned p bal t + a * vs1 p)) = vs1 p) as Ev by done.
    split_and!; try done; try lia; try rewrite Ev;
      cbn [set_earned coin_seconds_earned coin_seconds_earned_last_update start_claim vesting_seconds]; try (unfold u32_ok in *; nia).
    intros Hs. unfold allowed. cbn [vbo_balance vbo_policy amount start_claim set_earned].
      rewrite (proj2 (Z.leb_gt t _)) by lia.
      assert (cdd_earned (set_earned (CddVestingPolicy (vesting_seconds p) (cdd_earned p bal t) (start_claim p) t)
        (cdd_earned p bal t + a * vs1 p)) (bal + a) t = cdd_earned p bal t + a * vs1 p) as E3.
      { unfold cdd_earned at 1. rewrite Ev. cbn. nia. }
      rewrite E3, Ev. apply div_add_mul. lia.
  - eexists. split; [done|]. unfold wf_vbo, allowed. cbn. split_and!; try done; lia.
Qed.

(** What may be withdrawn lies between zero and the balance, never shrinks
    as time passes, and reaches the whole balance: once the vesting duration of
    a linear balance is over, and once a coin-days balance was left alone for
    its vesting period past its first claim time. *)
Theorem vesting_allowed_progress v t t' :
  wf_vbo v t → t ≤ t' → u32_ok t' →
  get_allowed_withdraw v t' = Ok (Asset (allowed v t') (asset_id (vbo_balance v))) ∧
  0 ≤ allowed v t ≤ allowed v t' ∧ allowed v t' ≤ amount (vbo_balance v) ∧
  (match vbo_policy v with
   | linear_policy p =>
       begin_timestamp p < t' ∧ vesting_cliff_seconds p ≤ t' - begin_timestamp p ∧
       vesting_duration_seconds p ≤ t' - begin_timestamp p
   | cdd_policy p => start_claim p < t' ∧ vs1 p ≤ t' - coin_seconds_earned_last_update p
   | instant_policy => True
   end → allowed v t' = amount (vbo_balance v)).
Proof.
  intros W Hle Ht'. pose proof (wf_vbo_later v t t' W Hle Ht') as W'.
  destruct (policy_allowed_spec v t' default_asset W') as [E' Ha'].
  destruct (policy_allowed_spec v t default_asset W) as [_ Ha].
  split; [exact E'|]. split; [|split; [lia|]].
  - split; [lia|]. destruct W as (Hb & Ht & Hp). unfold allowed in *.
    destruct (vbo_policy v) as [p|p|]; [| |lia]; cbn in Hp.
    + destruct Hp as (? & ? & ? & ? & ?). pose proof (linear_vested_mono p t t' ltac:(lia) Hle).
      destruct (linear_open p t) eqn:E; [|lia].
      assert (linear_open p t' = true) as ->; [|lia]. unfold linear_open in *. bool_to_prop.
      apply andb_true_iff. rewrite Z.gtb_ltb, Z.geb_leb, Z.ltb_lt, Z.leb_le. lia.
    + destruct Hp as (Hvs & ? & ?). pose proof (vs1_bounds p Hvs).
      destruct (t <=? start_claim p) eqn:E1, (t' <=? start_claim p) eqn:E2; bool_to_prop; try lia.
      apply Z.div_le_mono; [lia|]. unfold cdd_earned. nia.
  - destruct W as (Hb & Ht & Hp). unfold allowed.
    destruct (vbo_policy v) as [p|p|]; [| |done]; cbn in Hp.
    + intros (H1 & H2 & H3). unfold linear_open, linear_vested.
      assert ((t' >? begin_timestamp p) && (t' - begin_timestamp p >=? vesting_cliff_seconds p) = true) as ->.
      { apply andb_true_iff. rewrite Z.gtb_ltb, Z.geb_leb, Z.ltb_lt, Z.leb_le. lia. }
      rewrite (proj2 (Z.ltb_ge _ _)) by lia. lia.
    + intros [H1 H2]. destruct Hp as (Hvs & ? & ?). pose proof (vs1_bounds p Hvs).
      rewrite (proj2 (Z.leb_gt _ _)) by lia. unfold cdd_earned.
      rewrite Z.min_r by nia. apply Z.div_mul. lia.
Qed.

End vesting_proofs.

(** ** Witnesses *)
Definition ex_cdd : vesting_balance_object :=
  VestingBalanceObject 17 (Asset 1000 0) (cdd_policy (CddVestingPolicy 100 20000 0 500)) vbt_cashback.

Lemma ex_cdd_wf : wf_vbo ex_cdd 550.
Proof. repeat split; by vm_compute. Qed.

Lemma vesting_withdraw_correct_witness :
  wf_vbo ex_cdd 550 ∧ is_withdraw_allowed ex_cdd 550 (Asset 300 0) = Ok true ∧
  ∃ v', withdraw ex_cdd 550 (Asset 300 0) = Ok v' ∧ allowed v' 550 = allowed ex_cdd 550 - 300.
Proof.
  split; [apply ex_cdd_wf|]. split; [reflexivity|].
  destruct (vesting_withdraw_correct ex_cdd 550 (Asset 300 0) ex_cdd_wf ltac:(by vm_compute) eq_refl)
    as (v' & H1 & _ & _ & _ & _ & H2). exists v'. split; [exact H1|exact H2].
Defined.

Lemma vesting_deposit_correct_witness :
  is_deposit_allowed ex_cdd 550 (Asset 300 0) = Ok true ∧
  ∃ v', deposit ex_cdd 550 (Asset 300 0) = Ok v' ∧ allowed v' 550 = allowed ex_cdd 550 + 0.
Proof.
  split; [reflexivity|].
  destruct (vesting_deposit_correct ex_cdd 550 (Asset 300 0) ex_cdd_wf ltac:(by vm_compute) eq_refl)
    as (v' & H1 & _ & _ & _ & H2). exists v'. split; [exact H1|exact H2].
Defined.

(** A year of cashback vesting and 3 million coins of 5 decimals. *)
Definition ex_large : vesting_balance_object :=
  VestingBalanceObject 17 (Asset 0 0) (cdd_policy (CddVestingPolicy 31536000 0 0 500)) vbt_cashback.

Lemma vesting_deposit_vested_correct_witness :
  deposit_vested ex_large 550 (Asset 300000000000 0) = Err undefined_behaviour.
Proof.
  assert (wf_vbo ex_large 550) as W by (repeat split; by vm_compute).
  exact (vesting_deposit_vested_correct ex_large 550 (Asset 300000000000 0) W ltac:(by vm_compute) eq_refl).
Defined.

Lemma vesting_allowed_progress_witness :
  get_allowed_withdraw ex_cdd 600 = Ok (Asset 1000 0).
Proof.
  destruct (vesting_allowed_progress ex_cdd 550 600 ex_cdd_wf ltac:(lia) ltac:(by vm_compute))
    as (H1 & _ & _ & H2).
  rewrite H1, H2; [reflexivity|]. by vm_compute.
Defined.
