(* ===== verification/State.v ===== *)
(** * The state of the chain: the objects of chain/database

    The object types the modelled code reads or writes, the database as a
    record with one finite map per index, and access to it by type as in
    [database::get<T>], [find<T>], [modify], [create] and [remove].  Objects
    that the source reaches through an id stored in another object but that
    exist once per account or asset (statistics, dynamic data, bitasset data)
    are keyed by that account or asset; balances are keyed by their unique
    (owner, asset) pair.

    The second half counts: a [weights] assigns a number to every object, and
    [total] adds them up.  The access operations change a total by the weights
    of the objects they touch, whatever the weights are; the conservation
    theorems of the later files are instances of this. *)

From S2P Require Import Prelude External Asset Authority Operations Block Vesting.

(** ** Hard fork times (chain/hardfork.d) *)
Definition HARDFORK_436_TIME : Z := 1450288800.
Definition HARDFORK_445_TIME : Z := 1450288800.
Definition HARDFORK_555_TIME : Z := 1456250400.
Definition HARDFORK_615_TIME : Z := 1458752400.
Definition HARDFORK_CORE_184_TIME : Z := 1532008920.
Definition HARDFORK_CORE_338_TIME : Z := 1532008920.
Definition HARDFORK_CORE_342_TIME : Z := 1532008920.
Definition HARDFORK_CORE_343_TIME : Z := 1532008920.
Definition HARDFORK_CORE_453_TIME : Z := 1532008920.
Definition HARDFORK_CORE_583_TIME : Z := 1532008920.
Definition HARDFORK_CORE_604_TIME : Z := 1532008920.
Definition HARDFORK_CORE_606_TIME : Z := 1532008920.
Definition HARDFORK_CORE_625_TIME : Z := 1532008920.
Definition HARDFORK_CORE_834_TIME : Z := 1532008920.
Definition SOFTFORK_CORE_1465_TIME : Z := 1545350400.
Definition HARDFORK_1268_TIME : Z := 1556028120.
Definition HARDFORK_480_TIME : Z := 1450378800.
Definition HARDFORK_CORE_216_TIME : Z := 1512747600.
Definition HARDFORK_CORE_584_TIME : Z := 1556028120.
Definition HARDFORK_CORE_1573_TIME : Z := 1556028120.
Definition HARDFORK_CORE_1270_TIME : Z := 1556028120.

(** ** Asset flags *)
Definition charge_market_fee : Z := 1.
Definition white_list : Z := 2.
Definition override_authority : Z := 4.
Definition transfer_restricted : Z := 8.
Definition disable_force_settle : Z := 16.
Definition global_settle : Z := 32.
Definition witness_fed_asset : Z := 128.
Definition committee_fed_asset : Z := 256.
Definition has_flag (flags f : Z) : bool := negb (Z.land flags f =? 0).

(** ** Accounts *)
Record account_statistics_object := AccountStatistics {
  total_core_in_orders : Z;
  core_in_balance : Z;
  has_cashback_vb : bool;
  lifetime_fees_paid : Z;
  pending_fees : Z;
  pending_vested_fees : Z;
  is_voting : bool;
  stats_name : String.string;
  last_vote_time : Z
}.

Record account_balance_object := AccountBalance {
  balance : Z;
  maintenance_flag : bool
}.

Record account_options := AccountOptions {
  voting_account : Z;
  num_witness : Z;
  num_committee : Z;
  votes : gset Z;
  memo_key : Z
}.
Inductive special_authority :=
| no_special_authority
| top_holders_special_authority (asset num_top_holders : Z).

Record account_object := AccountObject {
  membership_expiration_date : Z;
  registrar : Z;
  referrer : Z;
  lifetime_referrer : Z;
  network_fee_percentage : Z;
  lifetime_referrer_fee_percentage : Z;
  referrer_rewards_percentage : Z;
  whitelisting_accounts : gset Z;
  blacklisting_accounts : gset Z;
  allowed_assets : option (gset Z);
  cashback_vb : option Z;
  acc_owner : authority;
  acc_active : authority;
  acc_options : account_options;
  owner_special_authority : special_authority;
  active_special_authority : special_authority;
  top_n_control_flags : Z;
  acc_name : String.string;
  whitelisted_accounts : gset Z;
  blacklisted_accounts : gset Z
}.

(** ** Assets *)
Record asset_dynamic_data_object := AssetDynamicData {
  current_supply : Z;
  confidential_supply : Z;
  accumulated_fees : Z;
  fee_pool : Z
}.

Record asset_options := AssetOptions {
  max_supply : Z;
  market_fee_percent : Z;
  max_market_fee : Z;
  issuer_permissions : Z;
  flags : Z;
  ao_core_exchange_rate : price;
  whitelist_authorities : gset Z;
  blacklist_authorities : gset Z;
  whitelist_markets : gset Z;
  blacklist_markets : gset Z;
  reward_percent : option Z;
  whitelist_market_fee_sharing : option (gset Z);
  description : String.string
}.

Record asset_object := AssetObject {
  issuer : Z;
  ao_options : asset_options;
  bitasset_data_valid : bool;
  buyback_account : option Z;
  symbol : String.string;
  precision : Z
}.

Record bitasset_options := BitassetOptions {
  feed_lifetime_sec : Z;
  minimum_feeds : Z;
  force_settlement_delay_sec : Z;
  force_settlement_offset_percent : Z;
  maximum_force_settlement_volume : Z;
  short_backing_asset : Z
}.

Record asset_bitasset_data_object := AssetBitassetData {
  bad_options : bitasset_options;
  feeds : gmap Z (Z * price_feed);
  current_feed : price_feed;
  current_feed_publication_time : Z;
  current_maintenance_collateralization : price;
  is_prediction_market : bool;
  force_settled_volume : Z;
  bad_settlement_price : price;
  settlement_fund : Z;
  asset_cer_updated : bool;
  feed_cer_updated : bool
}.

(** ** The market *)
Record limit_order_object := LimitOrder {
  lo_expiration : Z;
  seller : Z;
  for_sale : Z;
  sell_price : price;
  deferred_fee : Z;
  deferred_paid_fee : asset
}.

Record call_order_object := CallOrder {
  borrower : Z;
  collateral : Z;
  debt : Z;
  co_call_price : price;
  target_collateral_ratio : option Z
}.

Record force_settlement_object := ForceSettlement {
  fs_owner : Z;
  fs_balance : asset;
  settlement_date : Z
}.

Record collateral_bid_object := CollateralBid {
  bidder : Z;
  inv_swan_price : price
}.

(** ** Other holders of funds *)
Record htlc_object := HtlcObject {
  htlc_from : Z;
  htlc_to : Z;
  htlc_amount : Z;
  htlc_asset_id : Z;
  preimage_hash : Z * Z;
  preimage_size : Z;
  htlc_expiration : Z
}.

Record balance_object := BalanceObject {
  bo_owner : Z;
  bo_balance : asset;
  bo_vesting_policy : option linear_vesting_policy;
  last_claim_date : Z
}.

Record withdraw_permission_object := WithdrawPermission {
  withdraw_from_account : Z;
  authorized_account : Z;
  withdrawal_limit : asset;
  withdrawal_period_sec : Z;
  period_start_time : Z;
  wp_expiration : Z;
  claimed_this_period : Z
}.

Record witness_object := WitnessObject {
  witness_account : Z;
  pay_vb : option Z;
  total_missed : Z;
  signing_key : Z;
  last_aslot : Z;
  last_confirmed_block_num : Z;
  witness_vote_id : Z;
  witness_total_votes : Z;
  witness_url : String.string
}.

(** ** Proposals *)

(** The operations and the expiration of the proposed transaction, whose other
    members are never read.  The reason of a failure is the exception its text is
    made of. *)
Record proposal_object := ProposalObject {
  proposal_expiration : Z;
  review_period_time : option Z;
  proposed_operations : list operation;
  required_active_approvals : gset Z;
  available_active_approvals : gset Z;
  required_owner_approvals : gset Z;
  available_owner_approvals : gset Z;
  available_key_approvals : gset Z;
  proposer : Z;
  fail_reason : option exn
}.

(** ** Governance *)
Record committee_member_object := CommitteeMember {
  committee_member_account : Z;
  committee_vote_id : Z;
  committee_total_votes : Z;
  committee_url : String.string
}.

Inductive worker_type :=
| refund_worker_type (total_burned : Z)
| vesting_balance_worker_type (balance : Z)
| burn_worker_type (total_burned : Z).

Record worker_object := WorkerObject {
  worker_account : Z;
  work_begin_date : Z;
  work_end_date : Z;
  daily_pay : Z;
  worker : worker_type;
  vote_for : Z;
  vote_against : Z;
  total_votes_for : Z;
  total_votes_against : Z;
  worker_name : String.string;
  worker_url : String.string
}.

Record fba_accumulator_object := FbaAccumulator {
  accumulated_fba_fees : Z;
  designated_asset : option Z
}.

Record budget_record := BudgetRecord {
  time_since_last_budget : Z;
  from_initial_reserve : Z;
  from_accumulated_fees : Z;
  from_unused_witness_budget : Z;
  requested_witness_budget : Z;
  total_budget : Z;
  rec_witness_budget : Z;
  worker_budget : Z;
  leftover_worker_funds : Z;
  supply_delta : Z
}.

(** The ids of the next objects of the tables that only configuration adds to. *)
Record id_sequences := IdSequences {
  next_account_id : Z;
  next_asset_id : Z;
  next_witness_id : Z;
  next_committee_member_id : Z;
  next_worker_id : Z;
  next_special_authority_id : Z;
  next_buyback_id : Z
}.

(** What only the maintenance of the chain and the operations that configure it use:
    the members of the committee, the workers, the accumulators of fee-backed
    assets, the assets that are bought back, the accounts with a special authority,
    the records of past budgets, two parameters fixed at genesis and the next ids. *)
Record governance_state := GovernanceState {
  committee_members : gmap Z committee_member_object;
  workers : gmap Z worker_object;
  fba_accumulators : gmap Z fba_accumulator_object;
  buybacks : gmap Z Z;
  special_authorities : gmap Z Z;
  budget_records : list (Z * budget_record);
  min_witness_count : Z;
  min_committee_member_count : Z;
  sequences : id_sequences
}.

(** ** Global properties *)
Record htlc_options := HtlcOptions { max_timeout_secs : Z; max_preimage_size : Z }.

(** The fee parameters are keyed by the tag of their operation. *)
Record chain_parameters := ChainParameters {
  op_fees : gmap Z fee_parameters;
  fee_scale : Z;
  block_interval : Z;
  maximum_block_size : Z;
  maintenance_interval : Z;
  maintenance_skip_slots : Z;
  cashback_vesting_period_seconds : Z;
  cashback_vesting_threshold : Z;
  witness_pay_per_block : Z;
  witness_pay_vesting_seconds : Z;
  reserve_percent_of_fee : Z;
  updatable_htlc_options : option htlc_options;
  maximum_time_until_expiration : Z;
  maximum_transaction_size : Z;
  max_authority_depth : nat;
  maximum_proposal_lifetime : Z;
  committee_proposal_review_period : Z;
  worker_budget_per_day : Z;
  maximum_witness_count : Z;
  maximum_committee_count : Z;
  count_non_member_votes : bool;
  accounts_per_fee_scale : Z;
  account_fee_scale_bitshifts : Z;
  maximum_authority_membership : Z;
  network_percent_of_fee : Z;
  lifetime_referrer_percent_of_fee : Z;
  allow_non_member_whitelists : bool;
  maximum_asset_whitelist_authorities : Z;
  maximum_asset_feed_publishers : Z
}.

Record global_property_object := GlobalProperties {
  parameters : chain_parameters;
  active_witnesses : list Z;
  pending_parameters : option chain_parameters;
  next_available_vote_id : Z;
  active_committee_members : list Z
}.

Record dynamic_global_property_object := DynamicGlobalProperties {
  head_block_number : Z;
  head_block_id : block_id_type;
  time : Z;
  current_witness : Z;
  next_maintenance_time : Z;
  witness_budget : Z;
  recently_missed_count : Z;
  current_aslot : Z;
  recent_slots_filled : Z;
  dynamic_flags : Z;
  last_irreversible_block_num : Z;
  accounts_registered_this_interval : Z;
  last_budget_time : Z
}.

(** The operations and virtual operations the chain records. *)
Inductive order_ref :=
| limit_ref (i : Z)
| call_ref (i : Z)
| settle_ref (i : Z).

Inductive applied_op :=
| fill_order_operation (order : order_ref) (account : Z) (pays receives fee : asset)
    (fill_price : price) (is_maker : bool)
| limit_order_cancel_operation (fee : asset) (fee_paying_account order : Z)
| asset_settle_cancel_operation (settlement account : Z) (amount : asset)
| bid_collateral_operation (bidder : Z) (additional_collateral debt_covered : asset)
| execute_bid_operation (bidder : Z) (collateral debt : asset)
| htlc_redeemed_operation (htlc from to redeemer : Z) (amount : asset)
| htlc_refund_operation (htlc to : Z)
| fba_distribute_operation (account fba_id fba_amount : Z)
| applied_operation (op : operation) (result : operation_result).

(** ** The database *)
Record database := Database {
  accounts : gmap Z account_object;
  stats : gmap Z account_statistics_object;
  balances : gmap (Z * Z) account_balance_object;
  assets : gmap Z asset_object;
  dyns : gmap Z asset_dynamic_data_object;
  bitassets : gmap Z asset_bitasset_data_object;
  limit_orders : gmap Z limit_order_object;
  call_orders : gmap Z call_order_object;
  settle_orders : gmap Z force_settlement_object;
  bids : gmap Z collateral_bid_object;
  vestings : gmap Z vesting_balance_object;
  htlcs : gmap Z htlc_object;
  genesis_balances : gmap Z balance_object;
  permissions : gmap Z withdraw_permission_object;
  witnesses : gmap Z witness_object;
  proposals : gmap Z proposal_object;
  gpo : global_property_object;
  dgpo : dynamic_global_property_object;
  shuffled_witnesses : list Z;
  next_limit : Z;
  next_call : Z;
  next_settle : Z;
  next_bid : Z;
  next_vesting : Z;
  next_htlc : Z;
  next_permission : Z;
  next_proposal : Z;
  applied_operations : list applied_op;
  issue_453_affected_assets : gset Z;
  transactions : gmap Z Z;
  block_summaries : gmap Z block_id_type;
  governance : governance_state
}.

Definition set_accounts (x : gmap Z account_object) (s : database) : database :=
  Database x (stats s) (balances s) (assets s) (dyns s) (bitassets s) (limit_orders s)
    (call_orders s) (settle_orders s) (bids s) (vestings s) (htlcs s) (genesis_balances s)
    (permissions s) (witnesses s) (proposals s) (gpo s) (dgpo s) (shuffled_witnesses s)
    (next_limit s) (next_call s) (next_settle s) (next_bid s) (next_vesting s) (next_htlc s)
    (next_permission s) (next_proposal s) (applied_operations s) (issue_453_affected_assets s)
    (transactions s) (block_summaries s) (governance s).
Definition set_stats (x : gmap Z account_statistics_object) (s : database) : database :=
  Database (accounts s) x (balances s) (assets s) (dyns s) (bitassets s) (limit_orders s)
    (call_orders s) (settle_orders s) (bids s) (vestings s) (htlcs s) (genesis_balances s)
    (permissions s) (witnesses s) (proposals s) (gpo s) (dgpo s) (shuffled_witnesses s)
    (next_limit s) (next_call s) (next_settle s) (next_bid s) (next_vesting s) (next_htlc s)
    (next_permission s) (next_proposal s) (applied_operations s) (issue_453_affected_assets s)
    (transactions s) (block_summaries s) (governance s).
Definition set_balances (x : gmap (Z * Z) account_balance_object) (s : database) : database :=
  Database (accounts s) (stats s) x (assets s) (dyns s) (bitassets s) (limit_orders s)
    (call_orders s) (settle_orders s) (bids s) (vestings s) (htlcs s) (genesis_balances s)
    (permissions s) (witnesses s) (proposals s) (gpo s) (dgpo s) (shuffled_witnesses s)
    (next_limit s) (next_call s) (next_settle s) (next_bid s) (next_vesting s) (next_htlc s)
    (next_permission s) (next_proposal s) (applied_operations s) (issue_453_affected_assets s)
    (transactions s) (block_summaries s) (governance s).
Definition set_assets (x : gmap Z asset_object) (s : database) : database :=
  Database (accounts s) (stats s) (balances s) x (dyns s) (bitassets s) (limit_orders s)
    (call_orders s) (settle_orders s) (bids s) (vestings s) (htlcs s) (genesis_balances s)
    (permissions s) (witnesses s) (proposals s) (gpo s) (dgpo s) (shuffled_witnesses s)
    (next_limit s) (next_call s) (next_settle s) (next_bid s) (next_vesting s) (next_htlc s)
    (next_permission s) (next_proposal s) (applied_operations s) (issue_453_affected_assets s)
    (transactions s) (block_summaries s) (governance s).
Definition set_dyns (x : gmap Z asset_dynamic_data_object) (s : database) : database :=
  Database (accounts s) (stats s) (balances s) (assets s) x (bitassets s) (limit_orders s)
    (call_orders s) (settle_orders s) (bids s) (vestings s) (htlcs s) (genesis_balances s)
    (permissions s) (witnesses s) (proposals s) (gpo s) (dgpo s) (shuffled_witnesses s)
    (next_limit s) (next_call s) (next_settle s) (next_bid s) (next_vesting s) (next_htlc s)
    (next_permission s) (next_proposal s) (applied_operations s) (issue_453_affected_assets s)
    (transactions s) (block_summaries s) (governance s).
Definition set_bitassets (x : gmap Z asset_bitasset_data_object) (s : database) : database :=
  Database (accounts s) (stats s) (balances s) (assets s) (dyns s) x (limit_orders s) (call_orders
    s) (settle_orders s) (bids s) (vestings s) (htlcs s) (genesis_balances s) (permissions s)
    (witnesses s) (proposals s) (gpo s) (dgpo s) (shuffled_witnesses s) (next_limit s)
    (next_call s) (next_settle s) (next_bid s) (next_vesting s) (next_htlc s) (next_permission
    s) (next_proposal s) (applied_operations s) (issue_453_affected_assets s) (transactions s)
    (block_summaries s) (governance s).
Definition set_limit_orders (x : gmap Z limit_order_object) (s : database) : database :=
  Database (accounts s) (stats s) (balances s) (assets s) (dyns s) (bitassets s) x (call_orders s)
    (settle_orders s) (bids s) (vestings s) (htlcs s) (genesis_balances s) (permissions s)
    (witnesses s) (proposals s) (gpo s) (dgpo s) (shuffled_witnesses s) (next_limit s)
    (next_call s) (next_settle s) (next_bid s) (next_vesting s) (next_htlc s) (next_permission
    s) (next_proposal s) (applied_operations s) (issue_453_affected_assets s) (transactions s)
    (block_summaries s) (governance s).
Definition set_call_orders (x : gmap Z call_order_object) (s : database) : database :=
  Database (accounts s) (stats s) (balances s) (assets s) (dyns s) (bitassets s) (limit_orders s)
    x (settle_orders s) (bids s) (vestings s) (htlcs s) (genesis_balances s) (permissions s)
    (witnesses s) (proposals s) (gpo s) (dgpo s) (shuffled_witnesses s) (next_limit s)
    (next_call s) (next_settle s) (next_bid s) (next_vesting s) (next_htlc s) (next_permission
    s) (next_proposal s) (applied_operations s) (issue_453_affected_assets s) (transactions s)
    (block_summaries s) (governance s).
Definition set_settle_orders (x : gmap Z force_settlement_object) (s : database) : database :=
  Database (accounts s) (stats s) (balances s) (assets s) (dyns s) (bitassets s) (limit_orders s)
    (call_orders s) x (bids s) (vestings s) (htlcs s) (genesis_balances s) (permissions s)
    (witnesses s) (proposals s) (gpo s) (dgpo s) (shuffled_witnesses s) (next_limit s)
    (next_call s) (next_settle s) (next_bid s) (next_vesting s) (next_htlc s) (next_permission
    s) (next_proposal s) (applied_operations s) (issue_453_affected_assets s) (transactions s)
    (block_summaries s) (governance s).
Definition set_bids (x : gmap Z collateral_bid_object) (s : database) : database :=
  Database (accounts s) (stats s) (balances s) (assets s) (dyns s) (bitassets s) (limit_orders s)
    (call_orders s) (settle_orders s) x (vestings s) (htlcs s) (genesis_balances s) (permissions
    s) (witnesses s) (proposals s) (gpo s) (dgpo s) (shuffled_witnesses s) (next_limit s)
    (next_call s) (next_settle s) (next_bid s) (next_vesting s) (next_htlc s) (next_permission
    s) (next_proposal s) (applied_operations s) (issue_453_affected_assets s) (transactions s)
    (block_summaries s) (governance s).
Definition set_vestings (x : gmap Z vesting_balance_object) (s : database) : database :=
  Database (accounts s) (stats s) (balances s) (assets s) (dyns s) (bitassets s) (limit_orders s)
    (call_orders s) (settle_orders s) (bids s) x (htlcs s) (genesis_balances s) (permissions s)
    (witnesses s) (proposals s) (gpo s) (dgpo s) (shuffled_witnesses s) (next_limit s)
    (next_call s) (next_settle s) (next_bid s) (next_vesting s) (next_htlc s) (next_permission
    s) (next_proposal s) (applied_operations s) (issue_453_affected_assets s) (transactions s)
    (block_summaries s) (governance s).
Definition set_htlcs (x : gmap Z htlc_object) (s : database) : database :=
  Database (accounts s) (stats s) (balances s) (assets s) (dyns s) (bitassets s) (limit_orders s)
    (call_orders s) (settle_orders s) (bids s) (vestings s) x (genesis_balances s) (permissions
    s) (witnesses s) (proposals s) (gpo s) (dgpo s) (shuffled_witnesses s) (next_limit s)
    (next_call s) (next_settle s) (next_bid s) (next_vesting s) (next_htlc s) (next_permission
    s) (next_proposal s) (applied_operations s) (issue_453_affected_assets s) (transactions s)
    (block_summaries s) (governance s).
Definition set_genesis_balances (x : gmap Z balance_object) (s : database) : database :=
  Database (accounts s) (stats s) (balances s) (assets s) (dyns s) (bitassets s) (limit_orders s)
    (call_orders s) (settle_orders s) (bids s) (vestings s) (htlcs s) x (permissions s)
    (witnesses s) (proposals s) (gpo s) (dgpo s) (shuffled_witnesses s) (next_limit s)
    (next_call s) (next_settle s) (next_bid s) (next_vesting s) (next_htlc s) (next_permission
    s) (next_proposal s) (applied_operations s) (issue_453_affected_assets s) (transactions s)
    (block_summaries s) (governance s).
Definition set_permissions (x : gmap Z withdraw_permission_object) (s : database) : database :=
  Database (accounts s) (stats s) (balances s) (assets s) (dyns s) (bitassets s) (limit_orders s)
    (call_orders s) (settle_orders s) (bids s) (vestings s) (htlcs s) (genesis_balances s) x
    (witnesses s) (proposals s) (gpo s) (dgpo s) (shuffled_witnesses s) (next_limit s)
    (next_call s) (next_settle s) (next_bid s) (next_vesting s) (next_htlc s) (next_permission
    s) (next_proposal s) (applied_operations s) (issue_453_affected_assets s) (transactions s)
    (block_summaries s) (governance s).
Definition set_witnesses (x : gmap Z witness_object) (s : database) : database :=
  Database (accounts s) (stats s) (balances s) (assets s) (dyns s) (bitassets s) (limit_orders s)
    (call_orders s) (settle_orders s) (bids s) (vestings s) (htlcs s) (genesis_balances s)
    (permissions s) x (proposals s) (gpo s) (dgpo s) (shuffled_witnesses s) (next_limit s)
    (next_call s) (next_settle s) (next_bid s) (next_vesting s) (next_htlc s) (next_permission
    s) (next_proposal s) (applied_operations s) (issue_453_affected_assets s) (transactions s)
    (block_summaries s) (governance s).
Definition set_proposals (x : gmap Z proposal_object) (s : database) : database :=
  Database (accounts s) (stats s) (balances s) (assets s) (dyns s) (bitassets s) (limit_orders s)
    (call_orders s) (settle_orders s) (bids s) (vestings s) (htlcs s) (genesis_balances s)
    (permissions s) (witnesses s) x (gpo s) (dgpo s) (shuffled_witnesses s) (next_limit s)
    (next_call s) (next_settle s) (next_bid s) (next_vesting s) (next_htlc s) (next_permission
    s) (next_proposal s) (applied_operations s) (issue_453_affected_assets s) (transactions s)
    (block_summaries s) (governance s).
Definition set_gpo (x : global_property_object) (s : database) : database :=
  Database (accounts s) (stats s) (balances s) (assets s) (dyns s) (bitassets s) (limit_orders s)
    (call_orders s) (settle_orders s) (bids s) (vestings s) (htlcs s) (genesis_balances s)
    (permissions s) (witnesses s) (proposals s) x (dgpo s) (shuffled_witnesses s) (next_limit s)
    (next_call s) (next_settle s) (next_bid s) (next_vesting s) (next_htlc s) (next_permission
    s) (next_proposal s) (applied_operations s) (issue_453_affected_assets s) (transactions s)
    (block_summaries s) (governance s).
Definition set_dgpo (x : dynamic_global_property_object) (s : database) : database :=
  Database (accounts s) (stats s) (balances s) (assets s) (dyns s) (bitassets s) (limit_orders s)
    (call_orders s) (settle_orders s) (bids s) (vestings s) (htlcs s) (genesis_balances s)
    (permissions s) (witnesses s) (proposals s) (gpo s) x (shuffled_witnesses s) (next_limit s)
    (next_call s) (next_settle s) (next_bid s) (next_vesting s) (next_htlc s) (next_permission
    s) (next_proposal s) (applied_operations s) (issue_453_affected_assets s) (transactions s)
    (block_summaries s) (governance s).
Definition set_shuffled_witnesses (x : list Z) (s : database) : database :=
  Database (accounts s) (stats s) (balances s) (assets s) (dyns s) (bitassets s) (limit_orders s)
    (call_orders s) (settle_orders s) (bids s) (vestings s) (htlcs s) (genesis_balances s)
    (permissions s) (witnesses s) (proposals s) (gpo s) (dgpo s) x (next_limit s) (next_call s)
    (next_settle s) (next_bid s) (next_vesting s) (next_htlc s) (next_permission s)
    (next_proposal s) (applied_operations s) (issue_453_affected_assets s) (transactions s)
    (block_summaries s) (governance s).
Definition set_next_limit (x : Z) (s : database) : database :=
  Database (accounts s) (stats s) (balances s) (assets s) (dyns s) (bitassets s) (limit_orders s)
    (call_orders s) (settle_orders s) (bids s) (vestings s) (htlcs s) (genesis_balances s)
    (permissions s) (witnesses s) (proposals s) (gpo s) (dgpo s) (shuffled_witnesses s) x
    (next_call s) (next_settle s) (next_bid s) (next_vesting s) (next_htlc s) (next_permission
    s) (next_proposal s) (applied_operations s) (issue_453_affected_assets s) (transactions s)
    (block_summaries s) (governance s).
Definition set_next_call (x : Z) (s : database) : database :=
  Database (accounts s) (stats s) (balances s) (assets s) (dyns s) (bitassets s) (limit_orders s)
    (call_orders s) (settle_orders s) (bids s) (vestings s) (htlcs s) (genesis_balances s)
    (permissions s) (witnesses s) (proposals s) (gpo s) (dgpo s) (shuffled_witnesses s)
    (next_limit s) x (next_settle s) (next_bid s) (next_vesting s) (next_htlc s)
    (next_permission s) (next_proposal s) (applied_operations s) (issue_453_affected_assets s)
    (transactions s) (block_summaries s) (governance s).
Definition set_next_settle (x : Z) (s : database) : database :=
  Database (accounts s) (stats s) (balances s) (assets s) (dyns s) (bitassets s) (limit_orders s)
    (call_orders s) (settle_orders s) (bids s) (vestings s) (htlcs s) (genesis_balances s)
    (permissions s) (witnesses s) (proposals s) (gpo s) (dgpo s) (shuffled_witnesses s)
    (next_limit s) (next_call s) x (next_bid s) (next_vesting s) (next_htlc s) (next_permission
    s) (next_proposal s) (applied_operations s) (issue_453_affected_assets s) (transactions s)
    (block_summaries s) (governance s).
Definition set_next_bid (x : Z) (s : database) : database :=
  Database (accounts s) (stats s) (balances s) (assets s) (dyns s) (bitassets s) (limit_orders s)
    (call_orders s) (settle_orders s) (bids s) (vestings s) (htlcs s) (genesis_balances s)
    (permissions s) (witnesses s) (proposals s) (gpo s) (dgpo s) (shuffled_witnesses s)
    (next_limit s) (next_call s) (next_settle s) x (next_vesting s) (next_htlc s)
    (next_permission s) (next_proposal s) (applied_operations s) (issue_453_affected_assets s)
    (transactions s) (block_summaries s) (governance s).
Definition set_next_vesting (x : Z) (s : database) : database :=
  Database (accounts s) (stats s) (balances s) (assets s) (dyns s) (bitassets s) (limit_orders s)
    (call_orders s) (settle_orders s) (bids s) (vestings s) (htlcs s) (genesis_balances s)
    (permissions s) (witnesses s) (proposals s) (gpo s) (dgpo s) (shuffled_witnesses s)
    (next_limit s) (next_call s) (next_settle s) (next_bid s) x (next_htlc s) (next_permission
    s) (next_proposal s) (applied_operations s) (issue_453_affected_assets s) (transactions s)
    (block_summaries s) (governance s).
Definition set_next_htlc (x : Z) (s : database) : database :=
  Database (accounts s) (stats s) (balances s) (assets s) (dyns s) (bitassets s) (limit_orders s)
    (call_orders s) (settle_orders s) (bids s) (vestings s) (htlcs s) (genesis_balances s)
    (permissions s) (witnesses s) (proposals s) (gpo s) (dgpo s) (shuffled_witnesses s)
    (next_limit s) (next_call s) (next_settle s) (next_bid s) (next_vesting s) x
    (next_permission s) (next_proposal s) (applied_operations s) (issue_453_affected_assets s)
    (transactions s) (block_summaries s) (governance s).
Definition set_next_permission (x : Z) (s : database) : database :=
  Database (accounts s) (stats s) (balances s) (assets s) (dyns s) (bitassets s) (limit_orders s)
    (call_orders s) (settle_orders s) (bids s) (vestings s) (htlcs s) (genesis_balances s)
    (permissions s) (witnesses s) (proposals s) (gpo s) (dgpo s) (shuffled_witnesses s)
    (next_limit s) (next_call s) (next_settle s) (next_bid s) (next_vesting s) (next_htlc s) x
    (next_proposal s) (applied_operations s) (issue_453_affected_assets s) (transactions s)
    (block_summaries s) (governance s).
Definition set_next_proposal (x : Z) (s : database) : database :=
  Database (accounts s) (stats s) (balances s) (assets s) (dyns s) (bitassets s) (limit_orders s)
    (call_orders s) (settle_orders s) (bids s) (vestings s) (htlcs s) (genesis_balances s)
    (permissions s) (witnesses s) (proposals s) (gpo s) (dgpo s) (shuffled_witnesses s)
    (next_limit s) (next_call s) (next_settle s) (next_bid s) (next_vesting s) (next_htlc s)
    (next_permission s) x (applied_operations s) (issue_453_affected_assets s) (transactions s)
    (block_summaries s) (governance s).
Definition set_applied_operations (x : list applied_op) (s : database) : database :=
  Database (accounts s) (stats s) (balances s) (assets s) (dyns s) (bitassets s) (limit_orders s)
    (call_orders s) (settle_orders s) (bids s) (vestings s) (htlcs s) (genesis_balances s)
    (permissions s) (witnesses s) (proposals s) (gpo s) (dgpo s) (shuffled_witnesses s)
    (next_limit s) (next_call s) (next_settle s) (next_bid s) (next_vesting s) (next_htlc s)
    (next_permission s) (next_proposal s) x (issue_453_affected_assets s) (transactions s)
    (block_summaries s) (governance s).
Definition set_issue_453_affected_assets (x : gset Z) (s : database) : database :=
  Database (accounts s) (stats s) (balances s) (assets s) (dyns s) (bitassets s) (limit_orders s)
    (call_orders s) (settle_orders s) (bids s) (vestings s) (htlcs s) (genesis_balances s)
    (permissions s) (witnesses s) (proposals s) (gpo s) (dgpo s) (shuffled_witnesses s)
    (next_limit s) (next_call s) (next_settle s) (next_bid s) (next_vesting s) (next_htlc s)
    (next_permission s) (next_proposal s) (applied_operations s) x (transactions s)
    (block_summaries s) (governance s).
Definition set_transactions (x : gmap Z Z) (s : database) : database :=
  Database (accounts s) (stats s) (balances s) (assets s) (dyns s) (bitassets s) (limit_orders s)
    (call_orders s) (settle_orders s) (bids s) (vestings s) (htlcs s) (genesis_balances s)
    (permissions s) (witnesses s) (proposals s) (gpo s) (dgpo s) (shuffled_witnesses s)
    (next_limit s) (next_call s) (next_settle s) (next_bid s) (next_vesting s) (next_htlc s)
    (next_permission s) (next_proposal s) (applied_operations s) (issue_453_affected_assets s) x
    (block_summaries s) (governance s).
Definition set_block_summaries (x : gmap Z block_id_type) (s : database) : database :=
  Database (accounts s) (stats s) (balances s) (assets s) (dyns s) (bitassets s) (limit_orders s)
    (call_orders s) (settle_orders s) (bids s) (vestings s) (htlcs s) (genesis_balances s)
    (permissions s) (witnesses s) (proposals s) (gpo s) (dgpo s) (shuffled_witnesses s)
    (next_limit s) (next_call s) (next_settle s) (next_bid s) (next_vesting s) (next_htlc s)
    (next_permission s) (next_proposal s) (applied_operations s) (issue_453_affected_assets s)
    (transactions s) x (governance s).
Definition set_governance (x : governance_state) (s : database) : database :=
  Database (accounts s) (stats s) (balances s) (assets s) (dyns s) (bitassets s) (limit_orders s)
    (call_orders s) (settle_orders s) (bids s) (vestings s) (htlcs s) (genesis_balances s)
    (permissions s) (witnesses s) (proposals s) (gpo s) (dgpo s) (shuffled_witnesses s)
    (next_limit s) (next_call s) (next_settle s) (next_bid s) (next_vesting s) (next_htlc s)
    (next_permission s) (next_proposal s) (applied_operations s) (issue_453_affected_assets s)
    (transactions s) (block_summaries s) x.

(** ** Weights *)
Record weights := Weights {
  w_stats : Z → account_statistics_object → Z;
  w_balance : Z * Z → account_balance_object → Z;
  w_dyn : Z → asset_dynamic_data_object → Z;
  w_bitasset : Z → asset_bitasset_data_object → Z;
  w_limit : Z → limit_order_object → Z;
  w_call : Z → call_order_object → Z;
  w_settle : Z → force_settlement_object → Z;
  w_bid : Z → collateral_bid_object → Z;
  w_vesting : Z → vesting_balance_object → Z;
  w_htlc : Z → htlc_object → Z;
  w_genesis : Z → balance_object → Z;
  w_fba : Z → fba_accumulator_object → Z;
  w_dgpo : dynamic_global_property_object → Z
}.

(** The sum of the weights of all objects. *)
Definition total (μ : weights) (s : database) : Z :=
  sum_map (w_stats μ) (stats s) +
  sum_map (w_balance μ) (balances s) +
  sum_map (w_dyn μ) (dyns s) +
  sum_map (w_bitasset μ) (bitassets s) +
  sum_map (w_limit μ) (limit_orders s) +
  sum_map (w_call μ) (call_orders s) +
  sum_map (w_settle μ) (settle_orders s) +
  sum_map (w_bid μ) (bids s) +
  sum_map (w_vesting μ) (vestings s) +
  sum_map (w_htlc μ) (htlcs s) +
  sum_map (w_genesis μ) (genesis_balances s) +
  sum_map (w_fba μ) (fba_accumulators (governance s)) +
  w_dgpo μ (dgpo s).

Class Table (K V : Type) `{Countable K} := {
  tbl : database → gmap K V;
  set_tbl : gmap K V → database → database;
  w_of : weights → K → V → Z;
  tbl_set_tbl m s : tbl (set_tbl m s) = m;
  total_set_tbl μ m s :
    total μ (set_tbl m s) = total μ s - sum_map (w_of μ) (tbl s) + sum_map (w_of μ) m
}.

#[export, refine] Instance accounts_table : Table Z account_object :=
  {| tbl := accounts; set_tbl := set_accounts; w_of := λ _ _ _, 0 |}.
Proof. - done. - intros. rewrite !sum_map_zero. unfold total. cbn. lia. Defined.
#[export, refine] Instance stats_table : Table Z account_statistics_object :=
  {| tbl := stats; set_tbl := set_stats; w_of := w_stats |}.
Proof. - done. - intros. unfold total. cbn. lia. Defined.
#[export, refine] Instance balances_table : Table (Z * Z) account_balance_object :=
  {| tbl := balances; set_tbl := set_balances; w_of := w_balance |}.
Proof. - done. - intros. unfold total. cbn. lia. Defined.
#[export, refine] Instance assets_table : Table Z asset_object :=
  {| tbl := assets; set_tbl := set_assets; w_of := λ _ _ _, 0 |}.
Proof. - done. - intros. rewrite !sum_map_zero. unfold total. cbn. lia. Defined.
#[export, refine] Instance dyns_table : Table Z asset_dynamic_data_object :=
  {| tbl := dyns; set_tbl := set_dyns; w_of := w_dyn |}.
Proof. - done. - intros. unfold total. cbn. lia. Defined.
#[export, refine] Instance bitassets_table : Table Z asset_bitasset_data_object :=
  {| tbl := bitassets; set_tbl := set_bitassets; w_of := w_bitasset |}.
Proof. - done. - intros. unfold total. cbn. lia. Defined.
#[export, refine] Instance limit_orders_table : Table Z limit_order_object :=
  {| tbl := limit_orders; set_tbl := set_limit_orders; w_of := w_limit |}.
Proof. - done. - intros. unfold total. cbn. lia. Defined.
#[export, refine] Instance call_orders_table : Table Z call_order_object :=
  {| tbl := call_orders; set_tbl := set_call_orders; w_of := w_call |}.
Proof. - done. - intros. unfold total. cbn. lia. Defined.
#[export, refine] Instance settle_orders_table : Table Z force_settlement_object :=
  {| tbl := settle_orders; set_tbl := set_settle_orders; w_of := w_settle |}.
Proof. - done. - intros. unfold total. cbn. lia. Defined.
#[export, refine] Instance bids_table : Table Z collateral_bid_object :=
  {| tbl := bids; set_tbl := set_bids; w_of := w_bid |}.
Proof. - done. - intros. unfold total. cbn. lia. Defined.
#[export, refine] Instance vestings_table : Table Z vesting_balance_object :=
  {| tbl := vestings; set_tbl := set_vestings; w_of := w_vesting |}.
Proof. - done. - intros. unfold total. cbn. lia. Defined.
#[export, refine] Instance htlcs_table : Table Z htlc_object :=
  {| tbl := htlcs; set_tbl := set_htlcs; w_of := w_htlc |}.
Proof. - done. - intros. unfold total. cbn. lia. Defined.
#[export, refine] Instance genesis_balances_table : Table Z balance_object :=
  {| tbl := genesis_balances; set_tbl := set_genesis_balances; w_of := w_genesis |}.
Proof. - done. - intros. unfold total. cbn. lia. Defined.
#[export, refine] Instance permissions_table : Table Z withdraw_permission_object :=
  {| tbl := permissions; set_tbl := set_permissions; w_of := λ _ _ _, 0 |}.
Proof. - done. - intros. rewrite !sum_map_zero. unfold total. cbn. lia. Defined.
#[export, refine] Instance witnesses_table : Table Z witness_object :=
  {| tbl := witnesses; set_tbl := set_witnesses; w_of := λ _ _ _, 0 |}.
Proof. - done. - intros. rewrite !sum_map_zero. unfold total. cbn. lia. Defined.
#[export, refine] Instance proposals_table : Table Z proposal_object :=
  {| tbl := proposals; set_tbl := set_proposals; w_of := λ _ _ _, 0 |}.
Proof. - done. - intros. rewrite !sum_map_zero. unfold total. cbn. lia. Defined.

(** The tables of the governance state. *)
Definition set_committee_members (x : gmap Z committee_member_object) (s : database) : database :=
  let g := governance s in
  set_governance (GovernanceState x (workers g) (fba_accumulators g) (buybacks g) (special_authorities g)
    (budget_records g) (min_witness_count g) (min_committee_member_count g) (sequences g)) s.
Definition set_workers (x : gmap Z worker_object) (s : database) : database :=
  let g := governance s in
  set_governance (GovernanceState (committee_members g) x (fba_accumulators g) (buybacks g) (special_authorities g)
    (budget_records g) (min_witness_count g) (min_committee_member_count g) (sequences g)) s.
Definition set_fba_accumulators (x : gmap Z fba_accumulator_object) (s : database) : database :=
  let g := governance s in
  set_governance (GovernanceState (committee_members g) (workers g) x (buybacks g) (special_authorities g)
    (budget_records g) (min_witness_count g) (min_committee_member_count g) (sequences g)) s.
Definition set_budget_records (x : list (Z * budget_record)) (s : database) : database :=
  let g := governance s in
  set_governance (GovernanceState (committee_members g) (workers g) (fba_accumulators g) (buybacks g)
    (special_authorities g) x (min_witness_count g) (min_committee_member_count g) (sequences g)) s.

Definition set_buybacks (x : gmap Z Z) (s : database) : database :=
  let g := governance s in
  set_governance (GovernanceState (committee_members g) (workers g) (fba_accumulators g) x
    (special_authorities g) (budget_records g) (min_witness_count g) (min_committee_member_count g) (sequences g)) s.
Definition set_special_authorities (x : gmap Z Z) (s : database) : database :=
  let g := governance s in
  set_governance (GovernanceState (committee_members g) (workers g) (fba_accumulators g) (buybacks g)
    x (budget_records g) (min_witness_count g) (min_committee_member_count g) (sequences g)) s.
Definition set_sequences (f : id_sequences → id_sequences) (s : database) : database :=
  let g := governance s in
  set_governance (GovernanceState (committee_members g) (workers g) (fba_accumulators g) (buybacks g)
    (special_authorities g) (budget_records g) (min_witness_count g) (min_committee_member_count g) (f (sequences g))) s.

#[export, refine] Instance committee_members_table : Table Z committee_member_object :=
  {| tbl := λ s, committee_members (governance s); set_tbl := set_committee_members; w_of := λ _ _ _, 0 |}.
Proof. - done. - intros. rewrite !sum_map_zero. unfold total. cbn. lia. Defined.
#[export, refine] Instance workers_table : Table Z worker_object :=
  {| tbl := λ s, workers (governance s); set_tbl := set_workers; w_of := λ _ _ _, 0 |}.
Proof. - done. - intros. rewrite !sum_map_zero. unfold total. cbn. lia. Defined.
#[export, refine] Instance fba_accumulators_table : Table Z fba_accumulator_object :=
  {| tbl := λ s, fba_accumulators (governance s); set_tbl := set_fba_accumulators; w_of := w_fba |}.
Proof. - done. - intros. unfold total. cbn. lia. Defined.

(** Bookkeeping that no weight sees. *)
Lemma total_set_issue μ s x : total μ (set_issue_453_affected_assets x s) = total μ s.
Proof. unfold total. reflexivity. Qed.
Lemma total_set_applied μ s x : total μ (set_applied_operations x s) = total μ s.
Proof. unfold total. reflexivity. Qed.
Lemma total_set_transactions μ s x : total μ (set_transactions x s) = total μ s.
Proof. unfold total. reflexivity. Qed.
Lemma total_set_summaries μ s x : total μ (set_block_summaries x s) = total μ s.
Proof. unfold total. reflexivity. Qed.
Lemma total_set_shuffled μ s x : total μ (set_shuffled_witnesses x s) = total μ s.
Proof. unfold total. reflexivity. Qed.
Lemma total_set_gpo μ s x : total μ (set_gpo x s) = total μ s.
Proof. unfold total. reflexivity. Qed.
Lemma total_set_dgpo μ s x : total μ (set_dgpo x s) = total μ s - w_dgpo μ (dgpo s) + w_dgpo μ x.
Proof. unfold total. cbn. lia. Qed.
Lemma total_set_budget_records μ s x : total μ (set_budget_records x s) = total μ s.
Proof. unfold total. reflexivity. Qed.

Class Sequence (V : Type) := {
  next_id : database → Z;
  set_next : Z → database → database;
  total_set_next μ n s : total μ (set_next n s) = total μ s
}.

#[export, refine] Instance limit_sequence : Sequence limit_order_object :=
  {| next_id := next_limit; set_next := set_next_limit |}.
Proof. intros. unfold total. reflexivity. Defined.
#[export, refine] Instance call_sequence : Sequence call_order_object :=
  {| next_id := next_call; set_next := set_next_call |}.
Proof. intros. unfold total. reflexivity. Defined.
#[export, refine] Instance settle_sequence : Sequence force_settlement_object :=
  {| next_id := next_settle; set_next := set_next_settle |}.
Proof. intros. unfold total. reflexivity. Defined.
#[export, refine] Instance bid_sequence : Sequence collateral_bid_object :=
  {| next_id := next_bid; set_next := set_next_bid |}.
Proof. intros. unfold total. reflexivity. Defined.
#[export, refine] Instance vesting_sequence : Sequence vesting_balance_object :=
  {| next_id := next_vesting; set_next := set_next_vesting |}.
Proof. intros. unfold total. reflexivity. Defined.
#[export, refine] Instance htlc_sequence : Sequence htlc_object :=
  {| next_id := next_htlc; set_next := set_next_htlc |}.
Proof. intros. unfold total. reflexivity. Defined.
#[export, refine] Instance permission_sequence : Sequence withdraw_permission_object :=
  {| next_id := next_permission; set_next := set_next_permission |}.
Proof. intros. unfold total. reflexivity. Defined.
#[export, refine] Instance account_sequence : Sequence account_object :=
  {| next_id := λ s, next_account_id (sequences (governance s));
     set_next := λ x, set_sequences (λ q, IdSequences x (next_asset_id q) (next_witness_id q) (next_committee_member_id q) (next_worker_id q) (next_special_authority_id q) (next_buyback_id q)) |}.
Proof. intros. unfold total. reflexivity. Defined.
#[export, refine] Instance asset_sequence : Sequence asset_object :=
  {| next_id := λ s, next_asset_id (sequences (governance s));
     set_next := λ x, set_sequences (λ q, IdSequences (next_account_id q) x (next_witness_id q) (next_committee_member_id q) (next_worker_id q) (next_special_authority_id q) (next_buyback_id q)) |}.
Proof. intros. unfold total. reflexivity. Defined.
#[export, refine] Instance witness_sequence : Sequence witness_object :=
  {| next_id := λ s, next_witness_id (sequences (governance s));
     set_next := λ x, set_sequences (λ q, IdSequences (next_account_id q) (next_asset_id q) x (next_committee_member_id q) (next_worker_id q) (next_special_authority_id q) (next_buyback_id q)) |}.
Proof. intros. unfold total. reflexivity. Defined.
#[export, refine] Instance committee_member_sequence : Sequence committee_member_object :=
  {| next_id := λ s, next_committee_member_id (sequences (governance s));
     set_next := λ x, set_sequences (λ q, IdSequences (next_account_id q) (next_asset_id q) (next_witness_id q) x (next_worker_id q) (next_special_authority_id q) (next_buyback_id q)) |}.
Proof. intros. unfold total. reflexivity. Defined.
#[export, refine] Instance worker_sequence : Sequence worker_object :=
  {| next_id := λ s, next_worker_id (sequences (governance s));
     set_next := λ x, set_sequences (λ q, IdSequences (next_account_id q) (next_asset_id q) (next_witness_id q) (next_committee_member_id q) x (next_special_authority_id q) (next_buyback_id q)) |}.
Proof. intros. unfold total. reflexivity. Defined.
#[export, refine] Instance proposal_sequence : Sequence proposal_object :=
  {| next_id := next_proposal; set_next := set_next_proposal |}.
Proof. intros. unfold total. reflexivity. Defined.

(** ** Access by type *)

(** Unique keys of an index other than the id: at most one debt position per
    borrower and debt asset, one bid per bidder and asset, one market fee
    sharing balance per owner and asset. *)
Class Unique (V : Type) := conflict : V → V → bool.
#[export] Instance limit_order_unique : Unique limit_order_object := λ _ _, false.
#[export] Instance call_order_unique : Unique call_order_object := λ a b,
  (borrower a =? borrower b)
  && (asset_id (quote (co_call_price a)) =? asset_id (quote (co_call_price b))).
#[export] Instance force_settlement_unique : Unique force_settlement_object := λ _ _, false.
#[export] Instance collateral_bid_unique : Unique collateral_bid_object := λ a b,
  (bidder a =? bidder b)
  && (asset_id (quote (inv_swan_price a)) =? asset_id (quote (inv_swan_price b))).
#[export] Instance vesting_balance_unique : Unique vesting_balance_object := λ a b,
  bool_decide (vbo_balance_type a = vbt_market_fee_sharing)
  && bool_decide (vbo_balance_type b = vbt_market_fee_sharing)
  && (vbo_owner a =? vbo_owner b) && (asset_id (vbo_balance a) =? asset_id (vbo_balance b)).
#[export] Instance htlc_unique : Unique htlc_object := λ _ _, false.
#[export] Instance withdraw_permission_unique : Unique withdraw_permission_object := λ _ _, false.
#[export] Instance account_unique : Unique account_object := λ _ _, false.
#[export] Instance account_statistics_unique : Unique account_statistics_object := λ _ _, false.
#[export] Instance account_balance_unique : Unique account_balance_object := λ _ _, false.
#[export] Instance asset_unique : Unique asset_object := λ _ _, false.
#[export] Instance asset_dynamic_data_unique : Unique asset_dynamic_data_object := λ _ _, false.
#[export] Instance asset_bitasset_data_unique : Unique asset_bitasset_data_object := λ _ _, false.
#[export] Instance balance_unique : Unique balance_object := λ _ _, false.
#[export] Instance witness_unique : Unique witness_object := λ _ _, false.
#[export] Instance proposal_unique : Unique proposal_object := λ _ _, false.
#[export] Instance committee_member_unique : Unique committee_member_object := λ _ _, false.
#[export] Instance worker_unique : Unique worker_object := λ _ _, false.
#[export] Instance fba_accumulator_unique : Unique fba_accumulator_object := λ _ _, false.

Section access.
Context {K V : Type} `{Table K V} `{!Unique V}.

Definition get (k : K) : M database V := λ s,
  match tbl s !! k with Some v => Ok (v, s) | None => Err assert_exception end.
Definition find (k : K) : M database (option V) := λ s, Ok (tbl s !! k, s).

(** Whether a value collides with an object other than the one at [k]. *)
Definition collides (k : K) (v : V) (s : database) : bool :=
  existsb (λ x, negb (bool_decide (x.1 = k)) && conflict v x.2) (map_to_list (tbl (V:=V) s)).

Definition modify (k : K) (f : V → result V) : M database unit := λ s,
  match tbl s !! k with
  | None => Err undefined_behaviour
  | Some v =>
      match f v with
      | Err e => Err e
      | Ok w => if collides k w s then Err assert_exception
                else Ok (tt, set_tbl (<[k := w]> (tbl s)) s)
      end
  end.

Definition add (k : K) (v : V) : M database unit := λ s,
  match tbl (V:=V) s !! k with
  | Some _ => Err assert_exception
  | None => if collides k v s then Err assert_exception
            else Ok (tt, set_tbl (<[k := v]> (tbl s)) s)
  end.

Definition remove (k : K) : M database unit := λ s,
  match tbl (V:=V) s !! k with
  | None => Err undefined_behaviour
  | Some _ => Ok (tt, set_tbl (delete k (tbl (V:=V) s)) s)
  end.

Lemma total_modify μ k f s s' :
  modify k f s = Ok (tt, s') →
  ∃ v w, tbl s !! k = Some v ∧ f v = Ok w ∧ s' = set_tbl (<[k := w]> (tbl s)) s ∧
    total μ s' = total μ s - w_of μ k v + w_of μ k w.
Proof.
  unfold modify. destruct (tbl s !! k) as [v|] eqn:E; [|done].
  destruct (f v) as [w|] eqn:Ef; [|done]. destruct (collides _ _ _); [done|]. intros [= <-].
  exists v, w. split_and!; try done. rewrite total_set_tbl, (sum_map_insert _ _ _ _ _ E). lia.
Qed.

Lemma total_add μ k v s s' :
  add k v s = Ok (tt, s') →
  tbl s !! k = None ∧ s' = set_tbl (<[k := v]> (tbl s)) s ∧ total μ s' = total μ s + w_of μ k v.
Proof.
  unfold add. destruct (tbl s !! k) as [|] eqn:E; [done|]. destruct (collides _ _ _); [done|].
  intros [= <-]. split_and!; try done. rewrite total_set_tbl, sum_map_insert_new by done. lia.
Qed.

Lemma total_remove μ k s s' :
  remove k s = Ok (tt, s') →
  ∃ v, tbl (V:=V) s !! k = Some v ∧ s' = set_tbl (delete k (tbl (V:=V) s)) s ∧
    total μ s' = total μ s - w_of μ k v.
Proof.
  unfold remove. destruct (tbl s !! k) as [v|] eqn:E; [|done]. intros [= <-].
  exists v. split_and!; try done. rewrite total_set_tbl, (sum_map_delete _ _ _ _ E). lia.
Qed.

Lemma get_Ok k s v s' : get k s = Ok (v, s') → s' = s ∧ tbl s !! k = Some v.
Proof. unfold get. destruct (tbl s !! k); [|done]. by intros [= -> ->]. Qed.
Lemma find_Ok k s v s' : find k s = Ok (v, s') → s' = s ∧ v = tbl s !! k.
Proof. unfold find. by intros [= <- <-]. Qed.

End access.

(** [create]: the constructor gets the id. *)
Section create.
Context {V : Type} `{Table Z V} `{!Unique V} `{!Sequence V}.

Definition create (f : Z → V) : M database Z := λ s,
  let i := next_id (V:=V) s in
  match add i (f i) s with
  | Err e => Err e
  | Ok (_, s1) => Ok (i, set_next (V:=V) (i + 1) s1)
  end.

Lemma total_create μ f s i s' :
  create f s = Ok (i, s') → total μ s' = total μ s + w_of μ i (f i) ∧ i = next_id (V:=V) s
  ∧ tbl (V:=V) s !! i = None.
Proof.
  unfold create. destruct (add _ _ s) as [[[] s1]|] eqn:E; [|done]. intros [= <- <-].
  apply (total_add μ) in E as (? & -> & ?). rewrite total_set_next. done.
Qed.

End create.

Definition push_applied_operation (o : applied_op) : M database unit :=
  puts (λ s, set_applied_operations (applied_operations s ++ [o]) s).

Definition head_block_time : M database Z := gets (λ s, time (dgpo s)).
Definition next_maint_time : M database Z := gets (λ s, next_maintenance_time (dgpo s)).
Definition get_parameters : M database chain_parameters := gets (λ s, parameters (gpo s)).

(** ** Members of the objects *)
Section members.
Context `{EX : Ext}.

Definition amount_for_sale (o : limit_order_object) : asset :=
  Asset (for_sale o) (asset_id (base (sell_price o))).
Definition lo_amount_to_receive (o : limit_order_object) : result asset :=
  asset_mul (amount_for_sale o) (sell_price o).
Definition sell_asset_id (o : limit_order_object) : Z := asset_id (base (sell_price o)).
Definition receive_asset_id (o : limit_order_object) : Z := asset_id (quote (sell_price o)).

Definition debt_type (o : call_order_object) : Z := asset_id (quote (co_call_price o)).
Definition collateral_type (o : call_order_object) : Z := asset_id (base (co_call_price o)).
Definition get_collateral (o : call_order_object) : asset := Asset (collateral o) (collateral_type o).
Definition get_debt (o : call_order_object) : asset := Asset (debt o) (debt_type o).
Definition collateralization (o : call_order_object) : result price :=
  price_div (get_collateral o) (get_debt o).

Definition charges_market_fees (a : asset_object) : bool := has_flag (flags (ao_options a)) charge_market_fee.
Definition is_transfer_restricted (a : asset_object) : bool := has_flag (flags (ao_options a)) transfer_restricted.
Definition can_override (a : asset_object) : bool := has_flag (flags (ao_options a)) override_authority.
Definition can_force_settle (a : asset_object) : bool := negb (has_flag (flags (ao_options a)) disable_force_settle).
Definition can_global_settle (a : asset_object) : bool := has_flag (issuer_permissions (ao_options a)) global_settle.
Definition is_market_issued (a : asset_object) : bool := bitasset_data_valid a.
Definition has_settlement (b : asset_bitasset_data_object) : bool := negb (price_is_null (bad_settlement_price b)).

(** [asset_object::bitasset_data]. *)
Definition get_bitasset_data (id : Z) (a : asset_object) : M database asset_bitasset_data_object :=
  assert_that (bitasset_data_valid a);; get id.

(** ** is_authorized_asset *)
Definition slow_is_authorized_asset (acct : account_object) (asset_type : Z) (a : asset_object) : bool :=
  let opts := ao_options a in
  if match allowed_assets acct with
     | Some l => negb (bool_decide (asset_type ∈ l))
     | None => false
     end then false
  else if existsb (λ i, bool_decide (i ∈ blacklist_authorities opts)) (elements (blacklisting_accounts acct))
  then false
  else if (size (whitelist_authorities opts) =? 0)%nat then true
  else existsb (λ i, bool_decide (i ∈ whitelist_authorities opts)) (elements (whitelisting_accounts acct)).

Definition is_authorized_asset (acct : account_object) (asset_type : Z) (a : asset_object) : bool :=
  let fast_check := negb (has_flag (flags (ao_options a)) white_list)
                    && match allowed_assets acct with Some _ => false | None => true end in
  if fast_check then true else slow_is_authorized_asset acct asset_type a.

End members.

(** ** Relations a handler keeps *)
Definition keeps {A} (R : database → database → Prop) (m : M database A) : Prop :=
  ∀ s r s', m s = Ok (r, s') → R s s'.

Section keeps.
Context (R : database → database → Prop) `{!PreOrder R}.

Lemma keeps_ret {A} (a : A) : keeps R (mret a).
Proof. intros s r s' [= <- <-]. reflexivity. Qed.
Lemma keeps_bind {A B} (m : M database A) (f : A → M database B) :
  keeps R m → (∀ a, keeps R (f a)) → keeps R (m ≫= f).
Proof.
  intros H1 H2 s r s' E. apply M_bind_Ok in E as (a & s1 & E1 & E2).
  etransitivity; [by eapply H1|by eapply H2].
Qed.
Lemma keeps_get {K V} `{Table K V} (k : K) : keeps R (get (V:=V) k).
Proof. intros s r s' E. apply get_Ok in E as [-> _]. reflexivity. Qed.
Lemma keeps_find {K V} `{Table K V} (k : K) : keeps R (find (V:=V) k).
Proof. intros s r s' E. apply find_Ok in E as [-> _]. reflexivity. Qed.
Lemma keeps_gets {A} (f : database → A) : keeps R (gets f).
Proof. intros s r s' [= <- <-]. reflexivity. Qed.
Lemma keeps_lift {A} (x : result A) : keeps R (lift x).
Proof. intros s r s' E. apply lift_Ok in E as [_ ->]. reflexivity. Qed.
Lemma keeps_assert b : keeps R (assert_that b).
Proof. apply keeps_lift. Qed.
Lemma keeps_throw {A} x : keeps R (throw (A:=A) x).
Proof. by intros s r s' E. Qed.
Lemma keeps_modify {K V} `{Table K V} `{!Unique V} (k : K) (f : V → result V) :
  (∀ s v w, tbl s !! k = Some v → f v = Ok w → R s (set_tbl (<[k := w]> (tbl s)) s)) →
  keeps R (modify k f).
Proof.
  intros HR s [] s' E. unfold modify in E. destruct (tbl s !! k) as [v|] eqn:Ev; [|done].
  destruct (f v) as [w|] eqn:Ef; [|done]. destruct (collides k w s); simplify_eq. eauto.
Qed.
Lemma keeps_add {K V} `{Table K V} `{!Unique V} (k : K) (v : V) :
  (∀ s, tbl (V:=V) s !! k = None → R s (set_tbl (<[k := v]> (tbl s)) s)) → keeps R (add k v).
Proof.
  intros HR s [] s' E. unfold add in E. destruct (tbl (V:=V) s !! k) eqn:Ev; [done|].
  destruct (collides k v s); simplify_eq. eauto.
Qed.
Lemma keeps_remove {K V} `{Table K V} (k : K) :
  (∀ s v, tbl (V:=V) s !! k = Some v → R s (set_tbl (delete k (tbl (V:=V) s)) s)) →
  keeps R (remove (V:=V) k).
Proof.
  intros HR s [] s' E. unfold remove in E. destruct (tbl (V:=V) s !! k) eqn:Ev; simplify_eq. eauto.
Qed.
Lemma keeps_create {V} `{Table Z V} `{!Unique V} `{!Sequence V} (f : Z → V) :
  (∀ s i n, tbl (V:=V) s !! i = None → i = next_id (V:=V) s →
     R s (set_next (V:=V) n (set_tbl (<[i := f i]> (tbl s)) s))) →
  keeps R (create f).
Proof.
  intros HR s r s' E. unfold create, add in E. destruct (tbl (V:=V) s !! _) eqn:Ev; [done|].
  destruct (collides _ _ s); simplify_eq. by apply HR.
Qed.
Lemma keeps_push o :
  (∀ s x, R s (set_applied_operations x s)) → keeps R (push_applied_operation o).
Proof. intros HR s r s' [= <- <-]. apply HR. Qed.

End keeps.

(** Proves [keeps R] of a handler from its parts; the side conditions of the
    writes are left to [tac] and known handlers to the hint database. *)
Ltac solve_keeps_with tac :=
  repeat first
    [ solve [eauto with graphene]
    | apply keeps_ret; apply _
    | apply keeps_get; apply _
    | apply keeps_find; apply _
    | apply keeps_gets; apply _
    | apply keeps_assert; apply _
    | apply keeps_lift; apply _
    | apply keeps_throw
    | apply keeps_modify; tac
    | apply keeps_add; tac
    | apply keeps_remove; tac
    | apply keeps_create; tac
    | apply keeps_push; tac
    | apply keeps_bind; [apply _| |intros ?]
    | case_match
    | progress (unfold when, head_block_time, next_maint_time, get_parameters, get_bitasset_data) ].

(** What the bookkeeping of funds does not touch. *)
Record same_books (s s' : database) : Prop := {
  sb_limit : limit_orders s' = limit_orders s;
  sb_call : call_orders s' = call_orders s;
  sb_settle : settle_orders s' = settle_orders s;
  sb_bids : bids s' = bids s;
  sb_assets : assets s' = assets s;
  sb_bitassets : bitassets s' = bitassets s;
  sb_genesis : genesis_balances s' = genesis_balances s;
  sb_dgpo : dgpo s' = dgpo s;
  sb_gpo : gpo s' = gpo s
}.
#[export] Instance same_books_preorder : PreOrder same_books.
Proof.
  split.
  - intros s. by split.
  - intros s1 s2 s3 [] []. split; congruence.
Qed.
Notation bookkeeping := (keeps same_books).
Ltac solve_books := solve_keeps_with ltac:(by split).
