(* ===== verification/Balance.v ===== *)
(** * Balances and fees: chain/db_balance.cpp, chain/account_object.cpp

    Adjusting account balances, vesting balances for cashback, witness pay and
    market fee sharing, the fees an account has paid and their distribution to
    the network and the referral program. *)

From S2P Require Import Prelude External Asset Authority Operations Block Vesting State.

Section balance.
Context `{EX : Ext}.

Definition get_balance (owner asset_type : Z) : M database asset :=
  b ← find (V:=account_balance_object) (owner, asset_type);
  mret (match b with
        | None => Asset 0 asset_type
        | Some abo => Asset (balance abo) asset_type
        end).

(** [account_balance_object::adjust_balance]. *)
Definition abo_adjust_balance (asset_type : Z) (delta : asset) (b : account_balance_object)
    : result account_balance_object :=
  s ← safe_add (balance b) (amount delta);
  Ok (AccountBalance s (if asset_type =? CORE then true else maintenance_flag b)).

Definition adjust_balance (account : Z) (delta : asset) : M database unit :=
  if amount delta =? 0 then mret tt
  else
    abo ← find (V:=account_balance_object) (account, asset_id delta);
    match abo with
    | None =>
        assert_that (amount delta >? 0);;
        add (V:=account_balance_object) (account, asset_id delta)
          (AccountBalance (amount delta) (asset_id delta =? CORE))
    | Some b =>
        (if amount delta <? 0 then
           nd ← lift (asset_neg delta);
           r ← lift (asset_ge (Asset (balance b) (asset_id delta)) nd);
           assert_that r
         else mret tt);;
        modify (account, asset_id delta) (abo_adjust_balance (asset_id delta) delta)
    end.

(** ** Vesting deposits *)

(** The market fee sharing balance of an account and an asset, found through
    the hashed index. *)
Definition find_mfs (account asset_type : Z) : M database (option Z) := λ s,
  Ok (fst <$> head (filter (λ x : Z * vesting_balance_object,
         vbo_balance_type x.2 = vbt_market_fee_sharing ∧ asset_id (vbo_balance x.2) = asset_type
         ∧ vbo_owner x.2 = account) (map_to_list (vestings s))), s).

Definition get_market_fee_vesting_balance (account asset_type : Z) : M database asset :=
  i ← find_mfs account asset_type;
  match i with
  | None => mret (Asset 0 asset_type)
  | Some i => v ← get (V:=vesting_balance_object) i; mret (vbo_balance v)
  end.

Definition deposit_market_fee_vesting_balance (account : Z) (delta : asset) : M database unit :=
  assert_that (amount delta >=? 0);;
  if amount delta =? 0 then mret tt
  else
    i ← find_mfs account (asset_id delta);
    block_time ← head_block_time;
    match i with
    | None =>
        _ ← create (V:=vesting_balance_object)
              (λ _, VestingBalanceObject account delta instant_policy vbt_market_fee_sharing);
        mret tt
    | Some i => modify i (λ v, deposit_vested v block_time delta)
    end.

(** The existing balance is used when it has the right owner and a coin-days
    policy with the right period; otherwise a new one is created, and its id
    returned. *)
Definition lazy_vesting_usable (v : vesting_balance_object) (req_owner req_vesting_seconds : Z) : bool :=
  (vbo_owner v =? req_owner)
  && match vbo_policy v with
     | cdd_policy p => vesting_seconds p =? req_vesting_seconds
     | _ => false
     end.

Definition deposit_lazy_vesting (ovbid : option Z) (amt req_vesting_seconds : Z)
    (balance_type : vesting_balance_type) (req_owner : Z) (require_vesting : bool)
    : M database (option Z) :=
  if amt =? 0 then mret None
  else
    t ← head_block_time;
    v ← (match ovbid with
         | None => mret None
         | Some i => v ← get (V:=vesting_balance_object) i; mret (Some (i, v))
         end);
    let fresh :=
      earned ← (if require_vesting then mret 0 else lift (raw_int64 (amt * req_vesting_seconds)));
      i ← create (V:=vesting_balance_object) (λ _,
            VestingBalanceObject req_owner (Asset amt CORE)
              (cdd_policy (CddVestingPolicy req_vesting_seconds (u128_of earned) 0 t)) balance_type);
      mret (Some i) in
    match v with
    | Some (i, v) =>
        if lazy_vesting_usable v req_owner req_vesting_seconds then
          modify i (λ v, if require_vesting then deposit v t (Asset amt CORE)
                         else deposit_vested v t (Asset amt CORE));;
          mret None
        else fresh
    | None => fresh
    end.

Definition is_blockchain_account (i : Z) : bool :=
  (i =? GRAPHENE_COMMITTEE_ACCOUNT) || (i =? GRAPHENE_WITNESS_ACCOUNT)
  || (i =? GRAPHENE_RELAXED_COMMITTEE_ACCOUNT) || (i =? GRAPHENE_NULL_ACCOUNT)
  || (i =? GRAPHENE_TEMP_ACCOUNT).

Definition set_supply (n : Z) (d : asset_dynamic_data_object) : asset_dynamic_data_object :=
  AssetDynamicData n (confidential_supply d) (accumulated_fees d) (fee_pool d).
Definition add_supply (delta : Z) (d : asset_dynamic_data_object) : result asset_dynamic_data_object :=
  n ← safe_add (current_supply d) delta; Ok (set_supply n d).
Definition sub_supply (delta : Z) (d : asset_dynamic_data_object) : result asset_dynamic_data_object :=
  n ← safe_sub (current_supply d) delta; Ok (set_supply n d).
Definition add_accumulated (delta : Z) (d : asset_dynamic_data_object)
    : result asset_dynamic_data_object :=
  n ← safe_add (accumulated_fees d) delta;
  Ok (AssetDynamicData (current_supply d) (confidential_supply d) n (fee_pool d)).
Definition add_fee_pool (delta : Z) (d : asset_dynamic_data_object) : result asset_dynamic_data_object :=
  n ← safe_add (fee_pool d) delta;
  Ok (AssetDynamicData (current_supply d) (confidential_supply d) (accumulated_fees d) n).
Definition sub_fee_pool (delta : Z) (d : asset_dynamic_data_object) : result asset_dynamic_data_object :=
  n ← safe_sub (fee_pool d) delta;
  Ok (AssetDynamicData (current_supply d) (confidential_supply d) (accumulated_fees d) n).

Definition set_cashback_vb (i : Z) (a : account_object) : result account_object :=
  Ok (AccountObject (membership_expiration_date a) (registrar a) (referrer a) (lifetime_referrer a)
        (network_fee_percentage a) (lifetime_referrer_fee_percentage a)
        (referrer_rewards_percentage a) (whitelisting_accounts a) (blacklisting_accounts a)
        (allowed_assets a) (Some i) (acc_owner a) (acc_active a) (acc_options a)
        (owner_special_authority a) (active_special_authority a) (top_n_control_flags a)
        (acc_name a) (whitelisted_accounts a) (blacklisted_accounts a)).
Definition set_referrer (r : Z) (a : account_object) : account_object :=
  AccountObject (membership_expiration_date a) (registrar a) r (lifetime_referrer a)
    (network_fee_percentage a) (lifetime_referrer_fee_percentage a)
    (referrer_rewards_percentage a) (whitelisting_accounts a) (blacklisting_accounts a)
    (allowed_assets a) (cashback_vb a) (acc_owner a) (acc_active a) (acc_options a)
    (owner_special_authority a) (active_special_authority a) (top_n_control_flags a)
    (acc_name a) (whitelisted_accounts a) (blacklisted_accounts a).
Definition set_has_cashback_vb (st : account_statistics_object) : result account_statistics_object :=
  Ok (AccountStatistics (total_core_in_orders st) (core_in_balance st) true (lifetime_fees_paid st)
        (pending_fees st) (pending_vested_fees st) (is_voting st) (stats_name st) (last_vote_time st)).

Definition deposit_cashback (acct : Z) (amt : Z) (require_vesting : bool) : M database unit :=
  if amt =? 0 then mret tt
  else if is_blockchain_account acct then modify (V:=asset_dynamic_data_object) CORE (sub_supply amt)
  else
    a ← get (V:=account_object) acct;
    p ← get_parameters;
    new_vbid ← deposit_lazy_vesting (cashback_vb a) amt (cashback_vesting_period_seconds p)
                 vbt_cashback acct require_vesting;
    match new_vbid with
    | None => mret tt
    | Some i =>
        modify (V:=account_object) acct (set_cashback_vb i);;
        modify (V:=account_statistics_object) acct set_has_cashback_vb
    end.

Definition set_pay_vb (i : Z) (w : witness_object) : result witness_object :=
  Ok (WitnessObject (witness_account w) (Some i) (total_missed w) (signing_key w) (last_aslot w)
        (last_confirmed_block_num w) (witness_vote_id w) (witness_total_votes w) (witness_url w)).

Definition deposit_witness_pay (wit : Z) (amt : Z) : M database unit :=
  if amt =? 0 then mret tt
  else
    w ← get (V:=witness_object) wit;
    p ← get_parameters;
    new_vbid ← deposit_lazy_vesting (pay_vb w) amt (witness_pay_vesting_seconds p)
                 vbt_witness (witness_account w) true;
    match new_vbid with
    | None => mret tt
    | Some i => modify wit (set_pay_vb i)
    end.

(** ** Fees of an account *)
Definition cut_fee (a p : Z) : Z :=
  if (a =? 0) || (p =? 0) then 0
  else if p =? GRAPHENE_100_PERCENT then a
  else u128_to_int64 (u128_div (u128_mul (u128_of a) p) GRAPHENE_100_PERCENT).

(** [account_statistics_object::pay_fee]. *)
Definition pay_fee (core_fee threshold : Z) (st : account_statistics_object)
    : result account_statistics_object :=
  if core_fee >? threshold then
    n ← safe_add (pending_fees st) core_fee;
    Ok (AccountStatistics (total_core_in_orders st) (core_in_balance st) (has_cashback_vb st)
          (lifetime_fees_paid st) n (pending_vested_fees st) (is_voting st) (stats_name st) (last_vote_time st))
  else
    n ← safe_add (pending_vested_fees st) core_fee;
    Ok (AccountStatistics (total_core_in_orders st) (core_in_balance st) (has_cashback_vb st)
          (lifetime_fees_paid st) (pending_fees st) n (is_voting st) (stats_name st) (last_vote_time st)).

Definition is_basic_account (a : account_object) (t : Z) : bool := t >? membership_expiration_date a.

Definition pay_out_fees (account core_fee_total : Z) (require_vesting : bool) : M database unit :=
  a0 ← get (V:=account_object) account;
  r ← get (V:=account_object) (referrer a0);
  t ← head_block_time;
  (if is_basic_account r t
   then modify account (λ a, Ok (set_referrer (lifetime_referrer a) a)) else mret tt);;
  a ← get (V:=account_object) account;
  let network_cut := cut_fee core_fee_total (network_fee_percentage a) in
  let lifetime_cut := cut_fee core_fee_total (lifetime_referrer_fee_percentage a) in
  x ← lift (safe_sub core_fee_total network_cut);
  referral ← lift (safe_sub x lifetime_cut);
  modify (V:=asset_dynamic_data_object) CORE (add_accumulated network_cut);;
  let referrer_cut := cut_fee referral (referrer_rewards_percentage a) in
  registrar_cut ← lift (safe_sub referral referrer_cut);
  _ ← get (V:=account_object) (lifetime_referrer a);
  deposit_cashback (lifetime_referrer a) lifetime_cut require_vesting;;
  _ ← get (V:=account_object) (referrer a);
  deposit_cashback (referrer a) referrer_cut require_vesting;;
  _ ← get (V:=account_object) (registrar a);
  deposit_cashback (registrar a) registrar_cut require_vesting.

Definition clear_pending (st : account_statistics_object) : result account_statistics_object :=
  x ← safe_add (pending_fees st) (pending_vested_fees st);
  n ← safe_add (lifetime_fees_paid st) x;
  Ok (AccountStatistics (total_core_in_orders st) (core_in_balance st) (has_cashback_vb st) n 0 0 (is_voting st)
        (stats_name st) (last_vote_time st)).

Definition process_fees (account : Z) : M database unit :=
  st ← get (V:=account_statistics_object) account;
  if (pending_fees st >? 0) || (pending_vested_fees st >? 0) then
    pay_out_fees account (pending_fees st) true;;
    pay_out_fees account (pending_vested_fees st) false;;
    modify account clear_pending
  else mret tt.

End balance.

(** ** Linear weights

    [c a] counts each unit of asset [a] that somebody holds, [e a] each unit of
    its current supply, [q a] each unit of debt in debt positions, and [g] the
    core in orders against what the account statistics report. *)
Definition ind (P : bool) (z : Z) : Z := if P then z else 0.

Definition linear_weights (c e q : Z → Z) (g : Z) : weights := {|
  w_stats := λ _ st, c CORE * (pending_fees st + pending_vested_fees st) - g * total_core_in_orders st;
  w_balance := λ k b, c k.2 * balance b;
  w_dyn := λ k d, c k * (accumulated_fees d + confidential_supply d) + c CORE * fee_pool d
                  + e k * current_supply d;
  w_bitasset := λ _ b, c (short_backing_asset (bad_options b)) * settlement_fund b;
  w_limit := λ _ o, c (sell_asset_id o) * for_sale o + c CORE * deferred_fee o
                    + c (asset_id (deferred_paid_fee o)) * amount (deferred_paid_fee o)
                    + ind (sell_asset_id o =? CORE) (g * for_sale o);
  w_call := λ _ o, c (collateral_type o) * collateral o + q (debt_type o) * debt o
                   + ind (collateral_type o =? CORE) (g * collateral o);
  w_settle := λ _ f, c (asset_id (fs_balance f)) * amount (fs_balance f);
  w_bid := λ _ b, c (asset_id (base (inv_swan_price b))) * amount (base (inv_swan_price b));
  w_vesting := λ _ v, c (asset_id (vbo_balance v)) * amount (vbo_balance v);
  w_htlc := λ _ h, c (htlc_asset_id h) * htlc_amount h;
  w_genesis := λ _ b, c (asset_id (bo_balance b)) * amount (bo_balance b);
  w_fba := λ _ f, c CORE * accumulated_fba_fees f;
  w_dgpo := λ d, c CORE * witness_budget d
|}.

(** All holdings of asset [a] less its current supply (the first check of
    [verify_asset_supplies] in the tests of the project). *)
Definition excess (a : Z) (s : database) : Z :=
  total (linear_weights (λ x, ind (x =? a) 1) (λ x, ind (x =? a) (-1)) (λ _, 0) 0) s.
(** The debt in debt positions of [a] less its current supply. *)
Definition debt_excess (a : Z) (s : database) : Z :=
  total (linear_weights (λ _, 0) (λ x, ind (x =? a) (-1)) (λ x, ind (x =? a) 1) 0) s.
(** The core in orders less what the statistics report. *)
Definition core_orders_excess (s : database) : Z :=
  total (linear_weights (λ _, 0) (λ _, 0) (λ _, 0) 1) s.

(** ** Computing the effect of a handler on a total *)
Definition effect {A} (μ : weights) (m : M database A) (δ : A → Z) : Prop :=
  ∀ s r s', m s = Ok (r, s') → total μ s' = total μ s + δ r.

(** The fees an account still has to pay out. *)
Definition pending (st : account_statistics_object) : Z * Z := (pending_fees st, pending_vested_fees st).
Definition same_pending (s s' : database) : Prop :=
  ∀ k, pending <$> (stats s' !! k) = pending <$> (stats s !! k).
#[export] Instance same_pending_preorder : PreOrder same_pending.
Proof.
  split.
  - intros s k. done.
  - intros s1 s2 s3 H1 H2 k. by rewrite H2.
Qed.

Section effects.
Context `{EX : Ext} (c e q : Z → Z) (g : Z).
Local Notation μ := (linear_weights c e q g).

Lemma effect_ret {A} (a : A) (δ : A → Z) : δ a = 0 → effect μ (mret a) δ.
Proof. intros H s r s' [= <- <-]. lia. Qed.

Lemma effect_bind {A B} (m : M database A) (f : A → M database B) δ1 δ2 δ :
  effect μ m δ1 → (∀ a, effect μ (f a) (δ2 a)) → (∀ a b, δ b = δ1 a + δ2 a b) →
  effect μ (m ≫= f) δ.
Proof.
  intros H1 H2 Hδ s r s' E. apply M_bind_Ok in E as (a & s1 & E1 & E2).
  apply H1 in E1. apply H2 in E2. rewrite (Hδ a). lia.
Qed.

Lemma effect_get {V} `{Table Z V} k δ : (∀ v, δ v = 0) → effect μ (get (V:=V) k) δ.
Proof. intros Hδ s r s' E. apply get_Ok in E as [-> _]. rewrite Hδ. lia. Qed.
Lemma effect_gets {A} (f : database → A) δ : (∀ v, δ v = 0) → effect μ (gets f) δ.
Proof. intros Hδ s r s' [= <- <-]. rewrite Hδ. lia. Qed.
Lemma effect_lift {A} (x : result A) δ : (∀ v, δ v = 0) → effect μ (lift x) δ.
Proof. intros Hδ s r s' E. apply lift_Ok in E as [_ ->]. rewrite Hδ. lia. Qed.

Lemma effect_modify {K V} `{Table K V} `{!Unique V} k (f : V → result V) d :
  (∀ v w, f v = Ok w → w_of μ k w = w_of μ k v + d) → effect μ (modify k f) (λ _, d).
Proof.
  intros Hf s [] s' E. apply (total_modify μ) in E as (v & w & _ & Ef & _ & ->).
  apply Hf in Ef. lia.
Qed.
Lemma effect_push o δ : δ tt = 0 → effect μ (push_applied_operation o) δ.
Proof. intros Hδ s [] s' [= <-]. rewrite Hδ. unfold total. cbn. lia. Qed.

Lemma effect_adjust_balance acct d :
  effect μ (adjust_balance acct d) (λ _, c (asset_id d) * amount d).
Proof.
  intros s [] s' E. unfold adjust_balance in E. destruct (amount d =? 0) eqn:E0.
  { bool_to_prop. unfold mret, M_ret in E. simplify_eq. lia. }
  monad_inv. match goal with H : find _ _ = _ |- _ => apply find_Ok in H as [-> ->] end.
  destruct (tbl s !! (acct, asset_id d)) as [b|].
  - apply M_bind_Ok in E as ([] & s1 & E1 & E).
    assert (s1 = s) as ->.
    { destruct (amount d <? 0); monad_inv; done. }
    apply (total_modify μ) in E as (v & w & _ & Ef & _ & ->).
    unfold abo_adjust_balance in Ef. monad_inv. safe_inv. cbn. lia.
  - monad_inv. apply (total_add μ) in E as (_ & _ & ->). cbn. lia.
Qed.

Lemma vbo_deposit_amount v t a v' :
  deposit v t a = Ok v' →
  asset_id (vbo_balance v') = asset_id (vbo_balance v) ∧ asset_id a = asset_id (vbo_balance v) ∧
  amount (vbo_balance v') = amount (vbo_balance v) + amount a.
Proof. unfold deposit, asset_add. intros. monad_inv. safe_inv. bool_to_prop. done. Qed.
Lemma vbo_deposit_vested_amount v t a v' :
  deposit_vested v t a = Ok v' →
  asset_id (vbo_balance v') = asset_id (vbo_balance v) ∧ asset_id a = asset_id (vbo_balance v) ∧
  amount (vbo_balance v') = amount (vbo_balance v) + amount a.
Proof. unfold deposit_vested, asset_add. intros. monad_inv. safe_inv. bool_to_prop. done. Qed.

Lemma effect_deposit_lazy ovbid amt vs ty owner rv :
  effect μ (deposit_lazy_vesting ovbid amt vs ty owner rv) (λ _, c CORE * amt).
Proof.
  intros s r s' E. unfold deposit_lazy_vesting in E. destruct (amt =? 0) eqn:E0.
  { bool_to_prop. unfold mret, M_ret in E. simplify_eq. lia. }
  apply M_bind_Ok in E as (t & s1 & E1 & E). unfold head_block_time, gets in E1. injection E1 as <- <-.
  apply M_bind_Ok in E as (ov & s1 & E1 & E).
  assert (s1 = s) as ->.
  { destruct ovbid; monad_inv; [|done].
    match goal with H : get _ _ = _ |- _ => apply get_Ok in H as [-> _] end. done. }
  match type of E with context [match ov with Some _ => _ | None => ?m end] =>
    assert (∀ r s', m s = Ok (r, s') → total μ s' = total μ s + c CORE * amt) as Hfresh
  end.
  { clear E. intros r0 s0 E. apply M_bind_Ok in E as (x & s2 & E2 & E).
    assert (s2 = s) as -> by (destruct rv; monad_inv; done).
    apply M_bind_Ok in E as (i & s3 & E3 & E). unfold mret, M_ret in E. injection E as <- <-.
    apply (total_create μ) in E3 as (-> & _). cbn. lia. }
  destruct ov as [[i v]|]; [|by apply (Hfresh r)].
  destruct (lazy_vesting_usable v owner vs); [|by apply (Hfresh r)].
  apply M_bind_Ok in E as ([] & s2 & E2 & E). unfold mret, M_ret in E. injection E as <- <-.
  apply (total_modify μ) in E2 as (v0 & w & _ & Ef & _ & ->). cbn.
  destruct rv; [apply vbo_deposit_amount in Ef|apply vbo_deposit_vested_amount in Ef];
    destruct Ef as (-> & Ei & ->); cbn in Ei; rewrite <- Ei; cbn; lia.
Qed.

Lemma effect_deposit_cashback acct amt rv :
  c CORE = - e CORE → effect μ (deposit_cashback acct amt rv) (λ _, c CORE * amt).
Proof.
  intros Hce s [] s' E. unfold deposit_cashback in E. destruct (amt =? 0) eqn:E0.
  { bool_to_prop. unfold mret, M_ret in E. simplify_eq. lia. }
  destruct (is_blockchain_account acct).
  { apply (total_modify μ) in E as (v & w & _ & Ef & _ & ->). unfold sub_supply in Ef. monad_inv. safe_inv.
    cbn. nia. }
  apply M_bind_Ok in E as (a & s1 & E1 & E). apply get_Ok in E1 as [-> _].
  apply M_bind_Ok in E as (p & s1 & E1 & E). unfold get_parameters, gets in E1. injection E1 as <- <-.
  apply M_bind_Ok in E as (r & s1 & E1 & E). apply effect_deposit_lazy in E1.
  destruct r as [i|]; [|unfold mret, M_ret in E; simplify_eq; lia].
  apply M_bind_Ok in E as ([] & s2 & E2 & E).
  apply (total_modify μ) in E2 as (v2 & w2 & _ & _ & _ & E2).
  apply (total_modify μ) in E as (v3 & w3 & _ & E3 & _ & E).
  injection E3 as <-. cbn in E2, E. lia.
Qed.

Lemma effect_pay_fee acct fee th :
  effect μ (modify acct (pay_fee fee th)) (λ _, c CORE * fee).
Proof.
  apply effect_modify. intros v w E. unfold pay_fee in E. case_match; monad_inv; safe_inv; cbn; lia.
Qed.

Lemma effect_pay_out acct fee rv :
  c CORE = - e CORE → effect μ (pay_out_fees acct fee rv) (λ _, c CORE * fee).
Proof.
  intros Hce s [] s' E. unfold pay_out_fees in E.
  apply M_bind_Ok in E as (a0 & s1 & E1 & E). apply get_Ok in E1 as [-> _].
  apply M_bind_Ok in E as (r & s1 & E1 & E). apply get_Ok in E1 as [-> _].
  apply M_bind_Ok in E as (t & s1 & E1 & E). unfold head_block_time, gets in E1. injection E1 as <- <-.
  apply M_bind_Ok in E as ([] & s1 & E1 & E).
  assert (total μ s1 = total μ s) as T1.
  { destruct (is_basic_account r _).
    - apply (total_modify μ) in E1 as (v & w & _ & _ & _ & ->). cbn. lia.
    - unfold mret, M_ret in E1. by simplify_eq. }
  apply M_bind_Ok in E as (a & s2 & E2 & E). apply get_Ok in E2 as [-> _].
  apply M_bind_Ok in E as (x & s2 & E2 & E). apply lift_Ok in E2 as [E2 ->].
  apply M_bind_Ok in E as (y & s2 & E3 & E). apply lift_Ok in E3 as [E3 ->].
  apply M_bind_Ok in E as ([] & s2 & E4 & E).
  apply (total_modify μ) in E4 as (v & w & _ & Ef & _ & T2).
  apply M_bind_Ok in E as (z & s3 & E5 & E). apply lift_Ok in E5 as [E5 ->].
  apply M_bind_Ok in E as (a1 & s3 & E6 & E). apply get_Ok in E6 as [-> _].
  apply M_bind_Ok in E as ([] & s3 & E7 & E). apply effect_deposit_cashback in E7; [|done].
  apply M_bind_Ok in E as (a2 & s4 & E8 & E). apply get_Ok in E8 as [-> _].
  apply M_bind_Ok in E as ([] & s4 & E9 & E). apply effect_deposit_cashback in E9; [|done].
  apply M_bind_Ok in E as (a3 & s5 & E10 & E). apply get_Ok in E10 as [-> _].
  apply effect_deposit_cashback in E; [|done].
  unfold add_accumulated in Ef. monad_inv. safe_inv. cbn in T2. nia.
Qed.

Lemma keeps_deposit_lazy R `{!PreOrder R} ovbid amt vs ty owner rv :
  (∀ m s, R s (set_vestings m s)) → (∀ n s, R s (set_next_vesting n s)) →
  keeps R (deposit_lazy_vesting ovbid amt vs ty owner rv).
Proof.
  intros H1 H2. unfold deposit_lazy_vesting.
  solve_keeps_with ltac:(intros; cbn; first [apply H1|etransitivity; [apply H1|apply H2]]).
Qed.

Lemma same_pending_modify s k v w :
  stats s !! k = Some v → pending w = pending v → same_pending s (set_stats (<[k := w]> (stats s)) s).
Proof.
  intros Hv Hp j. cbn. destruct (decide (k = j)) as [<-|Hne].
  - rewrite lookup_insert_eq, Hv. cbn. congruence.
  - by rewrite lookup_insert_ne.
Qed.

Lemma pending_pay_out acct fee rv : keeps same_pending (pay_out_fees acct fee rv).
Proof.
  assert (∀ a x b, keeps same_pending (deposit_cashback a x b)) as Hd.
  { intros a x b. unfold deposit_cashback.
    solve_keeps_with ltac:(intros; cbn in *; first [by intros ?|
      eapply same_pending_modify; [done|];
      match goal with H : set_has_cashback_vb _ = Ok _ |- _ => by injection H as <- end]).
    apply keeps_deposit_lazy; [apply _|by intros ???..]. }
  unfold pay_out_fees. solve_keeps_with ltac:(intros; by intros ?).
Qed.

Lemma effect_process_fees acct :
  c CORE = - e CORE → effect μ (process_fees acct) (λ _, 0).
Proof.
  intros Hce s [] s' E. unfold process_fees in E.
  apply M_bind_Ok in E as (st & s1 & E1 & E). apply get_Ok in E1 as [-> Hst].
  destruct (_ || _); [|unfold mret, M_ret in E; simplify_eq; lia].
  apply M_bind_Ok in E as ([] & s1 & E1 & E). apply M_bind_Ok in E as ([] & s2 & E2 & E).
  pose proof (pending_pay_out _ _ _ _ _ _ E1 acct) as P1.
  pose proof (pending_pay_out _ _ _ _ _ _ E2 acct) as P2.
  apply effect_pay_out in E1, E2; [|done..].
  apply (total_modify μ) in E as (v & w & Hv & Ef & _ & E). cbn in Hst, Hv.
  rewrite P1, Hst, Hv in P2. injection P2 as P2 P3.
  unfold clear_pending in Ef. monad_inv. safe_inv. cbn in E. nia.
Qed.

End effects.

Section balance_theorems.
Context `{EX : Ext}.

Definition bal (s : database) (o a : Z) : Z := from_option balance 0 (balances s !! (o, a)).

Lemma collides_never {K V} `{Table K V} `{!Unique V} k (v : V) s :
  (∀ x y : V, conflict x y = false) → collides k v s = false.
Proof.
  intros Hc. unfold collides. induction (map_to_list _) as [|x l IH]; [done|]. cbn.
  rewrite Hc, andb_false_r. exact IH.
Qed.

Lemma bal_insert s o a b o' a' :
  bal (set_balances (<[(o, a) := b]> (balances s)) s) o' a'
  = if decide ((o, a) = (o', a')) then balance b else bal s o' a'.
Proof.
  unfold bal. cbn. case_decide as E.
  - by rewrite E, lookup_insert_eq.
  - by rewrite lookup_insert_ne.
Qed.

(** The exact effect of an adjustment, and when it fails. *)
Lemma adjust_balance_spec s acct (d : asset) :
  (∀ o a, 0 ≤ bal s o a ≤ int64_max) → int64_min < amount d ≤ int64_max →
  match adjust_balance acct d s with
  | Ok (_, s') =>
      same_books s s' ∧ accounts s' = accounts s ∧ dyns s' = dyns s ∧ stats s' = stats s ∧
      ∀ o a, 0 ≤ bal s' o a ≤ int64_max ∧
        bal s' o a = bal s o a + (if decide ((acct, asset_id d) = (o, a)) then amount d else 0)
  | Err x =>
      (x = assert_exception ∧ bal s acct (asset_id d) + amount d < 0) ∨
      (x = overflow_exception ∧ int64_max < bal s acct (asset_id d) + amount d)
  end.
Proof.
  intros Hwf Hd. unfold adjust_balance. destruct (amount d =? 0) eqn:E0; bool_to_prop.
  { split; [reflexivity|]. split_and!; try done. intros o a. specialize (Hwf o a).
    rewrite E0. case_decide; lia. }
  unfold mbind at 1, M_bind at 1, find. cbn [tbl balances_table].
  pose proof (Hwf acct (asset_id d)) as Hb. unfold bal in Hb.
  destruct (balances s !! (acct, asset_id d)) as [b|] eqn:Eb; cbn in Hb.
  - destruct (amount d <? 0) eqn:En; bool_to_prop.
    + unfold mbind, M_bind, lift, asset_neg. rewrite safe_neg_spec, (proj2 (in_int64_true _)) by (unfold_widths; lia).
      cbn. unfold asset_ge, asset_lt. cbn. rewrite Z.eqb_refl. cbn.
      destruct (balance b <? - amount d) eqn:El; cbn; bool_to_prop.
      { left. split; [done|]. unfold bal. rewrite Eb. cbn. lia. }
      unfold modify. cbn [tbl balances_table]. rewrite Eb. unfold abo_adjust_balance.
      rewrite safe_add_spec, (proj2 (in_int64_true _)) by (unfold_widths; lia). cbn [mbind result_bind].
      rewrite collides_never by done.
      split; [by split|]. split_and!; try done. intros o a. rewrite bal_insert.
      case_decide as E; cbn.
      * simplify_eq. unfold bal. rewrite Eb. cbn. lia.
      * specialize (Hwf o a). lia.
    + unfold mbind, M_bind, mret, M_ret, modify. cbn [tbl balances_table]. rewrite Eb.
      unfold abo_adjust_balance. rewrite safe_add_spec.
      destruct (in_int64 (balance b + amount d)) eqn:Ei.
      * apply in_int64_true in Ei. cbn [mbind result_bind]. rewrite collides_never by done.
        split; [by split|]. split_and!; try done. intros o a. rewrite bal_insert.
        case_decide as E; cbn.
        -- simplify_eq. unfold bal. rewrite Eb. cbn. lia.
        -- specialize (Hwf o a). lia.
      * right. split; [done|]. unfold bal. rewrite Eb. cbn.
        destruct (decide (balance b + amount d ≤ int64_max)); [|lia].
        rewrite (proj2 (in_int64_true _)) in Ei by (unfold_widths; lia). done.
  - unfold assert_that, lift, fc_assert, mbind, M_bind.
    destruct (amount d >? 0) eqn:Ep; bool_to_prop.
    + unfold add. cbn [tbl balances_table]. rewrite Eb, collides_never by done.
      split; [by split|]. split_and!; try done. intros o a. rewrite bal_insert.
      case_decide as E; cbn.
      * simplify_eq. unfold bal. rewrite Eb. cbn. lia.
      * specialize (Hwf o a). lia.
    + left. split; [done|]. unfold bal. rewrite Eb. cbn. lia.
Qed.

(** C32: [adjust_balance] adds the amount to the balance of the account in the
    asset and changes no other balance and no order; it fails exactly when the
    balance would become negative (or exceed 64 bits), so balances never do. *)
Theorem adjust_balance_correct s acct (d : asset) :
  (∀ o a, 0 ≤ bal s o a ≤ int64_max) → int64_min < amount d ≤ int64_max →
  match adjust_balance acct d s with
  | Ok (_, s') =>
      same_books s s' ∧ accounts s' = accounts s ∧ dyns s' = dyns s ∧ stats s' = stats s ∧
      ∀ o a, 0 ≤ bal s' o a ≤ int64_max ∧
        bal s' o a = bal s o a + (if decide ((acct, asset_id d) = (o, a)) then amount d else 0)
  | Err x =>
      (x = assert_exception ∧ bal s acct (asset_id d) + amount d < 0) ∨
      (x = overflow_exception ∧ int64_max < bal s acct (asset_id d) + amount d)
  end.
Proof. apply adjust_balance_spec. Qed.

Lemma cut_fee_spec a p :
  0 ≤ a ≤ int64_max → 0 ≤ p ≤ GRAPHENE_100_PERCENT → cut_fee a p = a * p / GRAPHENE_100_PERCENT.
Proof.
  intros Ha Hp. unfold cut_fee, GRAPHENE_100_PERCENT in *.
  destruct ((a =? 0) || (p =? 0)) eqn:E0.
  { apply orb_true_iff in E0 as [E|E]; bool_to_prop; subst; [done|]. by rewrite Z.mul_0_r. }
  bool_to_prop. destruct (p =? 10000) eqn:E1; bool_to_prop.
  { subst. by rewrite Z.div_mul. }
  rewrite u128_mul_int64 by (unfold_widths; lia).
  pose proof (mul_int64_le_u128 a p ltac:(lia) ltac:(unfold_widths; lia)) as Hm.
  rewrite u128_div_spec by (unfold_widths; lia).
  assert (a * p / 10000 ≤ a) by (apply Z.div_le_upper_bound; nia).
  assert (0 ≤ a * p / 10000) by (apply Z.div_pos; nia).
  apply u128_to_int64_spec. lia.
Qed.

(** Splitting a fee.  With percentages as the chain keeps them (network and
    lifetime referrer together at most 100 percent) every share of a fee is
    the rounded down percentage, the four shares are not negative, and together
    they are exactly the fee. *)
Theorem fee_split_exact (fee net life ref : Z) :
  0 ≤ fee ≤ int64_max → 0 ≤ net → 0 ≤ life → net + life ≤ GRAPHENE_100_PERCENT →
  0 ≤ ref ≤ GRAPHENE_100_PERCENT →
  let network_cut := cut_fee fee net in
  let lifetime_cut := cut_fee fee life in
  let referral := fee - network_cut - lifetime_cut in
  let referrer_cut := cut_fee referral ref in
  let registrar_cut := referral - referrer_cut in
  network_cut = fee * net / GRAPHENE_100_PERCENT ∧ lifetime_cut = fee * life / GRAPHENE_100_PERCENT ∧
  0 ≤ network_cut ∧ 0 ≤ lifetime_cut ∧ 0 ≤ referrer_cut ∧ 0 ≤ registrar_cut ∧
  network_cut + lifetime_cut + referrer_cut + registrar_cut = fee.
Proof.
  intros Hf Hn Hl Hs Hr. cbn zeta. unfold GRAPHENE_100_PERCENT in *.
  rewrite (cut_fee_spec fee net), (cut_fee_spec fee life) by (unfold GRAPHENE_100_PERCENT; lia).
  unfold GRAPHENE_100_PERCENT.
  assert (0 ≤ fee * net / 10000) by (apply Z.div_pos; nia).
  assert (0 ≤ fee * life / 10000) by (apply Z.div_pos; nia).
  pose proof (Z.mul_div_le (fee * net) 10000 ltac:(lia)).
  pose proof (Z.mul_div_le (fee * life) 10000 ltac:(lia)).
  assert (fee * net / 10000 + fee * life / 10000 ≤ fee) by nia.
  set (referral := fee - fee * net / 10000 - fee * life / 10000).
  rewrite (cut_fee_spec referral ref) by (unfold GRAPHENE_100_PERCENT; lia). unfold GRAPHENE_100_PERCENT.
  assert (0 ≤ referral * ref / 10000) by (apply Z.div_pos; nia).
  assert (referral * ref / 10000 ≤ referral) by (apply Z.div_le_upper_bound; nia).
  split_and!; try done; lia.
Qed.

(** Paying out the fees of an account creates and destroys nothing: for
    every asset the holdings less the current supply stay the same (the shares
    of the blockchain's own accounts leave the supply instead), and so do the
    core in orders and the debts. *)
Theorem process_fees_conserves acct s s' :
  process_fees acct s = Ok (tt, s') →
  (∀ a, excess a s' = excess a s) ∧ core_orders_excess s' = core_orders_excess s ∧
  (∀ a, a ≠ CORE → debt_excess a s' = debt_excess a s).
Proof.
  intros E. split_and!.
  - intros a. unfold excess. rewrite (effect_process_fees _ _ _ _ acct) with (s := s) (r := tt); [lia| |done].
    unfold ind. destruct (CORE =? a); lia.
  - unfold core_orders_excess. rewrite (effect_process_fees _ _ _ _ acct) with (s := s) (r := tt); [lia|done|done].
  - intros a Ha. unfold debt_excess. rewrite (effect_process_fees _ _ _ _ acct) with (s := s) (r := tt); [lia| |done].
    unfold ind. destruct (CORE =? a) eqn:E1; bool_to_prop; [done|lia].
Qed.

End balance_theorems.

(** ** A small chain *)
Definition ex_parameters (fees : gmap Z fee_parameters) : chain_parameters :=
  ChainParameters fees GRAPHENE_100_PERCENT 5 2000000 3600 3 31536000 100000 1000 86400 2000
    (Some (HtlcOptions 86400 1024)) 86400 2048 2 2419200 86400 50000000 1001 1001 true 1000 4 10 2000 3000 true 10 10.
Definition ex_params : chain_parameters := ex_parameters {[ 2 := FeeParameters 10 0 ]}.
Definition ex_options (fl fee : Z) (cer : price) : asset_options :=
  AssetOptions GRAPHENE_MAX_SHARE_SUPPLY fee GRAPHENE_MAX_SHARE_SUPPLY 0 fl cer ∅ ∅ ∅ ∅ None None String.EmptyString.
Definition ex_account (r : Z) : account_object :=
  AccountObject 4294967295 r r r 2000 3000 5000 ∅ ∅ None None
    (Authority 1 [] [(100 + r, 1)] []) (Authority 1 [] [(200 + r, 1)] [])
    (AccountOptions 5 0 0 ∅ 60) no_special_authority no_special_authority 0 String.EmptyString ∅ ∅.
Definition ex_stats (p v : Z) : account_statistics_object := AccountStatistics 0 0 false 0 p v false String.EmptyString 0.
Definition ex_unit_price (a b : Z) : price := Price (Asset 1 a) (Asset 1 b).

(** Accounts 17 and 18 (the registrar of both), the core asset and asset 1. *)
Definition ex_chain : database := {|
  accounts := {[ 17 := ex_account 18; 18 := ex_account 18 ]};
  stats := {[ 17 := ex_stats 1000 50; 18 := ex_stats 0 0 ]};
  balances := {[ (17, 0) := AccountBalance 5000 true; (18, 1) := AccountBalance 300 false ]};
  assets := {[ 0 := AssetObject 0 (ex_options 0 0 (ex_unit_price 0 0)) false None String.EmptyString 5;
               1 := AssetObject 17 (ex_options 1 100 (ex_unit_price 0 1)) false None String.EmptyString 5 ]};
  dyns := {[ 0 := AssetDynamicData 6050 0 0 0; 1 := AssetDynamicData 300 0 0 0 ]};
  bitassets := ∅; limit_orders := ∅; call_orders := ∅; settle_orders := ∅; bids := ∅;
  vestings := ∅; htlcs := ∅; genesis_balances := ∅; permissions := ∅; witnesses := ∅;
  proposals := ∅; next_proposal := 0;
  governance := GovernanceState ∅ ∅ ∅ ∅ ∅ [] 11 11 (IdSequences 20 2 4 0 0 0 0);
  gpo := GlobalProperties ex_params [1; 2; 3] None 10 [];
  dgpo := DynamicGlobalProperties 10 null_id 1600000000 1 1600003600 0 0 10 0 0 0 0 1599996400;
  shuffled_witnesses := [1; 2; 3];
  next_limit := 0; next_call := 0; next_settle := 0; next_bid := 0; next_vesting := 0;
  next_htlc := 0; next_permission := 0; applied_operations := [];
  issue_453_affected_assets := ∅; transactions := ∅; block_summaries := ∅
|}.

Lemma adjust_balance_correct_witness :
  bal ex_chain 17 0 = 5000 ∧
  match adjust_balance 17 (Asset (-4000) 0) ex_chain with
  | Ok (_, s') => bal s' 17 0 = 1000
  | Err _ => False
  end.
Proof.
  split; [reflexivity|].
  assert (∀ o a, 0 ≤ bal ex_chain o a ≤ int64_max) as Hwf.
  { intros o a. unfold bal, ex_chain. cbn [balances].
    destruct (decide ((17, 0) = (o, a))) as [E|E].
    - rewrite <- E, lookup_insert_eq. by vm_compute.
    - rewrite lookup_insert_ne by done. destruct (decide ((18, 1) = (o, a))) as [E'|E'].
      + rewrite <- E', lookup_singleton_eq. by vm_compute.
      + rewrite lookup_singleton_ne by done. by vm_compute. }
  pose proof (adjust_balance_correct ex_chain 17 (Asset (-4000) 0) Hwf ltac:(by vm_compute)) as H.
  destruct (adjust_balance 17 (Asset (-4000) 0) ex_chain) as [[u s']|x] eqn:E.
  - destruct H as (_ & _ & _ & _ & H). destruct (H 17 0) as [_ ->]. by vm_compute.
  - by vm_compute in E.
Defined.

Lemma fee_split_exact_witness :
  cut_fee 1001 2000 + cut_fee 1001 3000
  + cut_fee (1001 - cut_fee 1001 2000 - cut_fee 1001 3000) 5000
  + (1001 - cut_fee 1001 2000 - cut_fee 1001 3000
     - cut_fee (1001 - cut_fee 1001 2000 - cut_fee 1001 3000) 5000) = 1001.
Proof.
  destruct (fee_split_exact 1001 2000 3000 5000) as (_ & _ & _ & _ & _ & _ & H); [by vm_compute..|].
  exact H.
Defined.

Lemma process_fees_conserves_witness :
  match process_fees 17 ex_chain with
  | Ok (_, s') => excess 0 s' = 0 ∧ dyns s' ≠ dyns ex_chain
  | Err _ => False
  end.
Proof.
  destruct (process_fees 17 ex_chain) as [[[] s']|x] eqn:E.
  - split.
    + rewrite (proj1 (process_fees_conserves 17 ex_chain s' E) 0). reflexivity.
    + vm_compute in E. injection E as <-. by vm_compute.
  - by vm_compute in E.
Defined.
