(* ===== verification/WitnessSchedule.v ===== *)
(** * Slots, the witness schedule and what a block changes:
    chain/db_witness_schedule.cpp, chain/db_update.cpp

    The time of a production slot and the slot of a time, the shuffling of the
    active witnesses once per round, the counters of missed blocks, the global
    properties a block updates, the pay of the signing witness and the last
    irreversible block. *)

From S2P Require Import Prelude External Asset Authority Operations Block Vesting State Balance.

Definition GRAPHENE_RECENTLY_MISSED_COUNT_INCREMENT : Z := 4.
Definition GRAPHENE_RECENTLY_MISSED_COUNT_DECREMENT : Z := 3.
Definition GRAPHENE_MAX_UNDO_HISTORY : Z := 10000.
Definition GRAPHENE_IRREVERSIBLE_THRESHOLD : Z := 7000.
(** [dynamic_global_property_object::maintenance_flag]. *)
Definition dgp_maintenance_flag : Z := 1.

(** The shift and the bit count of [fc::uint128_t]. *)
Class SlotBits := {
  u128_shl : Z → Z → Z;
  u128_popcount : Z → Z;
  u128_shl_spec a n : 0 ≤ a ≤ uint128_max → 0 ≤ n < 128 →
    u128_shl a n = Z.shiftl a n `mod` 2 ^ 128;
  u128_popcount_range a : 0 ≤ a ≤ uint128_max → 0 ≤ u128_popcount a ≤ 128
}.

Section schedule.
Context `{EX : Ext} `{BX : BlockExt} `{SB : SlotBits}.

(** ** Slots *)
Definition get_scheduled_witness (slot_num : Z) (s : database) : result Z :=
  let aslot := u64 (current_aslot (dgpo s) + slot_num) in
  if (length (shuffled_witnesses s) =? 0)%nat then Err undefined_behaviour
  else from_option_r undefined_behaviour
         (shuffled_witnesses s !! Z.to_nat (aslot `mod` Z.of_nat (length (shuffled_witnesses s)))).

Definition get_slot_time (slot_num : Z) (s : database) : result Z :=
  if slot_num =? 0 then Ok 0
  else
    let interval := block_interval (parameters (gpo s)) in
    if head_block_number (dgpo s) =? 0 then
      Ok (tps_add (time (dgpo s)) (u32 (slot_num * interval)))
    else if interval =? 0 then Err undefined_behaviour
    else
      let head_block_abs_slot := time (dgpo s) / interval in
      let head_slot_time := u32 (head_block_abs_slot * interval) in
      let slot_num :=
        if has_flag (dynamic_flags (dgpo s)) dgp_maintenance_flag
        then u32 (slot_num + maintenance_skip_slots (parameters (gpo s))) else slot_num in
      Ok (tps_add head_slot_time (u32 (slot_num * interval))).

Definition get_slot_at_time (w : Z) (s : database) : result Z :=
  first_slot_time ← get_slot_time 1 s;
  if w <? first_slot_time then Ok 0
  else if block_interval (parameters (gpo s)) =? 0 then Err undefined_behaviour
  else Ok (u32 (tps_diff w first_slot_time / block_interval (parameters (gpo s)) + 1)).

Definition count_missed (w : witness_object) : result witness_object :=
  n ← raw_int64 (total_missed w + 1);
  Ok (WitnessObject (witness_account w) (pay_vb w) n (signing_key w) (last_aslot w) (last_confirmed_block_num w)
        (witness_vote_id w) (witness_total_votes w) (witness_url w)).

(** The loop over the missed slots [i + 1], ..., [i + n]. *)
Fixpoint missed_loop (n : nat) (i : Z) : M database unit :=
  match n with
  | O => mret tt
  | S n =>
      w ← (λ s, lift (get_scheduled_witness (i + 1) s) s);
      _ ← get (V:=witness_object) w;
      modify w count_missed;;
      missed_loop n (i + 1)
  end.

Definition update_witness_missed_blocks (b : signed_block) : M database Z :=
  slot ← (λ s, lift (get_slot_at_time (timestamp b) s) s);
  assert_that (negb (slot =? 0));;
  let missed_blocks := slot - 1 in
  n ← gets (λ s, Z.of_nat (length (shuffled_witnesses s)));
  (if missed_blocks <? n then missed_loop (Z.to_nat missed_blocks) 0 else mret tt);;
  mret missed_blocks.

Definition witness_participation_rate (s : database) : Z :=
  u32 (u64 (GRAPHENE_100_PERCENT * u128_popcount (recent_slots_filled (dgpo s))) / 128).

(** ** Shuffling *)
Definition xorshift (now_hi i : Z) : Z :=
  let k := u64 (now_hi + u64 (i * 2685821657736338717)) in
  let k := Z.lxor k (Z.shiftr k 12) in
  let k := Z.lxor k (u64 (Z.shiftl k 25)) in
  let k := Z.lxor k (Z.shiftr k 27) in
  u64 (k * 2685821657736338717).

Definition swap (i j : nat) (l : list Z) : result (list Z) :=
  match l !! i, l !! j with
  | Some x, Some y => Ok (<[i := y]> (<[j := x]> l))
  | _, _ => Err undefined_behaviour
  end.

(** The iterations [i], ..., [i + n - 1] of the loop. *)
Fixpoint shuffle_loop (now_hi : Z) (n i : nat) (l : list Z) : result (list Z) :=
  match n with
  | O => Ok l
  | S n =>
      let k := xorshift now_hi (Z.of_nat i) in
      let jmax := u32 (Z.of_nat (length l) - Z.of_nat i) in
      if jmax =? 0 then Err undefined_behaviour
      else
        let j := u32 (Z.of_nat i + k `mod` jmax) in
        l' ← swap i (Z.to_nat j) l;
        shuffle_loop now_hi n (S i) l'
  end.

Definition update_witness_schedule : M database unit := λ s,
  let active := active_witnesses (gpo s) in
  if (length active =? 0)%nat then Err undefined_behaviour
  else if head_block_number (dgpo s) `mod` Z.of_nat (length active) =? 0 then
    let now_hi := u64 (Z.shiftl (time (dgpo s)) 32) in
    l ← shuffle_loop now_hi (length active) 0 active;
    Ok (tt, set_shuffled_witnesses l s)
  else Ok (tt, s).

(** ** What a block changes *)
Definition missed_count (checkpoints : list Z) (num missed_blocks count : Z) : Z :=
  if num =? 1 then 0
  else if match last checkpoints with Some c => c >=? num | None => false end then 0
  else if negb (missed_blocks =? 0)
  then u32 (count + u32 (GRAPHENE_RECENTLY_MISSED_COUNT_INCREMENT * missed_blocks))
  else if count >? GRAPHENE_RECENTLY_MISSED_COUNT_INCREMENT
  then count - GRAPHENE_RECENTLY_MISSED_COUNT_DECREMENT
  else if count >? 0 then count - 1
  else count.

Definition block_dgp (checkpoints : list Z) (b : signed_block) (missed_blocks : Z)
    (d : dynamic_global_property_object) : dynamic_global_property_object :=
  DynamicGlobalProperties (block_num b) (block_id b).1 (timestamp b) (witness b)
    (next_maintenance_time d) (witness_budget d)
    (missed_count checkpoints (block_num b) missed_blocks (recently_missed_count d))
    (u64 (current_aslot d + u32 (missed_blocks + 1)))
    (u128_shl (u128_add (u128_shl (recent_slots_filled d) 1) 1) missed_blocks)
    (dynamic_flags d) (last_irreversible_block_num d) (accounts_registered_this_interval d) (last_budget_time d).

(** The result is the size that the undo database and the fork database are
    given. *)
Definition update_global_dynamic_data (checkpoints : list Z) (skip_undo_history_check : bool)
    (b : signed_block) (missed_blocks : Z) : M database Z :=
  puts (λ s, set_dgpo (block_dgp checkpoints b missed_blocks (dgpo s)) s);;
  d ← gets dgpo;
  (if skip_undo_history_check then mret tt
   else lift (graphene_assert
          (u32 (head_block_number d - last_irreversible_block_num d) <? GRAPHENE_MAX_UNDO_HISTORY)
          undo_database_exception));;
  mret (u32 (head_block_number d - last_irreversible_block_num d + 1)).

Definition set_witness_budget (n : Z) (d : dynamic_global_property_object)
    : dynamic_global_property_object :=
  DynamicGlobalProperties (head_block_number d) (head_block_id d) (time d) (current_witness d)
    (next_maintenance_time d) n (recently_missed_count d) (current_aslot d)
    (recent_slots_filled d) (dynamic_flags d) (last_irreversible_block_num d)
    (accounts_registered_this_interval d) (last_budget_time d).

Definition set_last_block (aslot num : Z) (w : witness_object) : result witness_object :=
  Ok (WitnessObject (witness_account w) (pay_vb w) (total_missed w) (signing_key w) aslot num
        (witness_vote_id w) (witness_total_votes w) (witness_url w)).

Definition update_signing_witness (signing_witness : Z) (new_block : signed_block) : M database unit :=
  p ← get_parameters;
  d ← gets dgpo;
  slot ← (λ s, lift (get_slot_at_time (timestamp new_block) s) s);
  let new_block_aslot := u64 (current_aslot d + slot) in
  let witness_pay := Z.min (witness_pay_per_block p) (witness_budget d) in
  rest ← lift (safe_sub (witness_budget d) witness_pay);
  puts (λ s, set_dgpo (set_witness_budget rest (dgpo s)) s);;
  deposit_witness_pay signing_witness witness_pay;;
  modify signing_witness (set_last_block new_block_aslot (block_num new_block)).

Definition set_irreversible (n : Z) (d : dynamic_global_property_object)
    : dynamic_global_property_object :=
  DynamicGlobalProperties (head_block_number d) (head_block_id d) (time d) (current_witness d)
    (next_maintenance_time d) (witness_budget d) (recently_missed_count d) (current_aslot d)
    (recent_slots_filled d) (dynamic_flags d) n (accounts_registered_this_interval d)
    (last_budget_time d).

(** The objects of the active witnesses, in the order of the set. *)
Fixpoint witness_objects (l : list Z) : M database (list witness_object) :=
  match l with
  | [] => mret []
  | i :: l => w ← get (V:=witness_object) i; ws ← witness_objects l; mret (w :: ws)
  end.

(** [std::nth_element] puts at [offset] the element that sorting would put
    there; only that element's block number is used. *)
Definition nth_smallest (offset : nat) (l : list Z) : option Z := merge_sort Z.le l !! offset.

Definition update_last_irreversible_block : M database unit :=
  active ← gets (λ s, active_witnesses (gpo s));
  wit_objs ← witness_objects active;
  let offset := (GRAPHENE_100_PERCENT - GRAPHENE_IRREVERSIBLE_THRESHOLD)
                * Z.of_nat (length wit_objs) / GRAPHENE_100_PERCENT in
  n ← lift (from_option_r undefined_behaviour
              (nth_smallest (Z.to_nat offset) (last_confirmed_block_num <$> wit_objs)));
  d ← gets dgpo;
  if n >? last_irreversible_block_num d
  then puts (λ s, set_dgpo (set_irreversible n (dgpo s)) s)
  else mret tt.

End schedule.

(** ** Properties *)
Section schedule_theorems.
Context `{EX : Ext} `{BX : BlockExt} `{SB : SlotBits}.

(** Slot [n] starts at [slot_base + n * interval]. *)
Definition slot_base (s : database) : Z :=
  let interval := block_interval (parameters (gpo s)) in
  if head_block_number (dgpo s) =? 0 then time (dgpo s)
  else time (dgpo s) / interval * interval
       + (if has_flag (dynamic_flags (dgpo s)) dgp_maintenance_flag
          then maintenance_skip_slots (parameters (gpo s)) * interval else 0).

Lemma slot_time_spec n s :
  let interval := block_interval (parameters (gpo s)) in
  0 < interval → 0 ≤ time (dgpo s) → 0 ≤ maintenance_skip_slots (parameters (gpo s)) →
  1 ≤ n → slot_base s + n * interval ≤ uint32_max →
  get_slot_time n s = Ok (slot_base s + n * interval) ∧ time (dgpo s) < slot_base s + n * interval.
Proof.
  intros interval Hi Ht Hsk Hn. unfold get_slot_time, slot_base. fold interval.
  set (t := time (dgpo s)) in *. set (sk := maintenance_skip_slots (parameters (gpo s))) in *.
  rewrite (proj2 (Z.eqb_neq n 0)), (proj2 (Z.eqb_neq interval 0)) by lia.
  destruct (head_block_number (dgpo s) =? 0); intros Hfit.
  - unfold u32. rewrite Z.mod_small by (unfold_widths; nia).
    rewrite tps_add_spec by nia. split; [done|nia].
  - pose proof (Z.mul_div_le t interval Hi). pose proof (Z.mod_pos_bound t interval Hi).
    pose proof (Z.div_mod t interval ltac:(lia)). assert (0 ≤ t / interval) by (apply Z.div_pos; lia).
    destruct (has_flag _ _); unfold u32.
    + rewrite (Z.mod_small (n + sk)) by (unfold_widths; nia).
      rewrite !Z.mod_small by (unfold_widths; nia). rewrite tps_add_spec by nia.
      split; [f_equal; lia|nia].
    + rewrite !Z.mod_small by (unfold_widths; nia). rewrite tps_add_spec by nia.
      split; [f_equal; lia|nia].
Qed.

(** Slots.  While times fit 32 bits every slot [n >= 1] starts after the head
    block, slot [n + 1] starts one block interval after slot [n], and
    [get_slot_at_time] is the inverse of [get_slot_time]: it answers [n] exactly
    on the times from the start of slot [n] up to the start of slot [n + 1]. *)
Theorem slot_at_time_inverts_slot_time n s :
  let interval := block_interval (parameters (gpo s)) in
  0 < interval → 0 ≤ time (dgpo s) → 0 ≤ maintenance_skip_slots (parameters (gpo s)) →
  1 ≤ n → slot_base s + (n + 1) * interval ≤ uint32_max →
  ∃ t, get_slot_time n s = Ok t ∧ get_slot_time (n + 1) s = Ok (t + interval) ∧
    time (dgpo s) < t ∧
    ∀ w, 0 ≤ w ≤ uint32_max → (get_slot_at_time w s = Ok n ↔ t ≤ w < t + interval).
Proof.
  intros interval Hi Ht Hsk Hn Hfit.
  destruct (slot_time_spec n s) as [E1 L1]; [done..|nia|]. fold interval in E1, L1.
  destruct (slot_time_spec (n + 1) s) as [E2 _]; [done..|lia|done|]. fold interval in E2.
  destruct (slot_time_spec 1 s) as [E3 L3]; [done..|nia|]. fold interval in E3, L3.
  exists (slot_base s + n * interval). split_and!; [done|rewrite E2; f_equal; lia|done|].
  intros w Hw. unfold get_slot_at_time. rewrite E3. cbn [mbind result_bind]. fold interval.
  destruct (w <? _) eqn:Elt; bool_to_prop.
  { split; [intros [= <-]; lia|nia]. }
  rewrite (proj2 (Z.eqb_neq interval 0)) by lia. rewrite tps_diff_spec by lia.
  set (d := w - (slot_base s + 1 * interval)).
  assert (0 ≤ d / interval) by (apply Z.div_pos; lia).
  assert (d / interval ≤ d) by (apply Z.div_le_upper_bound; nia).
  unfold u32. rewrite Z.mod_small by (unfold_widths; lia).
  pose proof (Z.mul_div_le d interval Hi). pose proof (Z.mod_pos_bound d interval Hi).
  pose proof (Z.div_mod d interval ltac:(lia)).
  split; [intros [= <-]; nia|]. intros Hb. f_equal.
  assert (d / interval = n - 1); [|lia]. symmetry. apply Z.div_unique with (r := d - interval * (n - 1)); nia.
Qed.

(** *** Shuffling *)
Lemma swap_perm i j l l' : swap i j l = Ok l' → l' ≡ₚ l.
Proof.
  unfold swap. destruct (l !! i) as [x|] eqn:Ei; [|done]. destruct (l !! j) as [y|] eqn:Ej; [|done].
  intros [= <-]. by apply Permutation_insert_swap.
Qed.

Lemma shuffle_loop_perm now n i l :
  Z.of_nat (length l) ≤ uint32_max → (i + n = length l)%nat →
  ∃ l', shuffle_loop now n i l = Ok l' ∧ l' ≡ₚ l.
Proof.
  revert i l. induction n as [|n IH]; intros i l Hl Hi; [by exists l|]. cbn [shuffle_loop].
  assert (u32 (Z.of_nat (length l) - Z.of_nat i) = Z.of_nat (length l) - Z.of_nat i) as ->.
  { unfold u32. apply Z.mod_small. unfold_widths. lia. }
  rewrite (proj2 (Z.eqb_neq _ _)) by lia.
  set (jm := Z.of_nat (length l) - Z.of_nat i).
  pose proof (Z.mod_pos_bound (xorshift now (Z.of_nat i)) jm ltac:(lia)) as Hm.
  set (j := Z.of_nat i + _). assert (u32 j = j) as ->.
  { unfold u32. apply Z.mod_small. unfold_widths. lia. }
  destruct (swap i (Z.to_nat j) l) as [l1|e] eqn:Es; cbn [mbind result_bind].
  - pose proof (swap_perm _ _ _ _ Es) as Hp.
    destruct (IH (S i) l1) as (l2 & E2 & P2); [rewrite Hp; done|rewrite Hp; lia|].
    exists l2. split; [done|]. by rewrite P2.
  - exfalso. unfold swap in Es.
    destruct (lookup_lt_is_Some_2 l i) as [x Ex]; [lia|].
    destruct (lookup_lt_is_Some_2 l (Z.to_nat j)) as [y Ey]; [lia|]. by rewrite Ex, Ey in Es.
Qed.

(** C36: Once per round the schedule becomes a permutation of the active
    witnesses, so that no witness is dropped or scheduled twice; between rounds
    it does not change, and nothing else ever does. *)
Theorem update_witness_schedule_permutes s :
  let n := Z.of_nat (length (active_witnesses (gpo s))) in
  0 < n ≤ uint32_max →
  ∃ l, update_witness_schedule s = Ok (tt, set_shuffled_witnesses l s) ∧
    if head_block_number (dgpo s) `mod` n =? 0 then l ≡ₚ active_witnesses (gpo s)
    else l = shuffled_witnesses s.
Proof.
  intros n Hn. unfold update_witness_schedule.
  destruct (length (active_witnesses (gpo s)) =? 0)%nat eqn:E0; [apply Nat.eqb_eq in E0; lia|].
  fold n. destruct (_ `mod` n =? 0); [|by exists (shuffled_witnesses s); destruct s].
  destruct (shuffle_loop_perm (u64 (Z.shiftl (time (dgpo s)) 32)) (length (active_witnesses (gpo s))) 0
              (active_witnesses (gpo s))) as (l & E & P); [lia|done|].
  exists l. by rewrite E.
Qed.

Lemma scheduled_spec i s :
  let w := shuffled_witnesses s in
  w ≠ [] → 0 ≤ current_aslot (dgpo s) + i ≤ uint64_max →
  ∃ x, get_scheduled_witness i s = Ok x ∧
    w !! Z.to_nat ((current_aslot (dgpo s) + i) `mod` Z.of_nat (length w)) = Some x.
Proof.
  intros w Hw Hi. unfold get_scheduled_witness. fold w.
  assert (0 < Z.of_nat (length w)) as Hl by (destruct w; [done|cbn; lia]).
  destruct (length w =? 0)%nat eqn:E0; [apply Nat.eqb_eq in E0; lia|].
  unfold u64. rewrite (Z.mod_small (_ + _)) by (unfold_widths; lia).
  pose proof (Z.mod_pos_bound (current_aslot (dgpo s) + i) (Z.of_nat (length w)) Hl).
  destruct (lookup_lt_is_Some_2 w (Z.to_nat ((current_aslot (dgpo s) + i) `mod` Z.of_nat (length w))))
    as [x Hx]; [lia|].
  exists x. by rewrite Hx.
Qed.

(** Fairness of the schedule: in any window of as many consecutive slots as
    there are scheduled witnesses, each of them is scheduled exactly once. *)
Theorem each_witness_once_per_round k s :
  let w := shuffled_witnesses s in
  w ≠ [] → 0 ≤ k → 0 ≤ current_aslot (dgpo s) →
  current_aslot (dgpo s) + k + Z.of_nat (length w) ≤ uint64_max →
  ∃ l, Forall2 (λ i x, get_scheduled_witness i s = Ok x) (seqZ k (Z.of_nat (length w))) l ∧ l ≡ₚ w.
Proof.
  intros w Hw Hk Ha Hfit. set (n := Z.of_nat (length w)) in *.
  assert (0 < n) as Hn by (unfold n; destruct w; [done|cbn; lia]).
  set (r := (current_aslot (dgpo s) + k) `mod` n).
  pose proof (Z.mod_pos_bound (current_aslot (dgpo s) + k) n Hn) as Hr. fold r in Hr.
  exists (drop (Z.to_nat r) w ++ take (Z.to_nat r) w). split.
  - apply Forall2_same_length_lookup. split.
    { rewrite length_seqZ, length_app, length_drop, length_take. lia. }
    intros i x y Hx Hy. apply lookup_seqZ in Hx as [-> Hlt].
    destruct (scheduled_spec (k + Z.of_nat i) s) as (z & -> & Hz); [done|fold w; lia|].
    fold w n in Hz. f_equal.
    assert ((current_aslot (dgpo s) + (k + Z.of_nat i)) `mod` n
            = if r + Z.of_nat i <? n then r + Z.of_nat i else r + Z.of_nat i - n) as Em.
    { replace (current_aslot (dgpo s) + (k + Z.of_nat i))
        with ((current_aslot (dgpo s) + k) + Z.of_nat i) by lia.
      rewrite <- Z.add_mod_idemp_l by lia. fold r. destruct (_ <? n) eqn:El; bool_to_prop.
      - apply Z.mod_small. lia.
      - symmetry. apply Z.mod_unique with (q := 1); lia. }
    rewrite Em in Hz. destruct (r + Z.of_nat i <? n) eqn:El; bool_to_prop.
    + rewrite lookup_app_l in Hy by (rewrite length_drop; lia). rewrite lookup_drop in Hy.
      replace (Z.to_nat (r + Z.of_nat i)) with (Z.to_nat r + i)%nat in Hz by lia. congruence.
    + rewrite lookup_app_r in Hy by (rewrite length_drop; lia). rewrite length_drop in Hy.
      rewrite lookup_take_lt in Hy by lia.
      replace (Z.to_nat (r + Z.of_nat i - n)) with (i - (length w - Z.to_nat r))%nat in Hz by lia.
      congruence.
  - rewrite (Permutation_app_comm _ _). by rewrite take_drop.
Qed.

(** *** Missed blocks *)
(** How often witness [w] is scheduled in the slots [i + 1], ..., [i + n]. *)
Definition times_scheduled (s : database) (i : Z) (n : nat) (w : Z) : Z :=
  Z.of_nat (length (filter (λ k, get_scheduled_witness k s = Ok w) (seqZ (i + 1) (Z.of_nat n)))).

Lemma scheduled_set_witnesses m i s : get_scheduled_witness i (set_witnesses m s) = get_scheduled_witness i s.
Proof. done. Qed.

Definition missed_of (s : database) (w : Z) : option Z := total_missed <$> witnesses s !! w.

Lemma missed_loop_spec n i s s' :
  missed_loop n i s = Ok (tt, s') →
  s' = set_witnesses (witnesses s') s ∧
  ∀ w, missed_of s' w = (λ t, t + times_scheduled s i n w) <$> missed_of s w.
Proof.
  revert i s. induction n as [|n IH]; intros i s E; cbn [missed_loop] in E.
  { unfold mret, M_ret in E. simplify_eq. split; [by destruct s'|]. intros w.
    destruct (missed_of s' w); [|done]. cbn. f_equal. symmetry. apply Z.add_0_r. }
  apply M_bind_Ok in E as (x & s1 & E1 & E). apply lift_Ok in E1 as [Ex ->].
  apply M_bind_Ok in E as (o & s1 & E1 & E). apply get_Ok in E1 as [-> Ho].
  apply M_bind_Ok in E as ([] & s1 & E1 & E).
  apply (total_modify (linear_weights (λ _, 0) (λ _, 0) (λ _, 0) 0)) in E1 as (v & o' & Hv & Ec & -> & _).
  cbn in Hv, Ho. assert (v = o) as -> by congruence.
  apply IH in E as [-> Hw]. split; [done|]. intros w. rewrite Hw.
  change (times_scheduled (set_tbl _ s)) with (times_scheduled s). unfold times_scheduled.
  rewrite (seqZ_cons (i + 1) (Z.of_nat (S n))) by lia. rewrite filter_cons.
  replace (Z.pred (Z.of_nat (S n))) with (Z.of_nat n) by lia.
  replace (Z.succ (i + 1)) with (i + 1 + 1) by lia.
  unfold count_missed in Ec. apply result_bind_Ok in Ec as (t & Et & Ec). apply raw_int64_Ok in Et as [-> _].
  unfold missed_of. cbn [set_tbl witnesses_table set_witnesses witnesses tbl].
  destruct (decide (x = w)) as [<-|Hne].
  - rewrite lookup_insert_eq, Hv, decide_True by done. injection Ec as <-.
    cbn [fmap option_fmap option_map total_missed length]. f_equal. lia.
  - rewrite lookup_insert_ne, decide_False by (congruence || done). done.
Qed.

(** A block in slot [m + 1] means [m] missed slots: when these are fewer than
    the scheduled witnesses every witness is charged one missed block for each of
    them it was scheduled in; nothing else changes.  A block that does not open a
    new slot is refused. *)
Theorem missed_blocks_charged b s :
  match update_witness_missed_blocks b s with
  | Ok (m, s') =>
      get_slot_at_time (timestamp b) s = Ok (m + 1) ∧ s' = set_witnesses (witnesses s') s ∧
      ∀ w, missed_of s' w =
        if m <? Z.of_nat (length (shuffled_witnesses s))
        then (λ t, t + times_scheduled s 0 (Z.to_nat m) w) <$> missed_of s w
        else missed_of s w
  | Err _ => True
  end ∧
  (get_slot_at_time (timestamp b) s = Ok 0 → update_witness_missed_blocks b s = Err assert_exception).
Proof.
  split.
  - destruct (update_witness_missed_blocks b s) as [[m s']|] eqn:E; [|done].
    unfold update_witness_missed_blocks in E.
    apply M_bind_Ok in E as (slot & s1 & E1 & E). apply lift_Ok in E1 as [Eslot ->].
    apply M_bind_Ok in E as ([] & s1 & E1 & E). apply lift_Ok in E1 as [E1 ->].
    apply M_bind_Ok in E as (n & s1 & E2 & E). unfold gets in E2. injection E2 as <- <-.
    apply M_bind_Ok in E as ([] & s1 & E2 & E). unfold mret, M_ret in E. injection E as <- <-.
    split; [rewrite Eslot; f_equal; lia|].
    destruct (slot - 1 <? _).
    + by apply missed_loop_spec in E2.
    + unfold mret, M_ret in E2. simplify_eq. by destruct s1.
  - intros E. unfold update_witness_missed_blocks, mbind at 1, M_bind at 1. by rewrite E.
Qed.

(** *** Irreversibility *)
Lemma sorted_prefix_suffix (l : list Z) k v :
  Sorted Z.le l → l !! k = Some v →
  ∃ p q, l = p ++ v :: q ∧ length p = k ∧ Forall (λ x, x ≤ v) p ∧ Forall (λ x, v ≤ x) q.
Proof.
  intros Hs Hk. exists (take k l), (drop (S k) l).
  pose proof (take_drop_middle l k v Hk) as El. apply Sorted_StronglySorted in Hs; [|intros ???; lia].
  rewrite <- El in Hs. split_and!; [done| | |].
  - rewrite length_take. apply lookup_lt_Some in Hk. lia.
  - apply Forall_forall. intros x Hx. eapply (StronglySorted_app_1_elem_of Z.le) in Hs; [done|done|left].
  - apply StronglySorted_app_1_r in Hs. by apply StronglySorted_inv in Hs as [_ ?].
Qed.

Definition at_least (n : Z) (l : list Z) : Z := Z.of_nat (length (filter (λ x, n ≤ x) l)).

Lemma at_least_all n l : Forall (λ x, n ≤ x) l → at_least n l = Z.of_nat (length l).
Proof.
  intros H. unfold at_least. f_equal. induction H as [|x l Hx Hl IH]; [done|].
  rewrite filter_cons, decide_True by done. cbn. by rewrite IH.
Qed.
Lemma at_least_none n l : Forall (λ x, x < n) l → at_least n l = 0.
Proof.
  intros H. unfold at_least. induction H as [|x l Hx Hl IH]; [done|].
  by rewrite filter_cons, decide_False by lia.
Qed.
Lemma at_least_app n l1 l2 : at_least n (l1 ++ l2) = at_least n l1 + at_least n l2.
Proof. unfold at_least. rewrite filter_app, length_app. lia. Qed.
Lemma at_least_bound n l : 0 ≤ at_least n l ≤ Z.of_nat (length l).
Proof. unfold at_least. pose proof (length_filter (λ x, n ≤ x) l). lia. Qed.

Lemma nth_smallest_counts k l v :
  nth_smallest k l = Some v →
  Z.of_nat (length l) - Z.of_nat k ≤ at_least v l ∧
  ∀ n, v < n → at_least n l < Z.of_nat (length l) - Z.of_nat k.
Proof.
  unfold nth_smallest. intros Hk.
  assert (merge_sort Z.le l ≡ₚ l) as Hp by apply merge_sort_Permutation.
  assert (Sorted Z.le (merge_sort Z.le l)) as Hs by (apply Sorted_merge_sort; intros ??; lia).
  destruct (sorted_prefix_suffix _ _ _ Hs Hk) as (p & q & El & Hl & Hpre & Hpost).
  assert (∀ n, at_least n l = at_least n (p ++ v :: q)) as Hat.
  { intros n. unfold at_least. rewrite <- El. by rewrite Hp. }
  assert (length l = length p + S (length q))%nat as Hlen.
  { rewrite <- Hp, El, length_app. done. }
  split.
  - rewrite Hat, at_least_app, (at_least_all v (v :: q)) by (constructor; [lia|done]).
    pose proof (at_least_bound v p). cbn [length]. lia.
  - intros n Hn. rewrite Hat, (at_least_app n p (v :: q)), (at_least_none n p).
    + change (v :: q) with ([v] ++ q). rewrite at_least_app, (at_least_none n [v]).
      * pose proof (at_least_bound n q). lia.
      * by repeat constructor.
    + eapply Forall_impl; [exact Hpre|]. cbn. lia.
Qed.

Lemma witness_objects_spec l s :
  (∀ i, i ∈ l → is_Some (witnesses s !! i)) →
  witness_objects l s = Ok (omap (λ i, witnesses s !! i) l, s) ∧
  length (omap (λ i, witnesses s !! i) l) = length l.
Proof.
  induction l as [|i l IH]; intros Hl; [done|]. cbn [witness_objects omap list_omap].
  destruct (Hl i) as [w Hw]; [left|]. destruct IH as [E1 E2].
  { intros j Hj. apply Hl. by right. }
  unfold mbind, M_bind, get. cbn [tbl witnesses_table]. rewrite Hw, E1. cbn. split; [done|].
  by rewrite E2.
Qed.

(** The last confirmed block numbers of the active witnesses. *)
Definition confirmations (s : database) : list Z :=
  last_confirmed_block_num <$> omap (λ i, witnesses s !! i) (active_witnesses (gpo s)).

(** C35: Irreversibility.  The last irreversible block never moves back; it becomes
    the highest block that at least 70 percent of the active witnesses have
    confirmed whenever that is higher, and nothing else changes. *)
Theorem irreversible_needs_supermajority s :
  let n := Z.of_nat (length (active_witnesses (gpo s))) in
  active_witnesses (gpo s) ≠ [] → (∀ i, i ∈ active_witnesses (gpo s) → is_Some (witnesses s !! i)) →
  ∃ v, update_last_irreversible_block s
       = Ok (tt, set_dgpo (set_irreversible (Z.max v (last_irreversible_block_num (dgpo s))) (dgpo s)) s) ∧
    7000 * n ≤ 10000 * at_least v (confirmations s) ∧
    ∀ k, v < k → 10000 * at_least k (confirmations s) < 7000 * n.
Proof.
  intros n Hne Hall. destruct (witness_objects_spec _ _ Hall) as [Eo El].
  assert (0 < n) as Hn by (unfold n; destruct (active_witnesses (gpo s)); [done|cbn; lia]).
  assert (length (confirmations s) = length (active_witnesses (gpo s))) as Ec.
  { unfold confirmations. by rewrite length_fmap. }
  set (off := 3000 * n / 10000).
  pose proof (Z.mul_div_le (3000 * n) 10000 ltac:(lia)) as H1. fold off in H1.
  pose proof (Z.mod_pos_bound (3000 * n) 10000 ltac:(lia)) as H2.
  pose proof (Z.div_mod (3000 * n) 10000 ltac:(lia)) as H3. fold off in H3.
  assert (0 ≤ off) by (apply Z.div_pos; lia).
  assert (is_Some (nth_smallest (Z.to_nat off) (confirmations s))) as [v Hv].
  { apply lookup_lt_is_Some_2. rewrite merge_sort_Permutation, Ec. fold n. lia. }
  exists v. apply nth_smallest_counts in Hv as Hcount. rewrite Ec in Hcount. fold n in Hcount.
  destruct Hcount as [C1 C2]. split.
  - unfold update_last_irreversible_block, mbind, M_bind. unfold gets at 1. rewrite Eo.
    unfold GRAPHENE_100_PERCENT, GRAPHENE_IRREVERSIBLE_THRESHOLD. rewrite El.
    change ((10000 - 7000) * Z.of_nat (length (active_witnesses (gpo s))) / 10000) with off.
    fold (confirmations s). rewrite Hv. cbn. rewrite Z.gtb_ltb.
    destruct (_ <? v) eqn:E; bool_to_prop.
    + by rewrite Z.max_l by lia.
    + rewrite Z.max_r by lia. unfold mret, M_ret. by destruct s as [? ? ? ? ? ? ? ? ? ? ? ? ? ? ? ? ? []].
  - split; [lia|]. intros k Hk. specialize (C2 k Hk). lia.
Qed.

(** *** Pay and history *)
Lemma effect_witness_pay c e q g wit amt :
  effect (linear_weights c e q g) (deposit_witness_pay wit amt) (λ _, c CORE * amt).
Proof.
  intros s [] s' E. unfold deposit_witness_pay in E. destruct (amt =? 0) eqn:E0.
  { bool_to_prop. unfold mret, M_ret in E. simplify_eq. lia. }
  apply M_bind_Ok in E as (a & s1 & E1 & E). apply get_Ok in E1 as [-> _].
  apply M_bind_Ok in E as (p & s1 & E1 & E). unfold get_parameters, gets in E1. injection E1 as <- <-.
  apply M_bind_Ok in E as (r & s1 & E1 & E). apply (effect_deposit_lazy c e q g) in E1.
  destruct r as [i|]; [|unfold mret, M_ret in E; simplify_eq; lia].
  apply (total_modify (linear_weights c e q g)) in E as (v & w & _ & _ & _ & E). cbn in E. lia.
Qed.

Lemma keeps_dgpo_lazy ovbid amt vs ty owner rv :
  keeps (λ s s', dgpo s' = dgpo s) (deposit_lazy_vesting ovbid amt vs ty owner rv).
Proof.
  apply keeps_deposit_lazy; [|done..]. split; [done|]. intros ???; congruence.
Qed.

Lemma update_signing_witness_inv wit b s s' :
  update_signing_witness wit b s = Ok (tt, s') →
  let pay := Z.min (witness_pay_per_block (parameters (gpo s))) (witness_budget (dgpo s)) in
  ∃ s1 aslot, deposit_witness_pay wit pay
      (set_dgpo (set_witness_budget (witness_budget (dgpo s) - pay) (dgpo s)) s) = Ok (tt, s1) ∧
    modify wit (set_last_block aslot (block_num b)) s1 = Ok (tt, s').
Proof.
  intros E pay. unfold update_signing_witness in E.
  apply M_bind_Ok in E as (p & s1 & E1 & E). unfold get_parameters, gets in E1. injection E1 as <- <-.
  apply M_bind_Ok in E as (d & s1 & E1 & E). unfold gets in E1. injection E1 as <- <-.
  apply M_bind_Ok in E as (slot & s1 & E1 & E). apply lift_Ok in E1 as [_ ->]. fold pay in E.
  apply M_bind_Ok in E as (rest & s1 & E1 & E). apply lift_Ok in E1 as [E1 ->].
  apply M_bind_Ok in E as ([] & s1 & E2 & E). unfold puts in E2. injection E2 as <-.
  apply M_bind_Ok in E as ([] & s2 & E2 & E).
  assert (rest = witness_budget (dgpo s) - pay) as -> by (safe_inv; done). eauto.
Qed.
Lemma signing_witness_total wit b s s' c e q g :
  update_signing_witness wit b s = Ok (tt, s') →
  total (linear_weights c e q g) s' = total (linear_weights c e q g) s.
Proof.
  intros (s1 & aslot & E2 & E)%update_signing_witness_inv. apply (effect_witness_pay c e q g) in E2.
  apply (total_modify (linear_weights c e q g)) in E as (v & w & _ & _ & _ & ->). rewrite E2.
  unfold total. cbn. lia.
Qed.

(** Paying the signing witness moves [min(witness_pay_per_block, budget)] from
    the witness budget to a vesting balance of the witness: the budget never
    becomes negative, and the holdings of every asset keep their relation to the
    supplies. *)
Theorem witness_pay_conserves wit b s s' :
  update_signing_witness wit b s = Ok (tt, s') →
  0 ≤ witness_budget (dgpo s) → 0 ≤ witness_pay_per_block (parameters (gpo s)) →
  witness_budget (dgpo s') = witness_budget (dgpo s)
    - Z.min (witness_pay_per_block (parameters (gpo s))) (witness_budget (dgpo s)) ∧
  0 ≤ witness_budget (dgpo s') ∧
  last_confirmed_block_num <$> witnesses s' !! wit = Some (block_num b) ∧
  (∀ a, excess a s' = excess a s) ∧ core_orders_excess s' = core_orders_excess s ∧
  (∀ a, debt_excess a s' = debt_excess a s).
Proof.
  intros E Hb Hp. pose proof (λ c e q g, signing_witness_total wit b s s' c e q g E) as Htot.
  apply update_signing_witness_inv in E as (s2 & aslot & E2 & E). set (pay := Z.min _ _) in *.
  assert (dgpo s' = set_witness_budget (witness_budget (dgpo s) - pay) (dgpo s)) as Hd.
  { apply (total_modify (linear_weights (λ _, 0) (λ _, 0) (λ _, 0) 0)) in E as (v & w & _ & _ & -> & _).
    cbn [dgpo set_tbl witnesses_table set_witnesses].
    assert (keeps (λ s s', dgpo s' = dgpo s) (deposit_witness_pay wit pay)) as Hk.
    { assert (PreOrder (λ s s' : database, dgpo s' = dgpo s)) by (split; [done|intros ???; congruence]).
      unfold deposit_witness_pay. pose proof keeps_dgpo_lazy. solve_keeps_with ltac:(done). }
    by rewrite (Hk _ _ _ E2). }
  rewrite Hd. cbn [witness_budget set_witness_budget].
  split; [done|]. split; [lia|]. split.
  { apply (total_modify (linear_weights (λ _, 0) (λ _, 0) (λ _, 0) 0)) in E as (v & w & _ & Ew & -> & _).
    cbn. rewrite lookup_insert_eq. cbn. by injection Ew as <-. }
  split_and!; intros; apply Htot.
Qed.

(** The history of slots.  A block after [missed_blocks] missed slots shifts
    the history by that many zeros below a one, so bit [i] of the new word says
    whether the slot [i] slots ago had a block; the absolute slot advances by
    the same number of slots. *)
Theorem slot_history_shifts cps b m d :
  0 ≤ recent_slots_filled d ≤ uint128_max → 0 ≤ m < 128 →
  0 ≤ current_aslot d → current_aslot d + m + 1 ≤ uint64_max →
  let d' := block_dgp cps b m d in
  (∀ i, 0 ≤ i < 128 → Z.testbit (recent_slots_filled d') i =
     if i <? m then false else if i =? m then true
     else Z.testbit (recent_slots_filled d) (i - m - 1)) ∧
  current_aslot d' = current_aslot d + m + 1.
Proof.
  intros Hr Hm Ha Hfit. cbn [block_dgp recent_slots_filled current_aslot]. split.
  - intros i Hi. set (r := recent_slots_filled d) in *.
    rewrite (u128_shl_spec r 1) by lia.
    assert (Z.shiftl r 1 `mod` 2 ^ 128 = 2 * (r `mod` 2 ^ 127)) as ->.
    { rewrite Z.shiftl_mul_pow2 by lia. change (2 ^ 128) with (2 * 2 ^ 127). change (2 ^ 1) with 2.
      rewrite Z.mul_comm, Z.mul_mod_distr_l by lia. done. }
    pose proof (Z.mod_pos_bound r (2 ^ 127) ltac:(lia)) as Hb.
    rewrite u128_add_spec by (unfold_widths; lia).
    rewrite u128_shl_spec by (unfold_widths; lia).
    rewrite Z.mod_pow2_bits_low by lia. rewrite Z.shiftl_spec by lia.
    destruct (i <? m) eqn:E1; bool_to_prop; [apply Z.testbit_neg_r; lia|].
    destruct (i =? m) eqn:E2; bool_to_prop.
    + subst. rewrite Z.sub_diag, Z.bit0_odd, Z.add_comm, Z.odd_add_mul_2. done.
    + set (k := i - m - 1). replace (i - m) with (Z.succ k) by lia.
      rewrite Z.testbit_odd_succ by lia. apply Z.mod_pow2_bits_low. lia.
  - unfold u64, u32. rewrite (Z.mod_small (m + 1)) by lia.
    rewrite Z.mod_small by (unfold_widths; lia). lia.
Qed.

Lemma participation_bounds s :
  0 ≤ recent_slots_filled (dgpo s) ≤ uint128_max →
  0 ≤ witness_participation_rate s ≤ GRAPHENE_100_PERCENT.
Proof.
  intros Hr. apply u128_popcount_range in Hr. unfold witness_participation_rate, GRAPHENE_100_PERCENT.
  set (p := u128_popcount _) in *. unfold u64, u32. rewrite (Z.mod_small (10000 * p)) by lia.
  assert (0 ≤ 10000 * p / 128 ≤ 10000).
  { split; [apply Z.div_pos; lia|apply Z.div_le_upper_bound; lia]. }
  rewrite Z.mod_small by lia. lia.
Qed.

End schedule_theorems.

(** ** A running chain *)
Fixpoint count_bits (n : nat) (z : Z) : Z :=
  match n with O => 0 | S n => Z.b2z (Z.odd z) + count_bits n (Z.div2 z) end.
Lemma count_bits_range n z : 0 ≤ count_bits n z ≤ Z.of_nat n.
Proof. revert z. induction n as [|n IH]; intros z; cbn [count_bits]; [lia|]. specialize (IH (Z.div2 z)). destruct (Z.odd z); cbn [Z.b2z]; lia. Qed.
#[export, refine] Instance slot_bits_ref : SlotBits :=
  {| u128_shl := λ a n, Z.shiftl a n `mod` 2 ^ 128; u128_popcount := count_bits 128 |}.
Proof. - done. - intros a _. apply (count_bits_range 128). Defined.

Definition ex_witness (n : Z) : witness_object := WitnessObject 17 None 0 70 0 n 0 0 String.EmptyString.
(** Five active witnesses; block 15 is the head. *)
Definition ex_round : database :=
  set_witnesses {[ 1 := ex_witness 15; 2 := ex_witness 14; 3 := ex_witness 13; 4 := ex_witness 4;
                   5 := ex_witness 12 ]}
  (set_gpo (GlobalProperties ex_params [1; 2; 3; 4; 5] None 10 [])
  (set_shuffled_witnesses [2; 4; 1; 5; 3]
  (set_dgpo (DynamicGlobalProperties 15 null_id 1600000000 1 1600003600 5000 0 20 1023 0 3 0 1599996400) ex_chain))).
Definition ex_next_block : signed_block :=
  SignedBlock (byte_swap 15, 9) 1600000012 5 0 5 [] null_id 0.

Lemma slot_at_time_inverts_slot_time_witness :
  get_slot_time 2 ex_round = Ok 1600000010 ∧ get_slot_at_time 1600000014 ex_round = Ok 2.
Proof.
  destruct (slot_at_time_inverts_slot_time 2 ex_round) as (t & E & _ & _ & H); [by vm_compute..|].
  vm_compute in E. injection E as <-. split; [done|]. apply H; by vm_compute.
Defined.

Lemma update_witness_schedule_permutes_witness :
  ∃ l, update_witness_schedule ex_round = Ok (tt, set_shuffled_witnesses l ex_round) ∧
    l ≡ₚ [1; 2; 3; 4; 5] ∧ l ≠ [1; 2; 3; 4; 5].
Proof.
  destruct (update_witness_schedule_permutes ex_round) as (l & E & P); [by vm_compute|].
  exists l. split; [exact E|]. split; [exact P|]. intros ->. by vm_compute in E.
Defined.

Lemma each_witness_once_per_round_witness :
  ∃ l, Forall2 (λ i x, get_scheduled_witness i ex_round = Ok x) (seqZ 1 5) l ∧ l ≡ₚ [2; 4; 1; 5; 3].
Proof. apply (each_witness_once_per_round 1 ex_round); by vm_compute. Defined.

Lemma irreversible_needs_supermajority_witness :
  ∃ v, update_last_irreversible_block ex_round
       = Ok (tt, set_dgpo (set_irreversible (Z.max v 3) (dgpo ex_round)) ex_round) ∧
    7000 * 5 ≤ 10000 * at_least v (confirmations ex_round).
Proof.
  destruct (irreversible_needs_supermajority ex_round) as (v & E & H & _); [done| |by exists v].
  intros i Hi. assert (i = 1 ∨ i = 2 ∨ i = 3 ∨ i = 4 ∨ i = 5) as Hc by set_solver.
  destruct Hc as [->|[->|[->|[->| ->]]]]; by vm_compute; eexists.
Defined.

Lemma witness_pay_conserves_witness :
  match update_signing_witness 5 ex_next_block ex_round with
  | Ok (_, s') => witness_budget (dgpo s') = 4000 ∧ excess 0 s' = 5000
  | Err _ => False
  end.
Proof.
  destruct (update_signing_witness 5 ex_next_block ex_round) as [[[] s']|x] eqn:E.
  - destruct (witness_pay_conserves 5 ex_next_block ex_round s' E) as (Hb & _ & _ & Hx & _);
      [by vm_compute..|]. rewrite Hb, Hx. done.
  - by vm_compute in E.
Defined.

Lemma slot_history_shifts_witness :
  Z.testbit (recent_slots_filled (block_dgp [] ex_next_block 2 (dgpo ex_round))) 2 = true ∧
  current_aslot (block_dgp [] ex_next_block 2 (dgpo ex_round)) = 23.
Proof.
  destruct (slot_history_shifts [] ex_next_block 2 (dgpo ex_round)) as [H1 H2]; [by vm_compute..|].
  split; [rewrite H1 by lia; reflexivity|exact H2].
Defined.

Lemma missed_blocks_charged_witness :
  match update_witness_missed_blocks ex_next_block ex_round with
  | Ok (m, s') => m = 1 ∧ missed_of s' 4 = Some 1 ∧ missed_of s' 1 = Some 0
  | Err _ => False
  end.
Proof.
  destruct (missed_blocks_charged ex_next_block ex_round) as [H _].
  destruct (update_witness_missed_blocks ex_next_block ex_round) as [[m s']|x] eqn:E;
    [|by vm_compute in E].
  destruct H as (Hs & _ & H). assert (m = 1) as -> by (vm_compute in E; by injection E as <-).
  rewrite !H. by vm_compute.
Defined.
