(* ===== verification/MaxDebt.v ===== *)
(** * How much debt a margin call has to cover: chain/market_object.cpp

    [call_order_object::get_max_debt_to_cover] looks for the smallest amount of
    debt that, bought back at the match price, lifts a debt position above its
    target collateral ratio.  It solves the equation of the comment at the top
    of the source, corrects the rounding with a binary search, and when that
    fails searches forward in Fibonacci steps.  Both searches take fuel here; the
    theorems show that the fuel is always enough. *)

From S2P Require Import Prelude External Asset Authority Operations Block Vesting State.

(** The binary search halves a range of 63-bit numbers; the Fibonacci steps pass
    [GRAPHENE_MAX_SHARE_SUPPLY] after 74 terms. *)
Definition search_fuel : nat := 100%nat.

(** The ends of the range of the binary search. *)
Record search_range := SearchRange {
  min_to_pay : Z;
  min_to_cover : Z;
  max_to_pay : Z;
  max_to_cover : Z;
  max_is_ok : bool
}.

Section max_debt.
Context `{EX : Ext}.

(** The two conversions at the match price: the collateral paid for an amount of
    debt, rounded up, and the debt bought by an amount of collateral, rounded
    down. *)
Definition pay_for (o : call_order_object) (mp : price) (cover : Z) : result Z :=
  a ← multiply_and_round_up (Asset cover (debt_type o)) mp; Ok (amount a).
Definition cover_for (o : call_order_object) (mp : price) (pay : Z) : result Z :=
  a ← asset_mul (Asset pay (collateral_type o)) mp; Ok (amount a).

(** [result_is_good]: whether the position left after paying [to_pay] for
    [to_cover] is above the target; [target] is the target collateralization
    after the core-1270 hard fork. *)
Definition result_is_good (o : call_order_object) (target : option price) (tcr : Z) (feed_price : price)
    (to_pay to_cover : Z) : result bool :=
  nc ← asset_sub (get_collateral o) (Asset to_pay (collateral_type o));
  nd ← asset_sub (get_debt o) (Asset to_cover (debt_type o));
  match target with
  | Some t => p ← price_div nc nd; Ok (price_gtb p t)
  | None => p ← call_price nd nc tcr; Ok (price_gtb p feed_price)
  end.

(** One step of the binary search: the next candidate [(to_pay, to_cover)]. *)
Definition mean_point (o : call_order_object) (mp : price) (b : search_range) : result (Z * Z) :=
  if amount (base mp) <? amount (quote mp) then
    s ← safe_add (min_to_pay b) (max_to_pay b);
    s1 ← safe_add s 1;
    let to_pay := s1 `quot` 2 in
    if to_pay =? max_to_pay b then Ok (to_pay, max_to_cover b)
    else
      to_cover ← cover_for o mp to_pay;
      if to_cover >=? max_to_cover b then Ok (max_to_pay b, max_to_cover b)
      else
        to_pay' ← pay_for o mp to_cover;
        fc_assert (to_pay' <? max_to_pay b);;
        Ok (to_pay', to_cover)
  else
    s ← safe_add (min_to_cover b) (max_to_cover b);
    let to_cover := s `quot` 2 in
    if to_cover =? max_to_cover b then Ok (max_to_pay b, to_cover)
    else
      to_pay ← pay_for o mp to_cover;
      if to_pay >=? max_to_pay b then Ok (max_to_pay b, max_to_cover b)
      else
        to_cover' ← cover_for o mp to_pay;
        if to_cover' >=? max_to_cover b then Ok (max_to_pay b, max_to_cover b)
        else Ok (to_pay, to_cover').

(** "if not moved away from the minimums, use the maximums directly". *)
Definition clamp_point (b : search_range) (pt : Z * Z) : Z * Z :=
  let '(to_pay, to_cover) := pt in
  if (to_pay <=? min_to_pay b) || (to_cover <=? min_to_cover b)
     || (to_pay >? max_to_pay b) || (to_cover >? max_to_cover b)
  then (max_to_pay b, max_to_cover b) else (to_pay, to_cover).

(** [inl r]: the function returns [r]; [inr (to_pay, to_cover)]: the loop was
    left with these values. *)
Fixpoint binary_search (fuel : nat) (o : call_order_object) (mp : price)
    (good : Z → Z → result bool) (b : search_range) : result (Z + Z * Z) :=
  match fuel with
  | O => Err out_of_fuel
  | S fuel =>
      m ← mean_point o mp b;
      let '(to_pay, to_cover) := clamp_point b m in
      if (to_pay =? max_to_pay b) && (max_is_ok b || (to_pay =? collateral o)) then Ok (inl to_cover)
      else
        fc_assert ((to_pay <? collateral o) && (to_cover <? debt o));;
        g ← good to_pay to_cover;
        if g : bool then
          if to_pay =? max_to_pay b then Ok (inl to_cover)
          else binary_search fuel o mp good
                 (SearchRange (min_to_pay b) (min_to_cover b) to_pay to_cover true)
        else
          if to_pay =? max_to_pay b then Ok (inr (to_pay, to_cover))
          else binary_search fuel o mp good
                 (SearchRange to_pay to_cover (max_to_pay b) (max_to_cover b) (max_is_ok b))
  end.

(** One forward step; [None] when the search returns all the debt. *)
Definition forward_point (o : call_order_object) (mp : price) (d2 to_pay to_cover : Z)
    : result (option (Z * Z)) :=
  if amount (base mp) >? amount (quote mp) then
    p ← safe_add to_pay d2;
    if p >=? collateral o then Ok None
    else
      c ← cover_for o mp p;
      if c >=? debt o then Ok None
      else
        p' ← pay_for o mp c;
        if p' >=? collateral o then Ok None else Ok (Some (p', c))
  else
    c ← safe_add to_cover d2;
    if c >=? debt o then Ok None
    else
      p ← pay_for o mp c;
      if p >=? collateral o then Ok None
      else
        c' ← cover_for o mp p;
        if c' >=? debt o then Ok None else Ok (Some (p, c')).

Fixpoint forward_search (fuel : nat) (o : call_order_object) (mp : price)
    (good : Z → Z → result bool) (d1 d2 d3 to_pay to_cover : Z) : result Z :=
  match fuel with
  | O => Err out_of_fuel
  | S fuel =>
      m ← forward_point o mp d2 to_pay to_cover;
      match m with
      | None => Ok (debt o)
      | Some (to_pay, to_cover) =>
          fc_assert ((to_pay <? collateral o) && (to_cover <? debt o));;
          g ← good to_pay to_cover;
          if g : bool then Ok to_cover
          else forward_search fuel o mp good d2 d3 (u64 (d2 + d3)) to_pay to_cover
      end
  end.

(** The correction of the rounding, from "to_cover is too small". *)
Definition correct_rounding (o : call_order_object) (mp : price) (good : Z → Z → result bool)
    (numerator fraction denominator to_pay to_cover : Z) : result Z :=
  let to_cover_i256 := i256_add (i256_div (i256_add numerator fraction) denominator) 1 in
  let to_cover_amt := if to_cover_i256 >=? debt o then debt o else to_cover_i256 in
  mtp ← (if to_cover_amt =? debt o then Ok (collateral o) else pay_for o mp to_cover_amt);
  let mtp := if mtp >? collateral o then collateral o else mtp in
  mtc ← (if mtp =? collateral o then Ok (debt o) else cover_for o mp mtp);
  let '(mtp, mtc) := if mtc >=? debt o then (collateral o, debt o) else (mtp, mtc) in
  if (mtp <=? to_pay) || (mtc <=? to_cover) then Ok (debt o)
  else
    fc_assert ((mtp >? to_pay) && (mtc >? to_cover));;
    r ← binary_search search_fuel o mp good (SearchRange to_pay to_cover mtp mtc false);
    match r with
    | inl r => Ok r
    | inr (to_pay, to_cover) => forward_search search_fuel o mp good 0 1 1 to_pay to_cover
    end.

Definition orient (o : call_order_object) (p : price) : result price :=
  let p := if negb (asset_id (base p) =? asset_id (base (co_call_price o))) then price_inv p else p in
  fc_assert ((asset_id (base p) =? asset_id (base (co_call_price o)))
             && (asset_id (quote p) =? asset_id (quote (co_call_price o))));;
  Ok p.

(** "a call order should only be called when its collateral ratio is not higher
    than required": whether it is higher. *)
Definition feed_protected (o : call_order_object) (feed_price : price) (mc : option price) : result bool :=
  match mc with
  | None => Ok (price_gtb (co_call_price o) feed_price)
  | Some m => c ← collateralization o; Ok (price_gtb c m)
  end.

(** From the numerator of the solution on: at match price [mp] and feed price
    [fp], both in collateral per debt. *)
Definition cover_to_reach (o : call_order_object) (mp fp : price) (tcr : Z) (target : option price)
    : result Z :=
  let mp_debt := amount (quote mp) in
  let mp_coll := amount (base mp) in
  let fp_debt := amount (quote fp) in
  let fp_coll := amount (base fp) in
  let numerator :=
    i256_sub (i256_mul (i256_mul (i256_mul fp_coll mp_debt) (debt o)) tcr)
             (i256_mul (i256_mul (i256_mul fp_debt mp_debt) (collateral o))
                GRAPHENE_COLLATERAL_RATIO_DENOM) in
  if numerator <? 0 then Ok 0
  else
    let denominator :=
      i256_sub (i256_mul (i256_mul fp_coll mp_debt) tcr)
               (i256_mul (i256_mul fp_debt mp_coll) GRAPHENE_COLLATERAL_RATIO_DENOM) in
    if denominator <=? 0 then Ok (debt o)
    else
      let to_cover_i256 := i256_div numerator denominator in
      if to_cover_i256 >=? debt o then Ok (debt o)
      else
        p ← asset_mul (Asset to_cover_i256 (debt_type o)) mp;
        to_cover ← cover_for o mp (amount p);
        to_pay ← pay_for o mp to_cover;
        if (to_cover >=? debt o) || (to_pay >=? collateral o) then Ok (debt o)
        else
          fc_assert ((to_pay <? collateral o) && (to_cover <? debt o));;
          let good := result_is_good o target tcr fp in
          g ← good to_pay to_cover;
          if g : bool then Ok to_cover
          else correct_rounding o mp good numerator (i256_mul (i256_mul fp_coll mp_debt) tcr)
                 denominator to_pay to_cover.

Definition get_max_debt_to_cover (o : call_order_object) (match_price feed_price : price) (mcr : Z)
    (mc : option price) : result Z :=
  fp ← orient o feed_price;
  (match mc with
   | Some m => fc_assert ((asset_id (base m) =? asset_id (base (co_call_price o)))
                          && (asset_id (quote m) =? asset_id (quote (co_call_price o))))
   | None => Ok tt
   end);;
  protected ← feed_protected o fp mc;
  if protected : bool then Ok 0
  else
    match target_collateral_ratio o with
    | None => Ok (debt o)
    | Some t =>
        let tcr := Z.max t mcr in
        target ← (match mc with
                  | Some _ => r ← ratio_make tcr GRAPHENE_COLLATERAL_RATIO_DENOM;
                              p ← price_mul_ratio fp r; Ok (Some p)
                  | None => Ok None
                  end);
        mp ← orient o match_price;
        cover_to_reach o mp fp tcr target
    end.

End max_debt.

(** ** The two roundings at the match price *)
Section roundings.
Context `{EX : Ext} (o : call_order_object) (mp : price).
Hypothesis (Hmp : wf_price mp)
  (Hbase : asset_id (base mp) = collateral_type o) (Hquote : asset_id (quote mp) = debt_type o)
  (Hdebt : 0 < debt o ≤ GRAPHENE_MAX_SHARE_SUPPLY)
  (Hcoll : 0 < collateral o ≤ GRAPHENE_MAX_SHARE_SUPPLY).

Local Notation x := (amount (base mp)).
Local Notation y := (amount (quote mp)).

(** The collateral for an amount of debt and the debt for an amount of
    collateral, as numbers. *)
Definition pay_z (cover : Z) : Z := (cover * x + y - 1) / y.
Definition cover_z (pay : Z) : Z := pay * y / x.

(** Pairs that both roundings leave alone. *)
Definition stable (pay cover : Z) : Prop := 0 ≤ pay ∧ cover = cover_z pay ∧ pay = pay_z cover.

Let Hxy : 0 < x ≤ int64_max ∧ 0 < y ≤ int64_max := proj1 Hmp.

Lemma pay_for_spec c :
  0 ≤ c ≤ int64_max →
  pay_for o mp c = if pay_z c <=? GRAPHENE_MAX_SHARE_SUPPLY then Ok (pay_z c) else Err assert_exception.
Proof.
  intros Hc. unfold pay_for.
  rewrite (multiply_and_round_up_spec mp (Asset c (debt_type o)) (collateral_type o) y x);
    [|done|done|right; rewrite Hbase, Hquote; done].
  cbn [amount]. fold (pay_z c). by case_match.
Qed.

Lemma cover_for_spec p :
  0 ≤ p ≤ int64_max →
  cover_for o mp p = if cover_z p <=? GRAPHENE_MAX_SHARE_SUPPLY then Ok (cover_z p) else Err assert_exception.
Proof.
  intros Hp. unfold cover_for.
  rewrite (asset_mul_spec mp (Asset p (collateral_type o)) (debt_type o) x y);
    [|done|done|left; rewrite Hbase, Hquote; done].
  cbn [amount]. fold (cover_z p). by case_match.
Qed.

Lemma pay_z_nonneg c : 0 ≤ c → 0 ≤ pay_z c.
Proof. intros. apply Z.div_pos; nia. Qed.
Lemma cover_z_nonneg p : 0 ≤ p → 0 ≤ cover_z p.
Proof. intros. apply Z.div_pos; nia. Qed.
Lemma cover_z_mono p p' : p ≤ p' → cover_z p ≤ cover_z p'.
Proof. intros. apply Z.div_le_mono; nia. Qed.

(** Rounding down and back up costs no more and is stable. *)
Lemma stable_down p : 0 ≤ p → stable (pay_z (cover_z p)) (cover_z p) ∧ pay_z (cover_z p) ≤ p.
Proof.
  intros Hp. destruct (floor_ceil_stable p x y) as [[? ?] E]; [lia..|].
  split; [|done]. split; [done|]. split; [|done]. unfold cover_z at 1, pay_z. symmetry. exact E.
Qed.

(** Rounding up and back down buys at least as much and is stable. *)
Lemma stable_up c : 0 ≤ c → stable (pay_z c) (cover_z (pay_z c)) ∧ c ≤ cover_z (pay_z c).
Proof.
  intros Hc. pose proof (pay_z_nonneg c Hc) as Hp0.
  assert (c ≤ cover_z (pay_z c)) as Hle.
  { apply Z.div_le_lower_bound; [lia|]. pose proof (ceil_div_lower (c * x) y ltac:(lia)).
    unfold pay_z in *. lia. }
  split; [|done]. split; [done|]. split; [done|].
  destruct (stable_down (pay_z c) Hp0) as [_ Hd]. apply Z.le_antisymm; [|done].
  apply Z.div_le_mono; nia.
Qed.

Lemma pay_cover_exact p : x < y → 0 ≤ p → pay_z (cover_z p) = p.
Proof.
  intros Hlt Hp. destruct (stable_down p Hp) as [_ Hle]. apply Z.le_antisymm; [done|].
  unfold pay_z. apply Z.div_le_lower_bound; [lia|].
  pose proof (Z.mul_div_le (p * y) x ltac:(lia)). pose proof (Z.mod_pos_bound (p * y) x ltac:(lia)).
  pose proof (Z.div_mod (p * y) x ltac:(lia)). unfold cover_z. lia.
Qed.

Lemma cover_pay_exact c : y ≤ x → 0 ≤ c → cover_z (pay_z c) = c.
Proof.
  intros Hle Hc. destruct (stable_up c Hc) as [_ Hge]. apply Z.le_antisymm; [|done].
  apply Z.lt_succ_r, Z.div_lt_upper_bound; [lia|].
  pose proof (ceil_div_upper (c * x) y ltac:(lia)). unfold pay_z in *. lia.
Qed.

(** ** The searches *)

(** The collateral is worth more than the debt at the match price. *)
Hypothesis (Hworth : debt o * x < collateral o * y).

Lemma pay_z_le_collateral c : c ≤ debt o → pay_z c ≤ collateral o.
Proof. intros. apply ceil_div_spec; [lia|nia]. Qed.

Lemma pay_for_total c : 0 ≤ c ≤ debt o → pay_for o mp c = Ok (pay_z c) ∧ 0 ≤ pay_z c ≤ collateral o.
Proof.
  intros Hc. pose proof (pay_z_le_collateral c ltac:(lia)). pose proof (pay_z_nonneg c ltac:(lia)).
  rewrite pay_for_spec by (unfold GRAPHENE_MAX_SHARE_SUPPLY in *; unfold_widths; lia).
  rewrite (proj2 (Z.leb_le _ _)) by lia. done.
Qed.

(** An error is an assertion, and only when the collateral buys more than the
    maximum supply. *)
Definition worth_too_much (e : exn) : Prop :=
  e = assert_exception ∧ GRAPHENE_MAX_SHARE_SUPPLY < cover_z (collateral o).

Lemma cover_for_total p :
  0 ≤ p ≤ collateral o →
  (cover_for o mp p = Ok (cover_z p) ∧ cover_z p ≤ GRAPHENE_MAX_SHARE_SUPPLY)
  ∨ (∃ e, cover_for o mp p = Err e ∧ worth_too_much e).
Proof.
  intros Hp. rewrite cover_for_spec by (unfold GRAPHENE_MAX_SHARE_SUPPLY in *; unfold_widths; lia).
  destruct (_ <=? _) eqn:E; bool_to_prop; [by left|right].
  exists assert_exception. split; [done|]. split; [done|].
  pose proof (cover_z_mono p (collateral o)). lia.
Qed.

Context (good : Z → Z → result bool).
Hypothesis (Hgood : ∀ p c, 0 ≤ p < collateral o → 0 ≤ c < debt o → ∃ b, good p c = Ok b).

(** What the function promises of its result: all the debt, or an amount whose
    purchase at the match price reaches the target. *)
Definition sound (r : Z) : Prop :=
  r = debt o ∨ ∃ pay, stable pay r ∧ pay < collateral o ∧ r < debt o ∧ good pay r = Ok true.

Definition outcome (r : result Z) : Prop :=
  match r with Ok r => sound r | Err e => worth_too_much e end.

(** The upper end is either the whole position or a proper part of it. *)
Definition part (pay cover : Z) : Prop := stable pay cover ∧ pay < collateral o ∧ cover < debt o.

Record wf_range (b : search_range) : Prop := {
  wr_pay : 0 ≤ min_to_pay b < max_to_pay b;
  wr_cover : 0 ≤ min_to_cover b < max_to_cover b;
  wr_max : (max_to_pay b = collateral o ∧ max_to_cover b = debt o ∧ max_is_ok b = false)
           ∨ part (max_to_pay b) (max_to_cover b);
  wr_ok : max_is_ok b = true → good (max_to_pay b) (max_to_cover b) = Ok true
}.

Lemma wr_max_le b : wf_range b → max_to_pay b ≤ collateral o ∧ max_to_cover b ≤ debt o.
Proof. intros W. destruct (wr_max b W) as [(?&?&?)|(?&?&?)]; lia. Qed.

(** The quantity that the search halves. *)
Definition gap (b : search_range) : Z :=
  if x <? y then max_to_pay b - min_to_pay b else max_to_cover b - min_to_cover b.

(** A candidate is the upper end or a stable pair inside the range, and then
    both parts of the range are at most half as long. *)
Definition inside (b : search_range) (pay cover : Z) : Prop :=
  stable pay cover ∧ min_to_pay b < pay < max_to_pay b ∧ min_to_cover b < cover < max_to_cover b ∧
  ∀ n : Z, 0 ≤ n → gap b ≤ 2 * n →
    gap (SearchRange (min_to_pay b) (min_to_cover b) pay cover true) ≤ n ∧
    gap (SearchRange pay cover (max_to_pay b) (max_to_cover b) (max_is_ok b)) ≤ n.

Lemma safe_add_small a b :
  0 ≤ a ≤ GRAPHENE_MAX_SHARE_SUPPLY → 0 ≤ b ≤ 8000000000000000000 → safe_add a b = Ok (a + b).
Proof.
  unfold GRAPHENE_MAX_SHARE_SUPPLY. intros. rewrite safe_add_spec, (proj2 (in_int64_true _)); [done|].
  unfold_widths. lia.
Qed.

(** The candidate before it is compared with the ends. *)
Lemma mean_point_spec b :
  wf_range b →
  match mean_point o mp b with
  | Ok (p, c) =>
      (p = max_to_pay b ∧ c = max_to_cover b) ∨
      (stable p c ∧ p < max_to_pay b ∧ c < max_to_cover b ∧
       if x <? y then p = (min_to_pay b + max_to_pay b + 1) / 2
       else c = (min_to_cover b + max_to_cover b) / 2)
  | Err e => worth_too_much e
  end.
Proof.
  intros W. pose proof (wr_pay b W). pose proof (wr_cover b W). pose proof (wr_max_le b W).
  unfold mean_point. destruct (x <? y) eqn:Exy; bool_to_prop.
  - rewrite safe_add_small by (unfold GRAPHENE_MAX_SHARE_SUPPLY in *; lia). cbn [mbind result_bind].
    rewrite safe_add_spec, (proj2 (in_int64_true _))
      by (unfold GRAPHENE_MAX_SHARE_SUPPLY in *; unfold_widths; lia).
    cbn [mbind result_bind]. rewrite Z.quot_div_nonneg by lia.
    set (m := (_ + 1) / 2).
    assert (min_to_pay b < m ≤ max_to_pay b) as Hm.
    { pose proof (Z.mod_pos_bound (min_to_pay b + max_to_pay b + 1) 2 ltac:(lia)).
      pose proof (Z.div_mod (min_to_pay b + max_to_pay b + 1) 2 ltac:(lia)) as Hdm. fold m in Hdm. lia. }
    destruct (m =? max_to_pay b) eqn:Em; bool_to_prop; [left; lia|].
    destruct (cover_for_total m) as [[-> Hle]|(e & -> & He)]; [lia| |exact He].
    cbn [mbind result_bind]. rewrite Z.geb_leb.
    destruct (_ <=? cover_z m) eqn:Ec; bool_to_prop; [by left|].
    destruct (pay_for_total (cover_z m)) as [-> _].
    { pose proof (cover_z_nonneg m). lia. }
    cbn [mbind result_bind]. rewrite pay_cover_exact by lia.
    unfold fc_assert. rewrite (proj2 (Z.ltb_lt _ _)) by lia. cbn [mbind result_bind]. right.
    destruct (stable_down m) as [Hs _]; [lia|]. rewrite pay_cover_exact in Hs by lia.
    split_and!; [done|lia|done|done].
  - rewrite safe_add_small by (unfold GRAPHENE_MAX_SHARE_SUPPLY in *; lia). cbn [mbind result_bind].
    rewrite Z.quot_div_nonneg by lia. set (m := (_ + _) / 2).
    assert (min_to_cover b ≤ m < max_to_cover b) as Hm.
    { pose proof (Z.mod_pos_bound (min_to_cover b + max_to_cover b) 2 ltac:(lia)).
      pose proof (Z.div_mod (min_to_cover b + max_to_cover b) 2 ltac:(lia)) as Hdm. fold m in Hdm. lia. }
    rewrite (proj2 (Z.eqb_neq m (max_to_cover b))) by lia.
    destruct (pay_for_total m) as [-> Hp]; [lia|]. cbn [mbind result_bind]. rewrite Z.geb_leb.
    destruct (_ <=? pay_z m) eqn:Ec; bool_to_prop; [by left|].
    destruct (cover_for_total (pay_z m)) as [[-> Hle]|(e & -> & He)]; [lia| |exact He].
    cbn [mbind result_bind]. rewrite cover_pay_exact by lia.
    destruct (m >=? max_to_cover b) eqn:Eg; bool_to_prop; [lia|]. right.
    destruct (stable_up m) as [Hs _]; [lia|]. rewrite cover_pay_exact in Hs by lia.
    split_and!; [done|lia|lia|done].
Qed.

Lemma clamp_point_spec b p c :
  wf_range b →
  (p = max_to_pay b ∧ c = max_to_cover b) ∨
  (stable p c ∧ p < max_to_pay b ∧ c < max_to_cover b ∧
   if x <? y then p = (min_to_pay b + max_to_pay b + 1) / 2
   else c = (min_to_cover b + max_to_cover b) / 2) →
  let pt := clamp_point b (p, c) in
  (pt = (max_to_pay b, max_to_cover b)) ∨ inside b pt.1 pt.2.
Proof.
  intros W Hpt. pose proof (wr_pay b W). pose proof (wr_cover b W). cbn zeta. unfold clamp_point.
  destruct Hpt as [[-> ->]|(Hs & Hp & Hc & Hmid)].
  { left. destruct (_ || _); done. }
  destruct (_ || _) eqn:E; [by left|right]. bool_to_prop. cbn.
  split; [done|]. split; [lia|]. split; [lia|]. intros n Hn. unfold gap. cbn.
  destruct (x <? y); rewrite Hmid.
  - pose proof (Z.mod_pos_bound (min_to_pay b + max_to_pay b + 1) 2 ltac:(lia)).
    pose proof (Z.div_mod (min_to_pay b + max_to_pay b + 1) 2 ltac:(lia)). lia.
  - pose proof (Z.mod_pos_bound (min_to_cover b + max_to_cover b) 2 ltac:(lia)).
    pose proof (Z.div_mod (min_to_cover b + max_to_cover b) 2 ltac:(lia)). lia.
Qed.

Lemma inside_gap_one b p c : inside b p c → gap b ≤ 1 → False.
Proof.
  intros (_ & Hp & Hc & _) Hg. unfold gap in Hg. destruct (x <? y); lia.
Qed.

Lemma stable_nonneg p c : stable p c → 0 ≤ p ∧ 0 ≤ c.
Proof. intros (Hp & -> & _). split; [done|by apply cover_z_nonneg]. Qed.

Lemma binary_search_spec n b :
  wf_range b → gap b ≤ 2 ^ Z.of_nat n →
  match binary_search (S n) o mp good b with
  | Ok (inl r) => sound r
  | Ok (inr (p, c)) => part p c
  | Err e => worth_too_much e
  end.
Proof.
  revert b. induction n as [|n IH]; intros b W Hg; cbn [binary_search];
    pose proof (mean_point_spec b W) as Hm; destruct (mean_point o mp b) as [[p0 c0]|e];
    cbn [mbind result_bind]; try exact Hm;
    apply clamp_point_spec in Hm; try done;
    destruct (clamp_point b (p0, c0)) as [p c]; cbn [fst snd] in Hm;
    pose proof (wr_max b W) as Hmax; pose proof (wr_ok b W) as Hok;
    pose proof (wr_pay b W); pose proof (wr_cover b W).
  all: destruct Hm as [[= -> ->]|Hin].
  2: { exfalso. eapply inside_gap_one; [exact Hin|]. exact Hg. }
  1,2: rewrite Z.eqb_refl; cbn [andb].
  1,2: destruct Hmax as [(Ep & Ec & Ef)|Hpart];
    [rewrite Ep, Ec, Z.eqb_refl, orb_true_r; by left|].
  1,2: destruct (max_is_ok b) eqn:Eok; cbn [orb];
    [right; exists (max_to_pay b); destruct Hpart as (?&?&?); by auto|].
  1,2: pose proof Hpart as (Hs & Hp & Hc); pose proof (stable_nonneg _ _ Hs) as [Hp0 Hc0];
    rewrite (proj2 (Z.eqb_neq _ _)) by lia; unfold fc_assert;
    rewrite !(proj2 (Z.ltb_lt _ _)) by lia; cbn [andb mbind result_bind];
    destruct (Hgood (max_to_pay b) (max_to_cover b)) as [g Eg]; [lia..|]; rewrite Eg; cbn [mbind result_bind].
  1,2: destruct g; [right; exists (max_to_pay b); by auto|exact Hpart].
  destruct Hin as (Hs & Hp & Hc & Hhalf). pose proof (stable_nonneg _ _ Hs) as [Hp0 Hc0].
  pose proof (wr_max_le b W). rewrite (proj2 (Z.eqb_neq p _)) by lia. cbn [andb]. unfold fc_assert.
  rewrite !(proj2 (Z.ltb_lt _ _)) by lia. cbn [andb mbind result_bind].
  destruct (Hgood p c) as [g Eg]; [lia..|]. rewrite Eg. cbn [mbind result_bind].
  destruct (Hhalf (2 ^ Z.of_nat n)) as [G1 G2]; [lia| |].
  { rewrite Nat2Z.inj_succ, Z.pow_succ_r in Hg by lia. exact Hg. }
  destruct g; apply IH; try done; (constructor; cbn; [lia|lia| |]).
  - right. split; [done|]. lia.
  - done.
  - done.
  - done.
Qed.

(** The Fibonacci steps: within [fuel] steps they pass the maximum supply, and
    no sum overflows on the way. *)
Fixpoint fib_reaches (fuel : nat) (d2 d3 : Z) : bool :=
  (0 <=? d2) && (0 <=? d3) && (d2 <=? 8000000000000000000)
  && match fuel with
     | O => GRAPHENE_MAX_SHARE_SUPPLY <=? d2
     | S fuel => (GRAPHENE_MAX_SHARE_SUPPLY <=? d2)
                 || (d2 + d3 <=? uint64_max) && fib_reaches fuel d3 (d2 + d3)
     end.

Lemma fib_reaches_max : fib_reaches 99 1 1 = true.
Proof. vm_compute. reflexivity. Qed.

Lemma forward_point_spec d2 p c :
  0 ≤ d2 ≤ 8000000000000000000 → part p c →
  match forward_point o mp d2 p c with
  | Ok None => True
  | Ok (Some (p', c')) => part p' c' ∧ d2 < GRAPHENE_MAX_SHARE_SUPPLY
  | Err e => worth_too_much e
  end.
Proof.
  intros Hd (Hs & Hp & Hc). apply stable_nonneg in Hs as [Hp0 Hc0]. unfold forward_point.
  destruct (x >? y).
  - rewrite safe_add_small by (unfold GRAPHENE_MAX_SHARE_SUPPLY in *; lia). cbn [mbind result_bind].
    destruct (p + d2 >=? collateral o) eqn:E1; bool_to_prop; [done|].
    destruct (cover_for_total (p + d2)) as [[-> Hle]|(e & -> & He)]; [lia| |exact He].
    cbn [mbind result_bind]. destruct (_ >=? debt o) eqn:E2; bool_to_prop; [done|].
    destruct (stable_down (p + d2)) as [Hst Hlt]; [lia|].
    destruct (pay_for_total (cover_z (p + d2))) as [-> _].
    { pose proof (cover_z_nonneg (p + d2)). lia. }
    cbn [mbind result_bind]. destruct (_ >=? collateral o) eqn:E3; bool_to_prop; [done|].
    split; [split; [done|lia]|lia].
  - rewrite safe_add_small by (unfold GRAPHENE_MAX_SHARE_SUPPLY in *; lia). cbn [mbind result_bind].
    destruct (c + d2 >=? debt o) eqn:E1; bool_to_prop; [done|].
    destruct (pay_for_total (c + d2)) as [-> Hpb]; [lia|].
    cbn [mbind result_bind]. destruct (_ >=? collateral o) eqn:E2; bool_to_prop; [done|].
    destruct (cover_for_total (pay_z (c + d2))) as [[-> Hle]|(e & -> & He)]; [lia| |exact He].
    cbn [mbind result_bind]. destruct (_ >=? debt o) eqn:E3; bool_to_prop; [done|].
    destruct (stable_up (c + d2)) as [Hst _]; [lia|]. split; [split; [done|lia]|lia].
Qed.

Lemma forward_search_spec fuel d1 d2 d3 p c :
  fib_reaches fuel d2 d3 = true → part p c →
  outcome (forward_search (S fuel) o mp good d1 d2 d3 p c).
Proof.
  revert d1 d2 d3 p c. induction fuel as [|fuel IH]; intros d1 d2 d3 p c Hf Hpc; cbn [forward_search];
    cbn [fib_reaches] in Hf; bool_to_prop;
    pose proof (forward_point_spec d2 p c ltac:(lia) Hpc) as Hm;
    destruct (forward_point o mp d2 p c) as [[[p' c']|]|e]; cbn [mbind result_bind outcome];
    try exact Hm; try by left.
  { lia. }
  destruct Hm as [Hpart Hlt]. pose proof Hpart as (Hs & Hp & Hc).
  pose proof (stable_nonneg _ _ Hs) as [Hp0 Hc0]. unfold fc_assert.
  rewrite !(proj2 (Z.ltb_lt _ _)) by lia. cbn [andb mbind result_bind].
  destruct (Hgood p' c') as [g Eg]; [lia..|]. rewrite Eg. cbn [mbind result_bind].
  destruct g; [right; exists p'; by auto|].
  match goal with H : (_ || _) = true |- _ => apply orb_true_iff in H as [H|H] end; bool_to_prop; [lia|].
  unfold u64. rewrite (Z.mod_small (d2 + d3)) by (unfold_widths; lia). by apply IH.
Qed.

Lemma binary_search_total b :
  wf_range b →
  match binary_search search_fuel o mp good b with
  | Ok (inl r) => sound r
  | Ok (inr (p, c)) => part p c
  | Err e => worth_too_much e
  end.
Proof.
  intros W. change search_fuel with (S 99). apply binary_search_spec; [done|].
  pose proof (wr_max_le b W). pose proof (wr_pay b W). pose proof (wr_cover b W).
  unfold gap, GRAPHENE_MAX_SHARE_SUPPLY in *.
  assert (2 ^ Z.of_nat 99 = 633825300114114700748351602688) as -> by (vm_compute; reflexivity).
  destruct (x <? y); lia.
Qed.

Lemma forward_search_total p c : part p c → outcome (forward_search search_fuel o mp good 0 1 1 p c).
Proof. change search_fuel with (S 99). apply forward_search_spec, fib_reaches_max. Qed.

Lemma correct_rounding_spec numerator fraction denominator p c :
  part p c → 0 ≤ i256_add (i256_div (i256_add numerator fraction) denominator) 1 →
  outcome (correct_rounding o mp good numerator fraction denominator p c).
Proof.
  intros Hpc Hnn. unfold correct_rounding. set (q := i256_add _ 1) in *. clearbody q.
  pose proof binary_search_total as HB. pose proof forward_search_total as HF. revert HB HF.
  generalize (binary_search search_fuel o mp good) (forward_search search_fuel o mp good 0 1 1).
  intros bs fs HB HF.
  pose proof Hpc as (Hs & Hp & Hc). pose proof (stable_nonneg _ _ Hs) as [Hp0 Hc0].
  assert (∀ mtp mtc, (mtp = collateral o ∧ mtc = debt o) ∨ part mtp mtc →
    outcome (if (mtp <=? p) || (mtc <=? c) then Ok (debt o)
             else fc_assert ((mtp >? p) && (mtc >? c));;
                  r ← bs (SearchRange p c mtp mtc false);
                  match r with
                  | inl r => Ok r
                  | inr (to_pay, to_cover) => fs to_pay to_cover
                  end)) as Hsearch.
  { intros mtp mtc Hmax. destruct (_ || _) eqn:E; [by left|]. bool_to_prop.
    unfold fc_assert. rewrite !(proj2 (Z.gtb_lt _ _)) by lia. cbn [andb mbind result_bind].
    assert (wf_range (SearchRange p c mtp mtc false)) as W.
    { constructor; cbn; [lia|lia|destruct Hmax as [[-> ->]|?]; auto|done]. }
    specialize (HB _ W) as Hb'.
    destruct (bs _) as [[r|[p' c']]|e]; cbn [mbind result_bind].
    - exact Hb'.
    - by apply HF.
    - exact Hb'. }
  destruct (q >=? debt o) eqn:Eq; bool_to_prop.
  { rewrite Z.eqb_refl. cbn [mbind result_bind]. destruct (collateral o >? collateral o) eqn:E; bool_to_prop; [lia|].
    rewrite Z.eqb_refl. cbn [mbind result_bind]. destruct (debt o >=? debt o); apply Hsearch; auto. }
  rewrite (proj2 (Z.eqb_neq q (debt o))) by lia.
  destruct (pay_for_total q) as [-> Hpq]; [lia|]. cbn [mbind result_bind].
  destruct (pay_z q >? collateral o) eqn:E; bool_to_prop; [lia|].
  destruct (pay_z q =? collateral o) eqn:E1; bool_to_prop; cbn [mbind result_bind].
  { destruct (debt o >=? debt o); apply Hsearch; auto. }
  destruct (cover_for_total (pay_z q)) as [[-> Hle]|(e & -> & He)]; [lia| |exact He].
  cbn [mbind result_bind]. destruct (_ >=? debt o) eqn:E2; bool_to_prop; apply Hsearch; [auto|].
  right. destruct (stable_up q) as [Hst _]; [lia|]. split; [done|lia].
Qed.

End roundings.

(** ** The whole function *)
Section get_max_debt_theorems.
Context `{EX : Ext}.

(** The price in collateral per debt. *)
Definition in_collateral_per_debt (o : call_order_object) (p : price) : price :=
  if asset_id (base p) =? collateral_type o then p else price_inv p.
Definition is_pair (o : call_order_object) (p : price) : Prop :=
  (asset_id (base p) = collateral_type o ∧ asset_id (quote p) = debt_type o) ∨
  (asset_id (base p) = debt_type o ∧ asset_id (quote p) = collateral_type o).

(** A debt position, prices and ratios as the chain keeps them. *)
Record margin_call_inputs (o : call_order_object) (match_price feed_price : price) (mcr : Z)
    (mc : option price) : Prop := {
  mi_debt : 0 < debt o ≤ GRAPHENE_MAX_SHARE_SUPPLY;
  mi_coll : 0 < collateral o ≤ GRAPHENE_MAX_SHARE_SUPPLY;
  mi_types : collateral_type o ≠ debt_type o;
  mi_match : wf_price match_price ∧ is_pair o match_price;
  mi_feed : wf_price feed_price ∧ is_pair o feed_price;
  mi_mcr : 0 < mcr < 65536;
  mi_tcr : ∀ t, target_collateral_ratio o = Some t → 0 ≤ t < 65536;
  mi_mc : ∀ m, mc = Some m → asset_id (base m) = collateral_type o ∧ asset_id (quote m) = debt_type o
}.

Lemma orient_spec o p :
  collateral_type o ≠ debt_type o → wf_price p → is_pair o p →
  let p' := in_collateral_per_debt o p in
  orient o p = Ok p' ∧ wf_price p' ∧
  asset_id (base p') = collateral_type o ∧ asset_id (quote p') = debt_type o.
Proof.
  intros Hne Hw Hp. unfold orient, in_collateral_per_debt.
  change (asset_id (base (co_call_price o))) with (collateral_type o).
  change (asset_id (quote (co_call_price o))) with (debt_type o).
  destruct Hp as [[Eb Eq]|[Eb Eq]]; rewrite Eb.
  - rewrite Z.eqb_refl. cbn [negb]. rewrite Eb, Eq, !Z.eqb_refl. done.
  - rewrite (proj2 (Z.eqb_neq _ _)) by done. cbn. rewrite Eb, Eq, !Z.eqb_refl. cbn.
    destruct Hw as [[? ?] ?]. split; [done|]. split; [|done]. split; [by split|]. cbn. congruence.
Qed.

Lemma good_total o target tcr fp p c :
  0 < debt o ≤ GRAPHENE_MAX_SHARE_SUPPLY → 0 < collateral o ≤ GRAPHENE_MAX_SHARE_SUPPLY →
  collateral_type o ≠ debt_type o → 0 < tcr < 65536 →
  0 ≤ p < collateral o → 0 ≤ c < debt o → ∃ b, result_is_good o target tcr fp p c = Ok b.
Proof.
  intros Hd Hc Hne Ht Hp Hcov. unfold result_is_good, asset_sub, get_collateral, get_debt, fc_assert.
  cbn [asset_id amount]. rewrite !Z.eqb_refl. cbn [mbind result_bind].
  rewrite !safe_sub_spec.
  rewrite !(proj2 (in_int64_true _)) by (unfold GRAPHENE_MAX_SHARE_SUPPLY in *; unfold_widths; lia).
  cbn [mbind result_bind]. destruct target.
  - unfold price_div, fc_assert. cbn [asset_id]. rewrite (proj2 (Z.eqb_neq _ _)) by done. cbn. eauto.
  - edestruct (call_price_total (Asset (debt o - c) (debt_type o))
      (Asset (collateral o - p) (collateral_type o)) tcr) as (cp & -> & _);
      [cbn; unfold GRAPHENE_MAX_SHARE_SUPPLY in *; unfold_widths; lia..|cbn; congruence|done|].
    cbn. eauto.
Qed.

Lemma i256_mul_bound a b ba bb :
  0 ≤ a ≤ ba → 0 ≤ b ≤ bb → ba * bb < 2 ^ 255 → i256_mul a b = a * b ∧ 0 ≤ a * b ≤ ba * bb.
Proof.
  intros Ha Hb Hlt. assert (0 ≤ a * b ≤ ba * bb) by nia.
  rewrite i256_mul_spec by lia. done.
Qed.

(** The solved equation, without overflow. *)
Lemma equation_spec fc fd mc md d c t :
  0 < fc ≤ int64_max → 0 < fd ≤ int64_max → 0 < mc ≤ int64_max → 0 < md ≤ int64_max →
  0 < d ≤ GRAPHENE_MAX_SHARE_SUPPLY → 0 < c ≤ GRAPHENE_MAX_SHARE_SUPPLY → 0 < t < 65536 →
  i256_sub (i256_mul (i256_mul (i256_mul fc md) d) t) (i256_mul (i256_mul (i256_mul fd md) c) GRAPHENE_COLLATERAL_RATIO_DENOM)
    = md * (fc * d * t - fd * c * 1000) ∧
  i256_sub (i256_mul (i256_mul fc md) t) (i256_mul (i256_mul fd mc) GRAPHENE_COLLATERAL_RATIO_DENOM)
    = md * (fc * t) - mc * (fd * 1000) ∧
  i256_mul (i256_mul fc md) t = fc * md * t ∧
  0 ≤ fc * md * t < 2 ^ 200 ∧ Z.abs (md * (fc * d * t - fd * c * 1000)) < 2 ^ 200 ∧
  Z.abs (md * (fc * t) - mc * (fd * 1000)) < 2 ^ 200.
Proof.
  unfold GRAPHENE_MAX_SHARE_SUPPLY, GRAPHENE_COLLATERAL_RATIO_DENOM. unfold_widths. intros Hfc Hfd Hmc Hmd Hd Hc Ht.
  edestruct (i256_mul_bound fc md (2 ^ 63) (2 ^ 63)) as [E1 B1]; [lia..|].
  edestruct (i256_mul_bound fd md (2 ^ 63) (2 ^ 63)) as [E2 B2]; [lia..|].
  edestruct (i256_mul_bound fd mc (2 ^ 63) (2 ^ 63)) as [E3 B3]; [lia..|].
  rewrite E1, E2, E3.
  edestruct (i256_mul_bound (fc * md) d (2 ^ 126) (2 ^ 50)) as [E4 B4]; [lia..|].
  edestruct (i256_mul_bound (fd * md) c (2 ^ 126) (2 ^ 50)) as [E5 B5]; [lia..|].
  edestruct (i256_mul_bound (fc * md) t (2 ^ 126) (2 ^ 16)) as [E6 B6]; [lia..|].
  edestruct (i256_mul_bound (fd * mc) 1000 (2 ^ 126) (2 ^ 16)) as [E7 B7]; [lia..|].
  rewrite E4, E5, E6, E7.
  edestruct (i256_mul_bound (fc * md * d) t (2 ^ 176) (2 ^ 16)) as [E8 B8]; [lia..|].
  edestruct (i256_mul_bound (fd * md * c) 1000 (2 ^ 176) (2 ^ 16)) as [E9 B9]; [lia..|].
  rewrite E8, E9. rewrite !i256_sub_spec by lia.
  assert (md * (fc * d * t - fd * c * 1000) = fc * md * d * t - fd * md * c * 1000) as R1 by ring.
  assert (md * (fc * t) - mc * (fd * 1000) = fc * md * t - fd * mc * 1000) as R2 by ring.
  rewrite R1, R2. split_and!; lia.
Qed.

Lemma tcr_ratio t : 0 < t < 65536 → ∃ r, ratio_make t GRAPHENE_COLLATERAL_RATIO_DENOM = Ok r ∧ wf_ratio r.
Proof.
  intros Ht. unfold GRAPHENE_COLLATERAL_RATIO_DENOM.
  destruct (ratio_make_spec t 1000) as (q & E & Hd & G & Es); [lia..|]. exists q. split; [done|].
  destruct (lowest_terms_le t 1000 (rat_num q) (rat_den q)); [lia..|done|done|]. unfold wf_ratio. lia.
Qed.

(** The target collateralization after the core-1270 hard fork. *)
Definition target_of (fp : price) (tcr : Z) (mc : option price) : result (option price) :=
  match mc with
  | Some _ => r ← ratio_make tcr GRAPHENE_COLLATERAL_RATIO_DENOM; p ← price_mul_ratio fp r; Ok (Some p)
  | None => Ok None
  end.

(** Buying back [r] at the match price costs [pay] collateral, leaves debt and
    collateral, and lifts the position above its target. *)
Definition reaches_target (o : call_order_object) (mp fp : price) (tcr : Z) (mc : option price) (r : Z)
    : Prop :=
  ∃ target pay, target_of fp tcr mc = Ok target ∧ stable mp pay r ∧ pay < collateral o ∧ r < debt o ∧
    result_is_good o target tcr fp pay r = Ok true.

(** The position is above the target already. *)
Definition above_target (o : call_order_object) (fp : price) (tcr : Z) : Prop :=
  amount (base fp) * debt o * tcr < amount (quote fp) * collateral o * GRAPHENE_COLLATERAL_RATIO_DENOM.

(** From the numerator on. *)
Lemma cover_to_reach_spec o mp fp tcr target :
  0 < debt o ≤ GRAPHENE_MAX_SHARE_SUPPLY → 0 < collateral o ≤ GRAPHENE_MAX_SHARE_SUPPLY →
  collateral_type o ≠ debt_type o → wf_price mp → pos_amounts fp → 0 < tcr < 65536 →
  asset_id (base mp) = collateral_type o → asset_id (quote mp) = debt_type o →
  match cover_to_reach o mp fp tcr target with
  | Ok r => (r = 0 ∧ above_target o fp tcr) ∨ sound o mp (result_is_good o target tcr fp) r
  | Err e => worth_too_much o mp e
  end.
Proof.
  intros Hd Hc Hne Wm' Wf' Htcr Mb Mq. unfold cover_to_reach.
  destruct (proj1 Wm') as [Bx By]. destruct Wf' as [Bfx Bfy].
  destruct (equation_spec (amount (base fp)) (amount (quote fp)) (amount (base mp)) (amount (quote mp))
    (debt o) (collateral o) tcr) as (En & Ed & Efr & Bf & Bn & Bd); [done..|].
  rewrite En, Ed, Efr.
  set (N := amount (quote mp) * (amount (base fp) * debt o * tcr - amount (quote fp) * collateral o * 1000))
    in *.
  set (D := amount (quote mp) * (amount (base fp) * tcr) - amount (base mp) * (amount (quote fp) * 1000))
    in *.
  destruct (N <? 0) eqn:EN; bool_to_prop.
  { left. split; [done|]. unfold above_target, GRAPHENE_COLLATERAL_RATIO_DENOM. unfold N in EN.
    apply Z.lt_nge. intros Hge. apply (Z.lt_irrefl 0). eapply Z.le_lt_trans; [|exact EN].
    apply Z.mul_nonneg_nonneg; lia. }
  destruct (D <=? 0) eqn:ED; bool_to_prop; [by right; left|].
  rewrite (i256_div_spec N D) by lia.
  set (q := N / D). assert (0 ≤ q) as Hq0 by (apply Z.div_pos; lia).
  destruct (q >=? debt o) eqn:Eq; bool_to_prop; [by right; left|].
  assert (debt o * amount (base mp) < collateral o * amount (quote mp)) as Hworth.
  { assert (N < D * debt o) as HN.
    { pose proof (Z.mod_pos_bound N D ltac:(lia)). pose proof (Z.div_mod N D ltac:(lia)) as Hdm.
      fold q in Hdm. assert (D * q ≤ D * (debt o - 1)) by (apply Z.mul_le_mono_nonneg_l; lia). lia. }
    unfold N, D in HN. apply (Z.mul_lt_mono_pos_l (amount (quote fp) * 1000)); lia. }
  assert (asset_mul (Asset q (debt_type o)) mp = Ok (Asset (q * amount (base mp) / amount (quote mp)) (collateral_type o))
    ∧ 0 ≤ q * amount (base mp) / amount (quote mp) < collateral o) as [-> Hp1].
  { assert (0 ≤ q * amount (base mp) / amount (quote mp) < collateral o).
    { split; [apply Z.div_pos; nia|]. apply Z.div_lt_upper_bound; [lia|nia]. }
    rewrite (asset_mul_spec mp _ (collateral_type o) (amount (quote mp)) (amount (base mp)));
      [|done|unfold share_ok, GRAPHENE_MAX_SHARE_SUPPLY in *; cbn; unfold_widths; lia
       |right; rewrite Mb, Mq; done].
    cbn [amount]. rewrite (proj2 (Z.leb_le _ _)) by lia. done. }
  cbn [mbind result_bind amount]. set (p1 := q * _ / _) in *.
  assert (cover_z mp p1 ≤ q) as Hcq.
  { unfold cover_z. apply Z.div_le_upper_bound; [lia|].
    pose proof (div_mul_le_self (q * amount (base mp)) (amount (quote mp)) ltac:(lia)) as Hdm. fold p1 in Hdm. lia. }
  rewrite (cover_for_spec o mp) by (try done; unfold GRAPHENE_MAX_SHARE_SUPPLY in *; unfold_widths; lia).
  rewrite (proj2 (Z.leb_le _ _)) by lia. cbn [mbind result_bind].
  destruct (stable_down mp Wm' p1) as [Hst Hle]; [lia|].
  pose proof (cover_z_nonneg mp Wm' p1 ltac:(lia)) as Hc0.
  destruct (pay_for_total o mp Wm' Mb Mq Hd Hc Hworth (cover_z mp p1)) as [-> Hpb]; [lia|].
  cbn [mbind result_bind].
  set (c1 := cover_z mp p1) in *. set (p2 := pay_z mp c1) in *.
  destruct ((c1 >=? debt o) || (p2 >=? collateral o)) eqn:E1;
    [by right; left|]. bool_to_prop.
  unfold fc_assert. rewrite !(proj2 (Z.ltb_lt _ _)) by lia. cbn [andb mbind result_bind].
  assert (∀ p c, 0 ≤ p < collateral o → 0 ≤ c < debt o →
    ∃ b, result_is_good o target tcr fp p c = Ok b) as Hgood.
  { intros. by apply good_total. }
  destruct (Hgood p2 c1) as [g Eg]; [lia..|]. rewrite Eg. cbn [mbind result_bind].
  destruct g.
  { right; right. exists p2. done. }
  assert (outcome o mp (result_is_good o target tcr fp)
    (correct_rounding o mp (result_is_good o target tcr fp) N
       (amount (base fp) * amount (quote mp) * tcr) D p2 c1)) as Hout.
  { apply correct_rounding_spec; try done.
    - rewrite (i256_add_spec N) by lia. rewrite i256_div_spec by lia.
      assert (0 ≤ (N + amount (base fp) * amount (quote mp) * tcr) / D
        ≤ N + amount (base fp) * amount (quote mp) * tcr).
      { split; [apply Z.div_pos; lia|]. apply Z.div_le_upper_bound; nia. }
      rewrite i256_add_spec; lia. }
  destruct (correct_rounding _ _ _ _ _ _ _ _) as [r|e]; cbn in Hout; [by right|done].
Qed.

(** C33: [get_max_debt_to_cover] always ends.  Its result is between zero and the
    debt and is: zero for a position that must not be called or is above its
    target already; the whole debt; or an amount that, bought at the match price
    with the cost rounded up, leaves a position above the target collateral
    ratio.  It throws only when all the collateral would buy more than
    [GRAPHENE_MAX_SHARE_SUPPLY] at the match price. *)
Theorem get_max_debt_to_cover_sound o match_price feed_price mcr mc :
  margin_call_inputs o match_price feed_price mcr mc →
  let mp := in_collateral_per_debt o match_price in
  let fp := in_collateral_per_debt o feed_price in
  match get_max_debt_to_cover o match_price feed_price mcr mc with
  | Ok r => 0 ≤ r ≤ debt o ∧
      ((r = 0 ∧ feed_protected o fp mc = Ok true) ∨ r = debt o ∨
       ∃ t, target_collateral_ratio o = Some t ∧
         ((r = 0 ∧ above_target o fp (Z.max t mcr)) ∨ reaches_target o mp fp (Z.max t mcr) mc r))
  | Err e => e = assert_exception ∧ GRAPHENE_MAX_SHARE_SUPPLY < cover_z mp (collateral o)
  end.
Proof.
  intros I mp fp. destruct (mi_match _ _ _ _ _ I) as [Wm Pm]. destruct (mi_feed _ _ _ _ _ I) as [Wf Pf].
  pose proof (mi_debt _ _ _ _ _ I) as Hd. pose proof (mi_coll _ _ _ _ _ I) as Hc.
  pose proof (mi_types _ _ _ _ _ I) as Hne. pose proof (mi_mcr _ _ _ _ _ I) as Hmcr.
  destruct (orient_spec o match_price Hne Wm Pm) as (Em & Wm' & Mb & Mq). fold mp in Em, Wm', Mb, Mq.
  destruct (orient_spec o feed_price Hne Wf Pf) as (Ef & Wf' & Fb & Fq). fold fp in Ef, Wf', Fb, Fq.
  unfold get_max_debt_to_cover. rewrite Ef. cbn [mbind result_bind].
  assert ((match mc with
   | Some m => fc_assert ((asset_id (base m) =? asset_id (base (co_call_price o)))
                          && (asset_id (quote m) =? asset_id (quote (co_call_price o))))
   | None => Ok tt
   end) = Ok tt) as ->.
  { destruct mc as [m|]; [|done]. destruct (mi_mc _ _ _ _ _ I m eq_refl) as [E1 E2].
    unfold collateral_type, debt_type in E1, E2. by rewrite E1, E2, !Z.eqb_refl. }
  cbn [mbind result_bind].
  assert (∃ b, feed_protected o fp mc = Ok b) as [b Eb].
  { unfold feed_protected. destruct mc as [m|]; [|eauto].
    unfold collateralization, price_div, fc_assert. cbn [get_collateral get_debt asset_id].
    rewrite (proj2 (Z.eqb_neq _ _)) by done. cbn. eauto. }
  rewrite Eb. cbn [mbind result_bind]. destruct b; [split; [lia|by left]|].
  destruct (target_collateral_ratio o) as [t|] eqn:Et; [|split; [lia|by right; left]].
  pose proof (mi_tcr _ _ _ _ _ I t Et) as Ht. set (tcr := Z.max t mcr).
  assert (0 < tcr < 65536) as Htcr by lia. fold (target_of fp tcr mc).
  assert (∃ target, target_of fp tcr mc = Ok target) as [target Etg].
  { unfold target_of. destruct mc; [|eauto]. destruct (tcr_ratio tcr Htcr) as (r & -> & Wr).
    cbn [mbind result_bind]. destruct (price_mul_ratio_total fp r Wf' Wr) as (np & -> & _). cbn. eauto. }
  rewrite Etg. cbn [mbind result_bind]. rewrite Em. cbn [mbind result_bind].
  pose proof (cover_to_reach_spec o mp fp tcr target Hd Hc Hne Wm' (proj1 Wf') Htcr Mb Mq) as Hr.
  destruct (cover_to_reach o mp fp tcr target) as [r|e]; [|done].
  destruct Hr as [[-> Ha]|[->|(pay & Hs & Hp & Hr & Hg)]].
  - split; [lia|]. right; right. exists t. split; [done|]. by left.
  - split; [lia|]. by right; left.
  - pose proof (stable_nonneg mp Wm' _ _ Hs). split; [lia|]. right; right.
    exists t. split; [done|]. right. exists target, pay. done.
Qed.

End get_max_debt_theorems.

(** A position of 1000000 against 1500000 collateral with target ratio 1.8 that is
    called at feed price 1 and bought back at 1.05. *)
Definition ex_call : call_order_object :=
  CallOrder 17 1500000 1000000 (Price (Asset 1 0) (Asset 1 1)) (Some 1800).
Definition ex_match_price : price := Price (Asset 1003 1) (Asset 1057 0).
Definition ex_feed_price : price := Price (Asset 1 1) (Asset 1 0).
Definition ex_mc : price := Price (Asset 1750 0) (Asset 1000 1).

Lemma get_max_debt_to_cover_sound_witness :
  get_max_debt_to_cover ex_call ex_match_price ex_feed_price 1750 (Some ex_mc) = Ok 402059 ∧
  reaches_target ex_call (Price (Asset 1057 0) (Asset 1003 1)) (Price (Asset 1 0) (Asset 1 1)) 1800
    (Some ex_mc) 402059.
Proof.
  assert (margin_call_inputs ex_call ex_match_price ex_feed_price 1750 (Some ex_mc)) as I.
  { constructor; try (by vm_compute); try (by intros ? [= <-]).
    + split; [by vm_compute|right; by vm_compute].
    + split; [by vm_compute|right; by vm_compute]. }
  pose proof (get_max_debt_to_cover_sound _ _ _ _ _ I) as H.
  assert (get_max_debt_to_cover ex_call ex_match_price ex_feed_price 1750 (Some ex_mc) = Ok 402059) as E
    by (vm_compute; reflexivity).
  rewrite E in H. split; [exact E|].
  destruct H as [_ [[F _]|[F|(t & Et & [[F _]|H])]]]; [discriminate F|discriminate F|discriminate F|].
  injection Et as <-. exact H.
Defined.
