(* ===== verification/Fill.v ===== *)
(** * Filling and cancelling orders: chain/db_market.cpp

    Market fees and their sharing, the cancellation of limit orders, settle
    orders and collateral bids with their refunds, and the three ways an order is
    filled.  An order is passed by its id and read where the source reads the
    reference; reading a reference to a removed object is undefined behaviour. *)

From S2P Require Import Prelude External Asset Authority Operations Block Vesting State Balance.

Section fill.
Context `{EX : Ext}.

(** A reference to an object. *)
Definition deref {K V} `{Table K V} (k : K) : M database V := λ s,
  match tbl s !! k with Some v => Ok (v, s) | None => Err undefined_behaviour end.

(** ** Market fees *)
Definition calculate_percent (value percent : Z) : result Z :=
  checked_share (u128_div (u128_mul (u128_of value) percent) GRAPHENE_100_PERCENT).

Definition calculate_market_fee (id : Z) (trade_asset : asset_object) (trade_amount : asset) : result asset :=
  if negb (charges_market_fees trade_asset) then Ok (Asset 0 id)
  else if market_fee_percent (ao_options trade_asset) =? 0 then Ok (Asset 0 id)
  else
    value ← calculate_percent (amount trade_amount) (market_fee_percent (ao_options trade_asset));
    Ok (Asset (if value >? max_market_fee (ao_options trade_asset)
               then max_market_fee (ao_options trade_asset) else value) id).

(** [pay_market_fees( recv_asset, receives )]. *)
Definition pay_market_fees (recv_id : Z) (recv_asset : asset_object) (receives : asset) : M database asset :=
  issuer_fees ← lift (calculate_market_fee recv_id recv_asset receives);
  le ← lift (asset_le issuer_fees receives);
  assert_that le;;
  when (amount issuer_fees >? 0)
    (_ ← get (V:=asset_dynamic_data_object) recv_id;
     modify recv_id (add_accumulated (amount issuer_fees)));;
  mret issuer_fees.

Definition is_rewards_allowed (recv_asset : asset_object) (seller : account_object) : bool :=
  match whitelist_market_fee_sharing (ao_options recv_asset) with
  | None => true
  | Some l => (size l =? 0)%nat || bool_decide (registrar seller ∈ l)
  end.

(** The shares of the registrar and the referrer of the seller; the result is
    the reward that was paid. *)
Definition pay_rewards (seller : account_object) (recv_id : Z) (recv_asset : asset_object)
    (issuer_fees : asset) : M database asset :=
  let nothing := mret (Asset 0 recv_id) in
  if is_rewards_allowed recv_asset seller then
    match reward_percent (ao_options recv_asset) with
    | None => nothing
    | Some pct =>
        if pct =? 0 then nothing
        else
          reward_value ← lift (calculate_percent (amount issuer_fees) pct);
          authorized ← (if reward_value >? 0
                        then r ← get (V:=account_object) (registrar seller);
                             mret (is_authorized_asset r recv_id recv_asset)
                        else mret false);
          if authorized : bool then
            let reward := Asset reward_value recv_id in
            lt ← lift (asset_lt reward issuer_fees);
            assert_that lt;;
            registrar_reward ←
              (if negb (referrer seller =? registrar seller) then
                 referrer_value ← lift (calculate_percent reward_value (referrer_rewards_percentage seller));
                 authorized' ← (if referrer_value >? 0
                                then r ← get (V:=account_object) (referrer seller);
                                     mret (is_authorized_asset r recv_id recv_asset)
                                else mret false);
                 if authorized' : bool then
                   assert_that (referrer_value <=? reward_value);;
                   let referrer_reward := Asset referrer_value recv_id in
                   rr ← lift (asset_sub reward referrer_reward);
                   deposit_market_fee_vesting_balance (referrer seller) referrer_reward;;
                   mret rr
                 else mret reward
               else mret reward);
            deposit_market_fee_vesting_balance (registrar seller) registrar_reward;;
            mret reward
          else nothing
    end
  else nothing.

(** [pay_market_fees( seller, recv_asset, receives )]. *)
Definition pay_market_fees_shared (seller : account_object) (recv_id : Z) (recv_asset : asset_object)
    (receives : asset) : M database asset :=
  issuer_fees ← lift (calculate_market_fee recv_id recv_asset receives);
  le ← lift (asset_le issuer_fees receives);
  assert_that le;;
  when (amount issuer_fees >? 0)
    (reward ← pay_rewards seller recv_id recv_asset issuer_fees;
     _ ← get (V:=asset_dynamic_data_object) recv_id;
     modify recv_id (λ d, x ← safe_sub (amount issuer_fees) (amount reward); add_accumulated x d));;
  mret issuer_fees.

(** ** Core in orders *)
Definition add_core_in_orders (delta : Z) (st : account_statistics_object)
    : result account_statistics_object :=
  n ← safe_add (total_core_in_orders st) delta;
  Ok (AccountStatistics n (core_in_balance st) (has_cashback_vb st) (lifetime_fees_paid st)
        (pending_fees st) (pending_vested_fees st) (is_voting st) (stats_name st) (last_vote_time st)).
Definition sub_core_in_orders (delta : Z) (st : account_statistics_object)
    : result account_statistics_object :=
  n ← safe_sub (total_core_in_orders st) delta;
  Ok (AccountStatistics n (core_in_balance st) (has_cashback_vb st) (lifetime_fees_paid st)
        (pending_fees st) (pending_vested_fees st) (is_voting st) (stats_name st) (last_vote_time st)).

Definition pay_order (receiver : Z) (receives pays : asset) : M database unit :=
  _ ← get (V:=account_statistics_object) receiver;
  modify receiver (λ b, if asset_id pays =? CORE then sub_core_in_orders (amount pays) b else Ok b);;
  adjust_balance receiver receives.

(** ** Cancelling *)

(** [current_fee_schedule().calculate_fee( limit_order_cancel_operation )]. *)
Definition calculate_cancel_fee (p : chain_parameters) : result Z :=
  calculate_fee (op_fees p) (fee_scale p) (limit_order_cancel_op default_asset 0 0).

(** The cancellation fee of an order with deferred fees: the fee of the virtual
    operation and what remains of [deferred_fee] and [deferred_paid_fee]. *)
Definition deduct_cancel_fee (o : limit_order_object) : M database (asset * Z * asset) :=
  p ← get_parameters;
  f ← lift (calculate_cancel_fee p);
  let core_cancel_fee := if f >? deferred_fee o then deferred_fee o else f in
  if core_cancel_fee >? 0 then
    _ ← get (V:=account_object) (seller o);
    _ ← get (V:=account_statistics_object) (seller o);
    modify (seller o) (pay_fee core_cancel_fee (cashback_vesting_threshold p));;
    rest ← lift (safe_sub (deferred_fee o) core_cancel_fee);
    if amount (deferred_paid_fee o) =? 0 then
      mret (Asset core_cancel_fee CORE, rest, deferred_paid_fee o)
    else
      let fee128 := u128_div (u128_sub (u128_add (u128_mul (u128_of (amount (deferred_paid_fee o)))
                                                    core_cancel_fee) (deferred_fee o)) 1)
                             (deferred_fee o) in
      let cancel_fee_amount := u128_to_int64 fee128 in
      let fee_asset := asset_id (deferred_paid_fee o) in
      _ ← get (V:=asset_object) fee_asset;
      _ ← get (V:=asset_dynamic_data_object) fee_asset;
      modify fee_asset (add_accumulated cancel_fee_amount);;
      rest_paid ← lift (safe_sub (amount (deferred_paid_fee o)) cancel_fee_amount);
      mret (Asset cancel_fee_amount fee_asset, rest, Asset rest_paid fee_asset)
  else mret (Asset 0 CORE, deferred_fee o, deferred_paid_fee o).

(** [cancel_limit_order] up to the removal of the order. *)
Definition refund_limit_order (id : Z) (create_virtual_op skip_cancel_fee : bool) : M database unit :=
  o ← deref (V:=limit_order_object) id;
  d ← (if create_virtual_op && negb skip_cancel_fee && (deferred_fee o >? 0)
       then deduct_cancel_fee o
       else mret (Asset 0 CORE, deferred_fee o, deferred_paid_fee o));
  let '(fee, rest, rest_paid) := d in
  let refunded := amount_for_sale o in
  when (asset_id refunded =? CORE)
    (_ ← get (V:=account_object) (seller o);
     _ ← get (V:=account_statistics_object) (seller o);
     modify (seller o) (sub_core_in_orders (amount refunded)));;
  adjust_balance (seller o) refunded;;
  (if amount (deferred_paid_fee o) =? 0 then adjust_balance (seller o) (Asset rest CORE)
   else
     adjust_balance (seller o) rest_paid;;
     _ ← get (V:=asset_object) (asset_id rest_paid);
     _ ← get (V:=asset_dynamic_data_object) (asset_id rest_paid);
     modify (asset_id rest_paid) (add_fee_pool rest));;
  when create_virtual_op (push_applied_operation (limit_order_cancel_operation fee (seller o) id)).

Definition cancel_limit_order (id : Z) (create_virtual_op skip_cancel_fee : bool) : M database unit :=
  refund_limit_order id create_virtual_op skip_cancel_fee;;
  remove (V:=limit_order_object) id.

Definition maybe_cull_small_order (id : Z) : M database bool :=
  o ← deref (V:=limit_order_object) id;
  r ← lift (lo_amount_to_receive o);
  if amount r =? 0 then
    t ← head_block_time;
    (if (deferred_fee o >? 0) && (t <=? HARDFORK_CORE_604_TIME)
     then cancel_limit_order id true true
     else cancel_limit_order id true false);;
    mret true
  else mret false.

Definition cancel_bid (id : Z) (create_virtual_op : bool) : M database unit :=
  b ← deref (V:=collateral_bid_object) id;
  adjust_balance (bidder b) (base (inv_swan_price b));;
  when create_virtual_op
    (push_applied_operation
       (bid_collateral_operation (bidder b) (base (inv_swan_price b))
          (Asset 0 (asset_id (quote (inv_swan_price b))))));;
  remove (V:=collateral_bid_object) id.

Definition cancel_settle_order (id : Z) (create_virtual_op : bool) : M database unit :=
  f ← deref (V:=force_settlement_object) id;
  adjust_balance (fs_owner f) (fs_balance f);;
  when create_virtual_op
    (push_applied_operation (asset_settle_cancel_operation id (fs_owner f) (fs_balance f)));;
  remove (V:=force_settlement_object) id.

(** ** Filling *)
Definition reduce_limit_order (pays : Z) (o : limit_order_object) : result limit_order_object :=
  n ← safe_sub (for_sale o) pays;
  Ok (LimitOrder (lo_expiration o) (seller o) n (sell_price o) 0
        (Asset 0 (asset_id (deferred_paid_fee o)))).

(** The deferred fees of an order that is filled for the first time. *)
Definition pay_deferred_fees (o : limit_order_object) : M database unit :=
  when (deferred_fee o >? 0)
    (p ← get_parameters;
     _ ← get (V:=account_statistics_object) (seller o);
     modify (seller o) (pay_fee (deferred_fee o) (cashback_vesting_threshold p)));;
  when (amount (deferred_paid_fee o) >? 0)
    (_ ← get (V:=asset_object) (asset_id (deferred_paid_fee o));
     _ ← get (V:=asset_dynamic_data_object) (asset_id (deferred_paid_fee o));
     modify (asset_id (deferred_paid_fee o)) (add_accumulated (amount (deferred_paid_fee o)))).

Definition fill_limit_order (id : Z) (pays receives : asset) (cull_if_small : bool) (fill_price : price)
    (is_maker : bool) : M database bool :=
  o ← deref (V:=limit_order_object) id;
  t ← head_block_time;
  let cull_if_small := cull_if_small || (t <? HARDFORK_555_TIME) in
  assert_that (asset_id (amount_for_sale o) =? asset_id pays);;
  assert_that (negb (asset_id pays =? asset_id receives));;
  acct ← get (V:=account_object) (seller o);
  recv_asset ← get (V:=asset_object) (asset_id receives);
  issuer_fees ← (if t <? HARDFORK_1268_TIME
                 then pay_market_fees (asset_id receives) recv_asset receives
                 else pay_market_fees_shared acct (asset_id receives) recv_asset receives);
  net ← lift (asset_sub receives issuer_fees);
  pay_order (seller o) net pays;;
  push_applied_operation
    (fill_order_operation (limit_ref id) (seller o) pays receives issuer_fees fill_price is_maker);;
  pay_deferred_fees o;;
  if asset_eqb pays (amount_for_sale o) then
    remove (V:=limit_order_object) id;; mret true
  else
    modify id (reduce_limit_order (amount pays));;
    if cull_if_small then maybe_cull_small_order id else mret false.

(** The change of a debt position, and the collateral it frees when the debt is
    paid. *)
Definition reduce_call_order (pays receives mcr : Z) (update_call_price : bool) (o : call_order_object)
    : result (call_order_object * option asset) :=
  d ← safe_sub (debt o) receives;
  c ← safe_sub (collateral o) pays;
  if d =? 0 then
    Ok (CallOrder (borrower o) 0 d (co_call_price o) (target_collateral_ratio o),
        Some (Asset c (collateral_type o)))
  else if update_call_price then
    cp ← call_price (Asset d (debt_type o)) (Asset c (collateral_type o)) mcr;
    Ok (CallOrder (borrower o) c d cp (target_collateral_ratio o), None)
  else Ok (CallOrder (borrower o) c d (co_call_price o) (target_collateral_ratio o), None).

Definition fill_call_order (id : Z) (pays receives : asset) (fill_price : price) (is_maker : bool)
    : M database bool :=
  o ← deref (V:=call_order_object) id;
  assert_that (debt_type o =? asset_id receives);;
  assert_that (collateral_type o =? asset_id pays);;
  assert_that (collateral o >=? amount pays);;
  mia ← get (V:=asset_object) (asset_id receives);
  assert_that (is_market_issued mia);;
  maint_time ← next_maint_time;
  let update := (maint_time <=? HARDFORK_CORE_1270_TIME) && (maint_time >? HARDFORK_CORE_343_TIME) in
  mcr ← (if update then b ← get (V:=asset_bitasset_data_object) (asset_id receives);
                        mret (maintenance_collateral_ratio (current_feed b))
         else mret 0);
  r ← lift (reduce_call_order (amount pays) (amount receives) mcr update o);
  let '(o', collateral_freed) := r in
  modify id (λ _, Ok o');;
  _ ← get (V:=asset_dynamic_data_object) (asset_id receives);
  modify (V:=asset_dynamic_data_object) (asset_id receives) (sub_supply (amount receives));;
  (match collateral_freed with
   | Some f => adjust_balance (borrower o) f
   | None => mret tt
   end);;
  when (asset_id pays =? CORE)
    (_ ← get (V:=account_statistics_object) (borrower o);
     modify (borrower o) (λ b,
       b1 ← sub_core_in_orders (amount pays) b;
       match collateral_freed with
       | Some f => sub_core_in_orders (amount f) b1
       | None => Ok b1
       end));;
  push_applied_operation
    (fill_order_operation (call_ref id) (borrower o) pays receives (Asset 0 (asset_id pays)) fill_price
       is_maker);;
  match collateral_freed with
  | Some _ => remove (V:=call_order_object) id;; mret true
  | None => mret false
  end.

Definition reduce_settle_order (pays : asset) (f : force_settlement_object) : result force_settlement_object :=
  b ← asset_sub (fs_balance f) pays; Ok (ForceSettlement (fs_owner f) b (settlement_date f)).

Definition fill_settle_order (id : Z) (pays receives : asset) (fill_price : price) (is_maker : bool)
    : M database bool :=
  f ← deref (V:=force_settlement_object) id;
  recv_asset ← get (V:=asset_object) (asset_id receives);
  issuer_fees ← pay_market_fees (asset_id receives) recv_asset receives;
  lt ← lift (asset_lt pays (fs_balance f));
  (if lt : bool then modify id (reduce_settle_order pays) else mret tt);;
  let filled := negb lt in
  net ← lift (asset_sub receives issuer_fees);
  adjust_balance (fs_owner f) net;;
  push_applied_operation
    (fill_order_operation (settle_ref id) (fs_owner f) pays receives issuer_fees fill_price is_maker);;
  when filled (remove (V:=force_settlement_object) id);;
  mret filled.

(** [execute_bid]: a bid becomes a debt position that also takes collateral from
    the settlement fund. *)
Definition execute_bid (id debt_covered collateral_from_fund : Z) (feed : price_feed) : M database unit :=
  b ← deref (V:=collateral_bid_object) id;
  let '(Price bb bq) := inv_swan_price b in
  coll ← lift (safe_add (amount bb) collateral_from_fund);
  maint_time ← next_maint_time;
  cp ← (if maint_time >? HARDFORK_CORE_1270_TIME
        then mret (Price (Asset 1 (asset_id bb)) (Asset 1 (asset_id bq)))
        else lift (call_price (Asset debt_covered (asset_id bq)) (Asset coll (asset_id bb))
                     (maintenance_collateral_ratio feed)));
  _ ← create (V:=call_order_object) (λ _, CallOrder (bidder b) coll debt_covered cp None);
  when (asset_id bb =? CORE)
    (_ ← get (V:=account_statistics_object) (bidder b);
     modify (bidder b) (add_core_in_orders coll));;
  push_applied_operation
    (execute_bid_operation (bidder b) (Asset coll (asset_id bb)) (Asset debt_covered (asset_id bq)));;
  remove (V:=collateral_bid_object) id.

End fill.

(** ** Conservation *)
Section fill_lemmas.
Context `{EX : Ext}.

Lemma deref_Ok {K V} `{Table K V} (k : K) s (v : V) s' :
  deref k s = Ok (v, s') → s' = s ∧ tbl s !! k = Some v.
Proof. unfold deref. destruct (tbl s !! k); [|done]. by intros [= -> ->]. Qed.

Lemma keeps_deref R `{!PreOrder R} {K V} `{Table K V} (k : K) : keeps R (deref (V:=V) k).
Proof. intros s r s' E. apply deref_Ok in E as [-> _]. reflexivity. Qed.

Lemma asset_lt_Ok a b r : asset_lt a b = Ok r → asset_id a = asset_id b ∧ r = (amount a <? amount b).
Proof. unfold asset_lt. intros. monad_inv. by bool_to_prop. Qed.
Lemma asset_sub_Ok a b r :
  asset_sub a b = Ok r → asset_id a = asset_id b ∧ r = Asset (amount a - amount b) (asset_id a).
Proof. unfold asset_sub. intros. monad_inv. safe_inv. by bool_to_prop. Qed.
Lemma asset_add_Ok a b r :
  asset_add a b = Ok r → asset_id a = asset_id b ∧ r = Asset (amount a + amount b) (asset_id a).
Proof. unfold asset_add. intros. monad_inv. safe_inv. by bool_to_prop. Qed.

End fill_lemmas.

(** Opens the first bind of a successful handler; steps that only read leave the
    state unchanged. *)
Ltac read_step s1 E1 :=
  lazymatch type of E1 with
  | get _ _ = _ => apply get_Ok in E1; destruct E1 as [-> E1]
  | deref _ _ = _ => apply deref_Ok in E1; destruct E1 as [-> E1]
  | find _ _ = _ => apply find_Ok in E1; destruct E1 as [-> E1]
  | gets _ _ = _ => unfold gets in E1; injection E1 as <- <-
  | head_block_time _ = _ => unfold head_block_time, gets in E1; injection E1 as <- <-
  | next_maint_time _ = _ => unfold next_maint_time, gets in E1; injection E1 as <- <-
  | get_parameters _ = _ => unfold get_parameters, gets in E1; injection E1 as <- <-
  | assert_that _ _ = _ => apply lift_Ok in E1; destruct E1 as [E1 ->]; apply fc_assert_Ok in E1
  | lift _ _ = _ => apply lift_Ok in E1; destruct E1 as [E1 ->]
  | mret _ _ = _ => unfold mret, M_ret in E1; injection E1 as <- <-
  | _ => idtac
  end.
Ltac bind_step E :=
  let a := fresh "a" in let s1 := fresh "s" in let E1 := fresh "Hx" in
  apply M_bind_Ok in E; destruct E as (a & s1 & E1 & E);
  try (match type of a with unit => destruct a end);
  read_step s1 E1.
Tactic Notation "bind" hyp(E) "as" simple_intropattern(a) ident(H) :=
  let s1 := fresh "s" in
  apply M_bind_Ok in E; destruct E as (a & s1 & H & E); read_step s1 H.
Ltac bind_steps E := repeat bind_step E.
(** A conditional read leaves the state unchanged. *)
Ltac same_state H :=
  match type of H with _ ?s = Ok (_, ?s1) =>
    assert (s1 = s) as -> by
      (match type of H with (if ?b then _ else _) _ = _ => destruct b end;
       bind_steps H; unfold mret, M_ret in H; simplify_eq; done)
  end.
Ltac ret_inv E := unfold mret, M_ret in E; simplify_eq.

#[export] Hint Extern 1 (keeps _ (deref _)) => apply keeps_deref; apply _ : graphene.

(** What the handlers of funds leave alone. *)
Section fill_books.
Context `{EX : Ext}.

Lemma books_adjust_balance acct d : bookkeeping (adjust_balance acct d).
Proof. unfold adjust_balance. solve_books. Qed.
Hint Resolve books_adjust_balance : graphene.
Lemma books_find_mfs acct a : bookkeeping (find_mfs acct a).
Proof. intros s r s' E. unfold find_mfs in E. by simplify_eq. Qed.
Hint Resolve books_find_mfs : graphene.
Lemma books_deposit_mfs acct d : bookkeeping (deposit_market_fee_vesting_balance acct d).
Proof. unfold deposit_market_fee_vesting_balance. solve_books. Qed.
Hint Resolve books_deposit_mfs : graphene.
Lemma books_pay_market_fees id a x : bookkeeping (pay_market_fees id a x).
Proof. unfold pay_market_fees. solve_books. Qed.
Lemma books_pay_rewards acct id a f : bookkeeping (pay_rewards acct id a f).
Proof. unfold pay_rewards. solve_books. Qed.
Hint Resolve books_pay_rewards : graphene.
Lemma books_pay_market_fees_shared acct id a x : bookkeeping (pay_market_fees_shared acct id a x).
Proof. unfold pay_market_fees_shared. solve_books. Qed.
Lemma books_pay_order acct r p : bookkeeping (pay_order acct r p).
Proof. unfold pay_order. solve_books. Qed.
Lemma books_pay_deferred o : bookkeeping (pay_deferred_fees o).
Proof. unfold pay_deferred_fees. solve_books. Qed.
Lemma books_deduct_cancel_fee o : bookkeeping (deduct_cancel_fee o).
Proof. unfold deduct_cancel_fee. solve_books. Qed.

Lemma books_refund id v sk : bookkeeping (refund_limit_order id v sk).
Proof.
  pose proof books_deduct_cancel_fee. unfold refund_limit_order. solve_books.
Qed.

End fill_books.
#[export] Hint Resolve books_adjust_balance books_find_mfs books_deposit_mfs books_pay_market_fees
  books_pay_rewards books_pay_market_fees_shared books_pay_order books_pay_deferred books_deduct_cancel_fee
  books_refund : graphene.

Section fill_effects.
Context `{EX : Ext} (c e q : Z → Z) (g : Z).
Local Notation μ := (linear_weights c e q g).

(** The options of an asset as [asset_options::validate] leaves them. *)
Definition wf_asset (a : asset_object) : Prop :=
  0 ≤ market_fee_percent (ao_options a) ≤ GRAPHENE_100_PERCENT ∧ 0 ≤ max_market_fee (ao_options a).

Lemma calculate_percent_spec v p :
  share_ok v → 0 ≤ p ≤ GRAPHENE_100_PERCENT →
  calculate_percent v p =
  if v * p / GRAPHENE_100_PERCENT <=? GRAPHENE_MAX_SHARE_SUPPLY
  then Ok (v * p / GRAPHENE_100_PERCENT) else Err assert_exception.
Proof.
  intros Hv Hp. unfold calculate_percent, GRAPHENE_100_PERCENT in *.
  rewrite u128_floor by (unfold share_ok in *; unfold_widths; lia).
  rewrite checked_share_spec by (apply Z.div_pos; unfold share_ok in *; nia). done.
Qed.

Lemma calculate_market_fee_spec id a x f :
  wf_asset a → share_ok (amount x) → calculate_market_fee id a x = Ok f → asset_id f = id ∧ 0 ≤ amount f.
Proof.
  intros [Hp Hm] Hx E. unfold calculate_market_fee in E.
  destruct (negb _); [by simplify_eq|]. destruct (_ =? 0); [by simplify_eq|].
  rewrite calculate_percent_spec in E by done.
  assert (0 ≤ amount x * market_fee_percent (ao_options a) / GRAPHENE_100_PERCENT).
  { unfold share_ok in Hx. apply Z.div_pos; [nia|done]. }
  destruct (_ <=? _); [|done]. cbn in E. simplify_eq. cbn. split; [done|].
  destruct (_ >? _); lia.
Qed.

Lemma effect_deposit_mfs acct d :
  effect μ (deposit_market_fee_vesting_balance acct d) (λ _, c (asset_id d) * amount d).
Proof.
  intros s [] s' E. unfold deposit_market_fee_vesting_balance in E. bind_step E.
  destruct (amount d =? 0) eqn:E0; [bool_to_prop; ret_inv E; lia|].
  bind_step E. unfold find_mfs in Hx0. injection Hx0 as _ <-. bind_step E.
  destruct a as [i|].
  - apply (total_modify μ) in E as (v & w & _ & Ef & _ & ->).
    apply vbo_deposit_vested_amount in Ef as (Ei & Ej & Ea). cbn. rewrite Ei, Ea, Ej. lia.
  - bind_step E. ret_inv E. apply (total_create μ) in Hx0 as (-> & _). cbn. lia.
Qed.

Lemma effect_add_accumulated id x :
  effect μ (modify id (add_accumulated x)) (λ _, c id * x).
Proof. apply effect_modify. intros v w E. unfold add_accumulated in E. monad_inv. safe_inv. cbn. lia. Qed.

Lemma effect_pay_market_fees id a x s f s' :
  wf_asset a → share_ok (amount x) → pay_market_fees id a x s = Ok (f, s') →
  total μ s' = total μ s + c id * amount f ∧ asset_id f = id.
Proof.
  intros Ha Hs E. unfold pay_market_fees in E. do 4 bind_step E. ret_inv E.
  apply calculate_market_fee_spec in Hx as [-> Hf]; [|done..]. split; [|done].
  unfold when in Hx2. destruct (amount f >? 0) eqn:E4.
  - bind_step Hx2. by apply effect_add_accumulated in Hx2.
  - ret_inv Hx2. bool_to_prop. replace (amount f) with 0 by lia. lia.
Qed.

Lemma effect_pay_rewards acct id a f : effect μ (pay_rewards acct id a f) (λ r, c id * amount r).
Proof.
  intros s r s' E. unfold pay_rewards in E.
  assert (∀ r s', (mret (Asset 0 id) : M database asset) s = Ok (r, s') →
    total μ s' = total μ s + c id * amount r) as Hn.
  { intros r0 s0 E0. ret_inv E0. cbn. lia. }
  destruct (is_rewards_allowed a acct); [|by apply Hn].
  destruct (reward_percent _) as [pct|]; [|by apply Hn]. destruct (pct =? 0); [by apply Hn|].
  bind E as v Hv. bind E as au Hau. same_state Hau.
  destruct au; [|by apply Hn]. bind E as lt Hlt. bind E as [] Has. bind E as rr Hrr.
  match type of Hrr with _ = Ok (_, ?s1) =>
    assert (total μ s1 = total μ s + c id * (v - amount rr) ∧ asset_id rr = id) as [T0 Hid] end.
  { destruct (negb _); [|ret_inv Hrr; cbn; split; [lia|done]].
    bind Hrr as rv Hrv. bind Hrr as au2 Hau2. same_state Hau2.
    destruct au2; [|ret_inv Hrr; cbn; split; [lia|done]].
    bind Hrr as [] Hle. bind Hrr as x Hsub. bind Hrr as [] Hdep. ret_inv Hrr.
    apply effect_deposit_mfs in Hdep. cbn in Hdep.
    unfold asset_sub in Hsub. monad_inv. safe_inv. cbn in *. split; [lia|done]. }
  bind E as [] Hdep. apply effect_deposit_mfs in Hdep. rewrite Hid in Hdep. ret_inv E. cbn. lia.
Qed.

Lemma effect_pay_market_fees_shared acct id a x s f s' :
  wf_asset a → share_ok (amount x) → pay_market_fees_shared acct id a x s = Ok (f, s') →
  total μ s' = total μ s + c id * amount f ∧ asset_id f = id.
Proof.
  intros Ha Hs E. unfold pay_market_fees_shared in E. do 4 bind_step E. ret_inv E.
  apply calculate_market_fee_spec in Hx as [-> Hf]; [|done..]. split; [|done].
  unfold when in Hx2. destruct (amount f >? 0) eqn:E4.
  - do 2 bind_step Hx2. apply effect_pay_rewards in Hx.
    apply (total_modify μ) in Hx2 as (v & w & _ & Ef & _ & ->).
    unfold add_accumulated in Ef. monad_inv. safe_inv. cbn. lia.
  - ret_inv Hx2. bool_to_prop. replace (amount f) with 0 by lia. lia.
Qed.

Lemma effect_sub_core_in_orders acct x :
  effect μ (modify acct (sub_core_in_orders x)) (λ _, g * x).
Proof. apply effect_modify. intros v w E. unfold sub_core_in_orders in E. monad_inv. safe_inv. cbn. lia. Qed.

Lemma effect_pay_order acct r p :
  effect μ (pay_order acct r p) (λ _, c (asset_id r) * amount r + ind (asset_id p =? CORE) (g * amount p)).
Proof.
  intros s [] s' E. unfold pay_order in E. do 2 bind_step E. apply (effect_adjust_balance c e q g) in E. rewrite E.
  apply (total_modify μ) in Hx0 as (v & w & _ & Ef & _ & ->). unfold ind.
  destruct (asset_id p =? CORE).
  - unfold sub_core_in_orders in Ef. monad_inv. safe_inv. cbn. lia.
  - simplify_eq. lia.
Qed.

(** *** Cancelling *)
Lemma effect_deduct_cancel_fee o :
  effect μ (deduct_cancel_fee o)
    (λ d, c CORE * (deferred_fee o - d.1.2)
          + c (asset_id (deferred_paid_fee o)) * (amount (deferred_paid_fee o) - amount d.2)).
Proof.
  intros s [[fee rest] paid] s' E. unfold deduct_cancel_fee in E. do 2 bind_step E.
  destruct (_ >? 0); [|ret_inv E; cbn; lia].
  do 4 bind_step E. apply (effect_pay_fee c e q g) in Hx2. monad_inv. safe_inv.
  destruct (amount (deferred_paid_fee o) =? 0); [ret_inv E; cbn; lia|].
  bind E as fa Hfa. bind E as fd Hfd. bind E as [] Hacc. bind E as rp Hrp.
  apply effect_add_accumulated in Hacc. monad_inv. safe_inv. cbn. lia.
Qed.

Lemma deduct_cancel_fee_paid o s d s' :
  deduct_cancel_fee o s = Ok (d, s') →
  asset_id d.2 = asset_id (deferred_paid_fee o) ∧ (amount (deferred_paid_fee o) = 0 → amount d.2 = 0).
Proof.
  intros E. unfold deduct_cancel_fee in E. do 2 bind_step E.
  destruct (_ >? 0); [|ret_inv E; done]. do 4 bind_step E.
  destruct (amount (deferred_paid_fee o) =? 0) eqn:E0; [ret_inv E; done|]. bool_to_prop.
  do 4 bind_step E. ret_inv E. done.
Qed.

Lemma effect_add_fee_pool id x : effect μ (modify id (add_fee_pool x)) (λ _, c CORE * x).
Proof. apply effect_modify. intros v w E. unfold add_fee_pool in E. monad_inv. safe_inv. cbn. lia. Qed.

Lemma when_push b o s s' :
  when b (push_applied_operation o) s = Ok (tt, s') → total μ s' = total μ s ∧ same_books s s'.
Proof.
  unfold when. destruct b; intros E; [|ret_inv E; done].
  split; [|revert E; apply (keeps_push same_books); by split].
  rewrite (effect_push c e q g _ (λ _, 0) eq_refl _ _ _ E). lia.
Qed.

(** Removing an object takes its weight away. *)
Lemma total_remove_at {V} `{Table Z V} id s s' (v : V) :
  remove (V:=V) id s = Ok (tt, s') → tbl s !! id = Some v → total μ s' = total μ s - w_of μ id v.
Proof. intros E Hv. apply (total_remove μ) in E as (w & Hw & _ & ->). rewrite Hv in Hw. by injection Hw as ->. Qed.

(** The refund gives out what the order holds. *)
Lemma effect_refund id v sk s s' o :
  limit_orders s !! id = Some o → refund_limit_order id v sk s = Ok (tt, s') →
  total μ s' = total μ s + w_limit μ id o.
Proof.
  intros Ho E. unfold refund_limit_order in E. bind E as o' Ho'.
  assert (o' = o) as -> by (cbn in Ho'; congruence). bind E as d Hd.
  match type of Hd with _ = Ok (_, ?s1) =>
    assert (total μ s1 = total μ s + (c CORE * (deferred_fee o - d.1.2)
          + c (asset_id (deferred_paid_fee o)) * (amount (deferred_paid_fee o) - amount d.2))
      ∧ asset_id d.2 = asset_id (deferred_paid_fee o)
      ∧ (amount (deferred_paid_fee o) = 0 → amount d.2 = 0)) as (T1 & Hid & Hz) end.
  { destruct (v && _ && _).
    - split; [by apply effect_deduct_cancel_fee in Hd|]. by eapply deduct_cancel_fee_paid.
    - ret_inv Hd. cbn. split; [lia|done]. }
  destruct d as [[fee rest] paid]. cbn in T1, Hid, Hz.
  bind E as [] H1. bind E as [] H2. bind E as [] H3.
  match type of H1 with _ ?s1 = Ok (_, ?s2) =>
    assert (total μ s2 = total μ s1 + ind (sell_asset_id o =? CORE) (g * for_sale o)) as T2 end.
  { unfold when in H1. cbn [amount_for_sale asset_id amount] in H1. fold (sell_asset_id o) in H1.
    destruct (sell_asset_id o =? CORE).
    - do 2 bind_step H1. by apply effect_sub_core_in_orders in H1.
    - ret_inv H1. cbn. lia. }
  apply (effect_adjust_balance c e q g) in H2.
  match type of H3 with _ ?s1 = Ok (_, ?s2) =>
    assert (total μ s2 = total μ s1 + c CORE * rest + c (asset_id (deferred_paid_fee o)) * amount paid)
      as T3 end.
  { destruct (amount (deferred_paid_fee o) =? 0) eqn:E0; bool_to_prop.
    - apply (effect_adjust_balance c e q g) in H3. cbn in H3. rewrite Hz by done. lia.
    - bind H3 as [] H5. do 2 bind_step H3. apply (effect_adjust_balance c e q g) in H5.
      apply effect_add_fee_pool in H3. rewrite Hid in H5. lia. }
  apply when_push in E as [T4 _].
  cbn [amount_for_sale amount asset_id] in H2. fold (sell_asset_id o) in H2.
  cbn [linear_weights w_limit]. rewrite T4, T3, H2, T2, T1. generalize (total μ s). intros t. ring.
Qed.

Lemma cancel_limit_order_spec id v sk s s' :
  cancel_limit_order id v sk s = Ok (tt, s') →
  total μ s' = total μ s ∧ ∃ s1, same_books s s1 ∧ is_Some (limit_orders s !! id) ∧
    s' = set_limit_orders (delete id (limit_orders s)) s1.
Proof.
  intros E. unfold cancel_limit_order in E. bind E as [] H1. pose proof (books_refund _ _ _ _ _ _ H1) as B.
  apply (total_remove μ) in E as (o & Ho & Es & T). cbn in Ho. rewrite (sb_limit _ _ B) in Ho.
  apply (effect_refund id v sk _ _ o Ho) in H1. split; [cbn [w_of limit_orders_table] in T; lia|]. eexists. split; [exact B|].
  split; [eauto|]. rewrite Es. cbn. by rewrite (sb_limit _ _ B).
Qed.

Lemma effect_cancel_limit_order id v sk : effect μ (cancel_limit_order id v sk) (λ _, 0).
Proof. intros s [] s' E. apply cancel_limit_order_spec in E as [-> _]. lia. Qed.

Lemma effect_maybe_cull id : effect μ (maybe_cull_small_order id) (λ _, 0).
Proof.
  intros s r s' E. unfold maybe_cull_small_order in E. do 2 bind_step E.
  destruct (amount _ =? 0); [|ret_inv E; lia].
  bind_step E. bind E as [] H1. ret_inv E.
  destruct (_ && _); by apply effect_cancel_limit_order in H1.
Qed.

Lemma effect_cancel_bid id v : effect μ (cancel_bid id v) (λ _, 0).
Proof.
  intros s [] s' E. unfold cancel_bid in E. bind E as b Hb. bind E as [] H1. bind E as [] H2.
  pose proof (books_adjust_balance _ _ _ _ _ H1) as B1. apply (effect_adjust_balance c e q g) in H1.
  apply when_push in H2 as [T2 B2].
  apply (total_remove_at id _ _ b) in E; [rewrite E; cbn; lia|].
  cbn. by rewrite (sb_bids _ _ B2), (sb_bids _ _ B1).
Qed.

Lemma effect_cancel_settle id v : effect μ (cancel_settle_order id v) (λ _, 0).
Proof.
  intros s [] s' E. unfold cancel_settle_order in E. bind E as f Hf. bind E as [] H1. bind E as [] H2.
  pose proof (books_adjust_balance _ _ _ _ _ H1) as B1. apply (effect_adjust_balance c e q g) in H1.
  apply when_push in H2 as [T2 B2].
  apply (total_remove_at id _ _ f) in E; [rewrite E; cbn; lia|].
  cbn. by rewrite (sb_settle _ _ B2), (sb_settle _ _ B1).
Qed.

(** *** Filling *)

(** An order whose deferred fees are not negative and whose amount fits 64 bits. *)
Definition wf_limit (o : limit_order_object) : Prop :=
  0 ≤ deferred_fee o ∧ 0 ≤ amount (deferred_paid_fee o) ∧ for_sale o ≤ int64_max.

Lemma effect_pay_deferred o :
  wf_limit o →
  effect μ (pay_deferred_fees o) (λ _, c CORE * deferred_fee o
    + c (asset_id (deferred_paid_fee o)) * amount (deferred_paid_fee o)).
Proof.
  intros (W1 & W2 & _) s [] s' E. unfold pay_deferred_fees in E. bind E as [] H1.
  match type of H1 with _ = Ok (_, ?s2) =>
    assert (total μ s2 = total μ s + c CORE * deferred_fee o) as T1 end.
  { unfold when in H1. destruct (deferred_fee o >? 0) eqn:E0; bool_to_prop.
    - do 2 bind_step H1. by apply (effect_pay_fee c e q g) in H1.
    - ret_inv H1. replace (deferred_fee o) with 0 by lia. lia. }
  unfold when in E. destruct (amount _ >? 0) eqn:E0; bool_to_prop.
  - do 2 bind_step E. apply effect_add_accumulated in E. lia.
  - ret_inv E. replace (amount (deferred_paid_fee o)) with 0 by lia. lia.
Qed.

Lemma effect_fill_limit_order id pays receives cull fp mk s r s' :
  (∀ o, limit_orders s !! id = Some o → wf_limit o) → (∀ i a, assets s !! i = Some a → wf_asset a) →
  share_ok (amount receives) →
  fill_limit_order id pays receives cull fp mk s = Ok (r, s') →
  total μ s' = total μ s + c (asset_id receives) * amount receives - c (asset_id pays) * amount pays.
Proof.
  intros Wl Wa Hs E. unfold fill_limit_order in E. bind E as o Ho. do 5 bind_step E.
  rename Hx2 into Hra. bind E as fees Hf.
  match type of Hf with _ = Ok (_, ?s2) =>
    assert ((total μ s2 = total μ s + c (asset_id receives) * amount fees ∧ asset_id fees = asset_id receives)
      ∧ same_books s s2) as [[T1 Hid] B1] end.
  { destruct (_ <? _); [split; [by eapply effect_pay_market_fees; [eapply Wa|..]|by eapply books_pay_market_fees]|].
    split; [by eapply effect_pay_market_fees_shared; [eapply Wa|..]|by eapply books_pay_market_fees_shared]. }
  bind E as net Hnet. bind E as [] H1. bind E as [] H2. bind E as [] H3.
  pose proof (books_pay_order _ _ _ _ _ _ H1) as B2. apply effect_pay_order in H1.
  apply (when_push true) in H2 as [T2 B3].
  pose proof (books_pay_deferred _ _ _ _ H3) as B4. apply effect_pay_deferred in H3; [|by eapply Wl].
  unfold asset_sub in Hnet. monad_inv. safe_inv. bool_to_prop. cbn in H1.
  match type of E with _ ?s4 = Ok _ => assert (limit_orders s4 !! id = Some o) as Hs4 end.
  { rewrite (sb_limit _ _ B4), (sb_limit _ _ B3), (sb_limit _ _ B2), (sb_limit _ _ B1). exact Ho. }
  assert (asset_id pays = sell_asset_id o) as Hsell by done.
  destruct (asset_eqb pays (amount_for_sale o)) eqn:Eeq.
  - unfold asset_eqb in Eeq. bool_to_prop. cbn in *. bind E as [] Hrm. ret_inv E.
    apply (total_remove_at id _ _ o) in Hrm; [|exact Hs4]. rewrite Hrm. cbn. rewrite Hsell in *. unfold ind in *.
    destruct (sell_asset_id o =? CORE); nia.
  - bind E as [] Hmd. apply (total_modify μ) in Hmd as (v & w & Hv & Ef & _ & T4).
    cbn in Hv. assert (v = o) as -> by congruence. unfold reduce_limit_order in Ef. monad_inv. safe_inv.
    match type of E with _ ?s5 = Ok _ => assert (total μ s' = total μ s5) as -> end.
    { destruct (cull || _); [apply effect_maybe_cull in E; lia|by ret_inv E]. }
    rewrite T4. cbn. unfold sell_asset_id in *. cbn. rewrite Hsell in *. unfold ind in *.
    destruct (_ =? CORE); nia.
Qed.

Lemma call_price_ids d cl r p :
  call_price d cl r = Ok p → asset_id (base p) = asset_id cl ∧ asset_id (quote p) = asset_id d.
Proof. unfold call_price, price_div. intros. monad_inv. done. Qed.

(** The freed collateral. *)
Definition freed (f : option asset) : Z := from_option amount 0 f.

Lemma reduce_call_order_spec pays receives mcr u o o' f :
  reduce_call_order pays receives mcr u o = Ok (o', f) →
  borrower o' = borrower o ∧ collateral_type o' = collateral_type o ∧ debt_type o' = debt_type o ∧
  debt o' = debt o - receives ∧ collateral o' + freed f = collateral o - pays ∧
  from_option asset_id (collateral_type o) f = collateral_type o ∧
  (is_Some f → debt o' = 0 ∧ collateral o' = 0) ∧ (f = None → debt o' ≠ 0).
Proof.
  unfold reduce_call_order. intros E. monad_inv. safe_inv.
  destruct (debt o - receives =? 0) eqn:E0; bool_to_prop.
  - monad_inv. cbn. split_and!; try done; lia.
  - destruct u; monad_inv; cbn.
    + match goal with H : call_price _ _ _ = Ok _ |- _ => apply call_price_ids in H as [Hb Hq] end.
      unfold collateral_type, debt_type in *. cbn in *.
      split_and!; try done; try lia; intros [? ?]; done.
    + split_and!; try done; try lia; intros [? ?]; done.
Qed.

Lemma effect_fill_call_order id pays receives fp mk :
  effect μ (fill_call_order id pays receives fp mk)
    (λ _, - (c (asset_id pays) * amount pays) - (q (asset_id receives) + e (asset_id receives)) * amount receives).
Proof.
  intros s r s' E. unfold fill_call_order in E. bind E as o Ho. do 6 bind_step E.
  bind E as mcr Hmcr. same_state Hmcr. bind E as red Hred. destruct red as [o' f].
  apply reduce_call_order_spec in Hred as (_ & Hct & Hdt & Hdebt & Hcoll & Hfid & Hz & _).
  bind E as [] H1. do 1 bind_step E. bind E as [] H2. bind E as [] H3. bind E as [] H4. bind E as [] H5.
  apply (total_modify μ) in H1 as (v & w & Hv & Ef & -> & T1). cbn in Hv, Ef. injection Ef as <-.
  assert (v = o) as -> by (cbn in Ho; congruence).
  apply (total_modify μ) in H2 as (dv & dw & _ & Ed & Es2 & T2). unfold sub_supply in Ed. monad_inv. safe_inv.
  match type of H3 with _ ?s1 = Ok (_, ?s2) =>
    assert (total μ s2 = total μ s1 + c (collateral_type o) * freed f ∧ same_books s1 s2) as [T3 B3] end.
  { destruct f as [f|]; cbn in *; [|ret_inv H3; split; [lia|done]].
    split; [|by eapply books_adjust_balance]. apply (effect_adjust_balance c e q g) in H3. by rewrite Hfid in H3. }
  match type of H4 with _ ?s1 = Ok (_, ?s2) =>
    assert (total μ s2 = total μ s1 + ind (asset_id pays =? CORE) (g * (amount pays + freed f))
      ∧ same_books s1 s2) as [T4 B4] end.
  { unfold when in H4. destruct (asset_id pays =? CORE); [|ret_inv H4; cbn; split; [lia|done]].
    bind_step H4. split; [|revert H4; apply (keeps_modify same_books); by split].
    apply (total_modify μ) in H4 as (x & y & _ & Ex & _ & ->). unfold sub_core_in_orders in Ex.
    destruct f; monad_inv; safe_inv; cbn; lia. }
  apply (when_push true) in H5 as [T5 B5]. bool_to_prop.
  assert (collateral_type o = asset_id pays) as Hcp by done.
  assert (debt_type o = asset_id receives) as Hdp by done.
  cbn [w_of call_orders_table dyns_table linear_weights w_call w_dyn set_supply current_supply
       accumulated_fees confidential_supply fee_pool] in T1, T2.
  rewrite Hct, Hdt in T1. rewrite Hdebt in T1. rewrite Hcp, Hdp in *.
  match type of E with _ ?s5 = Ok _ => assert (total μ s5 = total μ s
    - c (asset_id pays) * amount pays - (q (asset_id receives) + e (asset_id receives)) * amount receives) as T end.
  { rewrite T5, T4, T3, T2, T1. replace (collateral o) with (collateral o' + freed f + amount pays) by lia.
    unfold ind. destruct (asset_id pays =? CORE); lia. }
  destruct f as [f|]; [|ret_inv E; lia]. bind E as [] Hrm. ret_inv E.
  apply (total_remove_at id _ _ o') in Hrm.
  - rewrite Hrm, T. destruct (Hz ltac:(eauto)) as [Hd0 Hc0]. cbn. rewrite Hd0, Hc0, !Z.mul_0_r. unfold ind.
    generalize (total μ s). intros t. destruct (collateral_type o' =? CORE); ring.
  - cbn. rewrite (sb_call _ _ B5), (sb_call _ _ B4), (sb_call _ _ B3). cbn. apply lookup_insert_eq.
Qed.

Lemma effect_fill_settle_order id pays receives fp mk s r s' :
  (∀ i a, assets s !! i = Some a → wf_asset a) → share_ok (amount receives) →
  (∀ f, settle_orders s !! id = Some f → amount pays ≤ amount (fs_balance f)) →
  fill_settle_order id pays receives fp mk s = Ok (r, s') →
  total μ s' = total μ s + c (asset_id receives) * amount receives - c (asset_id pays) * amount pays.
Proof.
  intros Wa Hs Hle E. unfold fill_settle_order in E. bind E as f Hf. bind E as ra Hra. bind E as fees Hfees.
  pose proof (books_pay_market_fees _ _ _ _ _ _ Hfees) as B1.
  apply effect_pay_market_fees in Hfees as [T1 Hid]; [|by eapply Wa|done].
  bind E as lt Hlt. apply asset_lt_Ok in Hlt as [Hids ->]. specialize (Hle f Hf).
  bind E as [] H1. bind E as net Hnet. bind E as [] H2. bind E as [] H3. bind E as [] H4. ret_inv E.
  apply asset_sub_Ok in Hnet as [_ ->].
  pose proof (books_adjust_balance _ _ _ _ _ H2) as B2. apply (effect_adjust_balance c e q g) in H2. cbn in H2.
  apply (when_push true) in H3 as [T3 B3].
  destruct (amount pays <? amount (fs_balance f)) eqn:Elt; cbn in H4; bool_to_prop.
  - ret_inv H4. apply (total_modify μ) in H1 as (v & w & Hv & Ef & _ & T4).
    cbn in Hv. rewrite (sb_settle _ _ B1) in Hv. assert (v = f) as -> by (cbn in Hf; congruence).
    unfold reduce_settle_order in Ef. apply result_bind_Ok in Ef as (x & Ex & Ef).
    apply asset_sub_Ok in Ex as [_ ->]. injection Ef as <-. rewrite T3, H2, T4. cbn. rewrite Hids in *. lia.
  - ret_inv H1. apply (total_remove_at id _ _ f) in H4.
    + rewrite H4, T3, H2. cbn. rewrite Hids in *. replace (amount pays) with (amount (fs_balance f)) by lia. lia.
    + cbn. rewrite (sb_settle _ _ B3), (sb_settle _ _ B2), (sb_settle _ _ B1). exact Hf.
Qed.

Lemma effect_execute_bid id dc cf feed s s' b :
  bids s !! id = Some b → execute_bid id dc cf feed s = Ok (tt, s') →
  total μ s' = total μ s + c (asset_id (base (inv_swan_price b))) * cf
    + q (asset_id (quote (inv_swan_price b))) * dc.
Proof.
  intros Hb E. unfold execute_bid in E. bind E as b' Hb'. assert (b' = b) as -> by (cbn in Hb'; congruence).
  destruct (inv_swan_price b) as [bb bq] eqn:Ep. cbn [base quote]. bind E as coll Hc. bind_step E.
  bind E as cp Hcp. safe_inv.
  match type of Hcp with _ ?s1 = Ok (_, ?s2) => assert (s2 = s1 ∧ asset_id (base cp) = asset_id bb
    ∧ asset_id (quote cp) = asset_id bq) as (-> & Ib & Iq) end.
  { destruct (_ >? _); [by ret_inv Hcp|]. apply lift_Ok in Hcp as [Hcp ->].
    apply call_price_ids in Hcp as [? ?]. done. }
  bind E as i Hi. bind E as [] H1. bind E as [] H2.
  apply (when_push true) in H2 as [T2 B2].
  assert (bids s0 = bids s) as Bi.
  { revert Hi. apply (keeps_create (λ s s', bids s' = bids s)). done. }
  apply (total_create μ) in Hi as (T0 & _).
  match type of H1 with _ ?s1 = Ok (_, ?s2) => assert (total μ s2 = total μ s1
    - ind (asset_id bb =? CORE) (g * (amount bb + cf)) ∧ same_books s1 s2) as (T1 & B1) end.
  { unfold when in H1. destruct (asset_id bb =? CORE); [|ret_inv H1; cbn; split; [lia|done]].
    bind_step H1. split; [|revert H1; apply (keeps_modify same_books); by split].
    apply (total_modify μ) in H1 as (x & y & _ & Ex & _ & ->). unfold add_core_in_orders in Ex.
    monad_inv. safe_inv. cbn. lia. }
  apply (total_remove_at id _ _ b) in E.
  - rewrite E, T2, T1, T0. cbn. rewrite Ep. unfold collateral_type, debt_type. cbn. rewrite Ib, Iq.
    unfold ind. destruct (asset_id bb =? CORE); lia.
  - cbn. by rewrite (sb_bids _ _ B2), (sb_bids _ _ B1), Bi.
Qed.

End fill_effects.

(** ** Well-formed states *)

(** A vesting genesis balance has the parameters of its policy within their types. *)
Definition wf_genesis (b : balance_object) : Prop :=
  0 ≤ amount (bo_balance b) ∧
  match bo_vesting_policy b with
  | Some p => 0 ≤ begin_balance p ≤ int64_max ∧ u32_ok (begin_timestamp p) ∧ u32_ok (vesting_duration_seconds p)
  | None => True
  end.

(** The settlement price of a settled asset is in units of it per unit of its backing
    asset; an asset that is not settled has no settlement fund. *)
Definition wf_bitasset (a : Z) (b : asset_bitasset_data_object) : Prop :=
  if has_settlement b
  then asset_id (base (bad_settlement_price b)) = a ∧
       asset_id (quote (bad_settlement_price b)) = short_backing_asset (bad_options b)
  else settlement_fund b = 0.

(** Debt positions in a market-issued asset and bids on one hold its backing asset. *)
Definition backed_by (m : gmap Z asset_bitasset_data_object) (debt_asset collateral_asset : Z) : Prop :=
  ∀ b, m !! debt_asset = Some b → collateral_asset = short_backing_asset (bad_options b).
Definition call_backed (m : gmap Z asset_bitasset_data_object) (o : call_order_object) : Prop :=
  backed_by m (debt_type o) (collateral_type o).
Definition bid_backed (m : gmap Z asset_bitasset_data_object) (b : collateral_bid_object) : Prop :=
  backed_by m (asset_id (quote (inv_swan_price b))) (asset_id (base (inv_swan_price b))).

Record wf_market (s : database) : Prop := {
  wm_limits : map_Forall (λ _ o, wf_limit o) (limit_orders s);
  wm_assets : map_Forall (λ _ a, wf_asset a) (assets s);
  wm_funds : map_Forall wf_bitasset (bitassets s);
  wm_genesis : map_Forall (λ _, wf_genesis) (genesis_balances s);
  wm_time : u32_ok (time (dgpo s));
  wm_calls : map_Forall (λ _, call_backed (bitassets s)) (call_orders s);
  wm_bids : map_Forall (λ _, bid_backed (bitassets s)) (bids s)
}.
Definition wf_step (s s' : database) : Prop := wf_market s → wf_market s'.
#[export] Instance wf_step_preorder : PreOrder wf_step.
Proof. split; [intros s H; exact H|intros s1 s2 s3 H1 H2 H; auto]. Qed.

(** Handlers that leave alone what well-formedness is about. *)
Lemma wf_same s s' :
  limit_orders s' = limit_orders s → assets s' = assets s → bitassets s' = bitassets s →
  genesis_balances s' = genesis_balances s → dgpo s' = dgpo s → call_orders s' = call_orders s →
  bids s' = bids s → wf_step s s'.
Proof.
  intros E1 E2 E3 E4 E5 E6 E7 []. split; rewrite ?E1, ?E2, ?E3, ?E4, ?E5, ?E6, ?E7; done.
Qed.
Lemma wf_step_books s s' : same_books s s' → wf_step s s'.
Proof. intros []. by apply wf_same. Qed.

Lemma wf_remove_limit id : keeps wf_step (remove (V:=limit_order_object) id).
Proof.
  apply keeps_remove. intros s v _ []. split; cbn; [by apply map_Forall_delete|done..].
Qed.

Lemma wf_remove_call id : keeps wf_step (remove (V:=call_order_object) id).
Proof.
  apply keeps_remove. intros s v _ []. split; cbn; try done. by apply map_Forall_delete.
Qed.
Lemma wf_remove_bid id : keeps wf_step (remove (V:=collateral_bid_object) id).
Proof.
  apply keeps_remove. intros s v _ []. split; cbn; try done. by apply map_Forall_delete.
Qed.
(** Changes of a bitasset that keep its backing asset. *)
Lemma wf_insert_bitasset s a b b' :
  bitassets s !! a = Some b → bad_options b' = bad_options b →
  wf_bitasset a b' →
  wf_step s (set_bitassets (<[a := b']> (bitassets s)) s).
Proof.
  intros Hb Ho Hf W. destruct W as [W1 W2 W3 W4 W5 W6 W7].
  assert (∀ x y, backed_by (bitassets s) x y → backed_by (<[a := b']> (bitassets s)) x y) as Hk.
  { intros x y H bx Hx. apply lookup_insert_Some in Hx as [[<- <-]|[_ Hx]]; [rewrite Ho|]; by apply H. }
  split; cbn; try done.
  - by apply map_Forall_insert_2.
  - intros i o Ho'. by apply Hk, (W6 i o).
  - intros i o Ho'. by apply Hk, (W7 i o).
Qed.

Section fill_wf.
Context `{EX : Ext}.

Lemma wf_reduce_limit id pays : keeps wf_step (modify id (reduce_limit_order pays)).
Proof.
  apply keeps_modify. intros s v w _ E []. split; cbn; [|done..].
  apply map_Forall_insert_2; [|done]. unfold reduce_limit_order in E. monad_inv. safe_inv.
  split_and!; cbn; lia.
Qed.

(** Bookkeeping, as a step. *)
Lemma wf_books {A} (m : M database A) : bookkeeping m → keeps wf_step m.
Proof. intros H s r s' E. by apply wf_step_books, (H _ r). Qed.

End fill_wf.

Ltac wf_tac :=
  intros; first [by apply wf_same | by split].
Ltac solve_wf :=
  repeat first
    [ solve [eauto with graphene]
    | apply wf_remove_limit | apply wf_reduce_limit | apply wf_remove_call | apply wf_remove_bid
    | solve [apply wf_books; eauto with graphene]
    | apply keeps_ret; apply _
    | apply keeps_get; apply _
    | apply keeps_find; apply _
    | apply keeps_gets; apply _
    | apply keeps_assert; apply _
    | apply keeps_lift; apply _
    | apply keeps_throw
    | apply keeps_modify; wf_tac
    | apply keeps_add; wf_tac
    | apply keeps_remove; wf_tac
    | apply keeps_create; wf_tac
    | apply keeps_push; wf_tac
    | apply keeps_bind; [apply _| |intros ?]
    | case_match
    | progress (unfold when, head_block_time, next_maint_time, get_parameters, get_bitasset_data) ].

(** The rest of a handler. *)
Ltac by_wf E :=
  match type of E with ?m _ = Ok _ => let K := fresh in assert (keeps wf_step m) as K by solve_wf; exact (K _ _ _ E) end.

Section fill_wf2.
Context `{EX : Ext}.

Lemma wf_cancel_limit_order id v sk : keeps wf_step (cancel_limit_order id v sk).
Proof. unfold cancel_limit_order. solve_wf. Qed.
Hint Resolve wf_cancel_limit_order : graphene.
Lemma wf_maybe_cull id : keeps wf_step (maybe_cull_small_order id).
Proof. unfold maybe_cull_small_order. solve_wf. Qed.
Hint Resolve wf_maybe_cull : graphene.
Lemma wf_fill_limit_order id p r cl fp mk : keeps wf_step (fill_limit_order id p r cl fp mk).
Proof. unfold fill_limit_order. solve_wf. Qed.
Lemma wf_fill_call_order id p r fp mk : keeps wf_step (fill_call_order id p r fp mk).
Proof.
  intros s b s' E. unfold fill_call_order in E. bind E as o Ho. do 6 bind_step E.
  bind E as mcr Hmcr. same_state Hmcr. bind E as red Hred. destruct red as [o' f].
  apply reduce_call_order_spec in Hred as (_ & Hct & Hdt & _). bind E as [] H1.
  etransitivity; [|by_wf E]. apply (total_modify (linear_weights (λ _, 0) (λ _, 0) (λ _, 0) 0)) in H1
    as (v & w & _ & Ew & -> & _). injection Ew as <-. intros [W1 W2 W3 W4 W5 W6 W7]. split; cbn; try done.
  apply map_Forall_insert_2; [|done]. unfold call_backed. rewrite Hct, Hdt. by apply (W6 id).
Qed.
Lemma wf_fill_settle_order id p r fp mk : keeps wf_step (fill_settle_order id p r fp mk).
Proof. unfold fill_settle_order. solve_wf. Qed.
Lemma wf_cancel_bid id v : keeps wf_step (cancel_bid id v).
Proof. unfold cancel_bid. solve_wf. Qed.
Lemma wf_cancel_settle id v : keeps wf_step (cancel_settle_order id v).
Proof. unfold cancel_settle_order. solve_wf. Qed.
Lemma wf_execute_bid id d cf f : keeps wf_step (execute_bid id d cf f).
Proof.
  intros s [] s' E. unfold execute_bid in E. bind E as b Hb. destruct (inv_swan_price b) as [bb bq] eqn:Ep.
  bind E as coll Hc. bind_step E. bind E as cp Hcp.
  match type of Hcp with _ ?x = Ok (_, ?y) =>
    assert (y = x ∧ asset_id (base cp) = asset_id bb ∧ asset_id (quote cp) = asset_id bq) as (-> & Hcb & Hcq) end.
  { case_match; [by ret_inv Hcp|]. apply lift_Ok in Hcp as [Hcp ->]. by apply call_price_ids in Hcp as [-> ->]. }
  bind E as i Hi. etransitivity; [|by_wf E]. unfold create, add in Hi.
  destruct (tbl (V:=call_order_object) s !! _); [done|]. destruct (collides _ _ s); [done|]. injection Hi as <- <-.
  intros [W1 W2 W3 W4 W5 W6 W7]. split; cbn; try done. apply map_Forall_insert_2; [|done].
  unfold call_backed, debt_type, collateral_type. cbn. rewrite Hcb, Hcq.
  specialize (W7 id b Hb). unfold bid_backed in W7. by rewrite Ep in W7.
Qed.

End fill_wf2.
#[export] Hint Resolve wf_cancel_limit_order wf_maybe_cull wf_fill_limit_order wf_fill_call_order
  wf_fill_settle_order wf_cancel_bid wf_cancel_settle wf_execute_bid : graphene.

(** ** Properties *)
(** What trading may not change: for every asset the holdings less the supply and
    the debts less the supply, and the core in orders. *)
Definition conserved (s s' : database) : Prop :=
  (∀ a, excess a s' = excess a s) ∧ (∀ a, debt_excess a s' = debt_excess a s) ∧
  core_orders_excess s' = core_orders_excess s.

(** It is enough to look at the balanced weights. *)
Lemma conserved_balanced s s' :
  (∀ c e q g, (∀ a, c a + e a + q a = 0) →
     total (linear_weights c e q g) s' = total (linear_weights c e q g) s) → conserved s s'.
Proof.
  intros H. split_and!; intros; apply H; intros x; unfold ind; try destruct (x =? a); done.
Qed.

Lemma conserved_total s s' :
  (∀ c e q g, total (linear_weights c e q g) s' = total (linear_weights c e q g) s) → conserved s s'.
Proof. intros H. split_and!; intros; apply H. Qed.

Section fill_theorems.
Context `{EX : Ext}.

(** The market fee is the rounded down percentage of the trade, at most the
    configured maximum, and never more than the trade; the reward taken from it
    is always smaller than the fee and the referrer's part at most the reward, so
    the assertions on them never fail. *)
Theorem market_fee_bounds id a x pct ref :
  wf_asset a → 0 ≤ amount x ≤ GRAPHENE_MAX_SHARE_SUPPLY → 0 ≤ pct < GRAPHENE_100_PERCENT →
  0 ≤ ref ≤ GRAPHENE_100_PERCENT →
  ∃ fee reward share,
    calculate_market_fee id a x = Ok (Asset fee id) ∧
    fee = (if charges_market_fees a
           then Z.min (amount x * market_fee_percent (ao_options a) / GRAPHENE_100_PERCENT)
                      (max_market_fee (ao_options a)) else 0) ∧
    0 ≤ fee ≤ amount x ∧
    calculate_percent fee pct = Ok reward ∧ 0 ≤ reward ∧ (0 < fee → reward < fee) ∧
    calculate_percent reward ref = Ok share ∧ 0 ≤ share ≤ reward.
Proof.
  intros [Hp Hm] Hx Hpct Href.
  assert (∀ v p, 0 ≤ v ≤ GRAPHENE_MAX_SHARE_SUPPLY → 0 ≤ p ≤ GRAPHENE_100_PERCENT →
    calculate_percent v p = Ok (v * p / GRAPHENE_100_PERCENT) ∧ 0 ≤ v * p / GRAPHENE_100_PERCENT ≤ v) as Hpc.
  { intros v p Hv Hp'. assert (0 ≤ v * p / GRAPHENE_100_PERCENT ≤ v).
    { unfold GRAPHENE_100_PERCENT in *. split; [apply Z.div_pos; nia|apply Z.div_le_upper_bound; nia]. }
    rewrite calculate_percent_spec by (try done; unfold share_ok, GRAPHENE_MAX_SHARE_SUPPLY in *; unfold_widths; lia).
    rewrite (proj2 (Z.leb_le _ _)) by lia. done. }
  set (fee := if charges_market_fees a
              then Z.min (amount x * market_fee_percent (ao_options a) / GRAPHENE_100_PERCENT)
                         (max_market_fee (ao_options a)) else 0).
  destruct (Hpc (amount x) (market_fee_percent (ao_options a))) as [E1 B1]; [done..|].
  assert (0 ≤ fee ≤ amount x) as Hfee by (unfold fee; destruct (charges_market_fees a); lia).
  destruct (Hpc fee pct) as [E2 B2]; [lia..|].
  destruct (Hpc (fee * pct / GRAPHENE_100_PERCENT) ref) as [E3 B3]; [lia..|].
  exists fee, (fee * pct / GRAPHENE_100_PERCENT), (fee * pct / GRAPHENE_100_PERCENT * ref / GRAPHENE_100_PERCENT).
  split_and!; try done; try lia.
  - unfold calculate_market_fee, fee. destruct (charges_market_fees a); cbn [negb]; [|done].
    destruct (market_fee_percent (ao_options a) =? 0) eqn:E0; bool_to_prop.
    { rewrite E0, Z.mul_0_r, Z.min_l; [done|]. cbn. done. }
    rewrite E1. cbn [mbind result_bind]. do 2 f_equal. destruct (_ >? _) eqn:E4; bool_to_prop; lia.
  - intros Hpos. apply Z.div_lt_upper_bound; unfold GRAPHENE_100_PERCENT in *; nia.
Qed.

(** Cancelling a limit order removes it and gives everything it holds, less
    a cancellation fee that is collected, back to its seller: for every asset the
    holdings keep their relation to the supply, and no other order, asset or
    price feed changes. *)
Theorem cancel_limit_order_refunds id v sk s s' :
  cancel_limit_order id v sk s = Ok (tt, s') →
  conserved s s' ∧ ∃ s1, same_books s s1 ∧ is_Some (limit_orders s !! id) ∧
    s' = set_limit_orders (delete id (limit_orders s)) s1.
Proof.
  intros E. split.
  - apply conserved_total. intros. by eapply cancel_limit_order_spec.
  - by eapply (cancel_limit_order_spec (λ _, 0) (λ _, 0) (λ _, 0) 0).
Qed.

(** Cancelling a collateral bid or a settle order returns what it holds. *)
Theorem cancel_bid_and_settle_refund id v s s' :
  cancel_bid id v s = Ok (tt, s') ∨ cancel_settle_order id v s = Ok (tt, s') → conserved s s'.
Proof.
  intros [E|E]; apply conserved_total; intros c e q g.
  - apply (effect_cancel_bid c e q g) in E. lia.
  - apply (effect_cancel_settle c e q g) in E. lia.
Qed.

End fill_theorems.

(** *** An order of account 17 that sells 100 core, and its cancellation *)
Definition ex_order : limit_order_object :=
  LimitOrder 1600005000 17 100 (Price (Asset 100 0) (Asset 50 1)) 12 (Asset 0 0).
Definition ex_with_order : database :=
  set_stats {[ 17 := AccountStatistics 100 0 false 0 1000 50 false String.EmptyString 0; 18 := ex_stats 0 0 ]}
  (set_limit_orders {[ 7 := ex_order ]} ex_chain).

Lemma market_fee_bounds_witness :
  calculate_market_fee 1 (AssetObject 17 (ex_options 1 100 (ex_unit_price 0 1)) false None String.EmptyString 5) (Asset 1234 1)
  = Ok (Asset 12 1).
Proof.
  destruct (market_fee_bounds 1 (AssetObject 17 (ex_options 1 100 (ex_unit_price 0 1)) false None String.EmptyString 5)
    (Asset 1234 1) 2500 5000) as (fee & r & sh & E & Hfee & _); [by vm_compute..|].
  rewrite E, Hfee. reflexivity.
Defined.

Lemma cancel_limit_order_refunds_witness :
  match cancel_limit_order 7 true false ex_with_order with
  | Ok (_, s') => conserved ex_with_order s' ∧ bal s' 17 0 = 5102
  | Err _ => False
  end.
Proof.
  destruct (cancel_limit_order 7 true false ex_with_order) as [[[] s']|x] eqn:E; [|by vm_compute in E].
  split; [apply (cancel_limit_order_refunds 7 true false ex_with_order s' E)|].
  vm_compute in E. injection E as <-. reflexivity.
Defined.

Lemma cancel_bid_and_settle_refund_witness :
  match cancel_bid 3 true (set_bids {[ 3 := CollateralBid 17 (Price (Asset 40 0) (Asset 9 1)) ]} ex_chain) with
  | Ok (_, s') =>
      conserved (set_bids {[ 3 := CollateralBid 17 (Price (Asset 40 0) (Asset 9 1)) ]} ex_chain) s'
      ∧ bal s' 17 0 = 5040
  | Err _ => False
  end.
Proof.
  destruct (cancel_bid 3 true _) as [[[] s']|x] eqn:E; [|by vm_compute in E].
  split; [apply (cancel_bid_and_settle_refund 3 true _ s'); by left|].
  vm_compute in E. injection E as <-. reflexivity.
Defined.
