(* ===== verification/Market.v ===== *)
(** * Matching and margin calls: chain/db_market.cpp, chain/db_update.cpp

    The order books as ordered indexes, the three matchings, a new limit order
    against the book and the margin calls, margin calls after a price change,
    black swans, global settlement and the revival of a settled asset.

    The loops of the source walk an ordered index with an iterator that is
    advanced before the current order is filled; a fill changes or removes no
    other order of the range, so a walk is a recursion over the list of the ids
    of the range.  Where the source looks its position up again in every
    iteration the model does, and the loop takes fuel; the theorems hold for
    every amount of fuel. *)

From S2P Require Import Prelude External Asset Authority Operations Block Vesting State Balance MaxDebt Fill.

Section books.
Context `{EX : Ext}.

(** ** Ordered indexes *)

(** [by_price] of limit orders: greater price first, then lower id. *)
Definition limit_before (a b : Z * limit_order_object) : bool :=
  if price_gtb (sell_price a.2) (sell_price b.2) then true
  else if price_gtb (sell_price b.2) (sell_price a.2) then false
  else a.1 <? b.1.
(** [by_price] of call orders: lower call price first, then lower id. *)
Definition call_price_before (a b : Z * call_order_object) : bool :=
  if price_ltb (co_call_price a.2) (co_call_price b.2) then true
  else if price_ltb (co_call_price b.2) (co_call_price a.2) then false
  else a.1 <? b.1.
(** [by_collateral] of call orders: lower collateralization first, then lower id. *)
Definition co_collateralization (o : call_order_object) : price := Price (get_collateral o) (get_debt o).
Definition call_collateral_before (a b : Z * call_order_object) : bool :=
  if price_ltb (co_collateralization a.2) (co_collateralization b.2) then true
  else if price_ltb (co_collateralization b.2) (co_collateralization a.2) then false
  else a.1 <? b.1.
(** [by_price] of collateral bids of one asset: greater price first, then lower id. *)
Definition bid_before (a b : Z * collateral_bid_object) : bool :=
  if price_gtb (inv_swan_price a.2) (inv_swan_price b.2) then true
  else if price_gtb (inv_swan_price b.2) (inv_swan_price a.2) then false
  else a.1 <? b.1.

Definition not_after {V} (before : Z * V → Z * V → bool) (a b : Z * V) : Prop := before b a = false.
#[local] Instance not_after_dec {V} (before : Z * V → Z * V → bool) : RelDecision (not_after before) :=
  λ a b, bool_eq_dec (before b a) false.
Definition in_order {V} (before : Z * V → Z * V → bool) (l : list (Z * V)) : list (Z * V) :=
  merge_sort (not_after before) l.

Definition limit_book (s : database) : list (Z * limit_order_object) :=
  in_order limit_before (map_to_list (limit_orders s)).
Definition calls_by_price (s : database) : list (Z * call_order_object) :=
  in_order call_price_before (map_to_list (call_orders s)).
Definition calls_by_collateral (s : database) : list (Z * call_order_object) :=
  in_order call_collateral_before (map_to_list (call_orders s)).

(** The ids in [[lower_bound( lo ), upper_bound( hi ))] of the descending book of
    limit orders and of the ascending books of call orders. *)
Definition limit_range (lo hi : price) (s : database) : list Z :=
  fst <$> filter (λ x : Z * limit_order_object,
    price_gtb (sell_price x.2) lo = false ∧ price_gtb hi (sell_price x.2) = false) (limit_book s).
Definition call_price_range (lo hi : price) (s : database) : list Z :=
  fst <$> filter (λ x : Z * call_order_object,
    price_ltb (co_call_price x.2) lo = false ∧ price_ltb hi (co_call_price x.2) = false) (calls_by_price s).
Definition call_collateral_range (lo hi : price) (s : database) : list Z :=
  fst <$> filter (λ x : Z * call_order_object,
    price_ltb (co_collateralization x.2) lo = false ∧ price_ltb hi (co_collateralization x.2) = false)
    (calls_by_collateral s).
(** [lower_bound( lo )] alone. *)
Definition call_price_lower (lo : price) (s : database) : option (Z * call_order_object) :=
  head (filter (λ x : Z * call_order_object, price_ltb (co_call_price x.2) lo = false) (calls_by_price s)).
Definition call_collateral_lower (lo : price) (s : database) : option (Z * call_order_object) :=
  head (filter (λ x : Z * call_order_object, price_ltb (co_collateralization x.2) lo = false)
          (calls_by_collateral s)).
(** The bids on an asset from [lower_bound( asset, price::max )] on. *)
Definition bid_range (asset_type : Z) (hi : price) (s : database) : list Z :=
  fst <$> in_order bid_before (filter (λ x : Z * collateral_bid_object,
    asset_id (quote (inv_swan_price x.2)) = asset_type ∧ price_gtb (inv_swan_price x.2) hi = false)
    (map_to_list (bids s))).

(** The order before [lower_bound( (price, id) )] in the book of limit orders. *)
Definition limit_predecessor (id : Z) (o : limit_order_object) (s : database)
    : option (Z * limit_order_object) :=
  last (filter (λ x, limit_before x (id, o) = true) (limit_book s)).

End books.

Section market.
Context `{EX : Ext}.

(** A computation on the state that may throw. *)
Definition read {A} (f : database → result A) : M database A := λ s, lift (f s) s.

(** ** Global settlement *)

(** The loop over the debt positions; the accumulator is [collateral_gathered]. *)
Fixpoint settle_calls (settlement_price : price) (before_core_hardfork_342 : bool) (ids : list Z)
    (collateral_gathered : asset) : M database asset :=
  match ids with
  | [] => mret collateral_gathered
  | id :: ids =>
      o ← deref (V:=call_order_object) id;
      pays ← lift (if before_core_hardfork_342 then asset_mul (get_debt o) settlement_price
                   else multiply_and_round_up (get_debt o) settlement_price);
      gt ← lift (asset_gt pays (get_collateral o));
      let pays := if gt : bool then get_collateral o else pays in
      gathered ← lift (asset_add collateral_gathered pays);
      filled ← fill_call_order id pays (get_debt o) settlement_price true;
      assert_that filled;;
      settle_calls settlement_price before_core_hardfork_342 ids gathered
  end.

Definition set_settlement (p : price) (fund : Z) (b : asset_bitasset_data_object)
    : asset_bitasset_data_object :=
  AssetBitassetData (bad_options b) (feeds b) (current_feed b) (current_feed_publication_time b)
    (current_maintenance_collateralization b) (is_prediction_market b) (force_settled_volume b) p fund
    (asset_cer_updated b) (feed_cer_updated b).

Definition globally_settle_asset (mia : Z) (settlement_price : price) : M database unit :=
  a ← get (V:=asset_object) mia;
  bitasset ← get_bitasset_data mia a;
  assert_that (negb (has_settlement bitasset));;
  let backing := short_backing_asset (bad_options bitasset) in
  _ ← get (V:=asset_object) backing;
  mia_dyn ← get (V:=asset_dynamic_data_object) mia;
  let original_mia_supply := current_supply mia_dyn in
  maint_time ← next_maint_time;
  lo ← lift (price_min backing mia);
  hi ← lift (price_max backing mia);
  ids ← gets (call_price_range lo hi);
  collateral_gathered ← settle_calls settlement_price (maint_time <=? HARDFORK_CORE_342_TIME) ids
                          (Asset 0 backing);
  modify mia (λ b, p ← price_div (Asset original_mia_supply mia) collateral_gathered;
                   Ok (set_settlement p (amount collateral_gathered) b));;
  modify mia (λ d, Ok (set_supply original_mia_supply d)).

(** ** Revival *)
Fixpoint cancel_bids (ids : list Z) : M database unit :=
  match ids with
  | [] => mret tt
  | id :: ids => cancel_bid id true;; cancel_bids ids
  end.

Definition _cancel_bids_and_revive_mpa (mia : Z) : M database unit :=
  a ← get (V:=asset_object) mia;
  assert_that (is_market_issued a);;
  bad ← deref (V:=asset_bitasset_data_object) mia;
  assert_that (has_settlement bad);;
  assert_that (negb (is_prediction_market bad));;
  hi ← lift (price_max (short_backing_asset (bad_options bad)) mia);
  ids ← gets (bid_range mia hi);
  cancel_bids ids;;
  modify mia (λ b, Ok (set_settlement default_price 0 b)).

Definition revive_bitasset (mia : Z) : M database unit :=
  a ← get (V:=asset_object) mia;
  assert_that (is_market_issued a);;
  bad ← get_bitasset_data mia a;
  assert_that (has_settlement bad);;
  bdd ← get (V:=asset_dynamic_data_object) mia;
  assert_that (negb (is_prediction_market bad));;
  assert_that (negb (price_is_null (settlement_price (current_feed bad))));;
  (if current_supply bdd >? 0 then
     p ← lift (price_div (Asset 0 (short_backing_asset (bad_options bad))) (Asset (current_supply bdd) mia));
     pseudo_bid ← create (V:=collateral_bid_object) (λ _, CollateralBid (issuer a) p);
     execute_bid pseudo_bid (current_supply bdd) (settlement_fund bad) (current_feed bad)
   else assert_that (settlement_fund bad =? 0));;
  _cancel_bids_and_revive_mpa mia.

(** ** Black swans *)
Definition check_for_blackswan (mia : Z) (enable_black_swan : bool) : M database bool :=
  a ← get (V:=asset_object) mia;
  if negb (is_market_issued a) then mret false
  else
    bitasset ← get_bitasset_data mia a;
    if has_settlement bitasset then mret true
    else
      let settle_price := settlement_price (current_feed bitasset) in
      if price_is_null settle_price then mret false
      else
        let backing := short_backing_asset (bad_options bitasset) in
        call_min ← lift (price_min backing mia);
        maint_time ← next_maint_time;
        call_ptr ← gets (if maint_time <=? HARDFORK_CORE_1270_TIME then call_price_lower call_min
                         else call_collateral_lower call_min);
        match call_ptr with
        | None => mret false
        | Some (_, call) =>
            if negb (debt_type call =? mia) then mret false
            else
              highest ← lift (if maint_time >? HARDFORK_CORE_1270_TIME
                              then max_short_squeeze_price (current_feed bitasset)
                              else if maint_time >? HARDFORK_CORE_338_TIME
                              then max_short_squeeze_price_before_hf_1270 (current_feed bitasset)
                              else Ok settle_price);
              highest_possible_bid ← lift (price_max mia backing);
              lowest_possible_bid ← lift (price_min mia backing);
              assert_that (asset_id (base highest_possible_bid) =? asset_id (base lowest_possible_bid));;
              bids ← gets (limit_range highest_possible_bid lowest_possible_bid);
              highest ← (match bids with
                         | [] => mret highest
                         | id :: _ =>
                             o ← deref (V:=limit_order_object) id;
                             assert_that (asset_id (base highest) =? asset_id (base (sell_price o)));;
                             mret (if price_ltb (sell_price o) highest then highest else sell_price o)
                         end);
              least_collateral ← lift (collateralization call);
              if price_geb (price_inv least_collateral) highest then
                assert_that enable_black_swan;;
                (if (maint_time >? HARDFORK_CORE_338_TIME)
                    && price_leb (price_inv least_collateral) settle_price
                 then globally_settle_asset mia settle_price
                 else globally_settle_asset mia (price_inv least_collateral));;
                mret true
              else mret false
        end.

(** ** Matching *)

(** The amounts of [match( limit, limit )]: what the taker [usd] pays and receives
    and whether it is culled; [None] when the taker would receive nothing. *)
Definition limit_match_amounts (usd core : limit_order_object) (match_price : price) (maint_time : Z)
    : result (option (asset * asset * bool)) :=
  let before_core_hardfork_342 := maint_time <=? HARDFORK_CORE_342_TIME in
  let usd_for_sale := amount_for_sale usd in
  let core_for_sale := amount_for_sale core in
  x ← asset_mul core_for_sale match_price;
  le ← asset_le usd_for_sale x;
  if le : bool then
    usd_receives ← asset_mul usd_for_sale match_price;
    if (amount usd_receives =? 0) && (maint_time >? HARDFORK_CORE_184_TIME) then Ok None
    else if before_core_hardfork_342 then Ok (Some (usd_for_sale, usd_receives, false))
    else
      core_receives ← multiply_and_round_up usd_receives match_price;
      Ok (Some (core_receives, usd_receives, true))
  else
    core_receives ← asset_mul core_for_sale match_price;
    if before_core_hardfork_342 then Ok (Some (core_receives, core_for_sale, false))
    else
      usd_receives ← multiply_and_round_up core_receives match_price;
      Ok (Some (core_receives, usd_receives, false)).

Definition match_limits (usd core : Z) (match_price : price) : M database Z :=
  u ← deref (V:=limit_order_object) usd;
  c ← deref (V:=limit_order_object) core;
  assert_that (receive_asset_id u =? sell_asset_id c);;
  assert_that (sell_asset_id u =? receive_asset_id c);;
  assert_that ((for_sale u >? 0) && (for_sale c >? 0));;
  maint_time ← next_maint_time;
  r ← lift (limit_match_amounts u c match_price maint_time);
  match r with
  | None => mret 1
  | Some (usd_pays, usd_receives, cull_taker) =>
      (if maint_time <=? HARDFORK_CORE_342_TIME
       then assert_that (asset_eqb usd_pays (amount_for_sale u) || asset_eqb usd_receives (amount_for_sale c))
       else mret tt);;
      r1 ← fill_limit_order usd usd_pays usd_receives cull_taker match_price false;
      r2 ← fill_limit_order core usd_receives usd_pays true match_price true;
      let result := Z.lor (Z.b2z r1) (Z.shiftl (Z.b2z r2) 1) in
      assert_that (negb (result =? 0));;
      mret result
  end.

(** The amounts of [match( limit, call )]: what the call pays and receives. *)
Definition call_match_amounts (bid : limit_order_object) (usd_to_buy : asset) (match_price : price)
    (maint_time : Z) : result (option (asset * asset * bool)) :=
  let before_core_hardfork_184 := maint_time <=? HARDFORK_CORE_184_TIME in
  let before_core_hardfork_342 := maint_time <=? HARDFORK_CORE_342_TIME in
  let usd_for_sale := amount_for_sale bid in
  gt ← asset_gt usd_to_buy usd_for_sale;
  if gt : bool then
    order_receives ← asset_mul usd_for_sale match_price;
    if (amount order_receives =? 0) && negb before_core_hardfork_184 then Ok None
    else if before_core_hardfork_342 then Ok (Some (order_receives, usd_for_sale, false))
    else
      call_receives ← multiply_and_round_up order_receives match_price;
      Ok (Some (order_receives, call_receives, true))
  else if before_core_hardfork_342 then
    order_receives ← asset_mul usd_to_buy match_price;
    if (amount order_receives =? 0) && negb before_core_hardfork_184 then Ok None
    else Ok (Some (order_receives, usd_to_buy, false))
  else
    order_receives ← multiply_and_round_up usd_to_buy match_price;
    Ok (Some (order_receives, usd_to_buy, false)).

Definition match_limit_call (bid ask : Z) (match_price feed_price : price) (mcr : Z) (mc : option price)
    : M database Z :=
  b ← deref (V:=limit_order_object) bid;
  a ← deref (V:=call_order_object) ask;
  assert_that (sell_asset_id b =? debt_type a);;
  assert_that (receive_asset_id b =? collateral_type a);;
  assert_that ((for_sale b >? 0) && (debt a >? 0) && (collateral a >? 0));;
  maint_time ← next_maint_time;
  to_cover ← lift (get_max_debt_to_cover a match_price feed_price mcr mc);
  r ← lift (call_match_amounts b (Asset to_cover (debt_type a)) match_price maint_time);
  match r with
  | None => mret 1
  | Some (call_pays, call_receives, cull_taker) =>
      r1 ← fill_limit_order bid call_receives call_pays cull_taker match_price false;
      r2 ← fill_call_order ask call_pays call_receives match_price true;
      mret (Z.lor (Z.b2z r1) (Z.shiftl (Z.b2z r2) 1))
  end.

(** The amounts of [match( call, settle )]: what the call pays and receives and
    whether the settle order is culled. *)
Inductive settle_match :=
| settle_nothing (cancel : bool)
| settle_amounts (call_pays call_receives : asset) (cull_settle_order : bool).

Definition settle_match_amounts (call : call_order_object) (settle : force_settlement_object)
    (match_price : price) (max_settlement : asset) (maint_time : Z) : result settle_match :=
  let before_core_hardfork_342 := maint_time <=? HARDFORK_CORE_342_TIME in
  settle_for_sale ← asset_min (fs_balance settle) max_settlement;
  let call_debt := get_debt call in
  call_receives ← asset_min settle_for_sale call_debt;
  call_pays ← asset_mul call_receives match_price;
  if amount call_pays =? 0 then
    if maint_time >? HARDFORK_CORE_184_TIME then
      if asset_eqb call_receives call_debt
      then Ok (settle_amounts (Asset 1 (asset_id call_pays)) call_receives false)
      else Ok (settle_nothing (asset_eqb call_receives (fs_balance settle)))
    else Ok (settle_amounts call_pays call_receives false)
  else if negb before_core_hardfork_342 then
    if asset_eqb call_receives call_debt then
      call_pays ← multiply_and_round_up call_receives match_price;
      Ok (settle_amounts call_pays call_receives false)
    else
      let cull := asset_eqb call_receives (fs_balance settle) in
      call_receives ← multiply_and_round_up call_pays match_price;
      Ok (settle_amounts call_pays call_receives
            (if asset_eqb call_receives (fs_balance settle) then false else cull))
  else Ok (settle_amounts call_pays call_receives false).

Definition match_call_settle (call settle : Z) (match_price : price) (max_settlement : asset)
    (fill_price : price) : M database asset :=
  c ← deref (V:=call_order_object) call;
  f ← deref (V:=force_settlement_object) settle;
  assert_that (debt_type c =? asset_id (fs_balance f));;
  assert_that ((debt c >? 0) && (collateral c >? 0) && (amount (fs_balance f) >? 0));;
  maint_time ← next_maint_time;
  r ← lift (settle_match_amounts c f match_price max_settlement maint_time);
  match r with
  | settle_nothing cancel =>
      (if cancel : bool then cancel_settle_order settle true else mret tt);;
      mret (Asset 0 (asset_id (fs_balance f)))
  | settle_amounts call_pays call_receives cull_settle_order =>
      (if maint_time <=? HARDFORK_CORE_342_TIME then
         lt ← lift (asset_lt call_pays (get_collateral c));
         lift (graphene_assert lt black_swan_exception)
       else mret tt);;
      _ ← fill_call_order call call_pays call_receives fill_price true;
      _ ← fill_settle_order settle call_receives call_pays fill_price false;
      when cull_settle_order (cancel_settle_order settle true);;
      mret call_receives
  end.

(** ** Margin calls *)

(** The amounts of one margin call: what the limit order receives and pays, and
    whether the call and the limit order count as filled. *)
Definition margin_amounts (limit : limit_order_object) (usd_to_buy : asset) (maint_time : Z)
    : result (asset * asset * bool * bool) :=
  let before_core_hardfork_342 := maint_time <=? HARDFORK_CORE_342_TIME in
  let match_price := sell_price limit in
  let usd_for_sale := amount_for_sale limit in
  gt ← asset_gt usd_to_buy usd_for_sale;
  if gt : bool then
    order_receives ← asset_mul usd_for_sale match_price;
    call_receives ← (if before_core_hardfork_342 then Ok usd_for_sale
                     else multiply_and_round_up order_receives match_price);
    Ok (order_receives, call_receives, false, true)
  else
    order_receives ← (if before_core_hardfork_342 then asset_mul usd_to_buy match_price
                      else multiply_and_round_up usd_to_buy match_price);
    Ok (order_receives, usd_to_buy, true, asset_eqb usd_to_buy usd_for_sale).

(** The range of debt positions, by call price before the core-1270 hard fork and
    by collateralization after it. *)
Definition call_range (mia backing maint_time : Z) (s : database) : result (list Z) :=
  lo ← price_min backing mia;
  hi ← price_max backing mia;
  Ok (if maint_time <=? HARDFORK_CORE_1270_TIME then call_price_range lo hi s
      else call_collateral_range lo hi s).

(** Whether a debt position must not be called: its collateral ratio is above the
    maintenance collateral ratio. *)
Definition call_protected (bitasset : asset_bitasset_data_object) (call : call_order_object)
    (maint_time head_time : Z) : result bool :=
  if maint_time <=? HARDFORK_CORE_1270_TIME
  then Ok ((head_time >? HARDFORK_436_TIME)
           && price_gtb (settlement_price (current_feed bitasset)) (price_inv (co_call_price call)))
  else
    cz ← collateralization call;
    Ok (price_ltb (current_maintenance_collateralization bitasset) cz).

Definition debt_to_buy (bitasset : asset_bitasset_data_object) (call : call_order_object)
    (match_price : price) (maint_time : Z) : result Z :=
  let f := current_feed bitasset in
  if negb (maint_time <=? HARDFORK_CORE_1270_TIME) then
    get_max_debt_to_cover call match_price (settlement_price f) (maintenance_collateral_ratio f)
      (Some (current_maintenance_collateralization bitasset))
  else if negb (maint_time <=? HARDFORK_CORE_834_TIME) then
    get_max_debt_to_cover call match_price (settlement_price f) (maintenance_collateral_ratio f) None
  else Ok (debt call).

(** The loop of [check_call_orders]; [limits] and [calls] are what is left of the
    two ranges. *)
Fixpoint call_loop (fuel : nat) (mia : Z) (enable_black_swan for_new_limit_order : bool)
    (limits calls : list Z) (filled_limit margin_called : bool) : M database bool :=
  match fuel with
  | O => throw out_of_fuel
  | S fuel =>
      swan ← check_for_blackswan mia enable_black_swan;
      match swan, limits, calls with
      | false, limit :: limits', call :: calls' =>
          bitasset ← deref (V:=asset_bitasset_data_object) mia;
          maint_time ← next_maint_time;
          head_time ← head_block_time;
          co ← deref (V:=call_order_object) call;
          protected ← lift (call_protected bitasset co maint_time head_time);
          if protected : bool then mret margin_called
          else
            lo ← deref (V:=limit_order_object) limit;
            let match_price := sell_price lo in
            if (maint_time <=? HARDFORK_CORE_606_TIME)
               && price_gtb match_price (price_inv (co_call_price co)) then mret margin_called
            else
              x ← lift (asset_mul (get_debt co) match_price);
              too_much ← lift (asset_gt x (get_collateral co));
              if too_much : bool then
                assert_that enable_black_swan;;
                globally_settle_asset mia (settlement_price (current_feed bitasset));;
                mret true
              else
                to_buy ← lift (debt_to_buy bitasset co match_price maint_time);
                r ← lift (margin_amounts lo (Asset to_buy (debt_type co)) maint_time);
                let '(order_receives, call_receives, filled_call, limit_done) := r in
                when (filled_call && negb limit_done && filled_limit
                      && (maint_time <=? HARDFORK_CORE_453_TIME) && (head_time <? HARDFORK_615_TIME))
                  (puts (λ s, set_issue_453_affected_assets ({[ mia ]} ∪ issue_453_affected_assets s) s));;
                let filled_limit := filled_limit || limit_done in
                _ ← fill_call_order call order_receives call_receives match_price for_new_limit_order;
                calls ← (if maint_time <=? HARDFORK_CORE_343_TIME
                         then mret (if filled_call : bool then calls' else calls)
                         else read (call_range mia (short_backing_asset (bad_options bitasset)) maint_time));
                really_filled ← fill_limit_order limit call_receives order_receives true match_price
                                  (negb for_new_limit_order);
                let limits := if really_filled || (filled_limit && (maint_time <=? HARDFORK_CORE_453_TIME))
                              then limits' else limits in
                call_loop fuel mia enable_black_swan for_new_limit_order limits calls filled_limit true
      | _, _, _ => mret margin_called
      end
  end.

Definition check_call_orders (fuel : nat) (mia : Z) (enable_black_swan for_new_limit_order : bool)
    : M database bool :=
  maint_time ← next_maint_time;
  (if for_new_limit_order then assert_that (maint_time <=? HARDFORK_CORE_625_TIME) else mret tt);;
  a ← get (V:=asset_object) mia;
  if negb (is_market_issued a) then mret false
  else
    _ ← get_bitasset_data mia a;
    swan ← check_for_blackswan mia enable_black_swan;
    if swan : bool then mret false
    else
      bitasset ← deref (V:=asset_bitasset_data_object) mia;
      if is_prediction_market bitasset then mret false
      else if price_is_null (settlement_price (current_feed bitasset)) then mret false
      else
        let backing := short_backing_asset (bad_options bitasset) in
        max_price ← lift (price_max mia backing);
        min_price ← lift (if maint_time <=? HARDFORK_CORE_1270_TIME
                          then max_short_squeeze_price_before_hf_1270 (current_feed bitasset)
                          else max_short_squeeze_price (current_feed bitasset));
        limits ← gets (limit_range max_price min_price);
        match limits with
        | [] => mret false
        | _ =>
            calls ← read (call_range mia backing maint_time);
            call_loop fuel mia enable_black_swan for_new_limit_order limits calls false false
        end.

(** ** New limit orders *)

(** [while( !finished && limit_itr != limit_end && stop )]: match the new order with
    the orders of the list until it is gone or [go_on] says stop; the result is
    whether it is finished and the orders that are left. *)
Fixpoint match_book (new_order : Z) (go_on : price → bool) (limits : list Z) : M database (bool * list Z) :=
  match limits with
  | [] => mret (false, [])
  | old :: limits' =>
      o ← deref (V:=limit_order_object) old;
      if go_on (sell_price o) then
        r ← match_limits new_order old (sell_price o);
        if r =? 2 then match_book new_order go_on limits' else mret (true, limits')
      else mret (false, limits)
  end.

(** The margin calls a new order is matched with, the least collateralized (or
    lowest call price) first. *)
Fixpoint match_calls (fuel : nat) (new_order mia recv : Z) (call_match_price : price) : M database bool :=
  match fuel with
  | O => throw out_of_fuel
  | S fuel =>
      call_min ← lift (price_min recv mia);
      maint_time ← next_maint_time;
      abd ← deref (V:=asset_bitasset_data_object) mia;
      let f := current_feed abd in
      let before_core_hardfork_1270 := maint_time <=? HARDFORK_CORE_1270_TIME in
      call_itr ← gets (if before_core_hardfork_1270 then call_price_lower call_min
                       else call_collateral_lower call_min);
      match call_itr with
      | None => mret false
      | Some (call, co) =>
          if negb (debt_type co =? mia) then mret false
          else
            protected ← lift (if before_core_hardfork_1270
                              then Ok (price_gtb (co_call_price co) (price_inv (settlement_price f)))
                              else cz ← collateralization co;
                                   Ok (price_gtb cz (current_maintenance_collateralization abd)));
            if protected : bool then mret false
            else
              r ← match_limit_call new_order call call_match_price (settlement_price f)
                    (maintenance_collateral_ratio f)
                    (if before_core_hardfork_1270 then None
                     else Some (current_maintenance_collateralization abd));
              if (r =? 1) || (r =? 3) then mret true
              else match_calls fuel new_order mia recv call_match_price
      end
  end.

(** The match price for margin calls when the new order may fill some. *)
Definition calls_to_check (o : limit_order_object) : M database (option price) :=
  maint_time ← next_maint_time;
  a ← get (V:=asset_object) (sell_asset_id o);
  if is_market_issued a then
    abd ← get_bitasset_data (sell_asset_id o) a;
    if (short_backing_asset (bad_options abd) =? receive_asset_id o)
       && negb (is_prediction_market abd) && negb (has_settlement abd)
       && negb (price_is_null (settlement_price (current_feed abd)))
    then
      p ← lift (if maint_time <=? HARDFORK_CORE_1270_TIME
                then max_short_squeeze_price_before_hf_1270 (current_feed abd)
                else max_short_squeeze_price (current_feed abd));
      let call_match_price := price_inv p in
      mret (if price_leb (price_inv (sell_price o)) call_match_price then Some call_match_price else None)
    else mret None
  else mret None.

Definition apply_order (fuel : nat) (order_id : Z) : M database bool :=
  o ← deref (V:=limit_order_object) order_id;
  front ← gets (limit_predecessor order_id o);
  if match front with
     | Some (_, p) => (sell_asset_id p =? sell_asset_id o) && (receive_asset_id p =? receive_asset_id o)
     | None => false
     end then mret false
  else
    let max_price := price_inv (sell_price o) in
    mx ← lift (price_max (asset_id (base max_price)) (asset_id (quote max_price)));
    limits ← gets (limit_range mx max_price);
    check ← calls_to_check o;
    r ← (match check with
         | None => mret (false, limits)
         | Some call_match_price =>
             x ← match_book order_id (λ p, price_gtb p call_match_price) limits;
             let '(finished, limits) := x in
             if finished : bool then mret (true, limits)
             else
               f ← match_calls fuel order_id (sell_asset_id o) (receive_asset_id o) call_match_price;
               mret (f, limits)
         end);
    let '(finished, limits) := r in
    (if finished : bool then mret tt
     else _ ← match_book order_id (λ _, true) limits; mret tt);;
    updated ← find (V:=limit_order_object) order_id;
    match updated with
    | None => mret true
    | Some _ => maybe_cull_small_order order_id
    end.

Definition apply_order_before_hardfork_625 (fuel : nat) (order_id : Z) (allow_black_swan : bool)
    : M database bool :=
  o ← deref (V:=limit_order_object) order_id;
  _ ← get (V:=asset_object) (sell_asset_id o);
  recv ← lift (lo_amount_to_receive o);
  _ ← get (V:=asset_object) (asset_id recv);
  c1 ← check_call_orders fuel (sell_asset_id o) allow_black_swan true;
  c2 ← check_call_orders fuel (asset_id recv) allow_black_swan true;
  here ← find (V:=limit_order_object) order_id;
  if (c1 || c2) && match here with None => true | Some _ => false end then mret true
  else
    o' ← deref (V:=limit_order_object) order_id;
    let max_price := price_inv (sell_price o') in
    mx ← lift (price_max (asset_id (base max_price)) (asset_id (quote max_price)));
    limits ← gets (limit_range mx max_price);
    _ ← match_book order_id (λ _, true) limits;
    _ ← check_call_orders fuel (sell_asset_id o) allow_black_swan false;
    _ ← check_call_orders fuel (asset_id recv) allow_black_swan false;
    updated ← find (V:=limit_order_object) order_id;
    match updated with
    | None => mret true
    | Some _ =>
        head_time ← head_block_time;
        if head_time <=? HARDFORK_555_TIME then mret false
        else maybe_cull_small_order order_id
    end.

End market.
