(* ===== verification/Trade.v ===== *)
(** * What trading keeps: theorems on chain/db_market.cpp and chain/db_update.cpp

    The book of limit orders has price-time priority; a match never takes more
    than an order has; placing an order, margin calls, global settlement and
    revival conserve all assets.  Conservation is counted with the linear weights
    of [Balance]: a step is sound when it keeps the market well formed and, for
    every asset, the holdings and the debts in their relation to the supply. *)

From S2P Require Import Prelude External Asset Authority Operations Block Vesting State Balance MaxDebt Fill Market.

(** ** Amounts *)
Section amounts.
Context `{EX : Ext}.

Lemma checked_share_range r x : 0 ≤ r → checked_share r = Ok x → 0 ≤ x ≤ GRAPHENE_MAX_SHARE_SUPPLY.
Proof. intros Hr. rewrite checked_share_spec by done. destruct (_ <=? _) eqn:E; intros [= <-]. bool_to_prop. lia. Qed.

Lemma asset_mul_range a p b : asset_mul a p = Ok b → 0 ≤ amount b ≤ GRAPHENE_MAX_SHARE_SUPPLY.
Proof.
  unfold asset_mul. intros E. repeat case_match; monad_inv; cbn;
    (eapply checked_share_range; [|done]); apply u128_div_nonneg.
Qed.
Lemma round_up_range a p b : multiply_and_round_up a p = Ok b → 0 ≤ amount b ≤ GRAPHENE_MAX_SHARE_SUPPLY.
Proof.
  unfold multiply_and_round_up. intros E. repeat case_match; monad_inv; cbn;
    (eapply checked_share_range; [|done]); apply u128_div_nonneg.
Qed.
Lemma share_ok_max x : 0 ≤ x ≤ GRAPHENE_MAX_SHARE_SUPPLY → share_ok x.
Proof. unfold share_ok, GRAPHENE_MAX_SHARE_SUPPLY. unfold_widths. lia. Qed.
Lemma asset_mul_share a p b : asset_mul a p = Ok b → share_ok (amount b).
Proof. eauto using share_ok_max, asset_mul_range. Qed.
Lemma round_up_share a p b : multiply_and_round_up a p = Ok b → share_ok (amount b).
Proof. eauto using share_ok_max, round_up_range. Qed.
Hint Resolve asset_mul_share round_up_share : graphene.

Lemma asset_le_cmp a b r : asset_le a b = Ok r → r = (amount a <=? amount b).
Proof.
  unfold asset_le. intros E. apply result_bind_Ok in E as (x & E1 & E).
  apply asset_lt_Ok in E1 as [_ ->]. injection E as <-. by rewrite Z.leb_antisym.
Qed.

(** The taker and the maker of a match receive sensible amounts. *)
Lemma limit_match_share u c mp t p r cull :
  0 < for_sale u → 0 < for_sale c → for_sale c ≤ int64_max →
  limit_match_amounts u c mp t = Ok (Some (p, r, cull)) → share_ok (amount p) ∧ share_ok (amount r).
Proof.
  unfold limit_match_amounts. intros Hu Hc Hcm E. apply result_bind_Ok in E as (x & Ex & E).
  apply result_bind_Ok in E as (le & Ele & E). apply asset_le_cmp in Ele. symmetry in Ele.
  destruct le; bool_to_prop.
  - apply result_bind_Ok in E as (y & Ey & E). destruct (_ && _); [done|].
    destruct (_ <=? _).
    + simplify_eq. split; [|eauto with graphene]. apply asset_mul_share in Ex. unfold share_ok in *. cbn in *. lia.
    + apply result_bind_Ok in E as (z & Ez & E). simplify_eq. eauto with graphene.
  - apply result_bind_Ok in E as (y & Ey & E). destruct (_ <=? _).
    + simplify_eq. split; [eauto with graphene|]. unfold share_ok. cbn. lia.
    + apply result_bind_Ok in E as (z & Ez & E). simplify_eq. eauto with graphene.
Qed.

Lemma call_match_share b tb mp t p r cull :
  call_match_amounts b tb mp t = Ok (Some (p, r, cull)) → share_ok (amount p).
Proof.
  unfold call_match_amounts. intros E. apply result_bind_Ok in E as (gt & Eg & E).
  destruct gt.
  - apply result_bind_Ok in E as (y & Ey & E). destruct (_ && _); [done|].
    destruct (_ <=? _); [simplify_eq; eauto with graphene|].
    apply result_bind_Ok in E as (z & Ez & E). simplify_eq. eauto with graphene.
  - destruct (_ <=? HARDFORK_CORE_342_TIME); apply result_bind_Ok in E as (y & Ey & E).
    + destruct (_ && _); [done|]. simplify_eq. eauto with graphene.
    + simplify_eq. eauto with graphene.
Qed.

Lemma margin_share lo tb t orc crc fc ld :
  margin_amounts lo tb t = Ok (orc, crc, fc, ld) → share_ok (amount orc).
Proof.
  unfold margin_amounts. intros E. apply result_bind_Ok in E as (gt & Eg & E). destruct gt.
  - apply result_bind_Ok in E as (y & Ey & E). apply result_bind_Ok in E as (z & Ez & E). simplify_eq.
    eauto with graphene.
  - apply result_bind_Ok in E as (y & Ey & E). simplify_eq. destruct (_ <=? _); eauto with graphene.
Qed.

End amounts.

(** ** What trading keeps *)
Definition settled (a : Z) (s : database) : Prop :=
  ∃ b, bitassets s !! a = Some b ∧ has_settlement b = true.

(** For every asset the holdings keep their relation to the supply, the core in
    orders agrees with the statistics, and the debt keeps its relation to the
    supply unless the asset has been globally settled. *)
Record trade_ok (s s' : database) : Prop := {
  to_excess : ∀ a, excess a s' = excess a s;
  to_core : core_orders_excess s' = core_orders_excess s;
  to_debt : ∀ a, debt_excess a s' = debt_excess a s ∨ settled a s';
  to_settled : ∀ a, settled a s → settled a s'
}.
Definition sound_step (s s' : database) : Prop := wf_market s → wf_market s' ∧ trade_ok s s'.

#[export] Instance sound_step_preorder : PreOrder sound_step.
Proof.
  split.
  - intros s W. split; [done|]. split; auto.
  - intros s1 s2 s3 H1 H2 W. destruct (H1 W) as [W2 [A1 A2 A3 A4]]. destruct (H2 W2) as [W3 [B1 B2 B3 B4]].
    split; [done|]. split.
    + intros a. by rewrite B1.
    + by rewrite B2.
    + intros a. destruct (B3 a) as [->|]; [|by right]. destruct (A3 a); auto.
    + auto.
Qed.

(** A step that keeps the balanced totals and the bitassets. *)
Lemma sound_conserved s s' :
  wf_step s s' → bitassets s' = bitassets s → (wf_market s → conserved s s') → sound_step s s'.
Proof.
  intros Hw Hb Hc W. split; [auto|]. destruct (Hc W) as (C1 & C2 & C3). split; auto.
  intros a (b & Eb & Hs). exists b. by rewrite Hb.
Qed.

Lemma sound_same_totals {A} (m : M database A) :
  keeps wf_step m → keeps (λ s s', bitassets s' = bitassets s) m →
  (∀ c e q g, effect (linear_weights c e q g) m (λ _, 0)) → keeps sound_step m.
Proof.
  intros Hw Hb He s r s' E. apply sound_conserved; [by eapply Hw|by eapply Hb|]. intros _.
  apply conserved_total. intros c e q g. apply (He c e q g) in E. lia.
Qed.

#[export] Instance same_bitassets_preorder : PreOrder (λ s s' : database, bitassets s' = bitassets s).
Proof. split; [done|intros ???; congruence]. Qed.

Local Notation keeps_bitassets := (keeps (λ s s' : database, bitassets s' = bitassets s)).

Lemma bitassets_books {A} (m : M database A) : bookkeeping m → keeps_bitassets m.
Proof. intros H s r s' E. by apply (sb_bitassets s s'), (H _ r). Qed.
#[export] Hint Extern 3 (keeps_bitassets _) =>
  apply bitassets_books; solve [eauto with graphene nocore] : graphene.
Ltac solve_bitassets := solve_keeps_with ltac:(done).

Section keep_bitassets.
Context `{EX : Ext}.

Lemma bitassets_cancel_limit_order id v sk : keeps_bitassets (cancel_limit_order id v sk).
Proof. unfold cancel_limit_order. solve_bitassets. Qed.
Hint Resolve bitassets_cancel_limit_order : graphene.
Lemma bitassets_maybe_cull id : keeps_bitassets (maybe_cull_small_order id).
Proof. unfold maybe_cull_small_order. solve_bitassets. Qed.
Hint Resolve bitassets_maybe_cull : graphene.
Lemma bitassets_fill_limit_order id p r cl fp mk : keeps_bitassets (fill_limit_order id p r cl fp mk).
Proof. unfold fill_limit_order. solve_bitassets. Qed.
Lemma bitassets_fill_call_order id p r fp mk : keeps_bitassets (fill_call_order id p r fp mk).
Proof. unfold fill_call_order. solve_bitassets. Qed.
Lemma bitassets_fill_settle_order id p r fp mk : keeps_bitassets (fill_settle_order id p r fp mk).
Proof. unfold fill_settle_order. solve_bitassets. Qed.
Lemma bitassets_cancel_settle id v : keeps_bitassets (cancel_settle_order id v).
Proof. unfold cancel_settle_order. solve_bitassets. Qed.
Lemma bitassets_cancel_bid id v : keeps_bitassets (cancel_bid id v).
Proof. unfold cancel_bid. solve_bitassets. Qed.

End keep_bitassets.
#[export] Hint Resolve bitassets_cancel_limit_order bitassets_maybe_cull bitassets_fill_limit_order
  bitassets_fill_call_order bitassets_fill_settle_order bitassets_cancel_settle bitassets_cancel_bid : graphene.

(** ** Matching is sound *)
Section sound_matching.
Context `{EX : Ext}.

(** A fill of a limit order in a well-formed market. *)
Lemma wf_effect_fill_limit c e q g id pays receives cull fp mk s r s' :
  wf_market s → share_ok (amount receives) →
  fill_limit_order id pays receives cull fp mk s = Ok (r, s') →
  wf_market s' ∧ bitassets s' = bitassets s ∧
  total (linear_weights c e q g) s' = total (linear_weights c e q g) s
    + c (asset_id receives) * amount receives - c (asset_id pays) * amount pays.
Proof.
  intros W Hs E. split_and!.
  - by eapply wf_fill_limit_order in E; apply E.
  - by eapply bitassets_fill_limit_order.
  - eapply effect_fill_limit_order; [|apply (wm_assets _ W)|done|exact E].
    intros o Ho. by eapply (wm_limits _ W).
Qed.
Lemma wf_effect_fill_call c e q g id pays receives fp mk s r s' :
  wf_market s → fill_call_order id pays receives fp mk s = Ok (r, s') →
  wf_market s' ∧ bitassets s' = bitassets s ∧
  total (linear_weights c e q g) s' = total (linear_weights c e q g) s
    - c (asset_id pays) * amount pays - (q (asset_id receives) + e (asset_id receives)) * amount receives.
Proof.
  intros W E. split_and!.
  - by eapply wf_fill_call_order in E; apply E.
  - by eapply bitassets_fill_call_order.
  - apply (effect_fill_call_order c e q g) in E. lia.
Qed.

(** A step that moves funds between holders only. *)
Definition balanced_step (s s' : database) : Prop :=
  wf_market s → wf_market s' ∧ bitassets s' = bitassets s ∧ conserved s s'.

Lemma balanced_intro s s' :
  (∀ c e q g, wf_market s → (∀ a, c a + e a + q a = 0) → wf_market s' ∧ bitassets s' = bitassets s ∧
     total (linear_weights c e q g) s' = total (linear_weights c e q g) s) → balanced_step s s'.
Proof.
  intros H W. destruct (H (λ _, 0) (λ _, 0) (λ _, 0) 0 W) as (W' & Hb & _); [done|].
  split_and!; [done..|]. apply conserved_balanced; intros; by apply H.
Qed.
#[local] Instance conserved_preorder : PreOrder conserved.
Proof. split; [intros s; by split|]. intros s1 s2 s3 (A1 & A2 & A3) (B1 & B2 & B3).
  split_and!; [intros a; by rewrite B1|intros a; by rewrite B2|by rewrite B3]. Qed.
#[export] Instance balanced_preorder : PreOrder balanced_step.
Proof.
  split; [done|]. intros s1 s2 s3 H1 H2 W. destruct (H1 W) as (W2 & B1 & C1). destruct (H2 W2) as (W3 & B2 & C2).
  split_and!; [done|congruence|by etransitivity].
Qed.
Lemma balanced_sound s s' : balanced_step s s' → sound_step s s'.
Proof.
  intros H W. destruct (H W) as (W' & Hb & C1 & C2 & C3). split; [done|]. split; auto.
  intros a (b & Eb & Hs). exists b. by rewrite Hb.
Qed.

Lemma balanced_match_limits usd core mp : keeps balanced_step (match_limits usd core mp).
Proof.
  intros s r s' E. apply balanced_intro. intros c e q g W Hb. unfold match_limits in E.
  bind E as u Hu. bind E as v Hv. do 3 bind_step E. bind_step E. bind E as x Hx'.
  destruct x as [[[p rc] cull]|]; [|by ret_inv E].
  bool_to_prop. apply limit_match_share in Hx' as [Hp Hr];
    [|lia|lia|apply (wm_limits _ W) in Hv as (_ & _ & ?); done].
  bind E as [] Has. match type of Has with _ = Ok (_, ?s1) => assert (s1 = s) as -> end.
  { destruct (_ <=? _); [by apply lift_Ok in Has as [_ ->]|by ret_inv Has]. }
  bind E as r1 F1. bind E as r2 F2. bind_step E. ret_inv E.
  eapply wf_effect_fill_limit in F1 as (W1 & B1 & T1); [|done..].
  eapply wf_effect_fill_limit in F2 as (W2 & B2 & T2); [|done..].
  split_and!; [done|congruence|]. rewrite T2, T1. lia.
Qed.

Lemma balanced_match_limit_call bid ask mp fp mcr mc : keeps balanced_step (match_limit_call bid ask mp fp mcr mc).
Proof.
  intros s r s' E. apply balanced_intro. intros c e q g W Hb. unfold match_limit_call in E.
  bind E as b Hb'. bind E as a Ha. do 4 bind_step E. bind E as tc Htc. bind E as x Hx'.
  destruct x as [[[p rc] cull]|]; [|by ret_inv E]. apply call_match_share in Hx'.
  bind E as r1 F1. bind E as r2 F2. ret_inv E.
  eapply wf_effect_fill_limit in F1 as (W1 & B1 & T1); [|done..].
  eapply wf_effect_fill_call in F2 as (W2 & B2 & T2); [|done..].
  split_and!; [done|congruence|]. rewrite T2, T1. pose proof (Hb (asset_id rc)). nia.
Qed.

Lemma sound_match_limits usd core mp : keeps sound_step (match_limits usd core mp).
Proof. intros s r s' E. by eapply balanced_sound, balanced_match_limits. Qed.
Lemma sound_match_limit_call bid ask mp fp mcr mc : keeps sound_step (match_limit_call bid ask mp fp mcr mc).
Proof. intros s r s' E. by eapply balanced_sound, balanced_match_limit_call. Qed.

End sound_matching.
#[export] Hint Resolve sound_match_limits sound_match_limit_call : graphene.

(** ** Global settlement *)

(** The debt positions of a later state come from those of an earlier one and
    keep their borrower and their pair. *)
Definition calls_from (s s' : database) : Prop :=
  ∀ i o', call_orders s' !! i = Some o' → ∃ o, call_orders s !! i = Some o ∧
    borrower o' = borrower o ∧ collateral_type o' = collateral_type o ∧ debt_type o' = debt_type o.
#[export] Instance calls_from_preorder : PreOrder calls_from.
Proof.
  split; [intros s i o' E; by eauto|]. intros s1 s2 s3 H1 H2 i o E.
  destruct (H2 i o E) as (o2 & E2 & ? & ? & ?). destruct (H1 i o2 E2) as (o1 & E1 & ? & ? & ?).
  exists o1. split_and!; congruence.
Qed.

Section settlement.
Context `{EX : Ext}.

Lemma fill_call_order_calls id pays receives fp mk s r s' :
  fill_call_order id pays receives fp mk s = Ok (r, s') →
  ∃ o o', call_orders s !! id = Some o ∧
    collateral_type o = asset_id pays ∧ debt_type o = asset_id receives ∧
    borrower o' = borrower o ∧ collateral_type o' = collateral_type o ∧ debt_type o' = debt_type o ∧
    debt o' = debt o - amount receives ∧ r = (debt o =? amount receives) ∧
    (r = false → collateral o' = collateral o - amount pays) ∧
    call_orders s' = if r then delete id (call_orders s) else <[id := o']> (call_orders s).
Proof.
  intros E. unfold fill_call_order in E. bind E as o Ho. do 6 bind_step E.
  bind E as mcr Hmcr. same_state Hmcr. bind E as red Hred. destruct red as [o' f].
  apply reduce_call_order_spec in Hred as (Hb & Hct & Hdt & Hdebt & Hcoll & _ & Hz & Hn).
  bind E as [] H1. bind_step E. bind E as [] H2. bind E as [] H3. bind E as [] H4. bind E as [] H5.
  apply (total_modify (linear_weights (λ _, 0) (λ _, 0) (λ _, 0) 0)) in H1 as (v & w & Hv & Ef & -> & _).
  injection Ef as <-.
  assert (bookkeeping (modify (V:=asset_dynamic_data_object) (asset_id receives) (sub_supply (amount receives))))
    as B2 by solve_books. apply B2 in H2. clear B2.
  match type of H3 with _ ?s1 = Ok (_, ?s2) => assert (same_books s1 s2) as B3 end.
  { destruct f; [by eapply books_adjust_balance|by ret_inv H3]. }
  match type of H4 with ?m ?s1 = Ok (_, ?s2) => assert (bookkeeping m) as B4 by solve_books end.
  apply B4 in H4. clear B4. apply (when_push (λ _, 0) (λ _, 0) (λ _, 0) 0 true) in H5 as [_ B5].
  bool_to_prop. exists o, o'. split_and!; try done.
  - destruct f as [f|].
    + destruct (Hz ltac:(eauto)) as [Hd _]. bind E as [] Hrm. ret_inv E. symmetry. apply Z.eqb_eq. lia.
    + ret_inv E. symmetry. apply Z.eqb_neq. specialize (Hn eq_refl). lia.
  - intros ->. destruct f as [f|]; [bind E as [] Hrm; by ret_inv E|]. cbn in Hcoll. lia.
  - destruct f as [f|].
    + bind E as [] Hrm. ret_inv E. 
      apply (total_remove (linear_weights (λ _, 0) (λ _, 0) (λ _, 0) 0)) in Hrm as (? & _ & -> & _).
      cbn. rewrite (sb_call _ _ B5), (sb_call _ _ H4), (sb_call _ _ B3), (sb_call _ _ H2). cbn.
      by rewrite delete_insert_eq.
    + ret_inv E. by rewrite (sb_call _ _ B5), (sb_call _ _ H4), (sb_call _ _ B3), (sb_call _ _ H2).
Qed.

Lemma calls_fill_call_order id pays receives fp mk : keeps calls_from (fill_call_order id pays receives fp mk).
Proof.
  intros s r s' E i oi Hi. apply fill_call_order_calls in E as (o & o' & Ho & _ & _ & Hb & Hc & Hd & _ & _ & _ & Es).
  rewrite Es in Hi. destruct r.
  - apply lookup_delete_Some in Hi as [_ Hi]. eauto.
  - apply lookup_insert_Some in Hi as [[<- <-]|[_ Hi]]; eauto 10.
Qed.

(** The loop pays [gathered] collateral into the accumulator and burns the debt. *)
Lemma settle_calls_spec sp hf mia backing ids acc s r s' :
  (∀ i, i ∈ ids → ∀ o, call_orders s !! i = Some o → debt_type o = mia) →
  asset_id acc = backing →
  settle_calls sp hf ids acc s = Ok (r, s') →
  asset_id r = backing ∧ wf_step s s' ∧ bitassets s' = bitassets s ∧ calls_from s s' ∧
  (∀ i, i ∈ ids → call_orders s' !! i = None) ∧
  ∃ burned, ∀ c e q g,
    total (linear_weights c e q g) s' = total (linear_weights c e q g) s
      - c backing * (amount r - amount acc) - (q mia + e mia) * burned.
Proof.
  revert acc s. induction ids as [|id ids IH]; intros acc s Hd Hid E; cbn in E.
  { ret_inv E. split_and!; try done; [by intros i ?%not_elem_of_nil|]. exists 0. intros. lia. }
  bind E as o Ho. bind E as pays Hp. bind E as gt Hg. bind E as acc' Hacc.
  apply asset_add_Ok in Hacc as [Hids ->].
  set (pd := if gt then get_collateral o else pays) in *.
  bind E as filled F. bind_step E. subst filled.
  pose proof (wf_fill_call_order _ _ _ _ _ _ _ _ F) as W1.
  pose proof (bitassets_fill_call_order _ _ _ _ _ _ _ _ F) as B1.
  pose proof (calls_fill_call_order _ _ _ _ _ _ _ _ F) as C1.
  pose proof (λ c e q g, effect_fill_call_order c e q g _ _ _ _ _ _ _ _ F) as T1.
  apply fill_call_order_calls in F as (o0 & o' & Ho0 & _ & _ & _ & _ & _ & _ & _ & _ & Es).
  apply IH in E as (Hr & W2 & B2 & C2 & N2 & burned & T2).
  - split_and!; [done|by etransitivity|by rewrite B2|by etransitivity| |].
    + intros i [->|Hi]%elem_of_cons; [|by apply N2].
      destruct (call_orders s' !! id) as [x|] eqn:Ex; [|done].
      apply C2 in Ex as (y & Ey & _). rewrite Es, lookup_delete_eq in Ey. done.
    + exists (debt o + burned). intros c e q g. rewrite T2, T1. cbn [amount asset_id get_debt].
      rewrite (Hd id ltac:(apply list_elem_of_here) o Ho). rewrite <- Hids, Hid. lia.
  - intros i Hi oi Ei. apply C1 in Ei as (oj & Ej & _ & _ & ->). eapply Hd; [by apply list_elem_of_further|done].
  - cbn. done.
Qed.

(** The range between the least and the greatest price of a pair. *)
Lemma call_price_range_pair backing mia lo hi s i o :
  price_min backing mia = Ok lo → price_max backing mia = Ok hi →
  i ∈ call_price_range lo hi s → call_orders s !! i = Some o →
  collateral_type o = backing ∧ debt_type o = mia.
Proof.
  unfold price_min, price_max, price_div. intros E1 E2 Hi Ho. monad_inv.
  unfold call_price_range in Hi. apply list_elem_of_fmap in Hi as ([j oj] & -> & Hj).
  apply list_elem_of_filter in Hj as [[H1 H2] Hj]. unfold calls_by_price, in_order in Hj.
  rewrite merge_sort_Permutation in Hj. apply elem_of_map_to_list in Hj. cbn in *.
  assert (oj = o) as -> by congruence. unfold price_ltb in H1, H2. unfold collateral_type, debt_type.
  cbn in *. repeat case_match; try discriminate H1; try discriminate H2; bool_to_prop; lia.
Qed.

Lemma supply_total a d s :
  dyns s !! a = Some d →
  total (linear_weights (λ _, 0) (λ x, ind (x =? a) 1) (λ _, 0) 0) s = current_supply d.
Proof.
  intros Hd. unfold total. cbn. unfold ind.
  rewrite (sum_map_null _ (stats s)), (sum_map_null _ (balances s)), (sum_map_null _ (bitassets s)),
    (sum_map_null _ (limit_orders s)), (sum_map_null _ (call_orders s)), (sum_map_null _ (settle_orders s)),
    (sum_map_null _ (bids s)), (sum_map_null _ (vestings s)), (sum_map_null _ (htlcs s)),
    (sum_map_null _ (genesis_balances s)), (sum_map_null _ (fba_accumulators (governance s))) by (intros; repeat case_match; lia).
  rewrite <- (insert_delete_id (dyns s) a d Hd), sum_map_insert_new by apply lookup_delete_eq.
  rewrite Z.eqb_refl, (sum_map_null _ (delete a (dyns s))); [lia|].
  intros k v [Hk _]%lookup_delete_Some. rewrite (proj2 (Z.eqb_neq k a)) by done. lia.
Qed.

End settlement.

Section settlement_spec.
Context `{EX : Ext}.

(** The two updates at the end of a global settlement. *)
Lemma close_settlement mia supply r b s s' :
  wf_market s → bitassets s !! mia = Some b → has_settlement b = false →
  asset_id r = short_backing_asset (bad_options b) →
  (modify mia (λ b, p ← price_div (Asset supply mia) r; Ok (set_settlement p (amount r) b));;
   modify mia (λ d, Ok (set_supply supply d))) s = Ok (tt, s') →
  ∃ d, let b' := set_settlement (Price (Asset supply mia) r) (amount r) b in
    asset_id r ≠ mia ∧ dyns s !! mia = Some d ∧ has_settlement b' = true ∧ wf_market s' ∧
    s' = set_dyns (<[mia := set_supply supply d]> (dyns s)) (set_bitassets (<[mia := b']> (bitassets s)) s) ∧
    ∀ c e q g, total (linear_weights c e q g) s' = total (linear_weights c e q g) s
      + c (asset_id r) * amount r + e mia * (supply - current_supply d).
Proof.
  intros W Hb Hn Hr E. apply M_bind_Ok in E as ([] & s1 & H1 & E).
  assert (settlement_fund b = 0) as F0.
  { pose proof (wm_funds _ W mia b Hb) as Hf. unfold wf_bitasset in Hf. by rewrite Hn in Hf. }
  assert (∀ c e q g, ∃ b', price_div (Asset supply mia) r = Ok b' ∧
    s1 = set_bitassets (<[mia := set_settlement b' (amount r) b]> (bitassets s)) s ∧
    total (linear_weights c e q g) s1 = total (linear_weights c e q g) s + c (asset_id r) * amount r) as HT.
  { intros c e q g. apply (total_modify (linear_weights c e q g)) in H1 as (b1 & b' & Hb1 & Ef & Es & T).
    cbn in Hb1. assert (b1 = b) as -> by congruence. apply result_bind_Ok in Ef as (p & Ep & Ef).
    injection Ef as <-. exists p. split_and!; [done|by rewrite Es|]. rewrite T. cbn. rewrite F0, Hr. lia. }
  destruct (HT (λ _, 0) (λ _, 0) (λ _, 0) 0) as (p & Ep & Es1 & _).
  unfold price_div in Ep. apply result_bind_Ok in Ep as (? & Hne & Ep). apply fc_assert_Ok in Hne.
  injection Ep as <-. bool_to_prop. cbn in Hne.
  assert (∃ d, dyns s !! mia = Some d ∧ s' = set_dyns (<[mia := set_supply supply d]> (dyns s)) s1) as (d & Hd & Es').
  { apply (total_modify (linear_weights (λ _, 0) (λ _, 0) (λ _, 0) 0)) in E as (d & d' & Hd & Ef & Es & _).
    injection Ef as <-. exists d. rewrite Es1 in Hd. split; [exact Hd|]. rewrite Es, Es1. done. }
  assert (has_settlement (set_settlement (Price (Asset supply mia) r) (amount r) b) = true) as Hst.
  { unfold has_settlement, price_is_null. cbn. apply negb_true_iff, andb_false_iff.
    destruct (Z.eq_dec mia 0); [right|left]; apply Z.eqb_neq; congruence. }
  exists d. split_and!; [congruence|done|done| |by rewrite Es', Es1|].
  - rewrite Es'. apply (wf_same s1); [done..|]. rewrite Es1. apply (wf_insert_bitasset s mia b); try done.
    unfold wf_bitasset. by rewrite Hst.
  - intros c e q g. destruct (HT c e q g) as (_ & _ & _ & T1).
    apply (total_modify (linear_weights c e q g)) in E as (d1 & d' & Hd1 & Ef & _ & ->).
    injection Ef as <-. rewrite Es1 in Hd1. cbn in Hd1. assert (d1 = d) as -> by congruence.
    rewrite T1. cbn. lia.
Qed.

Lemma globally_settle_spec mia sp s s' :
  wf_market s → globally_settle_asset mia sp s = Ok (tt, s') →
  ∃ b d gathered burned,
    let backing := short_backing_asset (bad_options b) in
    let b' := set_settlement (Price (Asset (current_supply d) mia) (Asset gathered backing)) gathered b in
    bitassets s !! mia = Some b ∧ has_settlement b = false ∧ dyns s !! mia = Some d ∧ backing ≠ mia ∧
    bitassets s' = <[mia := b']> (bitassets s) ∧ current_supply <$> (dyns s' !! mia) = Some (current_supply d) ∧
    has_settlement b' = true ∧ wf_market s' ∧ calls_from s s' ∧
    (∀ lo hi i, price_min backing mia = Ok lo → price_max backing mia = Ok hi →
       i ∈ call_price_range lo hi s → call_orders s' !! i = None) ∧
    ∀ c e q g, total (linear_weights c e q g) s' = total (linear_weights c e q g) s - q mia * burned.
Proof.
  intros W E. unfold globally_settle_asset, get_bitasset_data in E. bind E as a Ha. bind E as b Hb.
  bind_step Hb. apply get_Ok in Hb as [-> Hb]. do 2 bind_step E. bind E as d Hd. bind_step E.
  bind E as lo Hlo. bind E as hi Hhi. bind_step E. bind E as r Hs.
  apply settle_calls_spec with (mia := mia) (backing := short_backing_asset (bad_options b)) in Hs
    as (Hr & W1 & B1 & C1 & N1 & burned & T1); [|intros i Hi o Ho; by eapply call_price_range_pair|done].
  apply negb_true_iff in Hx0. apply close_settlement with (b := b) in E
    as (d0 & Hne & Hd0 & Hst & W' & Es' & T2); [|by apply W1|by rewrite B1|done|done].
  assert (current_supply d0 = current_supply d - burned) as Hsup.
  { rewrite <- (supply_total mia d0 _ Hd0), <- (supply_total mia d s Hd), T1. unfold ind. rewrite Z.eqb_refl. lia. }
  exists b, d, (amount r), burned. destruct r as [g bk]. cbn in Hr, Hne. subst bk. cbn zeta.
  split_and!; try done.
  - by rewrite Es', <- B1.
  - rewrite Es'. cbn. by rewrite lookup_insert_eq.
  - etransitivity; [exact C1|]. rewrite Es'. intros i o Ei. eauto.
  - intros lo' hi' i El Eh. rewrite Hlo in El. rewrite Hhi in Eh. injection El as <-. injection Eh as <-.
    intros Hi. rewrite Es'. by apply N1.
  - intros c e q g'. rewrite T2, T1, Hsup. cbn. lia.
Qed.

Lemma sound_globally_settle mia sp : keeps sound_step (globally_settle_asset mia sp).
Proof.
  intros s [] s' E W. apply globally_settle_spec in E
    as (b & d & gt & burned & Hb & Hn & _ & _ & Bs & _ & Hst & W' & _ & _ & T); [|done].
  assert (settled mia s') as Hm by (eexists; split; [rewrite Bs; apply lookup_insert_eq|done]).
  split; [done|]. split.
  - intros a. unfold excess. rewrite T. lia.
  - unfold core_orders_excess. rewrite T. lia.
  - intros a. destruct (decide (a = mia)) as [->|Hne]; [by right|]. left. unfold debt_excess. rewrite T.
    unfold ind. rewrite (proj2 (Z.eqb_neq mia a)) by congruence. lia.
  - intros a (b0 & Hb0 & Hs0). destruct (decide (a = mia)) as [->|Hne]; [done|].
    exists b0. by rewrite Bs, lookup_insert_ne.
Qed.

End settlement_spec.
#[export] Hint Resolve sound_globally_settle : graphene.

(** ** The loops are sound *)
Section sound_loops.
Context `{EX : Ext}.

Lemma sound_cull id : keeps sound_step (maybe_cull_small_order id).
Proof.
  apply sound_same_totals; [eauto with graphene..|]. intros c e q g. apply effect_maybe_cull.
Qed.
Lemma sound_cancel_bid id v : keeps sound_step (cancel_bid id v).
Proof. apply sound_same_totals; [eauto with graphene..|]. intros c e q g. apply effect_cancel_bid. Qed.
Lemma sound_cancel_settle id v : keeps sound_step (cancel_settle_order id v).
Proof. apply sound_same_totals; [eauto with graphene..|]. intros c e q g. apply effect_cancel_settle. Qed.
Hint Resolve sound_cull sound_cancel_bid sound_cancel_settle : graphene.

Lemma sound_blackswan mia en : keeps sound_step (check_for_blackswan mia en).
Proof. unfold check_for_blackswan. solve_keeps_with ltac:(idtac). Qed.
Hint Resolve sound_blackswan : graphene.

(** A debt position and a limit order fill each other. *)
Lemma sound_margin_call call limit orc crc mp mk mk' cull s b s1 r s2 :
  share_ok (amount orc) →
  fill_call_order call orc crc mp mk s = Ok (b, s1) →
  fill_limit_order limit crc orc cull mp mk' s1 = Ok (r, s2) → sound_step s s2.
Proof.
  intros Hs F1 F2. apply balanced_sound, balanced_intro. intros c e q g W Hb.
  eapply wf_effect_fill_call in F1 as (W1 & B1 & T1); [|done].
  eapply wf_effect_fill_limit in F2 as (W2 & B2 & T2); [|done..].
  split_and!; [done|congruence|]. rewrite T2, T1. pose proof (Hb (asset_id crc)). nia.
Qed.

Lemma sound_affected s x : sound_step s (set_issue_453_affected_assets x s).
Proof.
  intros [W1 W2 W3]. pose proof (λ μ, total_set_issue μ s x) as T. split; [by split|].
  split; [intros a; apply T|apply T|intros a; left; apply T|done].
Qed.

Lemma sound_call_loop fuel mia en fo limits calls fl mc :
  keeps sound_step (call_loop fuel mia en fo limits calls fl mc).
Proof.
  revert limits calls fl mc. induction fuel as [|fuel IH]; intros limits calls fl mc s r s' E; [done|].
  cbn [call_loop] in E. apply M_bind_Ok in E as (swan & s1 & Hsw & E). apply sound_blackswan in Hsw.
  etransitivity; [exact Hsw|]. clear Hsw s.
  assert (∀ b, (mret b : M database bool) s1 = Ok (r, s') → sound_step s1 s') as Hret.
  { intros b E0. ret_inv E0. reflexivity. }
  destruct swan; [by apply (Hret mc)|]. destruct limits as [|limit limits]; [by apply (Hret mc)|].
  destruct calls as [|call calls]; [by apply (Hret mc)|].
  bind E as b Hb. do 2 bind_step E. bind E as co Hco. bind E as pr Hpr.
  destruct pr; [by apply (Hret mc)|]. bind E as lo Hlo. cbn zeta in E.
  destruct (_ && price_gtb _ _); [by apply (Hret mc)|]. bind E as x Hx. bind E as tm Htm.
  destruct tm.
  { bind_step E. bind E as [] Hgs. apply sound_globally_settle in Hgs. ret_inv E. done. }
  bind E as tb Htb. bind E as am Ham. destruct am as [[[orc crc] fc] ld]. apply margin_share in Ham.
  bind E as [] Hw.
  match type of Hw with _ = Ok (_, ?s2) => assert (sound_step s1 s2) as Hs2 end.
  { unfold when in Hw. destruct (_ && _); [|by ret_inv Hw]. unfold puts in Hw. simplify_eq. apply sound_affected. }
  etransitivity; [exact Hs2|]. clear Hret Hs2 Hw. cbn zeta in E.
  bind E as fr F1. bind E as cs Hcs.
  match type of Hcs with _ ?s2 = Ok (_, ?s3) => assert (s3 = s2) as -> end.
  { destruct (_ <=? _); [by ret_inv Hcs|]. unfold read in Hcs. by apply lift_Ok in Hcs as [_ ->]. }
  bind E as rf F2. etransitivity; [by eapply sound_margin_call|]. by eapply IH.
Qed.
Hint Resolve sound_call_loop : graphene.

Lemma keeps_read R `{!PreOrder R} {A} (f : database → result A) : keeps R (read f).
Proof. intros s r s' E. apply lift_Ok in E as [_ ->]. reflexivity. Qed.
Hint Extern 1 (keeps _ (read _)) => apply keeps_read; apply _ : graphene.

Lemma sound_check_call_orders fuel mia en fo : keeps sound_step (check_call_orders fuel mia en fo).
Proof. unfold check_call_orders. solve_keeps_with ltac:(idtac). Qed.
Hint Resolve sound_check_call_orders : graphene.

Lemma sound_match_book id go limits : keeps sound_step (match_book id go limits).
Proof. induction limits as [|old limits IH]; cbn; solve_keeps_with ltac:(idtac). Qed.
Hint Resolve sound_match_book : graphene.

Lemma sound_match_calls fuel id mia recv p : keeps sound_step (match_calls fuel id mia recv p).
Proof. induction fuel as [|fuel IH]; cbn [match_calls]; solve_keeps_with ltac:(idtac). Qed.
Hint Resolve sound_match_calls : graphene.

Lemma sound_calls_to_check o : keeps sound_step (calls_to_check o).
Proof. unfold calls_to_check. solve_keeps_with ltac:(idtac). Qed.
Hint Resolve sound_calls_to_check : graphene.

Lemma sound_apply_order fuel id : keeps sound_step (apply_order fuel id).
Proof. unfold apply_order. solve_keeps_with ltac:(idtac). Qed.
Lemma sound_apply_order_before fuel id en : keeps sound_step (apply_order_before_hardfork_625 fuel id en).
Proof. unfold apply_order_before_hardfork_625. solve_keeps_with ltac:(idtac). Qed.

Lemma sound_cancel_bids ids : keeps sound_step (cancel_bids ids).
Proof. induction ids as [|i ids IH]; cbn; solve_keeps_with ltac:(idtac). Qed.

End sound_loops.
#[export] Hint Resolve sound_cull sound_cancel_bid sound_cancel_settle sound_blackswan sound_check_call_orders
  sound_apply_order sound_apply_order_before sound_cancel_bids : graphene.

Section keep_settle.
Context `{EX : Ext}.
#[local] Instance same_settle_preorder : PreOrder (λ s s' : database, settle_orders s' = settle_orders s).
Proof. split; [done|intros ???; congruence]. Qed.
Lemma settle_books {A} (m : M database A) :
  bookkeeping m → keeps (λ s s' : database, settle_orders s' = settle_orders s) m.
Proof. intros H s r s' E. by apply (sb_settle s s'), (H _ r). Qed.
Lemma keeps_settle_fill_call id p r fp mk :
  keeps (λ s s' : database, settle_orders s' = settle_orders s) (fill_call_order id p r fp mk).
Proof.
  unfold fill_call_order. pose proof (λ acct d, settle_books _ (books_adjust_balance acct d)).
  solve_keeps_with ltac:(done).
Qed.
End keep_settle.

(** ** Forced settlement against debt positions *)
Section settle_match_spec.
Context `{EX : Ext}.

Lemma asset_mul_oriented a p b :
  asset_mul a p = Ok b → wf_price p → share_ok (amount a) →
  ∃ x y, oriented p (asset_id a) (asset_id b) x y ∧ amount b = amount a * y / x.
Proof.
  intros E Wp Ha.
  assert (∃ d x y, oriented p (asset_id a) d x y) as (d & x & y & Ho).
  { unfold asset_mul in E. unfold oriented. destruct (_ =? _) eqn:E1; [bool_to_prop; naive_solver|].
    destruct (_ =? _) eqn:E2 in E; [bool_to_prop; naive_solver|done]. }
  rewrite (asset_mul_spec p a d x y) in E by done. destruct (_ <=? _); [|done]. injection E as <-. eauto.
Qed.

(** Buying back what was bought costs at most as much and buys the same. *)
Lemma mul_round_stable a p b r :
  wf_price p → share_ok (amount a) → asset_mul a p = Ok b → multiply_and_round_up b p = Ok r →
  asset_id r = asset_id a ∧ 0 ≤ amount r ≤ amount a ∧ asset_mul r p = Ok b.
Proof.
  intros Wp Ha E1 E2. pose proof (asset_mul_share _ _ _ E1) as Hb.
  destruct (asset_mul_oriented _ _ _ E1 Wp Ha) as (x & y & Ho & Hamt).
  pose proof (oriented_pos _ _ _ _ _ (proj1 Wp) Ho) as [Hx Hy].
  rewrite (multiply_and_round_up_spec p b (asset_id a) y x) in E2; [|done|done|by apply oriented_swap].
  destruct (_ <=? _); [|done]. injection E2 as <-. cbn.
  destruct (floor_ceil_stable (amount a) x y) as [Hr Hst]; [lia|lia|unfold share_ok in Ha; lia|].
  rewrite <- Hamt in Hr, Hst. split_and!; [done|lia|lia|].
  rewrite (asset_mul_spec p _ (asset_id b) x y); [|done| |done].
  - cbn. rewrite Hst. apply asset_mul_range in E1. rewrite (proj2 (Z.leb_le _ _)) by lia. by destruct b.
  - unfold share_ok in *. cbn. lia.
Qed.

Lemma asset_min_Ok a b r :
  asset_min a b = Ok r → asset_id r = asset_id a ∧ amount r = Z.min (amount a) (amount b) ∧ asset_id a = asset_id b.
Proof.
  unfold asset_min. intros E. apply result_bind_Ok in E as (x & Ex & E). apply asset_lt_Ok in Ex as [Hi ->].
  destruct (_ <? _) eqn:El; injection E as <-; bool_to_prop; split_and!; try done; lia.
Qed.

Lemma asset_mul_default a b : asset_mul a default_price = Ok b → False.
Proof. unfold asset_mul. repeat case_match; cbn; intros E; by monad_inv. Qed.

(** After the core-342 hard fork a settlement price is well-formed, or the price a
    variable has before it is computed. *)
Definition usable_price (t : Z) (p : price) : Prop :=
  HARDFORK_CORE_342_TIME < t → p = default_price ∨ wf_price p.

(** The amounts of a settlement: no more than the settle order has, than the
    allowance and than the debt. *)
Lemma settle_match_bounds call f mp mx t p r cull :
  usable_price t mp → share_ok (amount (fs_balance f)) → 0 ≤ amount mx → 0 < debt call →
  settle_match_amounts call f mp mx t = Ok (settle_amounts p r cull) →
  share_ok (amount p) ∧ asset_id r = asset_id (fs_balance f) ∧
  0 ≤ amount r ≤ Z.min (amount (fs_balance f)) (Z.min (amount mx) (debt call)).
Proof.
  unfold settle_match_amounts. intros Wp Hf Hm Hd E.
  apply result_bind_Ok in E as (sf & Es & E). apply asset_min_Ok in Es as (I1 & A1 & I2).
  apply result_bind_Ok in E as (cr & Ec & E). apply asset_min_Ok in Ec as (I3 & A3 & I4). cbn in A3.
  apply result_bind_Ok in E as (cp & Ep & E).
  assert (share_ok (amount cr) ∧ 0 ≤ amount cr ≤ Z.min (amount (fs_balance f)) (Z.min (amount mx) (debt call)))
    as [Hc Hcr] by (unfold share_ok in *; lia).
  assert (asset_id cr = asset_id (fs_balance f)) as Hid by congruence.
  pose proof (asset_mul_share _ _ _ Ep) as Hp.
  destruct (amount cp =? 0).
  - destruct (t >? _); [|by simplify_eq]. destruct (asset_eqb _ _); [|done]. simplify_eq.
    split; [|done]. unfold share_ok. cbn. unfold_widths. lia.
  - destruct (negb _) eqn:Et; [|by simplify_eq]. bool_to_prop.
    destruct Wp as [->|Wp]; [lia|by apply asset_mul_default in Ep|].
    destruct (asset_eqb _ _).
    + apply result_bind_Ok in E as (cp2 & Ep2 & E). simplify_eq. split; [by eapply round_up_share|done].
    + apply result_bind_Ok in E as (cr2 & Er2 & E). simplify_eq.
      destruct (mul_round_stable _ _ _ _ Wp Hc Ep Er2) as (J1 & J2 & _). split_and!; [done|congruence|lia..].
Qed.

Lemma balanced_cancel_settle id v : keeps balanced_step (cancel_settle_order id v).
Proof.
  intros s r s' E. apply balanced_intro. intros c e q g W _. split_and!.
  - by apply wf_cancel_settle in E; apply E.
  - by apply bitassets_cancel_settle in E.
  - apply (effect_cancel_settle c e q g) in E. lia.
Qed.

Lemma balanced_match_call_settle call settle mp mx fp s r s' :
  usable_price (next_maintenance_time (dgpo s)) mp → 0 ≤ amount mx → (∀ f, settle_orders s !! settle = Some f → amount (fs_balance f) ≤ int64_max) →
  match_call_settle call settle mp mx fp s = Ok (r, s') → balanced_step s s'.
Proof.
  intros Wp Hm Hf E. unfold match_call_settle in E. bind E as co Hco. bind E as f Hset. do 3 bind_step E.
  bind E as am Ham. bool_to_prop. specialize (Hf f Hset). destruct am as [cancel|p rc cull].
  { bind E as [] Hc. ret_inv E. destruct cancel; [by eapply balanced_cancel_settle|by ret_inv Hc]. }
  apply settle_match_bounds in Ham as (Hp & Hid & Hr); [|done|unfold share_ok; lia|done|lia].
  bind E as [] Has. match type of Has with _ = Ok (_, ?s1) => assert (s1 = s) as -> end.
  { destruct (_ <=? _); [|by ret_inv Has]. bind_step Has. by apply lift_Ok in Has as [_ ->]. }
  bind E as r1 F1. bind E as r2 F2. bind E as [] Hc.
  unfold mret, M_ret in E. injection E as <- <-.
  etransitivity; [|unfold when in Hc; destruct cull; [by eapply balanced_cancel_settle|by ret_inv Hc]].
  apply balanced_intro. intros c e q g W Hb.
  match type of F1 with _ = Ok (_, ?s1) => assert (settle_orders s1 = settle_orders s) as Hs1 end.
  { revert F1. apply (keeps_settle_fill_call call p rc fp true). }
  eapply wf_effect_fill_call in F1 as (W1 & B1 & T1); [|done].
  pose proof (wf_fill_settle_order _ _ _ _ _ _ _ _ F2 W1) as W2.
  pose proof (bitassets_fill_settle_order _ _ _ _ _ _ _ _ F2) as B2.
  apply (effect_fill_settle_order c e q g) in F2 as T2; [|apply (wm_assets _ W1)|done|].
  - split_and!; [done|congruence|]. rewrite T2, T1. pose proof (Hb (asset_id rc)). nia.
  - intros f' Hf'. rewrite Hs1 in Hf'. cbn in Hset. assert (f' = f) as -> by congruence. lia.
Qed.

End settle_match_spec.

(** ** Revival *)
Section revival.
Context `{EX : Ext}.
Hint Resolve bitassets_cancel_bid : graphene.

Lemma bitassets_cancel_bids ids : keeps_bitassets (cancel_bids ids).
Proof. induction ids as [|i ids IH]; cbn; solve_bitassets. Qed.
Lemma bitassets_execute_bid id d cf f : keeps_bitassets (execute_bid id d cf f).
Proof. unfold execute_bid. solve_bitassets. Qed.
Lemma effect_cancel_bids c e q g ids : effect (linear_weights c e q g) (cancel_bids ids) (λ _, 0).
Proof.
  induction ids as [|i ids IH]; cbn; [by apply effect_ret|]. intros s [] s' E.
  apply M_bind_Ok in E as ([] & s1 & E1 & E). apply (effect_cancel_bid c e q g) in E1. apply IH in E. lia.
Qed.

(** The debt position of the issuer that takes the fund and the whole supply. *)
Lemma pseudo_bid_spec f debt fund feed s s' i s1 :
  create (V:=collateral_bid_object) f s = Ok (i, s1) → execute_bid i debt fund feed s1 = Ok (tt, s') →
  bitassets s' = bitassets s ∧ ∀ c e q g,
    amount (base (inv_swan_price (f i))) = 0 →
    total (linear_weights c e q g) s' = total (linear_weights c e q g) s
      + c (asset_id (base (inv_swan_price (f i)))) * fund + q (asset_id (quote (inv_swan_price (f i)))) * debt.
Proof.
  intros Hc He. split.
  - apply bitassets_execute_bid in He. rewrite He. revert Hc. by apply (keeps_create (λ s s', bitassets s' = bitassets s)).
  - intros c e q g H0. assert (bids s1 !! i = Some (f i)) as Hl.
    { unfold create, add in Hc. destruct (tbl s !! _); [done|]. destruct (collides _ _ s); [done|].
      injection Hc as <- <-. apply lookup_insert_eq. }
    apply (total_create (linear_weights c e q g)) in Hc as (T1 & _).
    rewrite (effect_execute_bid c e q g _ _ _ _ _ _ _ Hl He), T1. cbn. rewrite H0. lia.
Qed.

Lemma revive_spec mia s s' :
  revive_bitasset mia s = Ok (tt, s') →
  ∃ b d, bitassets s !! mia = Some b ∧ dyns s !! mia = Some d ∧ has_settlement b = true ∧
    bitassets s' = <[mia := set_settlement default_price 0 b]> (bitassets s) ∧
    ∀ c e q g, total (linear_weights c e q g) s'
      = total (linear_weights c e q g) s + q mia * Z.max 0 (current_supply d).
Proof.
  intros E. unfold revive_bitasset, get_bitasset_data in E. bind E as a Ha. bind_step E.
  bind E as b Hb. bind_step Hb. apply get_Ok in Hb as [-> Hb]. bind_step E. bind E as d Hd. do 2 bind_step E.
  bind E as [] H1. cbn in Hb.
  match type of H1 with _ = Ok (_, ?s1) => assert (bitassets s1 = bitassets s ∧ ∀ c e q g,
    total (linear_weights c e q g) s1 = total (linear_weights c e q g) s
      + c (short_backing_asset (bad_options b)) * settlement_fund b + q mia * Z.max 0 (current_supply d))
    as [B1 T1] end.
  { destruct (current_supply d >? 0) eqn:Es; bool_to_prop.
    - bind H1 as p Hp. bind H1 as i Hi. unfold price_div in Hp. monad_inv.
      pose proof (pseudo_bid_spec _ _ _ _ _ _ _ _ Hi H1) as [B T]. split; [done|].
      intros. rewrite T by done. cbn. rewrite Z.max_r by lia. done.
    - apply lift_Ok in H1 as [Hf%fc_assert_Ok ->]. bool_to_prop. split; [done|]. intros.
      rewrite Hf, Z.max_l by lia. lia. }
  exists b, d. unfold _cancel_bids_and_revive_mpa in E.
  bind E as a' Ha'. bind_step E. bind E as b' Hb'. cbn in Hb'. rewrite B1, Hb in Hb'. injection Hb' as <-.
  do 2 bind_step E. bind E as hi Hhi. bind_step E. bind E as [] Hc.
  apply bitassets_cancel_bids in Hc as B2.
  split_and!; try done.
  - apply (total_modify (linear_weights (λ _, 0) (λ _, 0) (λ _, 0) 0)) in E as (v & w & Hv & Ef & Es & _).
    injection Ef as <-. cbn in Hv. rewrite B2, B1, Hb in Hv. injection Hv as <-.
    rewrite Es. cbn. by rewrite B2, B1.
  - intros c e q g. apply (total_modify (linear_weights c e q g)) in E as (v & w & Hv & Ef & _ & T).
    injection Ef as <-. cbn in Hv. rewrite B2, B1, Hb in Hv. injection Hv as <-.
    apply (effect_cancel_bids c e q g) in Hc. rewrite T, Hc, T1. cbn. lia.
Qed.

End revival.

(** ** Price-time priority *)
Section priority.
Context `{EX : Ext}.

Lemma price_ltb_negtrans a b c :
  pos_amounts a → pos_amounts b → pos_amounts c →
  price_ltb a b = false → price_ltb b c = false → price_ltb a c = false.
Proof.
  intros Ha Hb Hc H1 H2. apply not_true_iff_false in H1, H2. apply not_true_iff_false. intros H3.
  rewrite price_ltb_true in H1, H2, H3 by done. unfold price_lt_spec, pos_amounts in *.
  destruct H3 as [H3|[E1 [H3|[E2 H3]]]].
  - lia.
  - lia.
  - assert (asset_id (base b) = asset_id (base a) ∧ asset_id (quote b) = asset_id (quote a)) as [E3 E4] by lia.
    pose proof (cross_le_trans (amount (base c)) (amount (quote c)) (amount (base b)) (amount (quote b))
      (amount (base a)) (amount (quote a))). lia.
Qed.

Lemma price_ltb_asym a b : price_ltb a b = true → price_ltb b a = false.
Proof. unfold price_ltb. intros E. repeat case_match; try done; bool_to_prop; lia. Qed.

#[export] Instance limit_not_after_total : Total (not_after limit_before).
Proof.
  intros [i a] [j b]. unfold not_after, limit_before, price_gtb. cbn [fst snd].
  destruct (price_ltb (sell_price a) (sell_price b)) eqn:E1.
  - apply price_ltb_asym in E1 as E2. rewrite E2. auto.
  - destruct (price_ltb (sell_price b) (sell_price a)); [auto|].
    destruct (i <? j) eqn:E2; [left|auto]. bool_to_prop. apply Z.ltb_ge. lia.
Qed.

Lemma limit_not_after_trans x y z :
  pos_amounts (sell_price x.2) → pos_amounts (sell_price y.2) → pos_amounts (sell_price z.2) →
  not_after limit_before x y → not_after limit_before y z → not_after limit_before x z.
Proof.
  destruct x as [i a], y as [j b], z as [k c]. unfold not_after, limit_before, price_gtb. cbn [fst snd].
  intros Ha Hb Hc H1 H2.
  destruct (price_ltb (sell_price a) (sell_price b)) eqn:Eab; [done|].
  destruct (price_ltb (sell_price b) (sell_price c)) eqn:Ebc; [done|].
  rewrite (price_ltb_negtrans _ (sell_price b) _) by done.
  destruct (price_ltb (sell_price c) (sell_price a)) eqn:Eca; [done|].
  rewrite (price_ltb_negtrans (sell_price b) (sell_price c) (sell_price a)) in H1 by done.
  rewrite (price_ltb_negtrans (sell_price c) (sell_price a) (sell_price b)) in H2 by done.
  bool_to_prop. apply Z.ltb_ge. lia.
Qed.

Lemma sorted_strongly {A} (R : relation A) (P : A → Prop) l :
  (∀ x y z, P x → P y → P z → R x y → R y z → R x z) → Forall P l → Sorted R l → StronglySorted R l.
Proof.
  intros HR HP HS. induction HS as [|x l HS IH Hd]; [constructor|].
  apply Forall_cons in HP as [Hx HP]. specialize (IH HP). constructor; [done|].
  destruct Hd as [|y l Hxy]; [constructor|]. apply StronglySorted_inv in IH as [_ Hy].
  apply Forall_cons in HP as [Py HP]. constructor; [done|].
  apply Forall_forall. intros z Hz. eapply HR; [done|exact Py| |done|].
  - by eapply Forall_forall in HP.
  - by eapply Forall_forall in Hy.
Qed.

Lemma limit_book_elem s i o : (i, o) ∈ limit_book s ↔ limit_orders s !! i = Some o.
Proof. unfold limit_book, in_order. rewrite merge_sort_Permutation. apply elem_of_map_to_list. Qed.

Lemma limit_book_sorted s :
  map_Forall (λ _ o, pos_amounts (sell_price o)) (limit_orders s) →
  StronglySorted (not_after limit_before) (limit_book s).
Proof.
  intros W. apply (sorted_strongly _ (λ x, pos_amounts (sell_price x.2))).
  - intros x y z. apply limit_not_after_trans.
  - apply Forall_forall. intros [i o] Hi. apply limit_book_elem in Hi. by eapply W.
  - apply Sorted_merge_sort, _.
Qed.

Lemma limit_book_NoDup s : NoDup (limit_book s).*1.
Proof. unfold limit_book, in_order. rewrite merge_sort_Permutation. apply NoDup_fst_map_to_list. Qed.

Lemma StronglySorted_filter_on {A} (R : relation A) (P : A → Prop) `{∀ x, Decision (P x)} l :
  StronglySorted R l → StronglySorted R (filter P l).
Proof.
  induction 1 as [|x l HS IH HF]; [constructor|]. rewrite filter_cons. case_decide; [|done].
  constructor; [done|]. apply Forall_forall. intros y Hy. apply list_elem_of_filter in Hy as [_ Hy].
  by eapply Forall_forall in HF.
Qed.

Lemma fmap_fst_split {K V} (l : list (K * V)) l1 i l2 :
  l.*1 = l1 ++ i :: l2 → ∃ k1 o k2, l = k1 ++ (i, o) :: k2 ∧ k1.*1 = l1 ∧ k2.*1 = l2.
Proof.
  intros E. apply fmap_app_inv in E as (k1 & k2 & -> & E & ->). destruct k2 as [|[i' o] k2]; [done|].
  cbn in E. injection E as -> ->. by eexists k1, o, k2.
Qed.

End priority.

Section match_helpers.
Context `{EX : Ext}.

Lemma strongly_sorted_pair {A} (R : relation A) k1 x k2 y k3 :
  StronglySorted R (k1 ++ x :: k2 ++ y :: k3) → R x y.
Proof.
  intros H. apply StronglySorted_app_1_r, StronglySorted_inv in H as [_ H].
  eapply Forall_forall in H; [exact H|]. set_solver.
Qed.

Lemma NoDup_fmap_pair {K V} (k1 : list (K * V)) i a k2 j b k3 :
  NoDup (k1 ++ (i, a) :: k2 ++ (j, b) :: k3).*1 → i ≠ j.
Proof.
  rewrite fmap_app. intros (_ & _ & H)%NoDup_app. cbn in H. apply NoDup_cons in H as [H _].
  rewrite fmap_app in H. cbn in H. set_solver.
Qed.

Lemma asset_le_ids a b r : asset_le a b = Ok r → asset_id a = asset_id b.
Proof. unfold asset_le. intros E. apply result_bind_Ok in E as (x & E1 & E). by apply asset_lt_Ok in E1 as [-> _]. Qed.

(** A price has one orientation from an asset. *)
Lemma oriented_back p a b d x y x' y' :
  asset_id (base p) ≠ asset_id (quote p) →
  oriented p a b x y → oriented p b d x' y' → d = a ∧ x' = y ∧ y' = x.
Proof. unfold oriented. intros. naive_solver. Qed.

End match_helpers.

(** ** Properties *)
Section market_theorems.
Context `{EX : Ext}.

(** Price-time priority: a range of the book of limit orders holds exactly
    the orders within its bounds, and an order comes before another only when its
    price is not worse and, at an equal price, it is older. *)
Theorem limit_range_priority lo hi s :
  map_Forall (λ _ o, pos_amounts (sell_price o)) (limit_orders s) →
  (∀ i, i ∈ limit_range lo hi s ↔ ∃ o, limit_orders s !! i = Some o ∧
     price_ltb lo (sell_price o) = false ∧ price_ltb (sell_price o) hi = false) ∧
  (∀ l1 i l2 j l3 oi oj, limit_range lo hi s = l1 ++ i :: l2 ++ j :: l3 →
     limit_orders s !! i = Some oi → limit_orders s !! j = Some oj →
     price_ltb (sell_price oi) (sell_price oj) = false ∧
     (price_ltb (sell_price oj) (sell_price oi) = false → i < j)).
Proof.
  intros W. unfold limit_range. set (P := λ x : Z * limit_order_object, _ ∧ _). split.
  - intros i. rewrite list_elem_of_fmap. split.
    + intros ([j o] & -> & [HP Hj]%list_elem_of_filter). apply limit_book_elem in Hj. eauto.
    + intros (o & Ho & H1 & H2). exists (i, o). split; [done|].
      apply list_elem_of_filter. split; [by split|by apply limit_book_elem].
  - intros l1 i l2 j l3 oi oj E Hi Hj.
    assert (NoDup (filter P (limit_book s)).*1) as Hnd.
    { eapply sublist_NoDup; [apply limit_book_NoDup|]. apply fmap_sublist, sublist_filter. }
    assert (StronglySorted (not_after limit_before) (filter P (limit_book s))) as Hs
      by (by apply StronglySorted_filter_on, limit_book_sorted).
    apply fmap_fst_split in E as (k1 & o & k2 & E & _ & E2). apply fmap_fst_split in E2 as (k3 & o' & k4 & -> & _ & _).
    assert (∀ x, x ∈ k1 ++ (i, o) :: k3 ++ (j, o') :: k4 → limit_orders s !! x.1 = Some x.2) as Hin.
    { intros [x ox] Hx. rewrite <- E in Hx. apply list_elem_of_filter in Hx as [_ Hx]. by apply limit_book_elem. }
    assert (o = oi) as -> by (specialize (Hin (i, o) ltac:(set_solver)); cbn in Hin; congruence).
    assert (o' = oj) as -> by (specialize (Hin (j, o') ltac:(set_solver)); cbn in Hin; congruence).
    rewrite E in Hs, Hnd. apply strongly_sorted_pair in Hs.
    assert (i ≠ j) as Hne by (apply NoDup_fmap_pair in Hnd; done).
    unfold not_after, limit_before, price_gtb in Hs. cbn [fst snd] in Hs.
    destruct (price_ltb (sell_price oi) (sell_price oj)); [done|]. split; [done|].
    intros Hlt. rewrite Hlt in Hs. bool_to_prop. lia.
Qed.

(** The amounts of a match of two limit orders: neither order pays more
    than it has for sale, and after the core-342 hard fork one amount is exactly
    what the other buys at the match price. *)
Theorem limit_match_amounts_fair u c mp t p r cull :
  wf_price mp → 0 < for_sale u ≤ int64_max → 0 < for_sale c ≤ int64_max →
  limit_match_amounts u c mp t = Ok (Some (p, r, cull)) →
  asset_id p = sell_asset_id u ∧ asset_id r = sell_asset_id c ∧
  0 ≤ amount p ≤ for_sale u ∧ 0 ≤ amount r ≤ for_sale c ∧
  (HARDFORK_CORE_342_TIME < t → asset_mul p mp = Ok r ∧ cull = true ∨ asset_mul r mp = Ok p ∧ cull = false) ∧
  (HARDFORK_CORE_184_TIME < t → cull = true → 0 < amount r).
Proof.
  intros Wp Hu Hc E. unfold limit_match_amounts in E.
  apply result_bind_Ok in E as (x & Ex & E). apply result_bind_Ok in E as (le & Ele & E).
  pose proof (asset_le_ids _ _ _ Ele) as Hid. apply asset_le_cmp in Ele. symmetry in Ele.
  assert (share_ok (amount (amount_for_sale u)) ∧ share_ok (amount (amount_for_sale c))) as [Su Sc]
    by (unfold share_ok; cbn; lia).
  destruct (asset_mul_oriented _ _ _ Ex Wp Sc) as (q & b & Ho & Hx).
  pose proof (oriented_pos _ _ _ _ _ (proj1 Wp) Ho) as [Hq Hb]. cbn in Hid, Hx, Ho. destruct le; bool_to_prop.
  - apply result_bind_Ok in E as (y & Ey & E). cbn in Ele.
    destruct (asset_mul_oriented _ _ _ Ey Wp Su) as (q' & b' & Ho' & Hy).
    assert (asset_id y = sell_asset_id c ∧ amount y ≤ for_sale c) as [Iy Ay].
    { cbn in Ho'. unfold sell_asset_id in *. rewrite Hid in Ho'.
      destruct (oriented_back _ _ _ _ _ _ _ _ (proj2 Wp) Ho Ho') as (Id & -> & ->).
      split; [done|]. cbn in Hy. rewrite Hy. apply Z.div_le_upper_bound; [lia|].
      pose proof (div_mul_le_self (for_sale c * b) q). nia. }
    pose proof (asset_mul_range _ _ _ Ey) as Ry.
    destruct ((amount y =? 0) && _) eqn:Ez; [done|].
    destruct (t <=? HARDFORK_CORE_342_TIME) eqn:Et; bool_to_prop.
    + simplify_eq. cbn. split_and!; try done; try lia.
    + apply result_bind_Ok in E as (z & Er & E). simplify_eq.
      destruct (mul_round_stable _ _ _ _ Wp Su Ey Er) as (J1 & J2 & J3). cbn in J1, J2.
      split_and!; try done; try lia. by left.
  - apply result_bind_Ok in E as (y & Ey & E). rewrite Ex in Ey. injection Ey as <-. cbn in Ele.
    pose proof (asset_mul_range _ _ _ Ex) as Ry.
    destruct (t <=? HARDFORK_CORE_342_TIME) eqn:Et; bool_to_prop.
    + simplify_eq. cbn. split_and!; try done; try lia.
    + apply result_bind_Ok in E as (z & Er & E). simplify_eq.
      destruct (mul_round_stable _ _ _ _ Wp Sc Ex Er) as (J1 & J2 & J3). cbn in J1, J2.
      split_and!; try done; try lia. by right.
Qed.

End market_theorems.

Section trade_theorems.
Context `{EX : Ext}.

(** A match of a limit order with a limit order or with a margin call moves
    funds between holders only: for every asset the holdings and the debts keep
    their relation to the supply, and the core in orders agrees with the
    statistics. *)
Theorem matches_conserve s s' r a b mp feed mcr mc :
  wf_market s →
  match_limits a b mp s = Ok (r, s') ∨ match_limit_call a b mp feed mcr mc s = Ok (r, s') →
  conserved s s' ∧ bitassets s' = bitassets s ∧ wf_market s'.
Proof.
  intros W [E|E]; [apply balanced_match_limits in E|apply balanced_match_limit_call in E];
    destruct (E W) as (? & ? & ?); done.
Qed.

(** A forced settlement against a debt position settles no more than the
    settle order holds, the allowed volume and the debt, and conserves all
    assets. *)
Theorem settle_match_sound s call settle mp mx fp co f s' r :
  wf_market s → wf_price mp → 0 ≤ amount mx → call_orders s !! call = Some co →
  settle_orders s !! settle = Some f → amount (fs_balance f) ≤ int64_max →
  match_call_settle call settle mp mx fp s = Ok (r, s') →
  conserved s s' ∧ asset_id r = asset_id (fs_balance f) ∧
  0 ≤ amount r ≤ Z.min (amount (fs_balance f)) (Z.min (amount mx) (debt co)).
Proof.
  intros W Wp Hm Hco Hf Hle E. split.
  - apply balanced_match_call_settle in E; [|by right|done|intros f' Hf'; by simplify_eq].
    by destruct (E W) as (_ & _ & ?).
  - unfold match_call_settle in E. bind E as co' Hco'. bind E as f' Hf'. cbn in Hco', Hf'. simplify_eq.
    do 3 bind_step E. bind E as am Ham. bool_to_prop. destruct am as [cancel|p rc cull].
    + bind E as [] Hc. ret_inv E. cbn. split; [done|lia].
    + bind E as [] G1. bind E as b1 G2. bind E as b2 G3. bind E as [] G4. ret_inv E.
      apply settle_match_bounds in Ham as (_ & ? & ?); [done|by right|unfold share_ok; lia|done|lia].
Qed.

(** Placing a limit order, with the rules before and after the core-625 hard
    fork, conserves all assets: whatever is matched, culled or globally settled on
    the way, the holdings of every asset keep their relation to the supply, the
    core in orders agrees with the statistics, and so do the debts of every asset
    that has not been settled. *)
Theorem apply_order_conserves fuel id en s r s' :
  wf_market s →
  apply_order fuel id s = Ok (r, s') ∨ apply_order_before_hardfork_625 fuel id en s = Ok (r, s') →
  trade_ok s s' ∧ wf_market s'.
Proof.
  intros W [E|E]; [apply sound_apply_order in E|apply sound_apply_order_before in E];
    destruct (E W); done.
Qed.

(** So does the check for black swans and margin calls after a change of the
    price feed. *)
Theorem margin_calls_conserve fuel mia en fo s r s' :
  wf_market s →
  check_call_orders fuel mia en fo s = Ok (r, s') ∨ check_for_blackswan mia en s = Ok (r, s') →
  trade_ok s s' ∧ wf_market s'.
Proof.
  intros W [E|E]; [apply sound_check_call_orders in E|apply sound_blackswan in E];
    destruct (E W); done.
Qed.

(** The call price of a debt position as the chain computes it. *)
Definition wf_call (o : call_order_object) : Prop :=
  0 < amount (base (co_call_price o)) ≤ GRAPHENE_MAX_SHARE_SUPPLY ∧
  0 < amount (quote (co_call_price o)) ≤ GRAPHENE_MAX_SHARE_SUPPLY.

Lemma call_price_range_all backing mia lo hi s i o :
  price_min backing mia = Ok lo → price_max backing mia = Ok hi →
  call_orders s !! i = Some o → wf_call o → collateral_type o = backing → debt_type o = mia →
  i ∈ call_price_range lo hi s.
Proof.
  unfold price_min, price_max, price_div. intros E1 E2 Ho [H1 H2] <- <-. monad_inv.
  assert (GRAPHENE_MAX_SHARE_SUPPLY ≤ int64_max ∧ 1 < GRAPHENE_MAX_SHARE_SUPPLY) as [Hm H1m] by by vm_compute.
  unfold call_price_range. apply list_elem_of_fmap. exists (i, o). split; [done|].
  apply list_elem_of_filter. split.
  - unfold collateral_type, debt_type. cbn [snd].
    split; rewrite price_ltb_cross by (unfold pos_amounts; cbn; lia || done); cbn; apply Z.ltb_ge; nia.
  - unfold calls_by_price, in_order. rewrite merge_sort_Permutation. by apply elem_of_map_to_list.
Qed.

Lemma price_range_bounds a b : a ≠ b → ∃ lo hi, price_min a b = Ok lo ∧ price_max a b = Ok hi.
Proof.
  intros Hne. unfold price_min, price_max, price_div. cbn. rewrite (proj2 (Z.eqb_neq a b)) by done. eauto.
Qed.

(** C37: Global settlement closes every debt position of the asset, puts the
    collateral it gathers into the settlement fund, leaves the supply unchanged and
    records supply over fund as the settlement price; the holdings of every asset
    and the debts of every other asset keep their relation to the supply. *)
Theorem global_settlement_closes mia sp s s' :
  wf_market s → map_Forall (λ _, wf_call) (call_orders s) →
  globally_settle_asset mia sp s = Ok (tt, s') →
  ∃ b d fund,
    bitassets s !! mia = Some b ∧ dyns s !! mia = Some d ∧
    bitassets s' !! mia = Some (set_settlement
      (Price (Asset (current_supply d) mia) (Asset fund (short_backing_asset (bad_options b)))) fund b) ∧
    current_supply <$> (dyns s' !! mia) = Some (current_supply d) ∧
    settled mia s' ∧
    map_Forall (λ _ o, ~ (collateral_type o = short_backing_asset (bad_options b) ∧ debt_type o = mia))
      (call_orders s') ∧
    (∀ a, excess a s' = excess a s) ∧ core_orders_excess s' = core_orders_excess s ∧
    (∀ a, a ≠ mia → debt_excess a s' = debt_excess a s).
Proof.
  intros W Wc E. apply sound_globally_settle in E as S. destruct (S W) as [_ [T1 T2 _ _]].
  apply globally_settle_spec in E
    as (b & d & gt & burned & Hb & Hn & Hd & Hne & Bs & Hsup & Hst & _ & C & N & T); [|done].
  exists b, d, gt. split_and!; try done.
  - rewrite Bs. apply lookup_insert_eq.
  - eexists. split; [rewrite Bs; apply lookup_insert_eq|done].
  - intros i o' Ho' [Hct Hdt]. destruct (C _ _ Ho') as (o & Ho & _ & Ec & Ed).
    destruct (price_range_bounds _ _ Hne) as (lo & hi & El & Eh).
    rewrite (N lo hi i El Eh) in Ho'; [done|]. 
    apply (call_price_range_all _ mia lo hi s i o El Eh Ho); [by eapply Wc|congruence|done || congruence].
  - intros a Ha. unfold debt_excess. rewrite T. unfold ind. rewrite (proj2 (Z.eqb_neq mia a)) by congruence. lia.
Qed.

(** Reviving a settled asset gives the issuer a debt position with the whole
    supply as debt and the settlement fund as collateral: the fund is gone, the
    asset is no longer settled, and the holdings of every asset keep their relation
    to the supply. *)
Theorem revive_restores_debt mia s s' :
  revive_bitasset mia s = Ok (tt, s') →
  ∃ b d, bitassets s !! mia = Some b ∧ dyns s !! mia = Some d ∧ settled mia s ∧
    bitassets s' !! mia = Some (set_settlement default_price 0 b) ∧
    ~ settled mia s' ∧
    (∀ a, excess a s' = excess a s) ∧ core_orders_excess s' = core_orders_excess s ∧
    (∀ a, debt_excess a s' = debt_excess a s + (if a =? mia then Z.max 0 (current_supply d) else 0)).
Proof.
  intros E. apply revive_spec in E as (b & d & Hb & Hd & Hs & Bs & T). exists b, d.
  assert (bitassets s' !! mia = Some (set_settlement default_price 0 b)) as Hb'
    by (rewrite Bs; apply lookup_insert_eq).
  split_and!; try done.
  - by exists b.
  - intros (b2 & E2 & Hs2). rewrite Hb' in E2. by injection E2 as <-.
  - intros a. unfold excess. rewrite T. lia.
  - unfold core_orders_excess. rewrite T. lia.
  - intros a. unfold debt_excess. rewrite T. unfold ind. rewrite (Z.eqb_sym mia a). destruct (a =? mia); lia.
Qed.

End trade_theorems.

(** *** Asset 1 backed by core

    The feed is 2 core per unit; account 17 owes 300 units with [coll] core as
    collateral and sells 100 core for 50 units, account 18 sells 100 units for 200
    core and asks for the settlement of 40 units. *)
Definition ex_bitasset : asset_bitasset_data_object :=
  AssetBitassetData (BitassetOptions 86400 1 86400 100 2000 0) ∅
    (PriceFeed (Price (Asset 1 1) (Asset 2 0)) (Price (Asset 1 1) (Asset 2 0)) 1750 1100) 1600000000
    (Price (Asset 7 0) (Asset 2 1)) false 0 default_price 0 false false.
Definition ex_market (coll : Z) : database :=
  set_assets {[ 0 := AssetObject 0 (ex_options 0 0 (ex_unit_price 0 0)) false None String.EmptyString 5;
                1 := AssetObject 17 (ex_options 1 100 (ex_unit_price 0 1)) true None String.EmptyString 5 ]}
  (set_bitassets {[ 1 := ex_bitasset ]}
  (set_balances {[ (17, 0) := AccountBalance 5000 true; (18, 1) := AccountBalance 160 false ]}
  (set_stats {[ 17 := AccountStatistics (100 + coll) 0 false 0 1000 50 false String.EmptyString 0; 18 := ex_stats 0 0 ]}
  (set_limit_orders {[ 7 := ex_order;
                       8 := LimitOrder 1600005000 18 100 (Price (Asset 100 1) (Asset 200 0)) 0 (Asset 0 0) ]}
  (set_call_orders {[ 3 := CallOrder 17 coll 300 (ex_unit_price 0 1) None ]}
  (set_settle_orders {[ 4 := ForceSettlement 18 (Asset 40 1) 1600000100 ]} ex_chain)))))).

Lemma ex_market_wf coll : wf_market (ex_market coll).
Proof.
  split; cbn.
  - apply map_Forall_insert_2; [by vm_compute|]. apply map_Forall_singleton. by vm_compute.
  - apply map_Forall_insert_2; [by vm_compute|]. apply map_Forall_singleton. by vm_compute.
  - apply map_Forall_singleton. by vm_compute.
  - apply map_Forall_empty.
  - by vm_compute.
  - apply map_Forall_singleton. intros b Hb. cbn in Hb. rewrite lookup_singleton_eq in Hb. by injection Hb as <-.
  - apply map_Forall_empty.
Qed.

Lemma limit_range_priority_witness :
  let p1 := Price (Asset 100 0) (Asset 50 1) in let p2 := Price (Asset 3 0) (Asset 1 1) in
  let o p := LimitOrder 0 17 100 p 0 (Asset 0 0) in
  let s := set_limit_orders {[ 7 := o p1; 8 := o p2; 9 := o p1 ]} ex_chain in
  limit_range (Price (Asset GRAPHENE_MAX_SHARE_SUPPLY 0) (Asset 1 1)) p1 s = [8; 7; 9] ∧ 7 < 9.
Proof.
  intros p1 p2 o s.
  assert (limit_range (Price (Asset GRAPHENE_MAX_SHARE_SUPPLY 0) (Asset 1 1)) p1 s = [8; 7; 9]) as El
    by (vm_compute; reflexivity).
  split; [exact El|].
  destruct (limit_range_priority (Price (Asset GRAPHENE_MAX_SHARE_SUPPLY 0) (Asset 1 1)) p1 s) as [_ H].
  { apply map_Forall_insert_2; [by vm_compute|]. apply map_Forall_insert_2; [by vm_compute|].
    apply map_Forall_singleton. by vm_compute. }
  apply (H [8] 7 [] 9 [] (o p1) (o p1) El eq_refl eq_refl). reflexivity.
Defined.

Lemma limit_match_amounts_fair_witness :
  let u := LimitOrder 0 18 100 (Price (Asset 100 1) (Asset 200 0)) 0 (Asset 0 0) in
  asset_mul (Asset 50 1) (sell_price ex_order) = Ok (Asset 100 0) ∧
  limit_match_amounts u ex_order (sell_price ex_order) 1600003600
  = Ok (Some (Asset 50 1, Asset 100 0, false)).
Proof.
  intros u. assert (limit_match_amounts u ex_order (sell_price ex_order) 1600003600
    = Ok (Some (Asset 50 1, Asset 100 0, false))) as E by reflexivity.
  split; [|exact E].
  destruct (limit_match_amounts_fair u ex_order (sell_price ex_order) 1600003600 (Asset 50 1) (Asset 100 0) false)
    as (_ & _ & _ & _ & H & _); [by vm_compute..|exact E|].
  destruct (H ltac:(by vm_compute)) as [[K _]|[_ _]]; [exact K|reflexivity].
Defined.

Lemma matches_conserve_witness :
  match match_limits 8 7 (sell_price ex_order) (ex_market 900) with
  | Ok (r, s') => r = 2 ∧ conserved (ex_market 900) s' ∧ bal s' 18 0 = 100
  | Err _ => False
  end.
Proof.
  destruct (match_limits 8 7 (sell_price ex_order) (ex_market 900)) as [[r s']|x] eqn:E; [|by vm_compute in E].
  destruct (matches_conserve _ s' r 8 7 (sell_price ex_order) default_price 0 None (ex_market_wf 900)
    (or_introl E)) as [H _].
  vm_compute in E. injection E as <- <-. split; [done|]. split; [exact H|reflexivity].
Defined.

Lemma settle_match_sound_witness :
  match match_call_settle 3 4 (Price (Asset 2 0) (Asset 1 1)) (Asset 30 1) (Price (Asset 2 0) (Asset 1 1))
          (ex_market 900) with
  | Ok (r, s') => r = Asset 30 1 ∧ conserved (ex_market 900) s'
  | Err _ => False
  end.
Proof.
  destruct (match_call_settle 3 4 (Price (Asset 2 0) (Asset 1 1)) (Asset 30 1) (Price (Asset 2 0) (Asset 1 1))
          (ex_market 900)) as [[r s']|x] eqn:E; [|by vm_compute in E].
  destruct (settle_match_sound (ex_market 900) 3 4 (Price (Asset 2 0) (Asset 1 1)) (Asset 30 1)
    (Price (Asset 2 0) (Asset 1 1)) (CallOrder 17 900 300 (ex_unit_price 0 1) None)
    (ForceSettlement 18 (Asset 40 1) 1600000100) s' r (ex_market_wf 900)) as [H _]; [by vm_compute..|exact E|].
  split; [|exact H]. vm_compute in E. by injection E as <- <-.
Defined.

Lemma apply_order_conserves_witness :
  match apply_order 10 8 (ex_market 900) with
  | Ok (r, s') => r = true ∧ trade_ok (ex_market 900) s' ∧ bal s' 18 0 = 220
  | Err _ => False
  end.
Proof.
  destruct (apply_order 10 8 (ex_market 900)) as [[r s']|x] eqn:E; [|by vm_compute in E].
  destruct (apply_order_conserves 10 8 true _ r s' (ex_market_wf 900) (or_introl E)) as [H _].
  vm_compute in E. injection E as <- <-. split; [done|]. split; [exact H|reflexivity].
Defined.

Lemma margin_calls_conserve_witness :
  match check_call_orders 10 1 true false (ex_market 900) with
  | Ok (r, s') => r = true ∧ trade_ok (ex_market 900) s' ∧ bal s' 18 0 = 200
  | Err _ => False
  end.
Proof.
  destruct (check_call_orders 10 1 true false (ex_market 900)) as [[r s']|x] eqn:E; [|by vm_compute in E].
  destruct (margin_calls_conserve 10 1 true false _ r s' (ex_market_wf 900) (or_introl E)) as [H _].
  vm_compute in E. injection E as <- <-. split; [done|]. split; [exact H|reflexivity].
Defined.

Lemma global_settlement_closes_witness :
  match globally_settle_asset 1 (Price (Asset 1 1) (Asset 2 0)) (ex_market 700) with
  | Ok (_, s') => settled 1 s' ∧ excess 0 s' = excess 0 (ex_market 700) ∧ call_orders s' !! 3 = None
  | Err _ => False
  end.
Proof.
  destruct (globally_settle_asset 1 (Price (Asset 1 1) (Asset 2 0)) (ex_market 700)) as [[[] s']|x] eqn:E;
    [|by vm_compute in E].
  destruct (global_settlement_closes 1 (Price (Asset 1 1) (Asset 2 0)) (ex_market 700) s' (ex_market_wf 700))
    as (b & d & f & _ & _ & _ & _ & Hs & _ & He & _); [|exact E|].
  { apply map_Forall_singleton. unfold wf_call. cbn. unfold GRAPHENE_MAX_SHARE_SUPPLY. lia. }
  split; [exact Hs|]. split; [apply He|]. vm_compute in E. by injection E as <-.
Defined.

Lemma revive_restores_debt_witness :
  match (globally_settle_asset 1 (Price (Asset 1 1) (Asset 2 0)) (ex_market 700)) with
  | Ok (_, s) =>
      match revive_bitasset 1 s with
      | Ok (_, s') => excess 0 s' = excess 0 s ∧ debt <$> (call_orders s' !! 0) = Some 300
      | Err _ => False
      end
  | Err _ => False
  end.
Proof.
  destruct (globally_settle_asset 1 (Price (Asset 1 1) (Asset 2 0)) (ex_market 700)) as [[[] s]|x] eqn:E0;
    [|by vm_compute in E0].
  destruct (revive_bitasset 1 s) as [[[] s']|x] eqn:E.
  - destruct (revive_restores_debt 1 s s' E) as (b & d & _ & _ & _ & _ & _ & He & _). split; [apply He|].
    vm_compute in E0. injection E0 as <-. vm_compute in E. by injection E as <-.
  - vm_compute in E0. injection E0 as <-. by vm_compute in E.
Defined.
