(* ===== verification/Evaluator.v ===== *)
(** * Evaluators of transfers, locks, permissions, vesting and supply

    The fee handling of chain/evaluator.cpp and evaluator.hpp that all operations
    share, and the evaluators of transfer_evaluator.cpp, htlc_evaluator.cpp,
    withdraw_permission_evaluator.cpp, vesting_balance_evaluator.cpp,
    balance_evaluator.cpp and of the supply and fee pool operations of
    asset_evaluator.cpp.  Each evaluator is a pair: the checks ([do_evaluate]),
    which return the objects the source keeps pointers to, and the changes
    ([do_apply]).  The hash functions of hash time locks and the addresses a key
    stands for are parameters. *)

From S2P Require Import Prelude External Asset Authority Operations Block Vesting State Balance Fill Market Trade.

(** [GRAPHENE_ASSERT( b, e, ... )] in a handler. *)
Definition require {S} (b : bool) (e : exn) : M S unit := lift (graphene_assert b e).

Section evaluator.
Context `{EX : Ext}.
(** [T::hash( data )] of the hash type with a given tag. *)
Context (hash_of : Z → list Z → Z).
(** [address( k )] and the four [pts_address( k, ... )]. *)
Context (key_addresses : Z → list Z).

(** ** Fees *)

(** [generic_evaluator::prepare_fee]; the result is [core_fee_paid]. *)
Definition prepare_fee (account_id : Z) (fee : asset) : M database Z :=
  assert_that (amount fee >=? 0);;
  fee_paying_account ← get (V:=account_object) account_id;
  _ ← get (V:=account_statistics_object) account_id;
  fee_asset ← get (V:=asset_object) (asset_id fee);
  fee_asset_dyn_data ← get (V:=asset_dynamic_data_object) (asset_id fee);
  assert_that (is_authorized_asset fee_paying_account (asset_id fee) fee_asset);;
  if asset_id fee =? CORE then mret (amount fee)
  else
    fee_from_pool ← lift (asset_mul fee (ao_core_exchange_rate (ao_options fee_asset)));
    assert_that (asset_id fee_from_pool =? CORE);;
    assert_that (amount fee_from_pool <=? fee_pool fee_asset_dyn_data);;
    mret (amount fee_from_pool).

(** The check of the fee schedule in [evaluator<T>::evaluate]. *)
Definition check_fee (skip_fee_schedule_check : bool) (op : operation) (core_fee_paid : Z) : M database unit :=
  if skip_fee_schedule_check then mret tt
  else
    p ← get_parameters;
    required_fee ← lift (calculate_fee (op_fees p) (fee_scale p) op);
    require (core_fee_paid >=? required_fee) insufficient_fee.

(** [generic_evaluator::convert_fee] and [pay_fee]; [skip_fee] is never set. *)
Definition convert_fee (fee : asset) (core_fee_paid : Z) : M database unit :=
  when (negb (asset_id fee =? CORE))
    (modify (V:=asset_dynamic_data_object) (asset_id fee) (λ d,
       d1 ← add_accumulated (amount fee) d; sub_fee_pool core_fee_paid d1)).
Definition pay_fee_default (payer core_fee_paid : Z) : M database unit :=
  p ← get_parameters;
  modify payer (pay_fee core_fee_paid (cashback_vesting_threshold p)).

(** The checks of an evaluator, its fee and its changes. *)
Definition evaluate_apply {A} (op : operation) (core_fee_paid : Z) (do_evaluate : M database A)
    (do_apply : A → M database operation_result) : M database operation_result :=
  a ← do_evaluate;
  convert_fee (op_fee op) core_fee_paid;;
  pay_fee_default (fee_payer op) core_fee_paid;;
  do_apply a.

Definition negate (a : asset) : M database asset := lift (asset_neg a).
(** [adjust_balance( from, -amount ); adjust_balance( to, amount )]. *)
Definition move_balance (from to : Z) (amt : asset) : M database unit :=
  n ← negate amt;
  adjust_balance from n;;
  adjust_balance to amt.

(** ** Transfers *)
Definition transfer_evaluate (from to : Z) (amt : asset) : M database unit :=
  from_account ← get (V:=account_object) from;
  to_account ← get (V:=account_object) to;
  asset_type ← get (V:=asset_object) (asset_id amt);
  require (is_authorized_asset from_account (asset_id amt) asset_type) transfer_from_account_not_whitelisted;;
  require (is_authorized_asset to_account (asset_id amt) asset_type) transfer_to_account_not_whitelisted;;
  when (is_transfer_restricted asset_type)
    (require ((from =? issuer asset_type) || (to =? issuer asset_type)) transfer_restricted_transfer_asset);;
  b ← get_balance from (asset_id amt);
  assert_that (amount b >=? amount amt).
Definition transfer_apply (from to : Z) (amt : asset) : M database operation_result :=
  move_balance from to amt;; mret void_result.

Definition override_transfer_evaluate (op_issuer from to : Z) (amt : asset) : M database unit :=
  asset_type ← get (V:=asset_object) (asset_id amt);
  require (can_override asset_type) override_transfer_not_permitted;;
  assert_that (issuer asset_type =? op_issuer);;
  from_account ← get (V:=account_object) from;
  to_account ← get (V:=account_object) to;
  assert_that (is_authorized_asset to_account (asset_id amt) asset_type);;
  assert_that (is_authorized_asset from_account (asset_id amt) asset_type);;
  b ← get_balance from (asset_id amt);
  assert_that (amount b >=? amount amt).
Definition override_transfer_apply (from to : Z) (amt : asset) : M database operation_result :=
  move_balance from to amt;; mret void_result.

(** ** Hash time locks *)
Definition get_committee_htlc_options : M database (option htlc_options) :=
  p ← get_parameters; mret (updatable_htlc_options p).

Definition assert_balance (owner : Z) (amt : asset) : M database unit :=
  b ← get_balance owner (asset_id amt);
  ge ← lift (asset_ge b amt);
  assert_that ge.

Definition htlc_create_evaluate (from to : Z) (amt : asset) (pre_size claim_period_seconds : Z)
    : M database unit :=
  o ← get_committee_htlc_options;
  match o with
  | None => throw assert_exception
  | Some o =>
      assert_that (claim_period_seconds <=? max_timeout_secs o);;
      assert_that (pre_size <=? max_preimage_size o);;
      assert_balance from amt;;
      asset_to_transfer ← get (V:=asset_object) (asset_id amt);
      from_account ← get (V:=account_object) from;
      to_account ← get (V:=account_object) to;
      assert_that (is_authorized_asset from_account (asset_id amt) asset_to_transfer);;
      assert_that (is_authorized_asset to_account (asset_id amt) asset_to_transfer)
  end.
Definition htlc_create_apply (from to : Z) (amt : asset) (hash : Z * Z) (pre_size claim_period_seconds : Z)
    : M database operation_result :=
  n ← negate amt;
  adjust_balance from n;;
  t ← head_block_time;
  id ← create (V:=htlc_object) (λ _,
         HtlcObject from to (amount amt) (asset_id amt) hash pre_size (tps_add t claim_period_seconds));
  mret (object_id_result id).

Definition htlc_redeem_evaluate (htlc_id : Z) (preimage : list Z) : M database unit :=
  h ← get (V:=htlc_object) htlc_id;
  assert_that (Z.of_nat (length preimage) =? preimage_size h);;
  assert_that (hash_of (fst (preimage_hash h)) preimage =? snd (preimage_hash h)).
Definition htlc_redeem_apply (htlc_id redeemer : Z) : M database operation_result :=
  h ← deref (V:=htlc_object) htlc_id;
  let amt := Asset (htlc_amount h) (htlc_asset_id h) in
  adjust_balance (htlc_to h) amt;;
  push_applied_operation (htlc_redeemed_operation htlc_id (htlc_from h) (htlc_to h) redeemer amt);;
  remove (V:=htlc_object) htlc_id;;
  mret void_result.

(** The options are dereferenced without a check. *)
Definition htlc_extend_evaluate (htlc_id update_issuer seconds_to_add : Z) : M database unit :=
  h ← get (V:=htlc_object) htlc_id;
  assert_that (update_issuer =? htlc_from h);;
  o ← get_committee_htlc_options;
  assert_that (htlc_expiration h + seconds_to_add <? uint32_max);;
  t ← head_block_time;
  match o with
  | None => throw undefined_behaviour
  | Some o => assert_that (tps_add (htlc_expiration h) seconds_to_add <=? tps_add t (max_timeout_secs o))
  end.
Definition htlc_extend_apply (htlc_id seconds_to_add : Z) : M database operation_result :=
  modify htlc_id (λ h, Ok (HtlcObject (htlc_from h) (htlc_to h) (htlc_amount h) (htlc_asset_id h)
                             (preimage_hash h) (preimage_size h) (tps_add (htlc_expiration h) seconds_to_add)));;
  mret void_result.

(** ** Withdraw permissions *)

(** The 32-bit product of the source. *)
Definition permission_end (start_time period_sec periods : Z) : Z :=
  tps_add start_time (u32 (periods * period_sec)).

Definition assert_found {K V} `{Table K V} (k : K) : M database unit :=
  o ← find (V:=V) k; assert_that (match o with Some _ => true | None => false end).

Definition withdraw_permission_create_evaluate (from authorized : Z) (limit : asset)
    (period_sec periods start_time : Z) : M database unit :=
  assert_found (V:=account_object) from;;
  assert_found (V:=account_object) authorized;;
  assert_found (V:=asset_object) (asset_id limit);;
  t ← head_block_time;
  assert_that (start_time >? t);;
  assert_that (permission_end start_time period_sec periods >? t);;
  p ← get_parameters;
  assert_that (period_sec >=? block_interval p).
Definition withdraw_permission_create_apply (from authorized : Z) (limit : asset)
    (period_sec periods start_time : Z) : M database operation_result :=
  id ← create (V:=withdraw_permission_object) (λ _,
         WithdrawPermission from authorized limit period_sec start_time
           (permission_end start_time period_sec periods) 0);
  mret (object_id_result id).

(** [withdraw_permission_object::available_this_period]. *)
Definition available_this_period (p : withdraw_permission_object) (current_time : Z) : result asset :=
  if current_time >=? tps_add (period_start_time p) (withdrawal_period_sec p) then Ok (withdrawal_limit p)
  else if amount (withdrawal_limit p) >? claimed_this_period p then
    r ← safe_sub (amount (withdrawal_limit p)) (claimed_this_period p);
    Ok (Asset r (asset_id (withdrawal_limit p)))
  else Ok (Asset 0 (asset_id (withdrawal_limit p))).

Definition withdraw_permission_claim_evaluate (permission from to : Z) (amt : asset) : M database unit :=
  t ← head_block_time;
  permit ← get (V:=withdraw_permission_object) permission;
  assert_that (wp_expiration permit >? t);;
  assert_that (authorized_account permit =? to);;
  assert_that (withdraw_from_account permit =? from);;
  assert_that (period_start_time permit <=? t);;
  available ← lift (available_this_period permit t);
  le ← lift (asset_le amt available);
  assert_that le;;
  assert_balance from amt;;
  a ← get (V:=asset_object) (asset_id amt);
  when (is_transfer_restricted a)
    (assert_that ((issuer a =? authorized_account permit) || (issuer a =? withdraw_from_account permit)));;
  to_account ← get (V:=account_object) (authorized_account permit);
  assert_that (is_authorized_asset to_account (asset_id amt) a);;
  from_account ← get (V:=account_object) from;
  assert_that (is_authorized_asset from_account (asset_id amt) a).

Definition claim_permission (t amt : Z) (p : withdraw_permission_object) : result withdraw_permission_object :=
  if withdrawal_period_sec p =? 0 then Err undefined_behaviour
  else
    let periods := Z.quot (tps_diff t (period_start_time p)) (withdrawal_period_sec p) in
    claimed ← (if periods =? 0 then safe_add (claimed_this_period p) amt else Ok amt);
    Ok (WithdrawPermission (withdraw_from_account p) (authorized_account p) (withdrawal_limit p)
          (withdrawal_period_sec p)
          (tps_add (period_start_time p) (u32 (periods * withdrawal_period_sec p)))
          (wp_expiration p) claimed).
Definition withdraw_permission_claim_apply (permission from to : Z) (amt : asset) : M database operation_result :=
  _ ← get (V:=withdraw_permission_object) permission;
  t ← head_block_time;
  modify permission (claim_permission t (amount amt));;
  move_balance from to amt;;
  mret void_result.

Definition withdraw_permission_update_evaluate (from authorized permission : Z) (limit : asset)
    (period_sec start_time periods : Z) : M database unit :=
  permit ← get (V:=withdraw_permission_object) permission;
  assert_that (authorized_account permit =? authorized);;
  assert_that (withdraw_from_account permit =? from);;
  assert_found (V:=asset_object) (asset_id limit);;
  t ← head_block_time;
  assert_that (start_time >=? t);;
  assert_that (permission_end start_time period_sec periods >? t);;
  p ← get_parameters;
  assert_that (period_sec >=? block_interval p).
Definition withdraw_permission_update_apply (permission : Z) (limit : asset) (period_sec start_time periods : Z)
    : M database operation_result :=
  _ ← get (V:=withdraw_permission_object) permission;
  modify permission (λ p, Ok (WithdrawPermission (withdraw_from_account p) (authorized_account p) limit
    period_sec start_time (permission_end start_time period_sec periods) (claimed_this_period p)));;
  mret void_result.

Definition withdraw_permission_delete_evaluate (from authorized permission : Z) : M database unit :=
  permit ← get (V:=withdraw_permission_object) permission;
  assert_that (authorized_account permit =? authorized);;
  assert_that (withdraw_from_account permit =? from).
Definition withdraw_permission_delete_apply (permission : Z) : M database operation_result :=
  _ ← get (V:=withdraw_permission_object) permission;
  remove (V:=withdraw_permission_object) permission;;
  mret void_result.

(** ** Vesting balances *)
Definition check_vesting_balance_policy_hf_1268 (t : Z) (policy : vesting_policy_initializer) : M database unit :=
  when (t <? HARDFORK_1268_TIME)
    (assert_that (match policy with instant_initializer => false | _ => true end)).

Definition vesting_balance_create_evaluate (creator owner : Z) (amt : asset)
    (policy : vesting_policy_initializer) : M database unit :=
  _ ← get (V:=account_object) creator;
  _ ← get (V:=account_object) owner;
  assert_that (amount amt >? 0);;
  assert_balance creator amt;;
  a ← get (V:=asset_object) (asset_id amt);
  assert_that (negb (is_transfer_restricted a));;
  t ← head_block_time;
  check_vesting_balance_policy_hf_1268 t policy.

(** [init_policy_visitor]. *)
Definition init_policy (init_balance t : Z) (i : vesting_policy_initializer) : vesting_policy :=
  match i with
  | linear_initializer b c d => linear_policy (LinearVestingPolicy b c d init_balance)
  | cdd_initializer start secs => cdd_policy (CddVestingPolicy secs 0 start t)
  | instant_initializer => instant_policy
  end.

Definition vesting_balance_create_apply (creator owner : Z) (amt : asset) (policy : vesting_policy_initializer)
    : M database operation_result :=
  t ← head_block_time;
  assert_balance creator amt;;
  n ← negate amt;
  adjust_balance creator n;;
  id ← create (V:=vesting_balance_object) (λ _,
         VestingBalanceObject owner amt (init_policy (amount amt) t policy) vbt_unspecified);
  mret (object_id_result id).

Definition vesting_balance_withdraw_evaluate (vesting_balance owner : Z) (amt : asset) : M database unit :=
  t ← head_block_time;
  vbo ← get (V:=vesting_balance_object) vesting_balance;
  assert_that (owner =? vbo_owner vbo);;
  ok ← lift (is_withdraw_allowed vbo t amt);
  assert_that ok;;
  _ ← get (V:=account_object) owner;
  mret tt.
Definition vesting_balance_withdraw_apply (vesting_balance owner : Z) (amt : asset) : M database operation_result :=
  t ← head_block_time;
  _ ← get (V:=vesting_balance_object) vesting_balance;
  modify vesting_balance (λ v, withdraw v t amt);;
  adjust_balance owner amt;;
  mret void_result.

(** ** Genesis balances *)
Definition balance_claim_evaluate (balance_to_claim balance_owner_key : Z) (total_claimed : asset)
    : M database unit :=
  b ← get (V:=balance_object) balance_to_claim;
  require (bool_decide (bo_owner b ∈ key_addresses balance_owner_key)) balance_claim_owner_mismatch;;
  assert_that (asset_id total_claimed =? asset_id (bo_balance b));;
  t ← head_block_time;
  match bo_vesting_policy b with
  | Some policy =>
      ok ← lift (linear_is_withdraw_allowed policy (VestingPolicyContext (bo_balance b) t total_claimed));
      require ok balance_claim_invalid_claim_amount;;
      require (tps_diff t (last_claim_date b) >=? 86400) balance_claim_claimed_too_often
  | None => assert_that (asset_eqb total_claimed (bo_balance b))
  end.
Definition balance_claim_apply (deposit_to_account balance_to_claim : Z) (total_claimed : asset)
    : M database operation_result :=
  b ← deref (V:=balance_object) balance_to_claim;
  t ← head_block_time;
  lt ← (match bo_vesting_policy b with
        | Some _ => lift (asset_lt total_claimed (bo_balance b))
        | None => mret false
        end);
  (if lt : bool then
     modify balance_to_claim (λ b,
       rest ← asset_sub (bo_balance b) total_claimed;
       Ok (BalanceObject (bo_owner b) rest (bo_vesting_policy b) t))
   else remove (V:=balance_object) balance_to_claim);;
  adjust_balance deposit_to_account total_claimed;;
  mret void_result.

(** ** Supply and fee pools *)
Definition asset_issue_evaluate (op_issuer : Z) (asset_to_issue : asset) (issue_to_account : Z) : M database unit :=
  a ← get (V:=asset_object) (asset_id asset_to_issue);
  assert_that (op_issuer =? issuer a);;
  assert_that (negb (is_market_issued a));;
  to_account ← get (V:=account_object) issue_to_account;
  assert_that (is_authorized_asset to_account (asset_id asset_to_issue) a);;
  d ← get (V:=asset_dynamic_data_object) (asset_id asset_to_issue);
  n ← lift (safe_add (current_supply d) (amount asset_to_issue));
  assert_that (n <=? max_supply (ao_options a)).
Definition asset_issue_apply (asset_to_issue : asset) (issue_to_account : Z) : M database operation_result :=
  adjust_balance issue_to_account asset_to_issue;;
  modify (V:=asset_dynamic_data_object) (asset_id asset_to_issue) (add_supply (amount asset_to_issue));;
  mret void_result.

Definition asset_reserve_evaluate (payer : Z) (amount_to_reserve : asset) : M database unit :=
  a ← get (V:=asset_object) (asset_id amount_to_reserve);
  require (negb (is_market_issued a)) asset_reserve_invalid_on_mia;;
  from_account ← get (V:=account_object) payer;
  assert_that (is_authorized_asset from_account (asset_id amount_to_reserve) a);;
  d ← get (V:=asset_dynamic_data_object) (asset_id amount_to_reserve);
  n ← lift (safe_sub (current_supply d) (amount amount_to_reserve));
  assert_that (n >=? 0).
Definition asset_reserve_apply (payer : Z) (amount_to_reserve : asset) : M database operation_result :=
  n ← negate amount_to_reserve;
  adjust_balance payer n;;
  modify (V:=asset_dynamic_data_object) (asset_id amount_to_reserve) (sub_supply (amount amount_to_reserve));;
  mret void_result.

Definition asset_fund_fee_pool_evaluate (asset_type : Z) : M database unit :=
  _ ← get (V:=asset_object) asset_type;
  _ ← get (V:=asset_dynamic_data_object) asset_type;
  mret tt.
Definition asset_fund_fee_pool_apply (from_account asset_type amt : Z) : M database operation_result :=
  n ← lift (safe_neg amt);
  adjust_balance from_account (Asset n CORE);;
  modify (V:=asset_dynamic_data_object) asset_type (add_fee_pool amt);;
  mret void_result.

Definition sub_accumulated (delta : Z) (d : asset_dynamic_data_object) : result asset_dynamic_data_object :=
  n ← safe_sub (accumulated_fees d) delta;
  Ok (AssetDynamicData (current_supply d) (confidential_supply d) n (fee_pool d)).

Definition asset_claim_fees_evaluate (op_issuer : Z) (amount_to_claim : asset) : M database unit :=
  a ← get (V:=asset_object) (asset_id amount_to_claim);
  assert_that (issuer a =? op_issuer).
Definition asset_claim_fees_apply (op_issuer : Z) (amount_to_claim : asset) : M database operation_result :=
  _ ← get (V:=asset_object) (asset_id amount_to_claim);
  d ← get (V:=asset_dynamic_data_object) (asset_id amount_to_claim);
  assert_that (amount amount_to_claim <=? accumulated_fees d);;
  modify (V:=asset_dynamic_data_object) (asset_id amount_to_claim) (sub_accumulated (amount amount_to_claim));;
  adjust_balance op_issuer amount_to_claim;;
  mret void_result.

Definition asset_claim_pool_evaluate (op_issuer asset_type : Z) : M database unit :=
  a ← get (V:=asset_object) asset_type;
  assert_that (issuer a =? op_issuer).
Definition asset_claim_pool_apply (op_issuer asset_type : Z) (amount_to_claim : asset) : M database operation_result :=
  _ ← get (V:=asset_object) asset_type;
  d ← get (V:=asset_dynamic_data_object) asset_type;
  assert_that (amount amount_to_claim <=? fee_pool d);;
  modify (V:=asset_dynamic_data_object) asset_type (sub_fee_pool (amount amount_to_claim));;
  adjust_balance op_issuer amount_to_claim;;
  mret void_result.

(** The evaluators of this file, by operation: the checks and the changes. *)
Definition ledger_evaluator (op : operation) : option (M database unit * M database operation_result) :=
  match op with
  | transfer_operation _ from to amt _ => Some (transfer_evaluate from to amt, transfer_apply from to amt)
  | override_transfer_operation _ i from to amt _ =>
      Some (override_transfer_evaluate i from to amt, override_transfer_apply from to amt)
  | htlc_create_operation _ from to amt hash size secs =>
      Some (htlc_create_evaluate from to amt size secs, htlc_create_apply from to amt hash size secs)
  | htlc_redeem_operation _ id redeemer preimage =>
      Some (htlc_redeem_evaluate id preimage, htlc_redeem_apply id redeemer)
  | htlc_extend_operation _ id update_issuer secs =>
      Some (htlc_extend_evaluate id update_issuer secs, htlc_extend_apply id secs)
  | withdraw_permission_create_operation _ from auth limit period periods start =>
      Some (withdraw_permission_create_evaluate from auth limit period periods start,
            withdraw_permission_create_apply from auth limit period periods start)
  | withdraw_permission_update_operation _ from auth id limit period start periods =>
      Some (withdraw_permission_update_evaluate from auth id limit period start periods,
            withdraw_permission_update_apply id limit period start periods)
  | withdraw_permission_claim_operation _ id from to amt _ =>
      Some (withdraw_permission_claim_evaluate id from to amt, withdraw_permission_claim_apply id from to amt)
  | withdraw_permission_delete_operation _ from auth id =>
      Some (withdraw_permission_delete_evaluate from auth id, withdraw_permission_delete_apply id)
  | vesting_balance_create_operation _ creator owner amt policy =>
      Some (vesting_balance_create_evaluate creator owner amt policy,
            vesting_balance_create_apply creator owner amt policy)
  | vesting_balance_withdraw_operation _ id owner amt =>
      Some (vesting_balance_withdraw_evaluate id owner amt, vesting_balance_withdraw_apply id owner amt)
  | balance_claim_operation _ acct id key amt =>
      Some (balance_claim_evaluate id key amt, balance_claim_apply acct id amt)
  | asset_issue_operation _ i amt to _ => Some (asset_issue_evaluate i amt to, asset_issue_apply amt to)
  | asset_reserve_operation _ payer amt => Some (asset_reserve_evaluate payer amt, asset_reserve_apply payer amt)
  | asset_fund_fee_pool_operation _ from a amt =>
      Some (asset_fund_fee_pool_evaluate a, asset_fund_fee_pool_apply from a amt)
  | asset_claim_fees_operation _ i amt => Some (asset_claim_fees_evaluate i amt, asset_claim_fees_apply i amt)
  | asset_claim_pool_operation _ i a amt => Some (asset_claim_pool_evaluate i a, asset_claim_pool_apply i a amt)
  | _ => None
  end.

End evaluator.

(** ** What the evaluators leave alone *)
Notation reads := (keeps (@eq database)).
Ltac solve_reads := solve_keeps_with ltac:(fail).

Ltac read_step s1 E1 ::=
  lazymatch type of E1 with
  | get _ _ = _ => apply get_Ok in E1; destruct E1 as [-> E1]
  | deref _ _ = _ => apply deref_Ok in E1; destruct E1 as [-> E1]
  | find _ _ = _ => apply find_Ok in E1; destruct E1 as [-> E1]
  | gets _ _ = _ => unfold gets in E1; injection E1 as <- <-
  | head_block_time _ = _ => unfold head_block_time, gets in E1; injection E1 as <- <-
  | next_maint_time _ = _ => unfold next_maint_time, gets in E1; injection E1 as <- <-
  | get_parameters _ = _ => unfold get_parameters, gets in E1; injection E1 as <- <-
  | assert_that _ _ = _ => apply lift_Ok in E1; destruct E1 as [E1 ->]; apply fc_assert_Ok in E1
  | require _ _ _ = _ => apply lift_Ok in E1; destruct E1 as [E1 ->]; apply graphene_assert_Ok in E1
  | negate _ _ = _ => apply lift_Ok in E1; destruct E1 as [E1 ->]
  | lift _ _ = _ => apply lift_Ok in E1; destruct E1 as [E1 ->]
  | mret _ _ = _ => unfold mret, M_ret in E1; injection E1 as <- <-
  | _ => idtac
  end.

(** A handler that only reads keeps every preorder. *)
Lemma reads_keeps {A} R `{!PreOrder R} (m : M database A) : reads m → keeps R m.
Proof. intros H s r s' E. rewrite <- (H _ _ _ E). reflexivity. Qed.

Section evaluator_frames.
Context `{EX : Ext} (hash_of : Z → list Z → Z) (key_addresses : Z → list Z).

Lemma reads_get_balance o a : reads (get_balance o a).
Proof. unfold get_balance. solve_reads. Qed.
Lemma reads_require b x : reads (require b x).
Proof. apply keeps_lift, _. Qed.
Lemma reads_negate a : reads (negate a).
Proof. apply keeps_lift, _. Qed.
Hint Resolve reads_get_balance reads_require reads_negate : graphene.
Lemma reads_assert_balance o a : reads (assert_balance o a).
Proof. unfold assert_balance. solve_reads. Qed.
Lemma reads_assert_found {K V} `{Table K V} (k : K) : reads (assert_found (V:=V) k).
Proof. unfold assert_found. solve_reads. Qed.
Lemma reads_htlc_options : reads get_committee_htlc_options.
Proof. unfold get_committee_htlc_options. solve_reads. Qed.
Hint Resolve reads_assert_balance reads_htlc_options : graphene.
Hint Extern 1 (reads (assert_found _)) => apply reads_assert_found : graphene.
Lemma reads_prepare_fee acct fee : reads (prepare_fee acct fee).
Proof. unfold prepare_fee. solve_reads. Qed.
Lemma reads_check_fee sk op core : reads (check_fee sk op core).
Proof. unfold check_fee. solve_reads. Qed.

Lemma ledger_reads op ev ap : ledger_evaluator hash_of key_addresses op = Some (ev, ap) → reads ev.
Proof.
  destruct op; intros [= <- _];
    unfold transfer_evaluate, override_transfer_evaluate, htlc_create_evaluate, htlc_redeem_evaluate,
      htlc_extend_evaluate, withdraw_permission_create_evaluate, withdraw_permission_claim_evaluate,
      withdraw_permission_update_evaluate, withdraw_permission_delete_evaluate,
      vesting_balance_create_evaluate, check_vesting_balance_policy_hf_1268,
      vesting_balance_withdraw_evaluate, balance_claim_evaluate, asset_issue_evaluate,
      asset_reserve_evaluate, asset_fund_fee_pool_evaluate, asset_claim_fees_evaluate,
      asset_claim_pool_evaluate; solve_reads.
Qed.

Lemma books_reads {A} (m : M database A) : reads m → bookkeeping m.
Proof. apply reads_keeps, _. Qed.
Hint Extern 3 (bookkeeping _) => apply books_reads; solve [eauto with graphene nocore] : graphene.

Lemma books_convert_fee f n : bookkeeping (convert_fee f n).
Proof. unfold convert_fee. solve_books. Qed.
Lemma books_pay_fee p n : bookkeeping (pay_fee_default p n).
Proof. unfold pay_fee_default. solve_books. Qed.
Lemma books_move f t a : bookkeeping (move_balance f t a).
Proof. unfold move_balance. solve_books. Qed.
Hint Resolve books_move : graphene.

(** Claiming a genesis balance is the only change to them. *)
Lemma ledger_books op ev ap :
  ledger_evaluator hash_of key_addresses op = Some (ev, ap) →
  match op with balance_claim_operation _ _ _ _ _ => False | _ => True end → bookkeeping ap.
Proof.
  destruct op; intros [= _ <-] ?; try done;
    unfold transfer_apply, override_transfer_apply, htlc_create_apply, htlc_redeem_apply,
      htlc_extend_apply, withdraw_permission_create_apply, withdraw_permission_claim_apply,
      withdraw_permission_update_apply, withdraw_permission_delete_apply,
      vesting_balance_create_apply, vesting_balance_withdraw_apply, asset_issue_apply, asset_reserve_apply,
      asset_fund_fee_pool_apply, asset_claim_fees_apply, asset_claim_pool_apply; solve_books.
Qed.

End evaluator_frames.
#[export] Hint Resolve reads_get_balance reads_require reads_negate reads_assert_balance reads_htlc_options
  reads_prepare_fee reads_check_fee books_convert_fee books_pay_fee books_move : graphene.
#[export] Hint Extern 3 (bookkeeping _) => apply books_reads; solve [eauto with graphene nocore] : graphene.

(** A part of the state that stays the same. *)
Definition unchanged {A} (f : database → A) (s s' : database) : Prop := f s' = f s.
#[export] Instance unchanged_preorder {A} (f : database → A) : PreOrder (unchanged f).
Proof. split; [intros s; done|intros s1 s2 s3 H1 H2; unfold unchanged in *; congruence]. Qed.

(** ** What the evaluators do to the totals *)

(** The change of the supply an operation asks for. *)
Definition supply_change (op : operation) : asset :=
  match op with
  | asset_issue_operation _ _ amt _ _ => amt
  | asset_reserve_operation _ _ amt => Asset (- amount amt) (asset_id amt)
  | _ => default_asset
  end.

Section evaluator_effects.
Context `{EX : Ext} (hash_of : Z → list Z → Z) (key_addresses : Z → list Z).
Context (c e q : Z → Z) (g : Z).
Local Notation μ := (linear_weights c e q g).

Lemma asset_neg_Ok a n : asset_neg a = Ok n → n = Asset (- amount a) (asset_id a).
Proof. unfold asset_neg. intros. monad_inv. by safe_inv. Qed.

Lemma vbo_withdraw_amount v t a v' :
  withdraw v t a = Ok v' →
  asset_id (vbo_balance v') = asset_id (vbo_balance v) ∧ asset_id a = asset_id (vbo_balance v) ∧
  amount (vbo_balance v') = amount (vbo_balance v) - amount a.
Proof. unfold withdraw. intros E. monad_inv. apply asset_sub_Ok in H as [? ->]. done. Qed.

Lemma effect_move f t a : effect μ (move_balance f t a) (λ _, 0).
Proof.
  intros s [] s' E. unfold move_balance, negate in E. bind E as n Hn. bind E as [] H1.
  apply asset_neg_Ok in Hn as ->. apply (effect_adjust_balance c e q g) in H1, E. cbn in H1. lia.
Qed.

Lemma effect_sub_supply id x : effect μ (modify id (sub_supply x)) (λ _, - (e id * x)).
Proof. apply effect_modify. intros v w E. unfold sub_supply in E. monad_inv. safe_inv. cbn. lia. Qed.
Lemma effect_add_supply id x : effect μ (modify id (add_supply x)) (λ _, e id * x).
Proof. apply effect_modify. intros v w E. unfold add_supply in E. monad_inv. safe_inv. cbn. lia. Qed.
Lemma effect_sub_fee_pool id x : effect μ (modify id (sub_fee_pool x)) (λ _, - (c CORE * x)).
Proof. apply effect_modify. intros v w E. unfold sub_fee_pool in E. monad_inv. safe_inv. cbn. lia. Qed.
Lemma effect_sub_accumulated id x : effect μ (modify id (sub_accumulated x)) (λ _, - (c id * x)).
Proof. apply effect_modify. intros v w E. unfold sub_accumulated in E. monad_inv. safe_inv. cbn. lia. Qed.

(** The fee moves from the account (when it is deducted at the end) to the
    statistics of the payer, through the fee pool if it is not core. *)
Lemma effect_convert_fee f core :
  effect μ (convert_fee f core)
    (λ _, if asset_id f =? CORE then 0 else c (asset_id f) * amount f - c CORE * core).
Proof.
  unfold convert_fee, when. destruct (asset_id f =? CORE); cbn; [by apply effect_ret|].
  apply effect_modify. intros v w E. unfold add_accumulated, sub_fee_pool in E. monad_inv. safe_inv. cbn. lia.
Qed.
Lemma effect_pay_fee_default p core : effect μ (pay_fee_default p core) (λ _, c CORE * core).
Proof. intros s [] s' E. unfold pay_fee_default in E. bind_step E. by apply (effect_pay_fee c e q g) in E. Qed.

Lemma prepare_fee_core acct fee s core s' :
  prepare_fee acct fee s = Ok (core, s') → 0 ≤ amount fee ∧ 0 ≤ core ∧ (asset_id fee = CORE → core = amount fee).
Proof.
  intros E. unfold prepare_fee in E. do 6 bind_step E. destruct (asset_id fee =? CORE) eqn:Ec; bool_to_prop.
  - ret_inv E. done.
  - bind E as x Hm. do 2 bind_step E. ret_inv E. split_and!; [done| |done].
    apply asset_mul_range in Hm. lia.
Qed.

(** No more than the balance can be claimed from a genesis balance. *)
Lemma linear_allowed_le p b t x r :
  wf_genesis b → bo_vesting_policy b = Some p → u32_ok t →
  linear_get_allowed_withdraw p (VestingPolicyContext (bo_balance b) t x) = Ok r →
  amount r ≤ amount (bo_balance b) ∧ asset_id r = asset_id (bo_balance b).
Proof.
  intros [Hb Hp] Ep Ht E. rewrite Ep in Hp. destruct Hp as (H1 & H2 & H3). unfold u32_ok in *.
  unfold linear_get_allowed_withdraw in E. cbn in E.
  apply result_bind_Ok in E as (w & Ew & E). injection E as <-. split; [|done]. cbn.
  destruct (t >? begin_timestamp p) eqn:Et; [|by simplify_eq]. bool_to_prop.
  rewrite tps_diff_spec in Ew by lia. destruct (_ >=? _); [|by simplify_eq].
  monad_inv. safe_inv. destruct (t - begin_timestamp p <? vesting_duration_seconds p) eqn:El; [|lia].
  bool_to_prop. pose proof (mul_int64_le_u128 (begin_balance p) (t - begin_timestamp p) H1
    ltac:(unfold_widths; lia)).
  rewrite u128_mul_int64, u128_div_spec by (unfold_widths; lia).
  assert (0 ≤ begin_balance p * (t - begin_timestamp p) / vesting_duration_seconds p ≤ begin_balance p).
  { split; [apply Z.div_pos; nia|apply Z.div_le_upper_bound; nia]. }
  rewrite u128_to_int64_spec by lia. lia.
Qed.

Lemma balance_claim_effect id key amt acct s s1 r s2 :
  wf_market s → balance_claim_evaluate key_addresses id key amt s = Ok (tt, s) → same_books s s1 →
  balance_claim_apply acct id amt s1 = Ok (r, s2) → total μ s2 = total μ s1 ∧ wf_market s2.
Proof.
  intros W Ev B Ap. assert (wf_market s1) as W1 by by eapply wf_step_books.
  unfold balance_claim_evaluate in Ev. bind Ev as b Hb. bind_step Ev.
  bind Ev as [] Hid. bool_to_prop. bind_step Ev. cbn in Hb. pose proof (wm_genesis _ W _ _ Hb) as Wb. cbn in Wb.
  unfold balance_claim_apply in Ap. bind Ap as b' Hb'. cbn in Hb'.
  assert (b' = b) as -> by (rewrite (sb_genesis _ _ B) in Hb'; congruence). bind_step Ap. bind Ap as lt Hlt.
  match type of Hlt with _ ?x = Ok (_, ?y) => assert (y = x) as Es end.
  { destruct (bo_vesting_policy b); [by apply lift_Ok in Hlt as [_ ?]|by ret_inv Hlt]. }
  rewrite Es in *. clear Es. bind Ap as [] H3. bind Ap as [] H4. ret_inv Ap.
  assert (lt = false → amount amt = amount (bo_balance b)) as Heq.
  { intros ->. destruct (bo_vesting_policy b) as [p|] eqn:Ep.
    - bind Ev as ok Hok. bind_step Ev. subst ok. unfold linear_is_withdraw_allowed in Hok. cbn in Hok.
      rewrite (proj2 (Z.eqb_eq _ _) Hid) in Hok. apply result_bind_Ok in Hok as (w & Hw & Hle).
      apply linear_allowed_le in Hw as [Hw _]; [|done..|by apply (wm_time _ W)].
      apply asset_le_cmp in Hle. symmetry in Hle. apply lift_Ok in Hlt as [Hlt _].
      apply asset_lt_Ok in Hlt as [_ Hlt]. symmetry in Hlt. bool_to_prop. lia.
    - apply lift_Ok in Ev as [Ev _]. apply fc_assert_Ok in Ev. unfold asset_eqb in Ev. bool_to_prop. done. }
  apply books_adjust_balance in H4 as B4. apply (effect_adjust_balance c e q g) in H4 as ->.
  destruct lt.
  - apply (total_modify μ) in H3 as (v & w & Hv & Ef & Es & ->). cbn in Hv.
    assert (v = b) as -> by congruence. apply result_bind_Ok in Ef as (x & Ex & Ef). injection Ef as <-.
    apply asset_sub_Ok in Ex as [_ ->]. split; [cbn; rewrite Hid; lia|].
    eapply wf_step_books; [exact B4|]. rewrite Es. destruct W1. split; cbn; try done.
    apply map_Forall_insert_2; [|done]. destruct Wb as [Wb Wp]. split; [|done]. cbn.
    destruct (bo_vesting_policy b); [|by ret_inv Hlt]. apply lift_Ok in Hlt as [Hlt _].
    apply asset_lt_Ok in Hlt as [_ Hlt]. symmetry in Hlt. bool_to_prop. lia.
  - apply (total_remove μ) in H3 as (v & Hv & Es & ->). cbn in Hv. assert (v = b) as -> by congruence.
    split; [cbn; rewrite Hid, Heq by done; lia|].
    eapply wf_step_books; [exact B4|]. rewrite Es. destruct W1. split; cbn; try done. by apply map_Forall_delete.
Qed.

(** Turns the successful steps of a handler into equations between totals. *)
Ltac totals :=
  repeat match goal with
  | H : move_balance _ _ _ _ = Ok _ |- _ => apply (effect_move) in H
  | H : adjust_balance _ _ _ = Ok _ |- _ => apply (effect_adjust_balance c e q g) in H
  | H : push_applied_operation _ _ = Ok _ |- _ => apply (effect_push c e q g _ (λ _, 0) eq_refl) in H
  | H : modify _ (add_supply _) _ = Ok _ |- _ => apply effect_add_supply in H
  | H : modify _ (sub_supply _) _ = Ok _ |- _ => apply effect_sub_supply in H
  | H : modify _ (add_fee_pool _) _ = Ok _ |- _ => apply (effect_add_fee_pool c e q g) in H
  | H : modify _ (sub_fee_pool _) _ = Ok _ |- _ => apply effect_sub_fee_pool in H
  | H : modify _ (sub_accumulated _) _ = Ok _ |- _ => apply effect_sub_accumulated in H
  | H : modify _ _ _ = Ok _ |- _ => apply (total_modify μ) in H; destruct H as (? & ? & _ & ? & _ & H)
  | H : remove _ _ = Ok _ |- _ => apply (total_remove μ) in H; destruct H as (? & _ & _ & H)
  | H : assert_balance _ _ _ = Ok _ |- _ => apply reads_assert_balance in H; subst
  | H : withdraw _ _ _ = Ok _ |- _ => apply vbo_withdraw_amount in H; destruct H as (? & ? & ?)
  | H : claim_permission _ _ _ = Ok _ |- _ => clear H
  | H : create _ _ = Ok _ |- _ => apply (total_create μ) in H; destruct H as (H & _ & _)
  | H : asset_neg _ = Ok _ |- _ => apply asset_neg_Ok in H; subst
  | H : safe_neg _ = Ok _ |- _ => apply safe_neg_Ok in H; destruct H as [-> _]
  end.

Lemma htlcs_adjust_balance acct d : keeps (unchanged htlcs) (adjust_balance acct d).
Proof. unfold adjust_balance. solve_keeps_with ltac:(done). Qed.

Lemma effect_htlc_redeem id r : effect μ (htlc_redeem_apply id r) (λ _, 0).
Proof.
  intros s x s' E. unfold htlc_redeem_apply in E. bind E as h Hh. bind E as [] H1. bind E as [] H2.
  bind E as [] H3. ret_inv E. apply (total_remove_at c e q g id _ _ h) in H3.
  - totals. rewrite H3, H2, H1. cbn. lia.
  - apply htlcs_adjust_balance in H1. injection H2 as <-. cbn. by rewrite H1.
Qed.

Lemma validated_claim_pool fee i a x :
  operation_validate (asset_claim_pool_operation fee i a x) = Ok tt → asset_id x = CORE.
Proof. simpl. unfold asset_claim_pool_validate. intros. monad_inv. by bool_to_prop. Qed.

Lemma effect_ledger op ev ap :
  ledger_evaluator hash_of key_addresses op = Some (ev, ap) → operation_validate op = Ok tt →
  match op with balance_claim_operation _ _ _ _ _ => False | _ => True end →
  effect μ ap (λ _, (c (asset_id (supply_change op)) + e (asset_id (supply_change op))) * amount (supply_change op)).
Proof.
  destruct op; intros [= _ <-] Hv ?; try done; intros s r s' E;
    try (apply effect_htlc_redeem in E; cbn; lia);
    unfold transfer_apply, override_transfer_apply, htlc_create_apply,
      htlc_extend_apply, withdraw_permission_create_apply, withdraw_permission_claim_apply,
      withdraw_permission_update_apply, withdraw_permission_delete_apply,
      vesting_balance_create_apply, vesting_balance_withdraw_apply, asset_issue_apply, asset_reserve_apply,
      asset_fund_fee_pool_apply, asset_claim_fees_apply, asset_claim_pool_apply in E;
    bind_steps E; ret_inv E; totals; cbn in *; simplify_eq; cbn in *; try lia.
  - match goal with H1 : asset_id amt = _, H2 : asset_id (vbo_balance _) = _, H3 : amount (vbo_balance _) = _ |- _ =>
      rewrite H2, H3 in *; rewrite H1 in * end. lia.
  - apply (validated_claim_pool fee issuer) in Hv. rewrite Hv in *. lia.
Qed.

(** The changes of an operation whose checks passed, after its fee was paid. *)
Lemma ledger_effect op ev ap s s1 r s2 :
  ledger_evaluator hash_of key_addresses op = Some (ev, ap) → operation_validate op = Ok tt → wf_market s →
  ev s = Ok (tt, s) → same_books s s1 → ap s1 = Ok (r, s2) →
  total μ s2 = total μ s1
    + (c (asset_id (supply_change op)) + e (asset_id (supply_change op))) * amount (supply_change op)
  ∧ wf_market s2.
Proof.
  intros Hop Hv W Ev B Ap.
  assert (match op with balance_claim_operation _ _ _ _ _ => False | _ => True end
          ∨ ∃ fee acct id key amt, op = balance_claim_operation fee acct id key amt) as [Hn|Hc]
    by (destruct op; eauto 10).
  - split; [by eapply effect_ledger|]. eapply wf_step_books; [by eapply ledger_books|].
    by eapply wf_step_books.
  - destruct Hc as (fee & acct & id & key & amt & ->). injection Hop as <- <-.
    destruct (balance_claim_effect _ _ _ _ _ _ _ _ W Ev B Ap) as [-> ?]. split; [cbn; lia|done].
Qed.

End evaluator_effects.
