(* ===== verification/MarketOps.v ===== *)
(** * Evaluators of the market and of market-issued assets

    market_evaluator.cpp (limit orders, debt positions, collateral bids), the
    settlement and feed operations of asset_evaluator.cpp, and the median of the
    published feeds of asset_object.cpp.  [std::nth_element] leaves open which of
    several equivalent elements ends up in the middle, so it is a parameter. *)

From S2P Require Import Prelude External Asset Authority Operations Block Vesting State Balance Fill Market Trade.
From S2P Require Import Evaluator.

(** ** The median feed *)

(** [std::nth_element( begin, begin + n, end, less )]: the range afterwards. *)
Definition nth_element_t : Type := (price_feed → price_feed → bool) → nat → list price_feed → list price_feed.

Section feeds.
Context `{EX : Ext} (nth_element : nth_element_t).

(** The feeds in the order of their publishers. *)
Definition publisher_le (a b : Z * (Z * price_feed)) : Prop := a.1 ≤ b.1.
#[local] Instance publisher_le_dec : RelDecision publisher_le := λ a b, Z_le_dec a.1 b.1.
Definition feeds_in_order (m : gmap Z (Z * price_feed)) : list (Z * price_feed) :=
  snd <$> merge_sort publisher_le (map_to_list m).

(** Published within the lifetime, and at all. *)
Definition feed_alive (o : bitasset_options) (current_time : Z) (f : Z * price_feed) : bool :=
  (tps_diff current_time f.1 <? feed_lifetime_sec o) && negb (f.1 =? 0).
Definition alive_feeds (b : asset_bitasset_data_object) (current_time : Z) : list (Z * price_feed) :=
  filter (λ f, feed_alive (bad_options b) current_time f = true) (feeds_in_order (feeds b)).

(** The element in the middle and the range after [nth_element]. *)
Definition median_by (less : price_feed → price_feed → bool) (l : list price_feed)
    : result (price_feed * list price_feed) :=
  let n := Nat.div2 (length l) in let l' := nth_element less n l in
  match l' !! n with
  | Some f => Ok (f, l')
  | None => Err undefined_behaviour
  end.

Definition median_feed (l : list price_feed) : result price_feed :=
  r1 ← median_by (λ a b, price_ltb (settlement_price a) (settlement_price b)) l;
  r2 ← median_by (λ a b, maintenance_collateral_ratio a <? maintenance_collateral_ratio b) r1.2;
  r3 ← median_by (λ a b, maximum_short_squeeze_ratio a <? maximum_short_squeeze_ratio b) r2.2;
  r4 ← median_by (λ a b, price_ltb (core_exchange_rate a) (core_exchange_rate b)) r3.2;
  Ok (PriceFeed (settlement_price r1.1) (core_exchange_rate r4.1) (maintenance_collateral_ratio r2.1)
        (maximum_short_squeeze_ratio r3.1)).

Definition set_feed (f : price_feed) (publication_time : Z) (mc : price) (cer_updated : bool)
    (b : asset_bitasset_data_object) : asset_bitasset_data_object :=
  AssetBitassetData (bad_options b) (feeds b) f publication_time mc (is_prediction_market b)
    (force_settled_volume b) (bad_settlement_price b) (settlement_fund b) (asset_cer_updated b) cer_updated.

Definition update_median_feeds (current_time next_maintenance_time : Z) (b : asset_bitasset_data_object)
    : result asset_bitasset_data_object :=
  let after_core_hardfork_1270 := next_maintenance_time >? HARDFORK_CORE_1270_TIME in
  let alive := alive_feeds b current_time in
  let publication_time := foldr Z.min current_time alive.*1 in
  let current_feeds := alive.*2 in
  if Z.of_nat (length current_feeds) <? minimum_feeds (bad_options b) then
    Ok (set_feed default_price_feed current_time
          (if after_core_hardfork_1270 then default_price else current_maintenance_collateralization b) false b)
  else
    f ← (match current_feeds with
         | [f] => Ok f
         | _ => median_feed current_feeds
         end);
    mc ← (if after_core_hardfork_1270 then maintenance_collateralization f
          else Ok (current_maintenance_collateralization b));
    Ok (set_feed f publication_time mc
          (feed_cer_updated b
           || negb (price_eqb (core_exchange_rate (current_feed b)) (core_exchange_rate f))) b).

End feeds.

Section market_ops.
Context `{EX : Ext} (nth_element : nth_element_t).
(** The bound on the rounds of the matching loops. *)
Context (fuel : nat).

(** ** Limit orders *)
Definition limit_order_create_evaluate (seller : Z) (sell recv : asset) (expiration : Z) : M database unit :=
  t ← head_block_time;
  assert_that (expiration >=? t);;
  acct ← get (V:=account_object) seller;
  sell_asset ← get (V:=asset_object) (asset_id sell);
  receive_asset ← get (V:=asset_object) (asset_id recv);
  when (negb (size (whitelist_markets (ao_options sell_asset)) =? 0)%nat)
    (assert_that (bool_decide (asset_id recv ∈ whitelist_markets (ao_options sell_asset))));;
  when (negb (size (blacklist_markets (ao_options sell_asset)) =? 0)%nat)
    (assert_that (bool_decide (asset_id recv ∉ blacklist_markets (ao_options sell_asset))));;
  assert_that (is_authorized_asset acct (asset_id sell) sell_asset);;
  assert_that (is_authorized_asset acct (asset_id recv) receive_asset);;
  assert_balance seller sell.

(** [limit_order_create_evaluator::convert_fee] and [pay_fee]: the fee of an order
    is deferred until the order is filled or cancelled. *)
Definition limit_order_convert_fee (fee : asset) (core_fee_paid : Z) : M database unit :=
  t ← head_block_time;
  if t <=? HARDFORK_CORE_604_TIME then convert_fee fee core_fee_paid
  else
    when (negb (asset_id fee =? CORE))
      (modify (V:=asset_dynamic_data_object) (asset_id fee) (sub_fee_pool core_fee_paid)).
Definition limit_order_pay_fee (payer : Z) (fee : asset) (core_fee_paid : Z) : M database (Z * asset) :=
  t ← head_block_time;
  if t <=? HARDFORK_445_TIME then pay_fee_default payer core_fee_paid;; mret (0, default_asset)
  else
    mret (core_fee_paid,
          if (t >? HARDFORK_CORE_604_TIME) && negb (asset_id fee =? CORE) then fee else default_asset).

Definition limit_order_create_apply (seller : Z) (sell recv : asset) (expiration : Z) (fill_or_kill : bool)
    (deferred : Z * asset) : M database operation_result :=
  when (asset_id sell =? CORE)
    (_ ← get (V:=account_statistics_object) seller;
     modify seller (add_core_in_orders (amount sell)));;
  n ← negate sell;
  adjust_balance seller n;;
  p ← lift (price_div sell recv);
  order_id ← create (V:=limit_order_object) (λ _,
               LimitOrder expiration seller (amount sell) p deferred.1 deferred.2);
  maint_time ← next_maint_time;
  filled ← (if maint_time <=? HARDFORK_CORE_625_TIME
            then apply_order_before_hardfork_625 fuel order_id true
            else apply_order fuel order_id);
  assert_that (negb fill_or_kill || filled);;
  mret (object_id_result order_id).

Definition limit_order_cancel_evaluate (fee_paying_account order : Z) : M database unit :=
  o ← get (V:=limit_order_object) order;
  assert_that (seller o =? fee_paying_account).
Definition limit_order_cancel_apply (order : Z) : M database operation_result :=
  o ← deref (V:=limit_order_object) order;
  cancel_limit_order order false false;;
  maint_time ← next_maint_time;
  when (maint_time <=? HARDFORK_CORE_606_TIME)
    (_ ← get (V:=asset_object) (asset_id (base (sell_price o)));
     _ ← check_call_orders fuel (asset_id (base (sell_price o))) true false;
     _ ← get (V:=asset_object) (asset_id (quote (sell_price o)));
     _ ← check_call_orders fuel (asset_id (quote (sell_price o))) true false;
     mret tt);;
  mret (asset_result (amount_for_sale o)).

(** ** Debt positions *)
Definition call_order_update_evaluate (funding_account : Z) (delta_collateral delta_debt : asset)
    : M database unit :=
  maint_time ← next_maint_time;
  _ ← get (V:=account_object) funding_account;
  debt_asset ← get (V:=asset_object) (asset_id delta_debt);
  assert_that (is_market_issued debt_asset);;
  dyn ← get (V:=asset_dynamic_data_object) (asset_id delta_debt);
  n ← lift (safe_add (current_supply dyn) (amount delta_debt));
  when (negb (maint_time <=? SOFTFORK_CORE_1465_TIME))
    (assert_that (n <=? max_supply (ao_options debt_asset)));;
  assert_that (n >=? 0);;
  bitasset ← get_bitasset_data (asset_id delta_debt) debt_asset;
  assert_that (negb (has_settlement bitasset));;
  assert_that (asset_id delta_collateral =? short_backing_asset (bad_options bitasset));;
  if is_prediction_market bitasset then assert_that (amount delta_collateral =? amount delta_debt)
  else require (negb (price_is_null (settlement_price (current_feed bitasset)))) insufficient_feeds.

(** [by_account]: the debt position of an account in an asset. *)
Definition find_call (borrower_ debt_asset : Z) : M database (option (Z * call_order_object)) :=
  gets (λ s, head (filter (λ x : Z * call_order_object,
                     borrower x.2 = borrower_ ∧ debt_type x.2 = debt_asset) (map_to_list (call_orders s)))).

(** The new or changed debt position: its id and its collateralization and debt
    before the change; [None] when it was closed. *)
Definition update_call (funding_account : Z) (delta_collateral delta_debt : asset) (target_cr : option Z)
    (mcr : Z) (before_core_hardfork_1270 : bool) : M database (Z * option (option (price * Z))) :=
  itr ← find_call funding_account (asset_id delta_debt);
  match itr with
  | None =>
      assert_that (amount delta_collateral >? 0);;
      assert_that (amount delta_debt >? 0);;
      cp ← lift (if before_core_hardfork_1270 then call_price delta_debt delta_collateral mcr
                 else Ok (Price (Asset 1 (asset_id delta_collateral)) (Asset 1 (asset_id delta_debt))));
      id ← create (V:=call_order_object) (λ _,
             CallOrder funding_account (amount delta_collateral) (amount delta_debt) cp target_cr);
      mret (id, Some None)
  | Some (id, call) =>
      new_collateral ← lift (safe_add (collateral call) (amount delta_collateral));
      new_debt ← lift (safe_add (debt call) (amount delta_debt));
      if new_debt =? 0 then
        assert_that (new_collateral =? 0);;
        remove (V:=call_order_object) id;;
        mret (id, None)
      else
        assert_that ((new_collateral >? 0) && (new_debt >? 0));;
        old ← lift (collateralization call);
        modify id (λ c,
          cp ← (if before_core_hardfork_1270
                then call_price (Asset new_debt (debt_type c)) (Asset new_collateral (collateral_type c)) mcr
                else Ok (co_call_price c));
          Ok (CallOrder (borrower c) new_collateral new_debt cp target_cr));;
        mret (id, Some (Some (old, debt call)))
  end.

(** The position must not be left in a state that would be called. *)
Definition check_updated_call (mia id : Z) (old : option (price * Z)) (before_core_hardfork_1270 : bool)
    : M database unit :=
  called ← check_call_orders fuel mia false false;
  call_obj ← find (V:=call_order_object) id;
  if called : bool then
    require (match call_obj with None => true | Some _ => false end) call_order_update_unfilled_margin_call
  else
    match call_obj with
    | None => throw assert_exception
    | Some call =>
        bitasset ← deref (V:=asset_bitasset_data_object) mia;
        let feed_price := settlement_price (current_feed bitasset) in
        t ← head_block_time;
        if t <=? HARDFORK_CORE_583_TIME then
          require (price_ltb (price_inv (co_call_price call)) feed_price) call_order_update_unfilled_margin_call
        else
          safe ← lift (if negb before_core_hardfork_1270
                       then cz ← collateralization call;
                            Ok (price_gtb cz (current_maintenance_collateralization bitasset))
                       else Ok (price_ltb (price_inv (co_call_price call)) feed_price));
          improved ← lift (match old with
                           | Some (old_collateralization, old_debt) =>
                               if debt call <=? old_debt
                               then cz ← collateralization call; Ok (price_gtb cz old_collateralization)
                               else Ok false
                           | None => Ok false
                           end);
          assert_that (safe || improved)
    end.

(** The debt is created or paid back, the collateral taken or returned. *)
Definition move_debt (funding_account : Z) (delta_debt : asset) : M database unit :=
  when (negb (amount delta_debt =? 0))
    (adjust_balance funding_account delta_debt;;
     modify (V:=asset_dynamic_data_object) (asset_id delta_debt) (add_supply (amount delta_debt))).
Definition move_collateral (funding_account : Z) (delta_collateral : asset) : M database unit :=
  when (negb (amount delta_collateral =? 0))
    (n ← negate delta_collateral;
     adjust_balance funding_account n;;
     when (asset_id delta_collateral =? CORE)
       (_ ← get (V:=account_statistics_object) funding_account;
        modify funding_account (add_core_in_orders (amount delta_collateral)))).

Definition call_order_update_apply (funding_account : Z) (delta_collateral delta_debt : asset)
    (target_cr : option Z) : M database operation_result :=
  move_debt funding_account delta_debt;;
  move_collateral funding_account delta_collateral;;
  maint_time ← next_maint_time;
  let before_core_hardfork_1270 := maint_time <=? HARDFORK_CORE_1270_TIME in
  bitasset ← deref (V:=asset_bitasset_data_object) (asset_id delta_debt);
  r ← update_call funding_account delta_collateral delta_debt target_cr
        (maintenance_collateral_ratio (current_feed bitasset)) before_core_hardfork_1270;
  (match r.2 with
   | None => mret tt
   | Some old =>
       when (negb (is_prediction_market bitasset))
         (check_updated_call (asset_id delta_debt) r.1 old before_core_hardfork_1270)
   end);;
  mret (object_id_result r.1).

(** ** Collateral bids *)
Definition find_bid (debt_asset bidder_ : Z) : M database (option Z) :=
  gets (λ s, fst <$> head (filter (λ x : Z * collateral_bid_object,
                     asset_id (quote (inv_swan_price x.2)) = debt_asset ∧ bidder x.2 = bidder_)
                     (map_to_list (bids s)))).

(** The result is the bid that is replaced. *)
Definition bid_collateral_evaluate (bidder_ : Z) (additional_collateral debt_covered : asset)
    : M database (option Z) :=
  t ← head_block_time;
  assert_that (t >? HARDFORK_CORE_216_TIME);;
  _ ← get (V:=account_object) bidder_;
  debt_asset ← get (V:=asset_object) (asset_id debt_covered);
  assert_that (is_market_issued debt_asset);;
  bitasset ← get_bitasset_data (asset_id debt_covered) debt_asset;
  assert_that (has_settlement bitasset);;
  assert_that (asset_id additional_collateral =? short_backing_asset (bad_options bitasset));;
  assert_that (negb (is_prediction_market bitasset));;
  when (amount additional_collateral >? 0)
    (_ ← get (V:=asset_object) (short_backing_asset (bad_options bitasset));
     assert_balance bidder_ additional_collateral);;
  bid ← find_bid (asset_id debt_covered) bidder_;
  (match bid with
   | Some _ => mret tt
   | None => assert_that (amount debt_covered >? 0)
   end);;
  mret bid.
Definition bid_collateral_apply (bidder_ : Z) (additional_collateral debt_covered : asset) (bid : option Z)
    : M database operation_result :=
  (match bid with Some id => cancel_bid id false | None => mret tt end);;
  if amount debt_covered =? 0 then mret void_result
  else
    n ← negate additional_collateral;
    adjust_balance bidder_ n;;
    p ← lift (price_div additional_collateral debt_covered);
    _ ← create (V:=collateral_bid_object) (λ _, CollateralBid bidder_ p);
    mret void_result.

(** ** Settlement *)
Definition asset_global_settle_evaluate (op_issuer asset_to_settle : Z) (settle_price : price) : M database unit :=
  a ← get (V:=asset_object) asset_to_settle;
  assert_that (is_market_issued a);;
  assert_that (can_global_settle a);;
  assert_that (issuer a =? op_issuer);;
  d ← get (V:=asset_dynamic_data_object) asset_to_settle;
  assert_that (current_supply d >? 0);;
  bitasset ← get_bitasset_data asset_to_settle a;
  assert_that (negb (has_settlement bitasset));;
  lo ← lift (price_min (short_backing_asset (bad_options bitasset)) asset_to_settle);
  least ← gets (call_collateral_lower lo);
  match least with
  | None => throw assert_exception
  | Some (_, call) =>
      assert_that (debt_type call =? asset_to_settle);;
      x ← lift (asset_mul (get_debt call) settle_price);
      le ← lift (asset_le x (get_collateral call));
      assert_that le
  end.
Definition asset_global_settle_apply (asset_to_settle : Z) (settle_price : price) : M database operation_result :=
  globally_settle_asset asset_to_settle settle_price;; mret void_result.

Definition asset_settle_evaluate (account : Z) (amt : asset) : M database unit :=
  a ← get (V:=asset_object) (asset_id amt);
  assert_that (is_market_issued a);;
  bitasset ← get_bitasset_data (asset_id amt) a;
  assert_that (can_force_settle a || has_settlement bitasset);;
  t ← head_block_time;
  (if is_prediction_market bitasset then assert_that (has_settlement bitasset)
   else
     require (negb (price_is_null (settlement_price (current_feed bitasset))
                    && ((t <=? HARDFORK_CORE_216_TIME) || negb (has_settlement bitasset)))) insufficient_feeds);;
  _ ← get (V:=account_object) account;
  assert_balance account amt.

Definition sub_settlement_fund (x : Z) (b : asset_bitasset_data_object) : result asset_bitasset_data_object :=
  n ← safe_sub (settlement_fund b) x; Ok (set_settlement (bad_settlement_price b) n b).

(** What a holder of a settled asset receives and pays. *)
Definition settled_amounts (bitasset : asset_bitasset_data_object) (supply : Z) (amt : asset) (maint_time : Z)
    : result (asset * asset) :=
  x ← asset_mul amt (bad_settlement_price bitasset);
  settled_amount ← (if amount amt =? supply then Ok (Asset (settlement_fund bitasset) (asset_id x))
                    else fc_assert (amount x <=? settlement_fund bitasset);; Ok x);
  graphene_assert (negb ((amount settled_amount =? 0) && negb (is_prediction_market bitasset)
                         && (maint_time >? HARDFORK_CORE_184_TIME))) fc_exception;;
  pays ← (if negb (amount amt =? supply) && negb (amount settled_amount =? 0)
             && (maint_time >? HARDFORK_CORE_342_TIME)
          then multiply_and_round_up settled_amount (bad_settlement_price bitasset)
          else Ok amt);
  Ok (settled_amount, pays).

Definition asset_settle_apply (account : Z) (amt : asset) : M database operation_result :=
  a ← deref (V:=asset_object) (asset_id amt);
  bitasset ← get_bitasset_data (asset_id amt) a;
  if has_settlement bitasset then
    mia_dyn ← get (V:=asset_dynamic_data_object) (asset_id amt);
    maint_time ← next_maint_time;
    r ← lift (settled_amounts bitasset (current_supply mia_dyn) amt maint_time);
    let '(settled_amount, pays) := r in
    n ← negate pays;
    adjust_balance account n;;
    when (amount settled_amount >? 0)
      (modify (asset_id amt) (sub_settlement_fund (amount settled_amount));;
       adjust_balance account settled_amount);;
    modify (V:=asset_dynamic_data_object) (asset_id amt) (sub_supply (amount pays));;
    mret (asset_result settled_amount)
  else
    n ← negate amt;
    adjust_balance account n;;
    t ← head_block_time;
    id ← create (V:=force_settlement_object) (λ _,
           ForceSettlement account amt (tps_add t (force_settlement_delay_sec (bad_options bitasset))));
    mret (object_id_result id).

(** ** Feeds *)
Definition authorized_publisher (a : asset_object) (bitasset : asset_bitasset_data_object) (publisher : Z)
    : M database bool :=
  if has_flag (flags (ao_options a)) witness_fed_asset then
    w ← get (V:=account_object) GRAPHENE_WITNESS_ACCOUNT;
    mret (existsb (λ x : Z * Z, x.1 =? publisher) (account_auths (acc_active w)))
  else if has_flag (flags (ao_options a)) committee_fed_asset then
    w ← get (V:=account_object) GRAPHENE_COMMITTEE_ACCOUNT;
    mret (existsb (λ x : Z * Z, x.1 =? publisher) (account_auths (acc_active w)))
  else mret (bool_decide (is_Some (feeds bitasset !! publisher))).

Definition asset_publish_feed_evaluate (publisher asset_type : Z) (feed : price_feed) : M database unit :=
  a ← get (V:=asset_object) asset_type;
  assert_that (is_market_issued a);;
  bitasset ← get_bitasset_data asset_type a;
  t ← head_block_time;
  when (is_prediction_market bitasset || (t <=? HARDFORK_CORE_216_TIME))
    (assert_that (negb (has_settlement bitasset)));;
  assert_that (asset_id (quote (settlement_price feed)) =? short_backing_asset (bad_options bitasset));;
  (if t >? HARDFORK_480_TIME then
     when (negb (price_is_null (core_exchange_rate feed)))
       (assert_that (asset_id (quote (core_exchange_rate feed)) =? CORE))
   else
     when (negb (price_is_null (settlement_price feed)) && negb (price_is_null (core_exchange_rate feed)))
       (assert_that (asset_id (quote (settlement_price feed)) =? asset_id (quote (core_exchange_rate feed)))));;
  ok ← authorized_publisher a bitasset publisher;
  assert_that ok.

Definition set_feeds (m : gmap Z (Z * price_feed)) (b : asset_bitasset_data_object) : asset_bitasset_data_object :=
  AssetBitassetData (bad_options b) m (current_feed b) (current_feed_publication_time b)
    (current_maintenance_collateralization b) (is_prediction_market b) (force_settled_volume b)
    (bad_settlement_price b) (settlement_fund b) (asset_cer_updated b) (feed_cer_updated b).

(** [operator ==] of feeds, which leaves the core exchange rate out. *)
Definition price_feed_eqb (a b : price_feed) : bool :=
  price_eqb (settlement_price a) (settlement_price b)
  && (maintenance_collateral_ratio a =? maintenance_collateral_ratio b)
  && (maximum_short_squeeze_ratio a =? maximum_short_squeeze_ratio b).

(** Whether a settled asset comes back to life with the new feed. *)
Definition should_revive (mia supply : Z) (b : asset_bitasset_data_object) (maint_time : Z) : result bool :=
  if supply =? 0 then Ok true
  else
    let backing := short_backing_asset (bad_options b) in
    if maint_time <=? HARDFORK_CORE_1270_TIME then
      cp ← call_price (Asset supply mia) (Asset (settlement_fund b) backing)
             (maintenance_collateral_ratio (current_feed b));
      Ok (price_ltb (price_inv cp) (settlement_price (current_feed b)))
    else
      Ok (price_gtb (Price (Asset (settlement_fund b) backing) (Asset supply mia))
            (current_maintenance_collateralization b)).

Definition asset_publish_feed_apply (publisher asset_type : Z) (feed : price_feed) : M database operation_result :=
  t ← head_block_time;
  maint_time ← next_maint_time;
  bad ← deref (V:=asset_bitasset_data_object) asset_type;
  let old_feed := current_feed bad in
  modify asset_type (λ b,
    update_median_feeds nth_element t maint_time (set_feeds (<[publisher := (t, feed)]> (feeds b)) b));;
  bad ← deref (V:=asset_bitasset_data_object) asset_type;
  when (negb (price_feed_eqb old_feed (current_feed bad)))
    (when (has_settlement bad && negb (price_is_null (settlement_price (current_feed bad))))
       (mia_dyn ← get (V:=asset_dynamic_data_object) asset_type;
        revive ← lift (should_revive asset_type (current_supply mia_dyn) bad maint_time);
        when revive (revive_bitasset asset_type));;
     _ ← check_call_orders fuel asset_type true false;
     mret tt);;
  mret void_result.

End market_ops.
