(* ===== verification/Ledger.v ===== *)
(** * Conservation of the ledger by the market operations

    For every asset the holdings of all accounts, orders, pools and locks keep
    their relation to the recorded supply, and the core in orders agrees with the
    account statistics.  The file proves that each operation of the market keeps
    this; the next one puts the operations together. *)

From S2P Require Import Prelude External Asset Authority Operations Block Vesting State Balance Fill Market Trade.
From S2P Require Import Evaluator MarketOps.

(** The holdings of an asset less its supply, or the core in orders. *)
Definition lc (k : option Z) (x : Z) : Z := match k with Some a => ind (x =? a) 1 | None => 0 end.
Definition le (k : option Z) (x : Z) : Z := match k with Some a => ind (x =? a) (-1) | None => 0 end.
Definition lg (k : option Z) : Z := match k with Some _ => 0 | None => 1 end.
Definition ledger (k : option Z) : weights := linear_weights (lc k) (le k) (λ _, 0) (lg k).

Definition ledger_step (s s' : database) : Prop :=
  wf_market s → wf_market s' ∧ ∀ k, total (ledger k) s' = total (ledger k) s.
#[export] Instance ledger_step_preorder : PreOrder ledger_step.
Proof.
  split; [by intros s W|]. intros s1 s2 s3 H1 H2 W. destruct (H1 W) as [W2 T1]. destruct (H2 W2) as [W3 T2].
  split; [done|]. intros k. by rewrite T2.
Qed.

Lemma le_lc k x : le k x = - lc k x.
Proof. destruct k as [a|]; cbn; [|done]. unfold ind. by destruct (x =? a). Qed.

Lemma excess_ledger a s : excess a s = total (ledger (Some a)) s.
Proof. unfold excess, ledger. f_equal. Qed.
Lemma core_orders_ledger s : core_orders_excess s = total (ledger None) s.
Proof. unfold core_orders_excess, ledger. f_equal. Qed.

Lemma sound_ledger s s' : sound_step s s' → ledger_step s s'.
Proof.
  intros H W. destruct (H W) as [W' [A B _ _]]. split; [done|].
  intros [a|]; [rewrite <- !excess_ledger; apply A|rewrite <- !core_orders_ledger; apply B].
Qed.
Lemma sound_keeps_ledger {A} (m : M database A) : keeps sound_step m → keeps ledger_step m.
Proof. intros H s r s' E. by eapply sound_ledger, H. Qed.
Lemma ledger_total s s' k : ledger_step s s' → wf_market s → total (ledger k) s' = total (ledger k) s.
Proof. intros H W. by apply H. Qed.

Section ledger_ops.
Context `{EX : Ext} (nth_element : nth_element_t) (fuel : nat).

(** ** Cancelling and settling *)
Lemma sound_cancel_limit_order id v sk : keeps sound_step (cancel_limit_order id v sk).
Proof. apply sound_same_totals; eauto with graphene. intros c e q g. apply effect_cancel_limit_order. Qed.
Hint Resolve sound_cancel_limit_order : graphene.

Lemma ledger_limit_cancel id : keeps ledger_step (limit_order_cancel_apply fuel id).
Proof. apply sound_keeps_ledger. unfold limit_order_cancel_apply. solve_keeps_with ltac:(fail). Qed.

Lemma ledger_global_settle a p : keeps ledger_step (asset_global_settle_apply a p).
Proof. apply sound_keeps_ledger. unfold asset_global_settle_apply. solve_keeps_with ltac:(fail). Qed.

(** ** Bids *)
Lemma create_Ok {V} `{Table Z V} `{!Unique V} `{!Sequence V} (f : Z → V) s i s' :
  create f s = Ok (i, s') → s' = set_next (V:=V) (i + 1) (set_tbl (<[i := f i]> (tbl s)) s).
Proof.
  unfold create, add. destruct (tbl (V:=V) s !! _); [done|]. destruct (collides _ _ s); [done|]. by intros [= <- <-].
Qed.
Lemma modify_Ok {K V} `{Table K V} `{!Unique V} (k : K) (f : V → result V) s s' :
  modify k f s = Ok (tt, s') →
  ∃ v w, tbl s !! k = Some v ∧ f v = Ok w ∧ s' = set_tbl (<[k := w]> (tbl s)) s.
Proof.
  unfold modify. destruct (tbl s !! k) as [v|]; [|done]. destruct (f v) as [w|] eqn:Ef; [|done].
  destruct (collides k w s); [done|]. intros [= <-]. eauto.
Qed.

Lemma wf_create_bid f s i s' :
  create (V:=collateral_bid_object) f s = Ok (i, s') → bid_backed (bitassets s) (f i) → wf_step s s'.
Proof.
  intros E Hb [W1 W2 W3 W4 W5 W6 W7]. apply create_Ok in E as ->. split; cbn; try done.
  by apply map_Forall_insert_2.
Qed.
Lemma wf_create_call f s i s' :
  create (V:=call_order_object) f s = Ok (i, s') → call_backed (bitassets s) (f i) → wf_step s s'.
Proof.
  intros E Hb [W1 W2 W3 W4 W5 W6 W7]. apply create_Ok in E as ->. split; cbn; try done.
  by apply map_Forall_insert_2.
Qed.
Lemma wf_create_limit f s i s' :
  create (V:=limit_order_object) f s = Ok (i, s') → wf_limit (f i) → wf_step s s'.
Proof.
  intros E Hb [W1 W2 W3 W4 W5 W6 W7]. apply create_Ok in E as ->. split; cbn; try done.
  by apply map_Forall_insert_2.
Qed.

Lemma ledger_bid_collateral who ac dc bid s s1 r s2 :
  bid_collateral_evaluate who ac dc s = Ok (bid, s) → same_books s s1 →
  bid_collateral_apply who ac dc bid s1 = Ok (r, s2) → ledger_step s1 s2.
Proof.
  intros Ev B Ap. unfold bid_collateral_evaluate, get_bitasset_data in Ev. do 5 bind_step Ev.
  bind Ev as bad Hbad. bind_step Hbad. read_step s Hbad. bind_step Ev. bind Ev as [] Hid. clear Ev.
  unfold bid_collateral_apply in Ap. bind Ap as [] Hc.
  match type of Hc with _ = Ok (_, ?x) => assert (sound_step s1 x ∧ bitassets x = bitassets s1) as [S1 Bx] end.
  { destruct bid; [|ret_inv Hc; done]. split; [by eapply sound_cancel_bid|by eapply bitassets_cancel_bid]. }
  etransitivity; [by apply sound_ledger|]. destruct (amount dc =? 0); [ret_inv Ap; done|].
  bind Ap as n Hn. bind Ap as [] H1. bind Ap as p Hp. bind Ap as i Hi. ret_inv Ap.
  apply asset_neg_Ok in Hn as ->. unfold price_div in Hp. monad_inv. intros W. split.
  - eapply wf_create_bid; [exact Hi| |by eapply wf_step_books; [by eapply books_adjust_balance|]].
    intros b Hb. cbn in *. apply books_adjust_balance in H1. rewrite (sb_bitassets _ _ H1), Bx, (sb_bitassets _ _ B) in Hb.
    assert (b = bad) by congruence. bool_to_prop. congruence.
  - intros k. apply (effect_adjust_balance (lc k) (le k) (λ _, 0) (lg k)) in H1.
    apply (total_create (ledger k)) in Hi as (-> & _). cbn in *. unfold ledger. lia.
Qed.


(** ** Settlement of a holder *)
Lemma asset_mul_id a p b :
  asset_mul a p = Ok b → asset_id a = asset_id (base p) → asset_id b = asset_id (quote p).
Proof.
  intros E H. unfold asset_mul in E. rewrite (proj2 (Z.eqb_eq _ _) H) in E. monad_inv. done.
Qed.
Lemma round_up_id a p b :
  multiply_and_round_up a p = Ok b → asset_id a = asset_id (quote p) → asset_id b = asset_id (base p).
Proof.
  intros E H. unfold multiply_and_round_up in E. destruct (asset_id a =? asset_id (base p)) eqn:Eb; bool_to_prop.
  - monad_inv. cbn. congruence.
  - rewrite (proj2 (Z.eqb_eq _ _) H) in E. monad_inv. done.
Qed.

Lemma settled_amounts_ids b supply amt t sa pays :
  asset_id (base (bad_settlement_price b)) = asset_id amt → settled_amounts b supply amt t = Ok (sa, pays) →
  asset_id sa = asset_id (quote (bad_settlement_price b)) ∧ asset_id pays = asset_id amt.
Proof.
  intros Hb E. unfold settled_amounts in E. apply result_bind_Ok in E as (x & Ex & E).
  apply asset_mul_id in Ex; [|done]. apply result_bind_Ok in E as (y & Ey & E).
  assert (asset_id y = asset_id x) as Hy.
  { destruct (amount amt =? supply); [by injection Ey as <-|]. by apply result_bind_Ok in Ey as (? & _ & [= <-]). }
  apply result_bind_Ok in E as ([] & _ & E). apply result_bind_Ok in E as (p & Ep & E). injection E as -> ->.
  split; [congruence|]. destruct (_ && _); [|by injection Ep as <-]. apply round_up_id in Ep; congruence.
Qed.

(** Paying out of the settlement fund. *)
Lemma pay_settlement a b acct x s s' c e q g :
  bitassets s !! a = Some b → asset_id x = short_backing_asset (bad_options b) → has_settlement b = true →
  when (amount x >? 0) (modify a (sub_settlement_fund (amount x));; adjust_balance acct x) s = Ok (tt, s') →
  wf_step s s' ∧ total (linear_weights c e q g) s' = total (linear_weights c e q g) s.
Proof.
  intros Hb Hi Hs E. unfold when in E. destruct (_ >? 0); [|ret_inv E; done].
  bind E as [] H1. apply books_adjust_balance in E as B. apply (effect_adjust_balance c e q g) in E as ->.
  apply (total_modify (linear_weights c e q g)) in H1 as (v & w & Hv & Ew & Es & ->). cbn in Hv.
  assert (v = b) as -> by congruence. unfold sub_settlement_fund in Ew. monad_inv. safe_inv. split.
  - intros W. eapply wf_step_books; [exact B|]. eapply (wf_insert_bitasset s a b); [done|done| |done].
    pose proof (wm_funds _ W a b Hb) as Wb. unfold wf_bitasset in *. cbn. unfold has_settlement in *. cbn. by rewrite Hs in *.
  - cbn. rewrite Hi. lia.
Qed.

Lemma ledger_asset_settle acct amt : keeps ledger_step (asset_settle_apply acct amt).
Proof.
  intros s r s' E W. unfold asset_settle_apply, get_bitasset_data in E. bind E as a Ha. bind E as b Hb.
  bind_step Hb. read_step s Hb. cbn in Hb. pose proof (wm_funds _ W _ _ Hb) as Wb. unfold wf_bitasset in Wb.
  destruct (has_settlement b) eqn:Hs.
  - bind E as d Hd. bind_step E. bind E as x Hsa. destruct x as [sa pays]. bind E as n Hn. bind E as [] H1.
    bind E as [] H2. bind E as [] H3. ret_inv E. apply asset_neg_Ok in Hn as ->. destruct Wb as [Wb1 Wb2].
    apply settled_amounts_ids in Hsa as [I1 I2]; [|done]. apply books_adjust_balance in H1 as B1.
    assert (∀ c e q g, wf_step s0 s1 ∧ total (linear_weights c e q g) s1 = total (linear_weights c e q g) s0) as P.
    { intros. eapply (pay_settlement (asset_id amt) b acct sa); [|congruence|done|exact H2]. by rewrite (sb_bitassets _ _ B1). }
    split.
    + assert (wf_market s1) as W1 by (apply (proj1 (P (λ _, 0) (λ _, 0) (λ _, 0) 0)); by eapply wf_step_books).
      apply modify_Ok in H3 as (v & w & _ & _ & ->). by apply (wf_same s1).
    + intros k. apply (effect_sub_supply (lc k) (le k) (λ _, 0) (lg k)) in H3. unfold ledger. rewrite H3. destruct (P (lc k) (le k) (λ _, 0) (lg k)) as [_ ->].
      apply (effect_adjust_balance (lc k) (le k) (λ _, 0) (lg k)) in H1 as ->. cbn. rewrite I2.
      rewrite le_lc. lia.
  - bind E as n Hn. bind E as [] H1. bind_step E. bind E as i Hi. ret_inv E. apply asset_neg_Ok in Hn as ->. split.
    + apply create_Ok in Hi as ->. apply books_adjust_balance in H1.
      match goal with H : same_books _ ?x |- _ => apply (wf_same x); [done..|] end. by eapply wf_step_books.
    + intros k. apply (total_create (ledger k)) in Hi as (-> & _).
      apply (effect_adjust_balance (lc k) (le k) (λ _, 0) (lg k)) in H1. cbn in *. unfold ledger. lia.
Qed.


(** ** Revival and feeds *)
Lemma wf_cancel_bids ids : keeps wf_step (cancel_bids ids).
Proof. induction ids as [|i ids IH]; cbn; solve_wf. Qed.

Lemma wf_revive mia : keeps wf_step (revive_bitasset mia).
Proof.
  intros s [] s' E. unfold revive_bitasset, get_bitasset_data in E. bind E as a Ha. bind_step E. bind E as b Hb.
  bind_step Hb. read_step s Hb. cbn in Hb. bind_step E. bind E as d Hd. do 2 bind_step E. bind E as [] H1.
  transitivity s0.
  - destruct (current_supply d >? 0); [|by read_step s0 H1]. bind H1 as p Hp. bind H1 as i Hi.
    etransitivity; [|by eapply wf_execute_bid]. eapply wf_create_bid; [exact Hi|].
    unfold price_div in Hp. monad_inv. intros b' Hb'. cbn in *. congruence.
  - unfold _cancel_bids_and_revive_mpa in E. bind E as a' Ha'. bind_step E. bind E as b' Hb'. do 2 bind_step E.
    do 2 bind_step E. bind E as [] H2. etransitivity; [by eapply wf_cancel_bids|].
    apply modify_Ok in E as (v & w & Hv & [= <-] & ->). by eapply wf_insert_bitasset.
Qed.

Lemma ledger_revive mia : keeps ledger_step (revive_bitasset mia).
Proof.
  intros s [] s' E W. split; [by eapply wf_revive|]. apply revive_spec in E as (b & d & _ & _ & _ & _ & T).
  intros k. unfold ledger. rewrite T. lia.
Qed.

(** The median changes neither the settlement of an asset nor its options. *)
Lemma update_median_feeds_frame t mt b b' :
  update_median_feeds nth_element t mt b = Ok b' →
  bad_options b' = bad_options b ∧ settlement_fund b' = settlement_fund b ∧
  bad_settlement_price b' = bad_settlement_price b ∧ feeds b' = feeds b ∧
  is_prediction_market b' = is_prediction_market b ∧ force_settled_volume b' = force_settled_volume b.
Proof.
  unfold update_median_feeds. intros E. destruct (_ <? _); [by injection E as <-|].
  apply result_bind_Ok in E as (f & _ & E). apply result_bind_Ok in E as (mc & _ & E). by injection E as <-.
Qed.

Lemma ledger_modify_bitasset mia f :
  (∀ b b', f b = Ok b' → bad_options b' = bad_options b ∧ settlement_fund b' = settlement_fund b ∧
     bad_settlement_price b' = bad_settlement_price b) →
  keeps ledger_step (modify (V:=asset_bitasset_data_object) mia f).
Proof.
  intros Hf s [] s' E W. pose proof E as E'. apply modify_Ok in E' as (b & b' & Hb & Ef & Es).
  apply Hf in Ef as (H1 & H2 & H3). split.
  - rewrite Es. eapply (wf_insert_bitasset s mia b); [done|done| |done].
    pose proof (wm_funds _ W _ _ Hb) as Wb. unfold wf_bitasset, has_settlement in *. by rewrite H1, H2, H3.
  - intros k. apply (total_modify (ledger k)) in E as (v & w & Hv & Ew & _ & ->).
    apply Hf in Ew as (K1 & K2 & _). cbn. rewrite K1, K2. lia.
Qed.

Lemma ledger_publish_feed who mia feed : keeps ledger_step (asset_publish_feed_apply nth_element fuel who mia feed).
Proof.
  pose proof ledger_revive. pose proof (λ id en fo, sound_keeps_ledger _ (sound_check_call_orders fuel id en fo)).
  unfold asset_publish_feed_apply. solve_keeps_with ltac:(fail).
  apply ledger_modify_bitasset. intros b b' E. apply update_median_feeds_frame in E as (-> & -> & -> & _). done.
Qed.


(** ** Debt positions *)
Lemma effect_add_core_in_orders c e q g acct x :
  effect (linear_weights c e q g) (modify acct (add_core_in_orders x)) (λ _, - (g * x)).
Proof. apply effect_modify. intros v w E. unfold add_core_in_orders in E. monad_inv. safe_inv. cbn. lia. Qed.

Lemma find_call_Ok who a s r s' :
  find_call who a s = Ok (r, s') → s' = s ∧
  ∀ i o, r = Some (i, o) → call_orders s !! i = Some o ∧ borrower o = who ∧ debt_type o = a.
Proof.
  intros [= <- <-]. split; [done|]. intros i o Hr. apply head_Some_elem_of in Hr.
  apply list_elem_of_filter in Hr as [[H1 H2] Hr]. by apply elem_of_map_to_list in Hr.
Qed.

(** The position takes up the collateral. *)
Lemma update_call_spec who dc dd tcr mcr hf b s r s' :
  bitassets s !! asset_id dd = Some b → asset_id dc = short_backing_asset (bad_options b) →
  update_call who dc dd tcr mcr hf s = Ok (r, s') → wf_market s →
  wf_market s' ∧ ∀ c e g, total (linear_weights c e (λ _, 0) g) s' = total (linear_weights c e (λ _, 0) g) s
    + c (asset_id dc) * amount dc + ind (asset_id dc =? CORE) (g * amount dc).
Proof.
  intros Hb Hid E W. unfold update_call in E. bind E as itr Hi. apply find_call_Ok in Hi as [-> Hi].
  destruct itr as [[i o]|].
  - destruct (Hi i o eq_refl) as (Ho & _ & Hdt). pose proof (wm_calls _ W _ _ Ho b) as Hct. rewrite Hdt in Hct.
    specialize (Hct Hb). bind E as nc Hnc. bind E as nd Hnd. safe_inv. destruct (debt o + amount dd =? 0).
    + bind_step E. bind E as [] H1. ret_inv E. split; [by eapply wf_remove_call|]. intros c e g.
      apply (total_remove_at c e (λ _, 0) g i _ _ o) in H1; [|done]. rewrite H1. bool_to_prop. cbn.
      unfold ind. rewrite Hct, <- Hid. destruct (asset_id dc =? CORE); nia.
    + bind_step E. bind E as old Hold. bind E as [] H1. ret_inv E.
      assert (∀ c e g, ∃ o', collateral o' = collateral o + amount dc ∧ collateral_type o' = collateral_type o ∧
        debt_type o' = debt_type o ∧ s' = set_call_orders (<[i := o']> (call_orders s)) s ∧
        total (linear_weights c e (λ _, 0) g) s' = total (linear_weights c e (λ _, 0) g) s
          - w_call (linear_weights c e (λ _, 0) g) i o + w_call (linear_weights c e (λ _, 0) g) i o') as Ht.
      { intros c e g. apply (total_modify (linear_weights c e (λ _, 0) g)) in H1 as (v & w & Hv & Ew & Es & T).
        cbn in Hv. assert (v = o) as -> by congruence. apply result_bind_Ok in Ew as (cp & Hcp & [= <-]).
        eexists. split_and!; [| | |exact Es|exact T]; cbn; [done|..];
          (destruct hf; [by apply call_price_ids in Hcp as [? ?]|by injection Hcp as <-]). }
      split.
      * destruct (Ht (λ _, 0) (λ _, 0) 0) as (o' & _ & K1 & K2 & -> & _).
        destruct W as [W1 W2 W3 W4 W5 W6 W7]. split; cbn; try done. apply map_Forall_insert_2; [|done].
        unfold call_backed. rewrite K1, K2. by apply (W6 i).
      * intros c e g. destruct (Ht c e g) as (o' & K0 & K1 & K2 & _ & ->). cbn. unfold ind.
        rewrite K0, K1, Hct, <- Hid. destruct (asset_id dc =? CORE); lia.
  - do 2 bind_step E. bind E as cp Hcp. bind E as i Hc. ret_inv E.
    assert (asset_id (base cp) = asset_id dc ∧ asset_id (quote cp) = asset_id dd) as [K1 K2].
    { destruct hf; [by apply call_price_ids in Hcp as [-> ->]|by injection Hcp as <-]. }
    split.
    + eapply wf_create_call; [exact Hc| |done]. unfold call_backed, debt_type, collateral_type. cbn. rewrite K1, K2.
      intros b' Hb'. congruence.
    + intros c e g. apply (total_create (linear_weights c e (λ _, 0) g)) in Hc as (-> & _).
      cbn. unfold collateral_type, ind. cbn. rewrite K1. destruct (asset_id dc =? CORE); lia.
Qed.

Lemma ledger_check_updated_call mia id old hf : keeps ledger_step (check_updated_call fuel mia id old hf).
Proof.
  apply sound_keeps_ledger. unfold check_updated_call, require. solve_keeps_with ltac:(fail).
Qed.


Lemma move_debt_step who dd : keeps (λ s s', same_books s s' ∧ ∀ k, total (ledger k) s' = total (ledger k) s)
  (move_debt who dd).
Proof.
  intros s [] s' E. unfold move_debt, when in E. destruct (negb _); [|by ret_inv E]. bind E as [] H4.
  apply books_adjust_balance in H4 as B4. split.
  - etransitivity; [exact B4|]. revert E. apply (keeps_modify same_books). by split.
  - intros k. apply (effect_adjust_balance (lc k) (le k) (λ _, 0) (lg k)) in H4.
    apply (effect_add_supply (lc k) (le k) (λ _, 0) (lg k)) in E. unfold ledger. rewrite E, H4, le_lc. lia.
Qed.

Lemma move_collateral_step who dc :
  keeps (λ s s', same_books s s' ∧ ∀ k, total (ledger k) s' = total (ledger k) s
    - lc k (asset_id dc) * amount dc - ind (asset_id dc =? CORE) (lg k * amount dc)) (move_collateral who dc).
Proof.
  intros s [] s' E. unfold move_collateral, when in E. destruct (amount dc =? 0) eqn:E0; cbn [negb] in E.
  { ret_inv E. split; [done|]. bool_to_prop. intros k. rewrite E0. unfold ind. destruct (_ =? CORE); lia. }
  bind E as n Hn. bind E as [] H4. apply asset_neg_Ok in Hn as ->. apply books_adjust_balance in H4 as B4.
  match type of H4 with _ ?y = Ok (_, ?x) =>
    assert (∀ k, total (ledger k) x = total (ledger k) y - lc k (asset_id dc) * amount dc) as T4 end.
  { intros k. apply (effect_adjust_balance (lc k) (le k) (λ _, 0) (lg k)) in H4.
    cbn [amount asset_id] in H4. unfold ledger. lia. }
  unfold ind. destruct (_ =? CORE); [|ret_inv E; split; [done|intros k; rewrite T4; lia]].
  bind_step E. split.
  - etransitivity; [exact B4|]. revert E. apply (keeps_modify same_books). by split.
  - intros k. apply (effect_add_core_in_orders (lc k) (le k) (λ _, 0) (lg k)) in E. unfold ledger in *. rewrite E, T4. lia.
Qed.

(** The collateral asset of an accepted update is the backing asset. *)
Lemma call_update_backing who dc dd s :
  call_order_update_evaluate who dc dd s = Ok (tt, s) →
  ∃ b, bitassets s !! asset_id dd = Some b ∧ has_settlement b = false ∧
    asset_id dc = short_backing_asset (bad_options b).
Proof.
  intros Ev. unfold call_order_update_evaluate, get_bitasset_data in Ev. do 6 bind_step Ev. bind Ev as [] Hw.
  match type of Hw with _ = Ok (_, ?x) => assert (x = s) as -> end.
  { unfold when in Hw. destruct (negb _); [by read_step s Hw|by ret_inv Hw]. }
  bind_step Ev. bind Ev as b Hb. bind_step Hb. read_step s Hb. bind_step Ev. bind Ev as [] Hid. bool_to_prop. eauto.
Qed.

Lemma ledger_call_update who dc dd tcr s s1 r s2 :
  call_order_update_evaluate who dc dd s = Ok (tt, s) → same_books s s1 →
  call_order_update_apply fuel who dc dd tcr s1 = Ok (r, s2) → ledger_step s1 s2.
Proof.
  intros (b & Hb & _ & Hid)%call_update_backing B Ap W. rewrite <- (sb_bitassets _ _ B) in Hb. clear dependent s.
  unfold call_order_update_apply in Ap. bind Ap as [] H1. bind Ap as [] H2. bind_step Ap. bind Ap as b' Hb'.
  bind Ap as u Hu. bind Ap as [] H3. ret_inv Ap.
  apply move_debt_step in H1 as [B1 T1]. apply move_collateral_step in H2 as [B2 T2].
  cbn in Hb'. destruct (update_call_spec _ _ _ _ _ _ b _ _ _ ltac:(by rewrite (sb_bitassets _ _ B2), (sb_bitassets _ _ B1))
    Hid Hu) as [W3 T3]; [by apply (wf_step_books _ _ B2), (wf_step_books _ _ B1)|].
  assert (ledger_step s3 s2) as L3.
  { destruct u.2; [|ret_inv H3; reflexivity]. unfold when in H3.
    destruct (negb (is_prediction_market b')); [|ret_inv H3; reflexivity].
    by eapply ledger_check_updated_call. }
  destruct (L3 W3) as [W4 T4]. split; [done|]. intros k. rewrite T4. unfold ledger. rewrite T3.
  fold (ledger k). rewrite T2, T1. lia.
Qed.

(** ** New limit orders *)

(** The fee of an order: with the deferred part it is the fee the account pays. *)
Lemma limit_order_fee_spec payer fee core s d s' c e q g :
  (asset_id fee = CORE → core = amount fee) →
  (limit_order_convert_fee fee core;; limit_order_pay_fee payer fee core) s = Ok (d, s') →
  same_books s s' ∧
  total (linear_weights c e q g) s' + c CORE * d.1 + c (asset_id d.2) * amount d.2
  = total (linear_weights c e q g) s + c (asset_id fee) * amount fee ∧
  (0 ≤ core → 0 ≤ amount fee → 0 ≤ d.1 ∧ 0 ≤ amount d.2).
Proof.
  intros Hcore E. bind E as [] H1. unfold limit_order_convert_fee in H1. bind_step H1.
  unfold limit_order_pay_fee in E. bind_step E.
  match type of H1 with _ = Ok (_, ?x) =>
    assert (same_books s x ∧ total (linear_weights c e q g) x = total (linear_weights c e q g) s
      + (if asset_id fee =? CORE then 0
         else (if time (dgpo s) <=? HARDFORK_CORE_604_TIME then c (asset_id fee) * amount fee else 0) - c CORE * core))
      as [B1 T1] end.
  { destruct (time (dgpo s) <=? HARDFORK_CORE_604_TIME).
    - split; [by eapply books_convert_fee|]. apply (effect_convert_fee c e q g) in H1. rewrite H1. done.
    - unfold when in H1. destruct (asset_id fee =? CORE); cbn [negb] in H1; [ret_inv H1; split; [done|lia]|].
      split; [revert H1; apply (keeps_modify same_books); by split|].
      apply (effect_sub_fee_pool c e q g) in H1. lia. }
  rewrite (sb_dgpo _ _ B1) in E. assert (HARDFORK_445_TIME < HARDFORK_CORE_604_TIME) by done.
  destruct (time (dgpo s) <=? HARDFORK_445_TIME) eqn:E445; bool_to_prop.
  - bind E as [] H2. ret_inv E. cbn [fst snd amount asset_id default_asset]. split_and!; try done.
    + etransitivity; [exact B1|by eapply books_pay_fee].
    + apply (effect_pay_fee_default c e q g) in H2. rewrite H2, T1. rewrite (proj2 (Z.leb_le _ _)) by lia.
      destruct (asset_id fee =? CORE) eqn:Ec; bool_to_prop; [rewrite Ec, Hcore by done|]; lia.
  - ret_inv E. cbn [fst snd]. split_and!; [done| |].
    + rewrite T1, Z.gtb_ltb, Z.ltb_antisym. destruct (_ <=? HARDFORK_CORE_604_TIME), (asset_id fee =? CORE) eqn:Ec;
        bool_to_prop; cbn; rewrite ?Ec, ?Hcore by done; lia.
    + intros ? ?. split; [done|]. by destruct (_ && _).
Qed.

Lemma limit_create_spec who sell recv ex fok d s r s' :
  wf_market s → 0 ≤ d.1 → 0 ≤ amount d.2 → amount sell ≤ int64_max →
  limit_order_create_apply fuel who sell recv ex fok d s = Ok (r, s') →
  wf_market s' ∧ ∀ k, total (ledger k) s' = total (ledger k) s + lc k CORE * d.1 + lc k (asset_id d.2) * amount d.2.
Proof.
  intros W Hd1 Hd2 Hs E. unfold limit_order_create_apply in E. bind E as [] H1. bind E as n Hn. bind E as [] H2.
  bind E as p Hp. bind E as i Hi. bind_step E. bind E as filled Hf. bind_step E. ret_inv E.
  match type of H1 with _ = Ok (_, ?x) => assert (same_books s x ∧ ∀ k, total (ledger k) x = total (ledger k) s
    - ind (asset_id sell =? CORE) (lg k * amount sell)) as [B1 T1] end.
  { unfold when, ind in *. destruct (asset_id sell =? CORE); [|ret_inv H1; split; [done|intros; lia]].
    bind_step H1. split; [revert H1; apply (keeps_modify same_books); by split|]. intros k.
    apply (effect_add_core_in_orders (lc k) (le k) (λ _, 0) (lg k)) in H1. unfold ledger. lia. }
  apply asset_neg_Ok in Hn as ->. apply books_adjust_balance in H2 as B2. unfold price_div in Hp. monad_inv.
  match type of Hf with _ ?x = Ok (_, ?y) => assert (ledger_step x y) as Lf end.
  { apply sound_ledger. case_match; [by eapply sound_apply_order_before|by eapply sound_apply_order]. }
  destruct Lf as [W' T'].
  { eapply wf_create_limit; [exact Hi|by split_and!|]. by apply (wf_step_books _ _ B2), (wf_step_books _ _ B1). }
  split; [done|]. intros k. rewrite T'. apply (total_create (ledger k)) in Hi as (-> & _).
  apply (effect_adjust_balance (lc k) (le k) (λ _, 0) (lg k)) in H2. specialize (T1 k). cbn [amount asset_id] in H2.
  unfold ledger in *. rewrite H2, T1. cbn. unfold sell_asset_id. cbn. lia.
Qed.


End ledger_ops.
