(* ===== verification/Frame.v ===== *)
(** * What the market leaves alone

    Filling, matching, settling and cancelling orders touches balances, orders,
    statistics, asset data and vesting balances only: accounts, time locks, withdraw
    permissions, genesis balances, witnesses, the global properties and the list of
    known transactions stay as they are.  Every function of the market is shown to
    keep this frame, by the automation of [State].  The amounts of the published
    feeds and of the settle orders are 64-bit numbers and settlement offsets are
    percentages, and stay so. *)

From S2P Require Import Prelude External Asset Authority Operations Block Vesting State Balance Fill Market.
From S2P Require Import Evaluator MarketOps.

(** The range of a [share_type]. *)
Definition int64_ok (z : Z) : Prop := int64_min ≤ z ≤ int64_max.
Definition typed_feed (f : price_feed) : Prop :=
  int64_ok (amount (base (settlement_price f))) ∧ int64_ok (amount (quote (settlement_price f))).
Definition typed_bitasset (b : asset_bitasset_data_object) : Prop :=
  typed_feed (current_feed b) ∧ map_Forall (λ _ x, typed_feed x.2) (feeds b) ∧
  0 ≤ force_settlement_offset_percent (bad_options b) ≤ GRAPHENE_100_PERCENT.
Record typed_state (s : database) : Prop := {
  ts_feeds : map_Forall (λ _, typed_bitasset) (bitassets s);
  ts_settles : map_Forall (λ _ f, int64_ok (amount (fs_balance f))) (settle_orders s)
}.

Record market_frame (s s' : database) : Prop := {
  mf_accounts : accounts s' = accounts s;
  mf_htlcs : htlcs s' = htlcs s;
  mf_permissions : permissions s' = permissions s;
  mf_genesis : genesis_balances s' = genesis_balances s;
  mf_witnesses : witnesses s' = witnesses s;
  mf_shuffled : shuffled_witnesses s' = shuffled_witnesses s;
  mf_gpo : gpo s' = gpo s;
  mf_dgpo : dgpo s' = dgpo s;
  mf_transactions : transactions s' = transactions s;
  mf_summaries : block_summaries s' = block_summaries s;
  mf_proposals : proposals s' = proposals s;
  mf_next_proposal : next_proposal s' = next_proposal s;
  mf_governance : governance s' = governance s;
  mf_typed : typed_state s → typed_state s'
}.
#[export] Instance market_frame_preorder : PreOrder market_frame.
Proof.
  split.
  - intros s. by split.
  - intros s1 s2 s3 [] []. split; [congruence..|auto].
Qed.

(** Writes that the frame allows. *)
Ltac frame_write := intros; split; [reflexivity..|intros [? ?]; split; assumption].

Ltac solve_frame :=
  repeat first
    [ apply keeps_deref; apply _
    | progress solve_keeps_with ltac:(frame_write) ].

Section frame.
Context `{EX : Ext} (nth_element : nth_element_t) (fuel : nat).

Lemma frame_modify_bitasset i f :
  (∀ b b', f b = Ok b' → typed_bitasset b → typed_bitasset b') →
  keeps market_frame (modify (V:=asset_bitasset_data_object) i f).
Proof.
  intros Hf. apply keeps_modify. intros s b b' Hb E. split; try done. intros [T1 T2]. split; [|done]. cbn.
  apply map_Forall_insert_2; [|done]. apply (Hf _ _ E), (T1 i). exact Hb.
Qed.
Lemma frame_set_settlement i (p : asset_bitasset_data_object → result price) x :
  keeps market_frame (modify i (λ b, q ← p b; Ok (set_settlement q x b))).
Proof. apply frame_modify_bitasset. intros b b' E. by apply result_bind_Ok in E as (q & _ & [= <-]). Qed.
Lemma frame_clear_settlement i q x : keeps market_frame (modify i (λ b, Ok (set_settlement q x b))).
Proof. apply frame_modify_bitasset. by intros b b' [= <-]. Qed.
Lemma frame_sub_settlement_fund i x : keeps market_frame (modify i (sub_settlement_fund x)).
Proof.
  apply frame_modify_bitasset. intros b b' E. unfold sub_settlement_fund in E.
  by apply result_bind_Ok in E as (y & _ & [= <-]).
Qed.
Lemma frame_reduce_settle i x : keeps market_frame (modify i (reduce_settle_order x)).
Proof.
  apply keeps_modify. intros s f f' Hf E. split; try done. intros [T1 T2]. split; [done|]. cbn.
  apply map_Forall_insert_2; [|done]. unfold reduce_settle_order in E.
  apply result_bind_Ok in E as (y & Ey & [= <-]). cbn. unfold asset_sub in Ey. monad_inv. safe_inv. done.
Qed.
Lemma frame_remove_settle i : keeps market_frame (remove (V:=force_settlement_object) i).
Proof.
  apply keeps_remove. intros s f Hf. split; try done. intros [T1 T2]. split; [done|]. by apply map_Forall_delete.
Qed.
Hint Resolve frame_set_settlement frame_clear_settlement frame_sub_settlement_fund frame_reduce_settle
  frame_remove_settle : graphene.
Lemma frame_puts f : (∀ s, market_frame s (f s)) → keeps market_frame (puts f).
Proof. intros Hf s [] s' [= <-]. apply Hf. Qed.
Lemma frame_read {A} (f : database → result A) : keeps market_frame (read f).
Proof. intros s r s' E. apply lift_Ok in E as [_ ->]. reflexivity. Qed.
Hint Resolve frame_read : graphene.
Lemma frame_adjust_balance acct d : keeps market_frame (adjust_balance acct d).
Proof. unfold adjust_balance. solve_frame. Qed.
Hint Resolve frame_adjust_balance : graphene.
Lemma frame_find_mfs acct a : keeps market_frame (find_mfs acct a).
Proof. unfold find_mfs. solve_frame. Qed.
Hint Resolve frame_find_mfs : graphene.
Lemma frame_deposit_mfs acct d : keeps market_frame (deposit_market_fee_vesting_balance acct d).
Proof. unfold deposit_market_fee_vesting_balance. solve_frame. Qed.
Hint Resolve frame_deposit_mfs : graphene.
Lemma frame_pay_fee_default p core : keeps market_frame (pay_fee_default p core).
Proof. unfold pay_fee_default. solve_frame. Qed.
Hint Resolve frame_pay_fee_default : graphene.

(** ** Filling and cancelling *)
Lemma frame_pay_market_fees i a x : keeps market_frame (pay_market_fees i a x).
Proof. unfold pay_market_fees. solve_frame. Qed.
Hint Resolve frame_pay_market_fees : graphene.
Lemma frame_pay_rewards acct i a f : keeps market_frame (pay_rewards acct i a f).
Proof. unfold pay_rewards. solve_frame. Qed.
Hint Resolve frame_pay_rewards : graphene.
Lemma frame_pay_market_fees_shared acct i a x : keeps market_frame (pay_market_fees_shared acct i a x).
Proof. unfold pay_market_fees_shared. solve_frame. Qed.
Hint Resolve frame_pay_market_fees_shared : graphene.
Lemma frame_pay_order acct r p : keeps market_frame (pay_order acct r p).
Proof. unfold pay_order. solve_frame. Qed.
Hint Resolve frame_pay_order : graphene.
Lemma frame_deduct_cancel_fee o : keeps market_frame (deduct_cancel_fee o).
Proof. unfold deduct_cancel_fee. solve_frame. Qed.
Hint Resolve frame_deduct_cancel_fee : graphene.
Lemma frame_refund i v sk : keeps market_frame (refund_limit_order i v sk).
Proof. unfold refund_limit_order. solve_frame. Qed.
Hint Resolve frame_refund : graphene.
Lemma frame_cancel_limit_order i v sk : keeps market_frame (cancel_limit_order i v sk).
Proof. unfold cancel_limit_order. solve_frame. Qed.
Hint Resolve frame_cancel_limit_order : graphene.
Lemma frame_maybe_cull i : keeps market_frame (maybe_cull_small_order i).
Proof. unfold maybe_cull_small_order. solve_frame. Qed.
Hint Resolve frame_maybe_cull : graphene.
Lemma frame_cancel_bid i v : keeps market_frame (cancel_bid i v).
Proof. unfold cancel_bid. solve_frame. Qed.
Hint Resolve frame_cancel_bid : graphene.
Lemma frame_cancel_settle i v : keeps market_frame (cancel_settle_order i v).
Proof. unfold cancel_settle_order. solve_frame. Qed.
Hint Resolve frame_cancel_settle : graphene.
Lemma frame_pay_deferred o : keeps market_frame (pay_deferred_fees o).
Proof. unfold pay_deferred_fees. solve_frame. Qed.
Hint Resolve frame_pay_deferred : graphene.
Lemma frame_fill_limit_order i p r cl fp mk : keeps market_frame (fill_limit_order i p r cl fp mk).
Proof. unfold fill_limit_order. solve_frame. Qed.
Hint Resolve frame_fill_limit_order : graphene.
Lemma frame_fill_call_order i p r fp mk : keeps market_frame (fill_call_order i p r fp mk).
Proof. unfold fill_call_order. solve_frame. Qed.
Hint Resolve frame_fill_call_order : graphene.
Lemma frame_fill_settle_order i p r fp mk : keeps market_frame (fill_settle_order i p r fp mk).
Proof. unfold fill_settle_order. solve_frame. Qed.
Hint Resolve frame_fill_settle_order : graphene.
Lemma frame_execute_bid i d cf f : keeps market_frame (execute_bid i d cf f).
Proof. unfold execute_bid. solve_frame. Qed.
Hint Resolve frame_execute_bid : graphene.

(** ** Settlement, black swans and margin calls *)
Lemma frame_settle_calls p b ids : ∀ g, keeps market_frame (settle_calls p b ids g).
Proof. induction ids as [|i ids IH]; intros g; cbn [settle_calls]; solve_frame. Qed.
Hint Resolve frame_settle_calls : graphene.
Lemma frame_globally_settle a p : keeps market_frame (globally_settle_asset a p).
Proof. unfold globally_settle_asset. solve_frame. Qed.
Hint Resolve frame_globally_settle : graphene.
Lemma frame_cancel_bids ids : keeps market_frame (cancel_bids ids).
Proof. induction ids as [|i ids IH]; cbn [cancel_bids]; solve_frame. Qed.
Hint Resolve frame_cancel_bids : graphene.
Lemma frame_revive a : keeps market_frame (revive_bitasset a).
Proof. unfold revive_bitasset, _cancel_bids_and_revive_mpa. solve_frame. Qed.
Hint Resolve frame_revive : graphene.
Lemma frame_blackswan a en : keeps market_frame (check_for_blackswan a en).
Proof. unfold check_for_blackswan. solve_frame. Qed.
Hint Resolve frame_blackswan : graphene.
Lemma frame_match_limits u c p : keeps market_frame (match_limits u c p).
Proof. unfold match_limits. solve_frame. Qed.
Hint Resolve frame_match_limits : graphene.
Lemma frame_match_limit_call b a mp fp mcr mc : keeps market_frame (match_limit_call b a mp fp mcr mc).
Proof. unfold match_limit_call. solve_frame. Qed.
Hint Resolve frame_match_limit_call : graphene.
Lemma frame_match_call_settle c f mp ms fp : keeps market_frame (match_call_settle c f mp ms fp).
Proof. unfold match_call_settle. solve_frame. Qed.
Hint Resolve frame_match_call_settle : graphene.
Lemma frame_call_loop n a en fo : ∀ ls cs fl mc, keeps market_frame (call_loop n a en fo ls cs fl mc).
Proof.
  induction n as [|n IH]; intros ls cs fl mc; cbn [call_loop]; [solve_frame|].
  pose proof (frame_puts (λ s, set_issue_453_affected_assets ({[ a ]} ∪ issue_453_affected_assets s) s)
    ltac:(frame_write)). solve_frame.
Qed.
Hint Resolve frame_call_loop : graphene.
Lemma frame_check_call_orders n a en fo : keeps market_frame (check_call_orders n a en fo).
Proof. unfold check_call_orders. solve_frame. Qed.
Hint Resolve frame_check_call_orders : graphene.

(** ** New orders *)
Lemma frame_match_book o g ls : keeps market_frame (match_book o g ls).
Proof. induction ls as [|i ls IH]; cbn [match_book]; solve_frame. Qed.
Hint Resolve frame_match_book : graphene.
Lemma frame_match_calls n o a r p : keeps market_frame (match_calls n o a r p).
Proof. induction n as [|n IH]; cbn [match_calls]; solve_frame. Qed.
Hint Resolve frame_match_calls : graphene.
Lemma frame_calls_to_check o : keeps market_frame (calls_to_check o).
Proof. unfold calls_to_check. solve_frame. Qed.
Hint Resolve frame_calls_to_check : graphene.
Lemma frame_apply_order n i : keeps market_frame (apply_order n i).
Proof. unfold apply_order. solve_frame. Qed.
Hint Resolve frame_apply_order : graphene.
Lemma frame_apply_order_before n i b : keeps market_frame (apply_order_before_hardfork_625 n i b).
Proof. unfold apply_order_before_hardfork_625. solve_frame. Qed.
Hint Resolve frame_apply_order_before : graphene.

(** ** The evaluators of the market *)
Lemma frame_limit_order_fee payer fee core :
  keeps market_frame (limit_order_convert_fee fee core;; limit_order_pay_fee payer fee core).
Proof. unfold limit_order_convert_fee, limit_order_pay_fee, convert_fee. solve_frame. Qed.
Lemma frame_limit_order_create who sell recv ex fok d :
  keeps market_frame (limit_order_create_apply fuel who sell recv ex fok d).
Proof. unfold limit_order_create_apply. solve_frame. Qed.
Lemma frame_limit_order_cancel i : keeps market_frame (limit_order_cancel_apply fuel i).
Proof. unfold limit_order_cancel_apply. solve_frame. Qed.
Lemma frame_find_call who a : keeps market_frame (find_call who a).
Proof. unfold find_call. solve_frame. Qed.
Hint Resolve frame_find_call : graphene.
Lemma frame_call_order_update who dc dd tcr : keeps market_frame (call_order_update_apply fuel who dc dd tcr).
Proof.
  unfold call_order_update_apply, move_debt, move_collateral, update_call, check_updated_call. solve_frame.
Qed.
Lemma frame_bid_collateral who ac dc bid : keeps market_frame (bid_collateral_apply who ac dc bid).
Proof. unfold bid_collateral_apply, negate. solve_frame. Qed.
Lemma frame_global_settle a p : keeps market_frame (asset_global_settle_apply a p).
Proof. unfold asset_global_settle_apply. solve_frame. Qed.
Lemma frame_create_settle (f : Z → force_settlement_object) :
  (∀ i, int64_ok (amount (fs_balance (f i)))) → keeps market_frame (create f).
Proof.
  intros Hf. apply keeps_create. intros s i n _ _. split; try done. intros [T1 T2]. split; [done|].
  by apply map_Forall_insert_2.
Qed.
Lemma frame_asset_settle who amt : int64_ok (amount amt) → keeps market_frame (asset_settle_apply who amt).
Proof.
  intros Ha. unfold asset_settle_apply, negate. pose proof (λ f, frame_create_settle f). solve_frame.
Qed.

(** ** Medians *)
Lemma median_by_elem less l r :
  (∀ less n l, nth_element less n l ≡ₚ l) → median_by nth_element less l = Ok r → r.1 ∈ l ∧ r.2 ≡ₚ l.
Proof.
  intros Hn E. unfold median_by in E. destruct (_ !! _) as [f|] eqn:El; [|done]. injection E as <-. cbn.
  split; [|done]. rewrite <- (Hn less (Nat.div2 (length l)) l). by eapply list_elem_of_lookup_2.
Qed.

Lemma typed_median l f :
  (∀ less n l, nth_element less n l ≡ₚ l) → Forall typed_feed l → median_feed nth_element l = Ok f → typed_feed f.
Proof.
  intros Hn Hl E. unfold median_feed in E. monad_inv.
  match goal with H : median_by _ _ l = Ok _ |- _ => apply median_by_elem in H as [H _]; [|done];
    exact (proj1 (Forall_forall _ _) Hl _ H) end.
Qed.

Lemma typed_update_median t mt b b' :
  (∀ less n l, nth_element less n l ≡ₚ l) → update_median_feeds nth_element t mt b = Ok b' →
  typed_bitasset b → typed_bitasset b'.
Proof.
  intros Hn E (T1 & T2 & T3). unfold update_median_feeds in E. destruct (_ <? _); [injection E as <-; by split|].
  apply result_bind_Ok in E as (f & Ef & E). apply result_bind_Ok in E as (mc & _ & [= <-]). split; [|by split]. cbn.
  assert (Forall typed_feed (alive_feeds b t).*2) as Hl.
  { apply Forall_fmap, Forall_forall. intros x Hx. unfold alive_feeds, feeds_in_order in Hx.
    apply list_elem_of_filter in Hx as [_ Hx]. apply list_elem_of_fmap in Hx as ([i y] & -> & Hy).
    rewrite merge_sort_Permutation in Hy. apply elem_of_map_to_list in Hy. exact (T2 i y Hy). }
  destruct ((alive_feeds b t).*2) as [|g [|g' l]] eqn:El.
  - by apply (typed_median _ _ Hn Hl).
  - injection Ef as <-. by apply Forall_cons in Hl as [? _].
  - by apply (typed_median _ _ Hn Hl).
Qed.

Lemma frame_publish_feed who a f :
  (∀ less n l, nth_element less n l ≡ₚ l) → typed_feed f →
  keeps market_frame (asset_publish_feed_apply nth_element fuel who a f).
Proof.
  intros Hn Hf. unfold asset_publish_feed_apply. solve_frame. apply frame_modify_bitasset. intros b b' E (T1 & T2 & T3).
  apply (typed_update_median _ _ _ _ Hn E). split_and!; [done|by apply map_Forall_insert_2|apply T3..].
Qed.

End frame.

#[export] Hint Resolve frame_read frame_adjust_balance frame_pay_fee_default frame_cancel_limit_order
  frame_cancel_bid frame_cancel_settle frame_match_call_settle frame_check_call_orders frame_revive
  frame_globally_settle frame_limit_order_fee frame_limit_order_create frame_limit_order_cancel
  frame_call_order_update frame_bid_collateral frame_global_settle frame_asset_settle frame_publish_feed : graphene.
