(* ===== verification/OpFrame.v ===== *)
(** * What operations leave alone

    The evaluators of all operations but those on proposals change neither the
    global properties nor the witnesses, the schedule, the known transactions, the
    block summaries, the governance state or the proposals. *)

From S2P Require Import Prelude External Asset Authority Operations Block Vesting State Balance Fill Market Trade.
From S2P Require Import Evaluator MarketOps Ledger Frame.

Record op_frame (s s' : database) : Prop := {
  of_gpo : gpo s' = gpo s;
  of_dgpo : dgpo s' = dgpo s;
  of_shuffled : shuffled_witnesses s' = shuffled_witnesses s;
  of_witnesses : witnesses s' = witnesses s;
  of_transactions : transactions s' = transactions s;
  of_summaries : block_summaries s' = block_summaries s;
  of_governance : governance s' = governance s
}.
Record plain_frame (s s' : database) : Prop := {
  pf_op : op_frame s s';
  pf_proposals : proposals s' = proposals s;
  pf_next_proposal : next_proposal s' = next_proposal s;
  pf_typed : typed_state s → typed_state s'
}.
#[export] Instance op_frame_preorder : PreOrder op_frame.
Proof. split; [by intros s|]. intros s1 s2 s3 [] []. split; congruence. Qed.
#[export] Instance plain_frame_preorder : PreOrder plain_frame.
Proof.
  split; [by intros s|]. intros s1 s2 s3 [] []. split; [by etransitivity|congruence..|auto].
Qed.

Lemma plain_market s s' : market_frame s s' → plain_frame s s'.
Proof. intros []. by split. Qed.
Lemma plain_keeps {A} (m : M database A) : keeps market_frame m → keeps plain_frame m.
Proof. intros H s r s' E. by eapply plain_market, H. Qed.
Lemma plain_reads {A} (m : M database A) : reads m → keeps plain_frame m.
Proof. apply reads_keeps, _. Qed.

#[export] Hint Extern 3 (keeps plain_frame _) => apply plain_keeps; solve [eauto with graphene nocore] : graphene.
#[export] Hint Extern 3 (keeps plain_frame _) => apply plain_reads; solve [eauto with graphene nocore] : graphene.

Ltac plain_write := intros; split; [by split|reflexivity|reflexivity|intros [? ?]; split; assumption].
Ltac solve_plain := repeat first
  [ apply keeps_deref; apply _ | progress solve_keeps_with ltac:(plain_write) ].

Section plain_frame.
Context `{EX : Ext} (hash_of : Z → list Z → Z) (key_addresses : Z → list Z).
Context (nth_element : nth_element_t) (fuel : nat).
Hypothesis nth_element_permutes : ∀ less n l, nth_element less n l ≡ₚ l.

Lemma plain_convert_fee f n : keeps plain_frame (convert_fee f n).
Proof. unfold convert_fee. solve_plain. Qed.
Lemma plain_move f t a : keeps plain_frame (move_balance f t a).
Proof. unfold move_balance. solve_plain. Qed.
Hint Resolve plain_convert_fee plain_move : graphene.

Lemma plain_ledger op ev ap : ledger_evaluator hash_of key_addresses op = Some (ev, ap) → keeps plain_frame ap.
Proof.
  destruct op; intros [= _ <-];
    unfold transfer_apply, override_transfer_apply, htlc_create_apply, htlc_redeem_apply,
      htlc_extend_apply, withdraw_permission_create_apply, withdraw_permission_claim_apply,
      withdraw_permission_update_apply, withdraw_permission_delete_apply, balance_claim_apply,
      vesting_balance_create_apply, vesting_balance_withdraw_apply, asset_issue_apply, asset_reserve_apply,
      asset_fund_fee_pool_apply, asset_claim_fees_apply, asset_claim_pool_apply; solve_plain.
Qed.

Lemma plain_asset_settle who amt : int64_ok (amount amt) → keeps plain_frame (asset_settle_apply who amt).
Proof. intros Ha. by apply plain_keeps, frame_asset_settle. Qed.
Lemma plain_publish_feed who a f : typed_feed f → keeps plain_frame (asset_publish_feed_apply nth_element fuel who a f).
Proof. intros Hf. by apply plain_keeps, frame_publish_feed. Qed.
Hint Resolve plain_asset_settle plain_publish_feed : graphene.

Lemma plain_evaluate_apply {A} op core (ev : M database A) ap :
  reads ev → (∀ a, keeps plain_frame (ap a)) → keeps plain_frame (evaluate_apply op core ev ap).
Proof. intros Hr Ha. unfold evaluate_apply. pose proof (plain_reads _ Hr). solve_plain. Qed.

End plain_frame.
#[export] Hint Resolve plain_convert_fee plain_asset_settle plain_publish_feed : graphene.

(** The same without the proposals, for any operation. *)
Section op_frame.
Context `{EX : Ext} (hash_of : Z → list Z → Z) (key_addresses : Z → list Z).
Context (nth_element : nth_element_t) (fuel : nat).

Lemma op_plain {A} (m : M database A) : keeps plain_frame m → keeps op_frame m.
Proof. intros H s r s' E. by eapply pf_op, H. Qed.
Lemma op_market {A} (m : M database A) : keeps market_frame m → keeps op_frame m.
Proof. intros H. by apply op_plain, plain_keeps. Qed.
Lemma op_reads {A} (m : M database A) : reads m → keeps op_frame m.
Proof. apply reads_keeps, _. Qed.
End op_frame.

#[export] Hint Extern 3 (keeps op_frame _) => apply op_market; solve [eauto with graphene nocore] : graphene.
#[export] Hint Extern 3 (keeps op_frame _) => apply op_reads; solve [eauto with graphene nocore] : graphene.
Ltac solve_op := repeat first
  [ apply keeps_deref; apply _ | progress solve_keeps_with ltac:(by split) ].

Section op_frame_market.
Context `{EX : Ext} (nth_element : nth_element_t) (fuel : nat).
Lemma op_asset_settle who amt : keeps op_frame (asset_settle_apply who amt).
Proof. unfold asset_settle_apply. solve_op. Qed.
Lemma op_publish_feed who a f : keeps op_frame (asset_publish_feed_apply nth_element fuel who a f).
Proof. unfold asset_publish_feed_apply. solve_op. Qed.
End op_frame_market.
#[export] Hint Resolve op_asset_settle op_publish_feed : graphene.
