(* ===== verification/Proposal.v ===== *)
(** * Proposed transactions: chain/proposal_evaluator.cpp, chain/proposal_object.cpp

    Creating, approving and deleting proposals.  A proposal stores operations and the
    approvals collected so far; once the approvals satisfy the authorities its
    operations require it is executed by [push_proposal], a parameter here because
    executing applies operations, among them those of this file. *)

From S2P Require Import Prelude External Asset Authority Operations Block Vesting State Balance Fill Market Trade.
From S2P Require Import Evaluator.

Definition HARDFORK_CORE_214_TIME : Z := 1532008920.
Definition HARDFORK_CORE_1465_TIME : Z := 1556028120.
Definition HARDFORK_CORE_1468_TIME : Z := 1556028120.
Definition HARDFORK_CORE_1479_TIME : Z := 1545436800.

(** [transaction::validate]. *)
Definition validate_operations `{EX : Ext} (ops : list operation) : result unit :=
  fc_assert (negb (Nat.eqb (length ops) 0));; check_each operation_validate ops.

(** The authorities of an account, as the checks read them: looking up an account that
    does not exist throws. *)
Definition chain_context (s : database) : sign_context :=
  SignContext (λ id, acc_active <$> (accounts s !! id)) (λ id, acc_owner <$> (accounts s !! id))
    (time (dgpo s) >=? HARDFORK_CORE_584_TIME) (max_authority_depth (parameters (gpo s))) true.

Section proposal.
Context `{EX : Ext} (key_addresses : Z → list Z).

(** ** Authorization *)
Definition verify_proposal (p : proposal_object) (s : database) : result unit :=
  let '(active, owner, other) := operation_get_required_authorities (proposed_operations p) in
  verify_authority key_addresses active owner other (available_key_approvals p) (chain_context s) true
    (available_active_approvals p) (available_owner_approvals p).
(** [proposal_object::is_authorized_to_execute]. *)
Definition is_authorized_to_execute (p : proposal_object) : M database bool := λ s,
  match verify_proposal p s with
  | Ok _ => Ok (true, s)
  | Err e => if caught e then Ok (false, s) else Err e
  end.

(** ** What may be proposed *)
Definition is_proposal_update (op : operation) : bool :=
  match op with proposal_update_operation _ _ _ _ _ _ _ _ _ _ => true | _ => false end.

Definition check_call_order_update (t : Z) (delta_debt : asset) : M database unit :=
  if (t <? SOFTFORK_CORE_1465_TIME) || (t >? HARDFORK_CORE_1465_TIME) || (asset_id delta_debt =? 113)
     || (amount delta_debt <? 0)
  then mret tt
  else
    a ← get (V:=asset_object) (asset_id delta_debt);
    if bitasset_data_valid a then
      b ← get (V:=asset_bitasset_data_object) (asset_id delta_debt); assert_that (is_prediction_market b)
    else throw assert_exception.

(** [proposal_operation_hardfork_visitor]. *)
Fixpoint hardfork_check (t : Z) (op : operation) : M database unit :=
  match op with
  | call_order_update_operation _ _ _ delta_debt _ => check_call_order_update t delta_debt
  | vesting_balance_create_operation _ _ _ _ policy => check_vesting_balance_policy_hf_1268 t policy
  | htlc_create_operation _ _ _ _ _ _ _ | htlc_redeem_operation _ _ _ _ | htlc_extend_operation _ _ _ _ =>
      assert_that (t >=? HARDFORK_CORE_1468_TIME)
  | proposal_create_operation _ _ proposed_ops _ _ _ =>
      (fix check_ops (already : bool) (ops : list operation) : M database unit :=
         match ops with
         | [] => mret tt
         | op :: ops =>
             hardfork_check t op;;
             if is_proposal_update op then assert_that (negb already);; check_ops true ops
             else check_ops already ops
         end) false proposed_ops
  | _ => mret tt
  end.

(** [hardfork_visitor_1479]: the largest id of a proposal that is updated or deleted,
    and the number of these operations. *)
Fixpoint visit_1479 (op : operation) (v : Z * Z) : Z * Z :=
  let note p := (if (v.2 =? 0) || (p >? v.1) then p else v.1, v.2 + 1) in
  match op with
  | proposal_update_operation _ _ p _ _ _ _ _ _ _ => note p
  | proposal_delete_operation _ _ _ p => note p
  | proposal_create_operation _ _ proposed_ops _ _ _ => fold_left (λ v op, visit_1479 op v) proposed_ops v
  | _ => v
  end.

(** ** Creating *)
Definition check_review_period (auths : gset Z) (review : option Z) (p : chain_parameters) : M database unit :=
  when (bool_decide (GRAPHENE_COMMITTEE_ACCOUNT ∈ auths))
    (require (match review with Some _ => true | None => false end) proposal_create_review_period_required;;
     require (default 0 review >=? committee_proposal_review_period p) proposal_create_review_period_insufficient).

Definition proposal_create_evaluate (op : operation) (proposed_ops : list operation) (expiration : Z)
    (review : option Z) : M database unit :=
  t ← head_block_time;
  hardfork_check t op;;
  when (t <? HARDFORK_CORE_214_TIME) (assert_that (negb (existsb is_proposal_update proposed_ops)));;
  p ← get_parameters;
  assert_that (expiration >? t);;
  assert_that (expiration <=? tps_add t (maximum_proposal_lifetime p));;
  assert_that (match review with Some r => r <? expiration - t | None => true end);;
  assert_that (Nat.eqb (length (concat (required_other <$> proposed_ops))) 0);;
  check_review_period (⋃ (required_active <$> proposed_ops) ∪ ⋃ (required_owner <$> proposed_ops)) review p;;
  lift (validate_operations proposed_ops).

(** An operation nobody can authorize. *)
Definition prevent_approval : operation :=
  transfer_operation (Asset 0 CORE) GRAPHENE_NULL_ACCOUNT GRAPHENE_RELAXED_COMMITTEE_ACCOUNT
    (Asset GRAPHENE_MAX_SHARE_SUPPLY CORE) None.

(** Accounts that must provide their owner authority need not provide the active one. *)
Definition new_proposal (t : Z) (op : operation) (account : Z) (proposed_ops : list operation) (expiration : Z)
    (review : option Z) (id : Z) : proposal_object :=
  let owner := ⋃ (required_owner <$> proposed_ops) in
  let '(max_update_instance, nested_update_count) := visit_1479 op (0, 0) in
  ProposalObject expiration ((λ r, u32 (expiration - r)) <$> review)
    (if negb (t >? HARDFORK_CORE_1479_TIME) && (nested_update_count >? 0) && (id <=? max_update_instance)
     then proposed_ops ++ [prevent_approval] else proposed_ops)
    (⋃ (required_active <$> proposed_ops) ∖ owner) ∅ owner ∅ ∅ account None.

Definition proposal_create_apply (op : operation) (account : Z) (proposed_ops : list operation) (expiration : Z)
    (review : option Z) : M database operation_result :=
  t ← head_block_time;
  next ← gets next_proposal;
  let '(max_update_instance, nested_update_count) := visit_1479 op (0, 0) in
  when (t >? HARDFORK_CORE_1479_TIME)
    (assert_that ((nested_update_count =? 0) || (next >? max_update_instance)));;
  id ← create (new_proposal t op account proposed_ops expiration review);
  mret (object_id_result id).

(** ** Approving *)
Definition proposal_update_evaluate (proposal : Z) (aa ar oa or : gset Z) : M database unit :=
  p ← get (V:=proposal_object) proposal;
  t ← head_block_time;
  when (match review_period_time p with Some r => t >=? r | None => false end)
    (assert_that (bool_decide (aa = ∅) && bool_decide (oa = ∅)));;
  assert_that (bool_decide (ar ⊆ available_active_approvals p));;
  assert_that (bool_decide (or ⊆ available_owner_approvals p)).

Definition update_approvals (aa ar oa or ka kr : gset Z) (p : proposal_object) : proposal_object :=
  ProposalObject (proposal_expiration p) (review_period_time p) (proposed_operations p) (required_active_approvals p)
    ((available_active_approvals p ∪ aa) ∖ ar) (required_owner_approvals p)
    ((available_owner_approvals p ∪ oa) ∖ or) ((available_key_approvals p ∪ ka) ∖ kr) (proposer p) (fail_reason p).
Definition set_fail_reason (e : exn) (p : proposal_object) : proposal_object :=
  ProposalObject (proposal_expiration p) (review_period_time p) (proposed_operations p) (required_active_approvals p)
    (available_active_approvals p) (required_owner_approvals p) (available_owner_approvals p)
    (available_key_approvals p) (proposer p) (Some e).

(** A proposal with a review period is only executed when it expires. *)
Definition proposal_update_apply (push_proposal : Z → M database unit) (proposal : Z) (aa ar oa or ka kr : gset Z)
    : M database operation_result :=
  modify proposal (λ p, Ok (update_approvals aa ar oa or ka kr p));;
  p ← deref (V:=proposal_object) proposal;
  match review_period_time p with
  | Some _ => mret void_result
  | None =>
      authorized ← is_authorized_to_execute p;
      when authorized
        (try_catch (push_proposal proposal) (λ e, modify proposal (λ p, Ok (set_fail_reason e p))));;
      mret void_result
  end.

(** ** Deleting *)
Definition proposal_delete_evaluate (account : Z) (using_owner_authority : bool) (proposal : Z) : M database unit :=
  p ← get (V:=proposal_object) proposal;
  assert_that (bool_decide (account ∈ if using_owner_authority then required_owner_approvals p
                                      else required_active_approvals p)).
Definition proposal_delete_apply (proposal : Z) : M database operation_result :=
  remove (V:=proposal_object) proposal;; mret void_result.

(** ** Executing *)

(** The operations in order, with their results. *)
Fixpoint apply_each (apply_op : operation → M database operation_result) (ops : list operation)
    : M database (list operation_result) :=
  match ops with
  | [] => mret []
  | op :: ops => r ← apply_op op; rs ← apply_each apply_op ops; mret (r :: rs)
  end.

(** [database::push_proposal] with [depth] proposals being executed around it; the
    undo session is the state that is kept when this throws. *)
Definition push_proposal (apply_op : operation → M database operation_result) (depth proposal : Z)
    : M database unit :=
  p ← deref (V:=proposal_object) proposal;
  n ← gets (λ s, Z.of_nat (length (active_witnesses (gpo s))));
  assert_that (depth <? 2 * n);;
  _ ← apply_each apply_op (proposed_operations p);
  remove (V:=proposal_object) proposal.

End proposal.
