(* ===== verification/ApprovalIndex.v ===== *)
(** * Proposals by account: chain/proposal_object.cpp

    [required_approval_index] keeps, for every account, the proposals that require or
    have its approval.  It is told of every insertion, change and removal of a
    proposal, and updates itself by the difference between the old and the new
    approvals, walking both sorted sets at once. *)

From S2P Require Import Prelude External Asset Authority Operations Block Vesting State.

Definition approval_index := gmap Z (gset Z).
Definition flat (X : gset Z) : list Z := merge_sort Z.le (elements X).

(** [_account_to_proposals[a].insert( p )]. *)
Definition index_insert (p a : Z) (idx : approval_index) : approval_index :=
  <[a := {[ p ]} ∪ default ∅ (idx !! a)]> idx.
Definition index_remove (p a : Z) (idx : approval_index) : approval_index :=
  match idx !! a with
  | None => idx
  | Some X => let X := X ∖ {[ p ]} in if bool_decide (X = ∅) then delete a idx else <[a := X]> idx
  end.

(** The proposal's four sets, in the order of the loops. *)
Definition accounts_of (p : proposal_object) : list Z :=
  flat (required_active_approvals p) ++ flat (required_owner_approvals p)
  ++ flat (available_active_approvals p) ++ flat (available_owner_approvals p).
Definition object_inserted (i : Z) (p : proposal_object) (idx : approval_index) : approval_index :=
  fold_left (λ idx a, index_insert i a idx) (accounts_of p) idx.
Definition object_removed (i : Z) (p : proposal_object) (idx : approval_index) : approval_index :=
  fold_left (λ idx a, index_remove i a idx) (accounts_of p) idx.

(** The loop over both iterators. *)
Fixpoint insert_or_remove_delta (p : Z) (before after : list Z) : approval_index → approval_index :=
  match before with
  | [] => λ idx, fold_left (λ idx a, index_insert p a idx) after idx
  | b :: before' =>
      (fix go (after : list Z) : approval_index → approval_index :=
         match after with
         | [] => λ idx, fold_left (λ idx b, index_remove p b idx) before idx
         | a :: after' =>
             if b <? a then λ idx, insert_or_remove_delta p before' after (index_remove p b idx)
             else if a <? b then λ idx, go after' (index_insert p a idx)
             else insert_or_remove_delta p before' after'
         end) after
  end.

Definition object_modified (i : Z) (p p' : proposal_object) (idx : approval_index) : approval_index :=
  insert_or_remove_delta i (flat (available_owner_approvals p)) (flat (available_owner_approvals p'))
    (insert_or_remove_delta i (flat (available_active_approvals p)) (flat (available_active_approvals p')) idx).

(** ** What is listed *)
Definition listed (idx : approval_index) (a p : Z) : Prop := ∃ X, idx !! a = Some X ∧ p ∈ X.
Definition no_empty (idx : approval_index) : Prop := map_Forall (λ _ X, X ≠ ∅) idx.

Lemma elem_of_flat a X : a ∈ flat X ↔ a ∈ X.
Proof. unfold flat. by rewrite merge_sort_Permutation, elem_of_elements. Qed.
Lemma flat_sorted X : StronglySorted Z.lt (flat X).
Proof.
  unfold flat. assert (NoDup (merge_sort Z.le (elements X))) as Hn
    by (rewrite merge_sort_Permutation; apply NoDup_elements).
  assert (Sorted Z.le (merge_sort Z.le (elements X))) as Hs by (apply Sorted_merge_sort; intros ? ?; lia).
  apply Sorted_StronglySorted in Hs; [|intros ? ? ?; lia]. revert Hn Hs. generalize (merge_sort Z.le (elements X)).
  intros l Hn Hs. induction Hs as [|x l _ IH Hx]; [constructor|]. apply NoDup_cons in Hn as [Hnx Hn].
  constructor; [by apply IH|]. rewrite Forall_forall in *. intros y Hy. specialize (Hx y Hy).
  assert (x ≠ y) by congruence. lia.
Qed.

Lemma listed_insert p a idx b q : listed (index_insert p a idx) b q ↔ (b = a ∧ q = p) ∨ listed idx b q.
Proof.
  unfold listed, index_insert. destruct (decide (b = a)) as [->|Hb].
  - setoid_rewrite lookup_insert_eq. destruct (idx !! a) as [X|]; cbn; naive_solver set_solver.
  - setoid_rewrite lookup_insert_ne; [|done]. naive_solver.
Qed.
Lemma listed_remove p a idx b q : listed (index_remove p a idx) b q ↔ ¬ (b = a ∧ q = p) ∧ listed idx b q.
Proof.
  unfold index_remove. destruct (idx !! a) as [X|] eqn:Ea.
  - assert (∀ Y, listed (<[a := Y]> idx) b q ↔ if decide (b = a) then q ∈ Y else listed idx b q) as Hi.
    { intros Y. unfold listed. case_decide as Hb; [subst; setoid_rewrite lookup_insert_eq; naive_solver|].
      by setoid_rewrite lookup_insert_ne. }
    assert (listed idx b q ↔ if decide (b = a) then q ∈ X else listed idx b q) as Hx.
    { case_decide as Hb; [|done]. subst. unfold listed. rewrite Ea. naive_solver. }
    case_bool_decide as He; [|rewrite Hi; rewrite Hx; case_decide; set_solver].
    assert (listed (delete a idx) b q ↔ b ≠ a ∧ listed idx b q) as ->.
    { unfold listed. destruct (decide (b = a)) as [->|Hb].
      - setoid_rewrite lookup_delete_eq. naive_solver.
      - setoid_rewrite lookup_delete_ne; [|congruence]. naive_solver. }
    rewrite Hx. case_decide; set_solver.
  - split; [|naive_solver]. intros (Y & HY & Hq). split; [|by exists Y]. intros [-> _]. congruence.
Qed.
Lemma no_empty_insert p a idx : no_empty idx → no_empty (index_insert p a idx).
Proof. intros H. apply map_Forall_insert_2; [set_solver|done]. Qed.
Lemma no_empty_remove p a idx : no_empty idx → no_empty (index_remove p a idx).
Proof.
  intros H. unfold index_remove. destruct (idx !! a); [|done]. case_bool_decide; [by apply map_Forall_delete|].
  by apply map_Forall_insert_2.
Qed.

Lemma listed_inserts p l idx b q :
  listed (fold_left (λ idx a, index_insert p a idx) l idx) b q ↔ (b ∈ l ∧ q = p) ∨ listed idx b q.
Proof.
  revert idx. induction l as [|a l IH]; intros idx; cbn; [set_solver|].
  rewrite IH, listed_insert, elem_of_cons. naive_solver.
Qed.
Lemma listed_removes p l idx b q :
  listed (fold_left (λ idx a, index_remove p a idx) l idx) b q ↔ ¬ (b ∈ l ∧ q = p) ∧ listed idx b q.
Proof.
  revert idx. induction l as [|a l IH]; intros idx; cbn; [set_solver|].
  rewrite IH, listed_remove, elem_of_cons. naive_solver.
Qed.

Lemma delta_cons p x before y after idx :
  insert_or_remove_delta p (x :: before) (y :: after) idx
  = if x <? y then insert_or_remove_delta p before (y :: after) (index_remove p x idx)
    else if y <? x then insert_or_remove_delta p (x :: before) after (index_insert p y idx)
    else insert_or_remove_delta p before after idx.
Proof. cbn. by destruct (x <? y), (y <? x). Qed.

(** The walk over both sorted lists removes what is only in the first and inserts what
    is only in the second. *)
Lemma listed_delta p before : ∀ after idx b q,
  StronglySorted Z.lt before → StronglySorted Z.lt after →
  listed (insert_or_remove_delta p before after idx) b q ↔
    if decide (q = p) then (b ∈ after ∧ b ∉ before) ∨ (listed idx b q ∧ ¬ (b ∈ before ∧ b ∉ after)) else listed idx b q.
Proof.
  induction before as [|x before IH]; intros after idx b q Hb Ha.
  { cbn. rewrite listed_inserts. case_decide; set_solver. }
  apply StronglySorted_inv in Hb as Hb'. destruct Hb' as [Hb1 Hb2]. rewrite Forall_forall in Hb2.
  revert idx. induction after as [|y after IHa]; intros idx.
  { change (insert_or_remove_delta p (x :: before) [] idx)
      with (fold_left (λ idx b, index_remove p b idx) (x :: before) idx).
    rewrite listed_removes. case_decide; set_solver. }
  rewrite delta_cons.
  apply StronglySorted_inv in Ha as Ha'. destruct Ha' as [Ha1 Ha2]. rewrite Forall_forall in Ha2. specialize (IHa Ha1).
  destruct (x <? y) eqn:Exy; [|destruct (y <? x) eqn:Eyx]; bool_to_prop.
  - assert (x ∉ y :: after) as Hx.
    { intros [->|Hx]%elem_of_cons; [lia|]. specialize (Ha2 x Hx). lia. }
    rewrite IH by done. case_decide; rewrite listed_remove; [|naive_solver]. rewrite elem_of_cons in Hx. rewrite !elem_of_cons.
    pose proof (eq_refl x). clear IH IHa. destruct (decide (b = x)) as [->|]; tauto.
  - assert (y ∉ x :: before) as Hy.
    { intros [->|Hy]%elem_of_cons; [lia|]. specialize (Hb2 y Hy). lia. }
    rewrite IHa. case_decide; rewrite listed_insert; [|naive_solver]. rewrite elem_of_cons in Hy. rewrite !elem_of_cons.
    pose proof (eq_refl y). clear IH IHa. destruct (decide (b = y)) as [->|]; tauto.
  - assert (x = y) as <- by lia. assert (x ∉ before) by (intros Hx; specialize (Hb2 x Hx); lia).
    assert (x ∉ after) by (intros Hx; specialize (Ha2 x Hx); lia).
    rewrite IH by done. case_decide; [|done]. rewrite !elem_of_cons. pose proof (eq_refl x). clear IH IHa.
    destruct (decide (b = x)) as [->|]; tauto.
Qed.
Lemma no_empty_inserts p l idx : no_empty idx → no_empty (fold_left (λ idx a, index_insert p a idx) l idx).
Proof. revert idx. induction l; intros idx H; cbn; [done|]. by apply IHl, no_empty_insert. Qed.
Lemma no_empty_removes p l idx : no_empty idx → no_empty (fold_left (λ idx a, index_remove p a idx) l idx).
Proof. revert idx. induction l; intros idx H; cbn; [done|]. by apply IHl, no_empty_remove. Qed.
Lemma no_empty_delta p before : ∀ after idx, no_empty idx → no_empty (insert_or_remove_delta p before after idx).
Proof.
  induction before as [|x before IH]; intros after idx H; [by apply no_empty_inserts|].
  revert idx H. induction after as [|y after IHa]; intros idx H; [by apply (no_empty_removes p (x :: before))|].
  rewrite delta_cons. destruct (x <? y); [by apply IH, no_empty_remove|]. destruct (y <? x); [by apply IHa, no_empty_insert|by apply IH].
Qed.

(** ** The index against the proposals *)

(** What the index is for: the accounts of a proposal. *)
Definition related (a : Z) (p : proposal_object) : Prop :=
  a ∈ required_active_approvals p ∨ a ∈ required_owner_approvals p ∨
  a ∈ available_active_approvals p ∨ a ∈ available_owner_approvals p.

(** The accounts whose last change of mind about a proposal was to take an approval
    back; the owner approvals are looked at after the active ones. *)
Definition still_withdrawn (p p' : proposal_object) (W : gset Z) : gset Z :=
  let active X := available_active_approvals X in
  let owner X := available_owner_approvals X in
  (((W ∪ (active p ∖ active p')) ∖ (active p' ∖ active p)) ∪ (owner p ∖ owner p')) ∖ (owner p' ∖ owner p).

(** The proposals, the index, and who has withdrawn from each proposal. *)
Record index_state := IndexState {
  proposals_of : gmap Z proposal_object; index_of : approval_index; withdrawn : Z → gset Z }.
Definition at_id (i : Z) (X : gset Z) (W : Z → gset Z) (j : Z) : gset Z := if decide (j = i) then X else W j.
Definition no_proposals : index_state := IndexState ∅ ∅ (λ _, ∅).

(** A proposal is inserted, changed in its approvals or removed. *)
Inductive index_step : index_state → index_state → Prop :=
| step_insert m idx W i p : m !! i = None →
    index_step (IndexState m idx W) (IndexState (<[i := p]> m) (object_inserted i p idx) (at_id i ∅ W))
| step_modify m idx W i p p' : m !! i = Some p →
    required_active_approvals p' = required_active_approvals p →
    required_owner_approvals p' = required_owner_approvals p →
    index_step (IndexState m idx W)
      (IndexState (<[i := p']> m) (object_modified i p p' idx) (at_id i (still_withdrawn p p' (W i)) W))
| step_remove m idx W i p : m !! i = Some p →
    index_step (IndexState m idx W) (IndexState (delete i m) (object_removed i p idx) W).

(** The index lists a proposal under exactly the accounts it concerns, those aside that
    have withdrawn from it. *)
Definition indexed (s : index_state) : Prop :=
  no_empty (index_of s) ∧ ∀ a i,
    listed (index_of s) a i ↔ ∃ p, proposals_of s !! i = Some p ∧ related a p ∧ a ∉ withdrawn s i.

Lemma elem_of_accounts a p : a ∈ accounts_of p ↔ related a p.
Proof. unfold accounts_of, related. by rewrite !elem_of_app, !elem_of_flat. Qed.

Lemma indexed_step s s' : indexed s → index_step s s' → indexed s'.
Proof.
  intros I St. revert I. destruct St as [m idx W i p Hi|m idx W i p p' Hi Ha Ho|m idx W i p Hi]; intros [In I]; cbn in *.
  - split; [by apply no_empty_inserts|]. intros a j. cbn. unfold object_inserted. rewrite listed_inserts, elem_of_accounts, I.
    unfold at_id. destruct (decide (j = i)) as [->|Hj]; [rewrite lookup_insert_eq|rewrite lookup_insert_ne by done]; [|naive_solver].
    split; [intros [[Hr _]|(q & Hq & _)]; [|congruence]|intros (q & [= <-] & Hr & _); by left].
    exists p. split; [done|]. split; [done|]. apply not_elem_of_empty.
  - split; [by apply no_empty_delta, no_empty_delta|]. intros a j. cbn. unfold object_modified, at_id.
    rewrite listed_delta by apply flat_sorted. destruct (decide (j = i)) as [->|Hj];
      rewrite listed_delta by apply flat_sorted.
    + rewrite decide_True, lookup_insert_eq, !elem_of_flat, I by done.
      assert ((∃ q, m !! i = Some q ∧ related a q ∧ a ∉ W i) ↔ related a p ∧ a ∉ W i) as -> by naive_solver.
      assert ((∃ q, Some p' = Some q ∧ related a q ∧ a ∉ still_withdrawn p p' (W i)) ↔
        related a p' ∧ a ∉ still_withdrawn p p' (W i)) as -> by naive_solver.
      unfold related, still_withdrawn. rewrite Ha, Ho. cbn.
      destruct (decide (a ∈ available_active_approvals p')), (decide (a ∈ available_owner_approvals p')),
        (decide (a ∈ available_active_approvals p)), (decide (a ∈ available_owner_approvals p)), (decide (a ∈ W i));
        repeat first [rewrite elem_of_difference|rewrite elem_of_union]; tauto.
    + rewrite decide_False, lookup_insert_ne by congruence. apply I.
  - split; [by apply no_empty_removes|]. intros a j. cbn. unfold object_removed. rewrite listed_removes, elem_of_accounts, I.
    destruct (decide (j = i)) as [->|Hj]; [rewrite lookup_delete_eq|rewrite lookup_delete_ne by done]; [naive_solver|].
    split; [by intros [_ H]|]. intros H. split; [|done]. intros [_ ->]. done.
Qed.

(** C39: The approval index is exact.  Whatever proposals are made, approved,
    disapproved and removed, a proposal is listed under an account exactly when it
    exists, requires or has the account's approval, and the account has not withdrawn:
    its last change to the approvals was not to take one back.  No account is kept
    with nothing listed. *)
Theorem approval_index_exact s : rtc index_step no_proposals s → indexed s.
Proof.
  intros R. assert (indexed no_proposals) as I.
  { split; [apply map_Forall_empty|]. intros a i. cbn. split; [intros (X & HX & _); by destruct (lookup_empty_Some a X HX)|].
    intros (p & Hp & _). by destruct (lookup_empty_Some i p Hp). }
  induction R as [|s1 s2 s3 St _ IH]; [done|]. apply IH. by eapply indexed_step.
Qed.

(** *** Disapproval

    Account 17 must approve proposal 5 and approves it: the index lists the proposal
    under the account.  Once it takes the approval back, it no longer does, although the
    approval is still required. *)
Definition ex_approved (approvals : gset Z) : proposal_object :=
  ProposalObject 0 None [] {[ 17 ]} approvals ∅ ∅ ∅ 18 None.

Lemma approval_index_exact_witness :
  listed (object_modified 5 (ex_approved ∅) (ex_approved {[ 17 ]}) (object_inserted 5 (ex_approved ∅) ∅)) 17 5.
Proof.
  assert (rtc index_step no_proposals
    (IndexState (<[5 := ex_approved {[ 17 ]}]> (<[5 := ex_approved ∅]> ∅))
       (object_modified 5 (ex_approved ∅) (ex_approved {[ 17 ]}) (object_inserted 5 (ex_approved ∅) ∅))
       (at_id 5 (still_withdrawn (ex_approved ∅) (ex_approved {[ 17 ]}) (at_id 5 ∅ (λ _, ∅) 5)) (at_id 5 ∅ (λ _, ∅))))) as R.
  { eapply rtc_l; [apply (step_insert _ _ _ 5 (ex_approved ∅)), lookup_empty|]. apply rtc_once.
    apply step_modify; [apply lookup_insert_eq|reflexivity..]. }
  destruct (approval_index_exact _ R) as [_ H]. apply H. exists (ex_approved {[ 17 ]}). split_and!.
  - reflexivity.
  - left. cbn. set_solver.
  - cbn. set_solver.
Defined.

(** The index loses a required approval. *)
Lemma disapproval_is_forgotten :
  let idx := object_modified 5 (ex_approved {[ 17 ]}) (ex_approved ∅) (object_inserted 5 (ex_approved {[ 17 ]}) ∅) in
  idx = ∅ ∧ related 17 (ex_approved ∅).
Proof. split; [by vm_compute|]. left. cbn. set_solver. Qed.
