(* ===== verification/Transaction.v ===== *)
(** * Transactions: applying operations (chain/db_block.cpp, chain/evaluator.hpp)

    The evaluation of an operation from its fee to its result, the checks of a
    transaction (validity, duplicates, authorities, reference block, expiration,
    size) and the application of its operations in order.  A transaction carries
    its id, the keys recovered from its signatures and its packed size. *)

From S2P Require Import Prelude External Asset Authority Operations Block Vesting State Balance Fill Market Trade.
From S2P Require Import Evaluator MarketOps Ledger Frame OpFrame Proposal.

Record signed_transaction := SignedTransaction {
  trx_id : Z;
  ref_block_num : Z;
  ref_block_prefix : Z;
  trx_expiration : Z;
  trx_operations : list operation;
  trx_signees : list Z;
  trx_packed_size : Z
}.

(** ** Validation flags *)
Definition skip_transaction_signatures : Z := 2.
Definition skip_transaction_dupe_check : Z := 4.
Definition skip_block_size_check : Z := 16.
Definition skip_tapos_check : Z := 32.

Section transaction.
Context `{EX : Ext} (hash_of : Z → list Z → Z) (key_addresses : Z → list Z).
Context (nth_element : nth_element_t) (fuel : nat).

(** [convert_fee], [pay_fee] and [do_apply] after [do_evaluate], by operation. *)
Definition evaluate_operation (push_proposal : Z → M database unit) (op : operation) (core_fee_paid : Z)
    : M database operation_result :=
  match ledger_evaluator hash_of key_addresses op with
  | Some (ev, ap) => evaluate_apply op core_fee_paid ev (λ _, ap)
  | None =>
      match op with
      | limit_order_create_operation fee seller sell recv ex fill_or_kill =>
          limit_order_create_evaluate seller sell recv ex;;
          deferred ← (limit_order_convert_fee fee core_fee_paid;; limit_order_pay_fee seller fee core_fee_paid);
          limit_order_create_apply fuel seller sell recv ex fill_or_kill deferred
      | limit_order_cancel_op _ account order =>
          evaluate_apply op core_fee_paid (limit_order_cancel_evaluate account order)
            (λ _, limit_order_cancel_apply fuel order)
      | call_order_update_operation _ account dc dd tcr =>
          evaluate_apply op core_fee_paid (call_order_update_evaluate account dc dd)
            (λ _, call_order_update_apply fuel account dc dd tcr)
      | bid_collateral_op _ bidder ac dc =>
          evaluate_apply op core_fee_paid (bid_collateral_evaluate bidder ac dc) (bid_collateral_apply bidder ac dc)
      | asset_global_settle_operation _ i a p =>
          evaluate_apply op core_fee_paid (asset_global_settle_evaluate i a p)
            (λ _, asset_global_settle_apply a p)
      | asset_settle_operation _ account amt =>
          evaluate_apply op core_fee_paid (asset_settle_evaluate account amt) (λ _, asset_settle_apply account amt)
      | asset_publish_feed_operation _ publisher a feed =>
          evaluate_apply op core_fee_paid (asset_publish_feed_evaluate publisher a feed)
            (λ _, asset_publish_feed_apply nth_element fuel publisher a feed)
      | proposal_create_operation _ account ops ex review _ =>
          evaluate_apply op core_fee_paid (proposal_create_evaluate op ops ex review)
            (λ _, proposal_create_apply op account ops ex review)
      | proposal_update_operation _ _ p aa ar oa or ka kr _ =>
          evaluate_apply op core_fee_paid (proposal_update_evaluate p aa ar oa or)
            (λ _, proposal_update_apply key_addresses push_proposal p aa ar oa or ka kr)
      | proposal_delete_operation _ account owner p =>
          evaluate_apply op core_fee_paid (proposal_delete_evaluate account owner p) (λ _, proposal_delete_apply p)
      | _ => throw assert_exception
      end
  end.

(** [evaluator<T>::evaluate] and [apply]: the fee is checked first and taken from
    the account last. *)
Definition start_evaluate (push_proposal : Z → M database unit) (skip_fee_schedule_check : bool) (op : operation)
    : M database operation_result :=
  core_fee_paid ← prepare_fee (fee_payer op) (op_fee op);
  check_fee skip_fee_schedule_check op core_fee_paid;;
  result ← evaluate_operation push_proposal op core_fee_paid;
  n ← negate (op_fee op);
  adjust_balance (fee_payer op) n;;
  mret result.

Definition set_result (r : operation_result) (o : applied_op) : applied_op :=
  match o with applied_operation op _ => applied_operation op r | o => o end.
Definition set_applied_operation_result (op_id : nat) (r : operation_result) : M database unit :=
  puts (λ s, set_applied_operations (alter (set_result r) op_id (applied_operations s)) s).

(** [apply_operation] with [depth] proposals being executed around it.  Executing a
    proposal applies its operations one level deeper, without skipping the fee
    check; [levels] bounds the recursion. *)
Fixpoint apply_nested (levels : nat) (depth : Z) (skip_fee_schedule_check : bool) (op : operation)
    : M database operation_result :=
  match levels with
  | O => throw out_of_fuel
  | S levels =>
      op_id ← gets (λ s, length (applied_operations s));
      push_applied_operation (applied_operation op void_result);;
      result ← start_evaluate (push_proposal (apply_nested levels (depth + 1) false) depth)
                 skip_fee_schedule_check op;
      set_applied_operation_result op_id result;;
      mret result
  end.
(** The nesting guard of [push_proposal] allows twice as many levels as there are
    active witnesses. *)
Definition apply_operation (depth : Z) (skip_fee_schedule_check : bool) (op : operation)
    : M database operation_result := λ s,
  apply_nested (S (Z.to_nat (2 * Z.of_nat (length (active_witnesses (gpo s))) - depth))) depth
    skip_fee_schedule_check op s.
Definition apply_operations : list operation → M database (list operation_result) :=
  apply_each (apply_operation 0 false).

(** ** Transactions *)
Definition transaction_validate (trx : signed_transaction) : result unit := validate_operations (trx_operations trx).

(** [signed_transaction::verify_authority]. *)
Definition verify_transaction (trx : signed_transaction) (s : database) : result unit :=
  sigs ← get_signature_keys (trx_signees trx) ∅;
  let '(active, owner, other) := operation_get_required_authorities (trx_operations trx) in
  verify_authority key_addresses active owner other sigs (chain_context s) false ∅ ∅.

Definition check_dupe (trx : signed_transaction) : M database unit := λ s,
  lift (fc_assert (match transactions s !! trx_id trx with None => true | Some _ => false end)) s.
Definition record_transaction (trx : signed_transaction) : M database unit := λ s,
  match transactions s !! trx_id trx with
  | Some _ => Err assert_exception
  | None => Ok (tt, set_transactions (<[trx_id trx := trx_expiration trx]> (transactions s)) s)
  end.

Definition check_tapos (trx : signed_transaction) : M database unit := λ s,
  match block_summaries s !! ref_block_num trx with
  | None => Err assert_exception
  | Some id => lift (fc_assert (ref_block_prefix trx =? u32 id.2)) s
  end.

Definition has_skip (skip f : Z) : bool := negb (Z.land skip f =? 0).

Definition check_time_and_size (skip : Z) (trx : signed_transaction) : M database unit :=
  now ← head_block_time;
  p ← get_parameters;
  assert_that (trx_expiration trx <=? tps_add now (maximum_time_until_expiration p));;
  assert_that (now <=? trx_expiration trx);;
  when (negb (has_skip skip skip_block_size_check))
    (assert_that ((now <=? HARDFORK_CORE_1573_TIME) || (trx_packed_size trx <=? maximum_transaction_size p))).

Definition _apply_transaction (skip : Z) (trx : signed_transaction) : M database (list operation_result) :=
  lift (transaction_validate trx);;
  when (negb (has_skip skip skip_transaction_dupe_check)) (check_dupe trx);;
  when (negb (has_skip skip skip_transaction_signatures)) (read (verify_transaction trx));;
  num ← gets (λ s, head_block_number (dgpo s));
  when (num >? 0)
    (when (negb (has_skip skip skip_tapos_check)) (check_tapos trx);;
     check_time_and_size skip trx);;
  when (negb (has_skip skip skip_transaction_dupe_check)) (record_transaction trx);;
  apply_operations (trx_operations trx).

End transaction.

(** ** Conservation *)

Definition all_of {A} (P : A → Prop) : list A → Prop :=
  fix go l := match l with [] => True | x :: l => P x ∧ go l end.
Lemma all_of_Forall {A} (P : A → Prop) l : all_of P l ↔ Forall P l.
Proof. induction l as [|x l IH]; cbn; [by split|]. by rewrite Forall_cons, IH. Qed.
Lemma check_each_Forall {A} (f : A → result unit) l : check_each f l = Ok tt ↔ Forall (λ x, f x = Ok tt) l.
Proof.
  induction l as [|x l IH]; [by split|]. cbn. rewrite Forall_cons, <- IH. split.
  - intros E. apply result_bind_Ok in E as ([] & ? & ?). done.
  - intros [-> ?]. done.
Qed.

(** Amounts are of type [share_type] and the size of a set fits 32 bits. *)
Fixpoint typed_operation (op : operation) : Prop :=
  match op with
  | limit_order_create_operation _ _ sell _ _ _ => amount sell ≤ int64_max
  | asset_settle_operation _ _ amt => int64_ok (amount amt)
  | asset_publish_feed_operation _ _ _ feed => typed_feed feed
  | proposal_create_operation _ _ proposed_ops _ _ _ => all_of typed_operation proposed_ops
  | proposal_update_operation _ _ _ _ _ _ _ ka kr _ => Z.of_nat (size (ka ∪ kr)) ≤ uint32_max
  | _ => True
  end.

Definition proposal_op (op : operation) : bool :=
  match op with
  | proposal_create_operation _ _ _ _ _ _ | proposal_update_operation _ _ _ _ _ _ _ _ _ _
  | proposal_delete_operation _ _ _ _ => true
  | _ => false
  end.

Section transaction_ledger.
Context `{EX : Ext} (hash_of : Z → list Z → Z) (key_addresses : Z → list Z).
Context (nth_element : nth_element_t) (fuel : nat).
Hypothesis nth_element_permutes : ∀ less n l, nth_element less n l ≡ₚ l.

(** The operations of a proposal were validated when it was made. *)
Definition good_operation (op : operation) : Prop := operation_validate op = Ok tt ∧ typed_operation op.
Definition good_proposals (s : database) : Prop :=
  map_Forall (λ _ p, Forall good_operation (proposed_operations p)) (proposals s).

Lemma validate_operations_Ok ops :
  validate_operations ops = Ok tt → Forall (λ op, operation_validate op = Ok tt) ops.
Proof. intros E. apply result_bind_Ok in E as ([] & _ & E). by apply check_each_Forall. Qed.
Lemma good_operations ops :
  validate_operations ops = Ok tt → Forall typed_operation ops → Forall good_operation ops.
Proof. intros E%validate_operations_Ok Ht. by apply Forall_and. Qed.

(** What every operation keeps; a step that takes a fee out of nowhere leaves it to
    the account to pay it afterwards. *)
Record sound_state (s : database) : Prop := {
  ss_market : wf_market s;
  ss_typed : typed_state s;
  ss_proposals : good_proposals s
}.
Definition fee_step (fee : asset) (s s' : database) : Prop :=
  sound_state s → sound_state s' ∧
  ∀ k, total (ledger k) s' = total (ledger k) s + lc k (asset_id fee) * amount fee.
Definition balance_step (s s' : database) : Prop :=
  sound_state s → sound_state s' ∧ ∀ k, total (ledger k) s' = total (ledger k) s.
#[export] Instance balance_step_preorder : PreOrder balance_step.
Proof.
  split; [by intros s S|]. intros s1 s2 s3 H1 H2 S. destruct (H1 S) as [S2 T2]. destruct (H2 S2) as [S3 T3].
  split; [done|]. intros k. by rewrite T3.
Qed.

Lemma good_proposals_same s s' : proposals s' = proposals s → good_proposals s → good_proposals s'.
Proof. unfold good_proposals. by intros ->. Qed.
Lemma sound_plain s s' : wf_market s' → plain_frame s s' → sound_state s → sound_state s'.
Proof.
  intros W [_ Hp _ Ht] [_ T G]. split; [done|by apply Ht|by apply (good_proposals_same s)].
Qed.
Lemma balance_of s s' : ledger_step s s' → plain_frame s s' → balance_step s s'.
Proof.
  intros H F S. destruct (H (ss_market _ S)) as [W' T]. split; [|done]. by eapply sound_plain.
Qed.
Lemma fee_step_balance fee s1 s2 s3 : fee_step fee s1 s2 → balance_step s2 s3 → fee_step fee s1 s3.
Proof.
  intros H1 H2 S. destruct (H1 S) as [S2 T1]. destruct (H2 S2) as [S3 T2]. split; [done|]. intros k. by rewrite T2.
Qed.
(** Changes that neither the books nor the ledger sees. *)
Lemma balance_quiet s s' :
  same_books s s' → (∀ μ, total μ s' = total μ s) → (good_proposals s → good_proposals s') →
  balance_step s s'.
Proof.
  intros B T G [W [T1 T2] P]. split; [|done]. split; [by apply (wf_step_books _ _ B)| |by apply G].
  split; [by rewrite (sb_bitassets _ _ B)|by rewrite (sb_settle _ _ B)].
Qed.

Lemma fee_paid fee payer core s1 s2 :
  (asset_id fee = CORE → core = amount fee) →
  (convert_fee fee core;; pay_fee_default payer core) s1 = Ok (tt, s2) →
  same_books s1 s2 ∧ fee_step fee s1 s2.
Proof.
  intros Hc E.
  assert (keeps plain_frame (convert_fee fee core;; pay_fee_default payer core)) as K.
  { apply keeps_bind; [apply _|apply plain_convert_fee|intros _]. apply plain_keeps, frame_pay_fee_default. }
  pose proof (K _ _ _ E) as F. clear K.
  bind E as [] H1. apply books_convert_fee in H1 as B1. apply books_pay_fee in E as B2.
  split; [by etransitivity|]. intros S.
  split; [by apply (sound_plain s1); [apply (wf_step_books _ _ B2), (wf_step_books _ _ B1); apply S|..]|].
  intros k. apply (effect_convert_fee (lc k) (le k) (λ _, 0) (lg k)) in H1.
  apply (effect_pay_fee_default (lc k) (le k) (λ _, 0) (lg k)) in E. unfold ledger. rewrite E, H1.
  destruct (asset_id fee =? CORE) eqn:Ec; bool_to_prop; [rewrite Ec, Hc by done|]; lia.
Qed.

(** The checks, the fee and the changes of an operation. *)
Lemma evaluate_apply_step {A} op core (ev : M database A) ap s r s' :
  (asset_id (op_fee op) = CORE → core = amount (op_fee op)) → reads ev →
  (∀ a s1 s2, wf_market s → ev s = Ok (a, s) → same_books s s1 → ap a s1 = Ok (r, s2) → balance_step s1 s2) →
  evaluate_apply op core ev ap s = Ok (r, s') → fee_step (op_fee op) s s'.
Proof.
  intros Hc Hr Ha E S. unfold evaluate_apply in E. bind E as a Hev.
  match type of Hev with _ = Ok (_, ?x) => assert (s = x) as <- by by eapply Hr end.
  bind E as [] H1. bind E as [] H2.
  match type of H2 with _ = Ok (_, ?x) =>
    destruct (fee_paid (op_fee op) (fee_payer op) core s x Hc) as [B F] end.
  { apply M_bind_Ok. eauto. }
  exact (fee_step_balance _ _ _ _ F (Ha _ _ _ (ss_market _ S) Hev B E) S).
Qed.

Lemma reads_market_checks :
  (∀ w o, reads (limit_order_cancel_evaluate w o)) ∧ (∀ w x y, reads (call_order_update_evaluate w x y)) ∧
  (∀ w x y, reads (bid_collateral_evaluate w x y)) ∧ (∀ i a p, reads (asset_global_settle_evaluate i a p)) ∧
  (∀ w a, reads (asset_settle_evaluate w a)) ∧ (∀ w a f, reads (asset_publish_feed_evaluate w a f)) ∧
  (∀ w a b x, reads (limit_order_create_evaluate w a b x)).
Proof.
  assert (∀ a b, reads (find_call a b)) by (intros; apply keeps_gets, _).
  assert (∀ a b, reads (find_bid a b)) by (intros; apply keeps_gets, _).
  split_and!; intros;
    unfold limit_order_cancel_evaluate, call_order_update_evaluate, bid_collateral_evaluate,
      asset_global_settle_evaluate, asset_settle_evaluate, asset_publish_feed_evaluate, authorized_publisher,
      limit_order_create_evaluate; solve_reads.
Qed.

(** ** Proposals keep the books *)
Fixpoint hardfork_check_reads t op : reads (hardfork_check t op).
Proof.
  destruct op; cbn [hardfork_check]; try (unfold check_call_order_update, check_vesting_balance_policy_hf_1268; solve_reads).
  generalize false. induction proposed_ops as [|op ops IH]; intros already; [solve_reads|].
  apply keeps_bind; [apply _|apply hardfork_check_reads|intros _].
  destruct (is_proposal_update op); [|apply IH]. apply keeps_bind; [apply _|solve_reads|intros _; apply IH].
Qed.

Lemma reads_proposal_checks :
  (∀ op ops ex r, reads (proposal_create_evaluate op ops ex r)) ∧
  (∀ p aa ar oa or, reads (proposal_update_evaluate p aa ar oa or)) ∧
  (∀ a o p, reads (proposal_delete_evaluate a o p)).
Proof.
  pose proof hardfork_check_reads. split_and!; intros;
    unfold proposal_create_evaluate, proposal_update_evaluate, proposal_delete_evaluate, check_review_period, require;
    solve_reads.
Qed.

Lemma balance_modify_proposal i f :
  (∀ p p', f p = Ok p' → proposed_operations p' = proposed_operations p) →
  keeps balance_step (modify (V:=proposal_object) i f).
Proof.
  intros Hf s [] s' E. assert (∀ μ, total μ s' = total μ s) as T.
  { intros μ. destruct (total_modify (V:=proposal_object) μ _ _ _ _ E) as (v & w & _ & _ & _ & ->). cbn. lia. }
  apply (total_modify (V:=proposal_object) (ledger None)) in E as (v & w & Hv & Hw & -> & _).
  apply balance_quiet; [by split|done|]. intros G. apply map_Forall_insert_2; [|exact G].
  rewrite (Hf _ _ Hw). exact (G i v Hv).
Qed.
Lemma balance_remove_proposal i : keeps balance_step (remove (V:=proposal_object) i).
Proof.
  intros s [] s' E. assert (∀ μ, total μ s' = total μ s) as T.
  { intros μ. destruct (total_remove (V:=proposal_object) μ _ _ _ E) as (v & _ & _ & ->). cbn. lia. }
  apply (total_remove (V:=proposal_object) (ledger None)) in E as (v & _ & -> & _).
  apply balance_quiet; [by split|done|]. intros G. by apply map_Forall_delete.
Qed.

Lemma prevent_approval_good : good_operation prevent_approval.
Proof. split; [reflexivity|exact I]. Qed.

Lemma balance_proposal_create op account ops ex review :
  Forall good_operation ops → keeps balance_step (proposal_create_apply op account ops ex review).
Proof.
  intros Hg s r s' E. unfold proposal_create_apply in E. bind_step E. bind_step E.
  destruct (visit_1479 op (0, 0)) as [m c] eqn:Ev. bind E as [] Hx.
  match type of Hx with _ = Ok (_, ?x) => assert (s = x) as <- end.
  { unfold when in Hx. destruct (_ >? _); [by apply lift_Ok in Hx as [_ ->]|by injection Hx as <-]. }
  bind E as i Hi. ret_inv E. assert (∀ μ, total μ s' = total μ s) as T.
  { intros μ. destruct (total_create (V:=proposal_object) μ _ _ _ _ Hi) as (-> & _ & _). cbn. lia. }
  unfold create, State.add in Hi. destruct (tbl s !! _); [done|]. destruct (collides _ _ _); simplify_eq.
  apply balance_quiet; [by split|done|]. intros G. apply map_Forall_insert_2; [|exact G].
  unfold new_proposal. rewrite Ev. cbn. case_match; [|done]. apply Forall_app. split; [done|].
  constructor; [apply prevent_approval_good|done].
Qed.

Lemma keeps_try {A} R (m : M database A) h :
  keeps R m → (∀ e, keeps R (h e)) → keeps R (try_catch m h).
Proof.
  intros Hm Hh s r s' E. unfold try_catch in E. destruct (m s) as [[x s1]|e] eqn:Em.
  - injection E as <- <-. by eapply Hm.
  - destruct (caught e); [|done]. by eapply Hh.
Qed.
Lemma keeps_apply_each R `{!PreOrder R} f ops :
  Forall (λ op, keeps R (f op)) ops → keeps R (apply_each f ops).
Proof.
  induction 1 as [|op ops Ho _ IH]; cbn [apply_each]; [apply keeps_ret, _|].
  repeat (apply keeps_bind; [apply _|done|intros ?]). apply keeps_ret, _.
Qed.
Lemma authorized_reads p : reads (is_authorized_to_execute key_addresses p).
Proof. intros s r s' E. unfold is_authorized_to_execute in E. by repeat case_match; simplify_eq. Qed.

Lemma balance_proposal_update push i aa ar oa or ka kr :
  keeps balance_step (push i) → keeps balance_step (proposal_update_apply key_addresses push i aa ar oa or ka kr).
Proof.
  intros Hp. unfold proposal_update_apply.
  apply keeps_bind; [apply _|apply balance_modify_proposal; by intros p p' [= <-]|intros _].
  apply keeps_bind; [apply _|apply keeps_deref; apply _|intros p].
  destruct (review_period_time p); [apply keeps_ret, _|].
  apply keeps_bind; [apply _|apply reads_keeps, authorized_reads; apply _|intros ok].
  apply keeps_bind; [apply _| |intros _; apply keeps_ret, _].
  destruct ok; [|apply keeps_ret, _]. apply keeps_try; [done|]. intros e. apply balance_modify_proposal.
  by intros q q' [= <-].
Qed.

Lemma balance_push_proposal apply_op depth i :
  (∀ op, good_operation op → keeps balance_step (apply_op op)) → keeps balance_step (push_proposal apply_op depth i).
Proof.
  intros Ha s r s' E S. unfold push_proposal in E. bind E as p Hp. bind_step E.
  bind E as [] Hd. bind E as rs Hr. pose proof (keeps_apply_each balance_step apply_op (proposed_operations p)) as K.
  specialize (K ltac:(apply (Forall_impl good_operation); [by apply (ss_proposals _ S i p)|done]) _ _ _ Hr).
  apply balance_remove_proposal in E. exact (transitivity K E S).
Qed.

(** ** Operations *)
Lemma evaluate_plain push op core :
  proposal_op op = false → typed_operation op → keeps plain_frame (evaluate_operation hash_of key_addresses nth_element fuel push op core).
Proof.
  intros Hp Ht. destruct reads_market_checks as (R1 & R2 & R3 & R4 & R5 & R6 & R7). unfold evaluate_operation.
  destruct (ledger_evaluator hash_of key_addresses op) as [[ev ap]|] eqn:El.
  { apply plain_evaluate_apply; [by eapply ledger_reads|]. intros. by eapply plain_ledger. }
  destruct op; try done; try apply keeps_throw; try (apply plain_evaluate_apply; [by auto|]; intros; solve_plain).
  apply keeps_bind; [apply _|by apply plain_reads|]. intros _. solve_plain.
Qed.

(** The evaluators that move funds, and those of proposals. *)
Lemma evaluate_ledger_step push op core s r s' :
  proposal_op op = false → good_operation op →
  0 ≤ amount (op_fee op) → 0 ≤ core → (asset_id (op_fee op) = CORE → core = amount (op_fee op)) →
  evaluate_operation hash_of key_addresses nth_element fuel push op core s = Ok (r, s') → fee_step (op_fee op) s s'.
Proof.
  intros Hpr [Hv Ht] Hf Hc0 Hc E. pose proof (evaluate_plain push op core Hpr Ht _ _ _ E) as F.
  unfold evaluate_operation in E.
  destruct (ledger_evaluator _ _ op) as [[ev ap]|] eqn:Hop.
  { eapply evaluate_apply_step; [done|by eapply ledger_reads| |exact E]. intros [] s1 s2 W Hev B Hap.
    apply balance_of; [|by eapply plain_ledger]. intros W1. split.
    - by destruct (ledger_effect hash_of key_addresses (λ _, 0) (λ _, 0) (λ _, 0) 0 op ev ap s s1 r s2).
    - intros k. destruct (ledger_effect hash_of key_addresses (lc k) (le k) (λ _, 0) (lg k) op ev ap s s1 r s2)
        as [T _]; try done. unfold ledger. rewrite T, le_lc. lia. }
  destruct reads_market_checks as (R1 & R2 & R3 & R4 & R5 & R6 & R7).
  destruct op; try done;
    try (eapply evaluate_apply_step; [exact Hc| | |exact E]; [done|]; intros ? s1 s2 W Hev B Hap; cbn beta in Hap;
         match type of Hap with ?m _ = _ => assert (keeps plain_frame m) as K by solve_plain end;
         apply balance_of; [|exact (K _ _ _ Hap)]; clear K F).
  - cbn [op_fee] in *. intros S. bind E as [] Hev. bind E as d Hd.
    match type of Hev with _ = Ok (_, ?x) => assert (s = x) as <- by by eapply R7 end.
    match type of Hd with _ = Ok (_, ?x) =>
      assert (∀ c e q g, same_books s x ∧ total (linear_weights c e q g) x + c CORE * d.1 + c (asset_id d.2) * amount d.2
        = total (linear_weights c e q g) s + c (asset_id fee) * amount fee ∧ 0 ≤ d.1 ∧ 0 ≤ amount d.2) as P end.
    { intros c e q g. destruct (limit_order_fee_spec _ _ _ _ _ _ c e q g Hc Hd) as (? & ? & P). destruct P; done. }
    destruct (P (λ _, 0) (λ _, 0) (λ _, 0) 0) as (B & _ & P1 & P2).
    apply limit_create_spec in E as [W' T]; [|by apply (wf_step_books _ _ B), S|done..].
    split; [by eapply sound_plain|]. intros k. rewrite T. destruct (P (lc k) (le k) (λ _, 0) (lg k)) as (_ & T2 & _). unfold ledger. lia.
  - exact (ledger_limit_cancel fuel _ _ _ _ Hap).
  - destruct a. by eapply ledger_call_update.
  - by eapply ledger_asset_settle.
  - by eapply ledger_global_settle.
  - by eapply ledger_publish_feed.
  - by eapply ledger_bid_collateral.
Qed.

Lemma evaluate_proposal_step push op core s r s' :
  proposal_op op = true → good_operation op →
  (asset_id (op_fee op) = CORE → core = amount (op_fee op)) → (∀ i, keeps balance_step (push i)) →
  evaluate_operation hash_of key_addresses nth_element fuel push op core s = Ok (r, s') → fee_step (op_fee op) s s'.
Proof.
  intros Hpr [Hv Ht] Hc Hpush E. destruct reads_proposal_checks as (R1 & R2 & R3).
  destruct op; try done; unfold evaluate_operation, ledger_evaluator in E;
    (eapply evaluate_apply_step; [exact Hc| | |exact E]; [done|]; intros ? s1 s2 W Hev B Hap; cbn beta in Hap).
  - revert Hap. apply balance_proposal_create. cbn in Hv, Ht. apply result_bind_Ok in Hv as ([] & _ & Hv).
    apply Forall_and. split; [by apply check_each_Forall|by apply all_of_Forall].
  - revert Hap. by apply balance_proposal_update.
  - unfold proposal_delete_apply in Hap. bind Hap as [] Hx. ret_inv Hap. by eapply balance_remove_proposal.
Qed.

Lemma balance_applied_operations s x : balance_step s (set_applied_operations x s).
Proof. apply balance_quiet; [by split|intros μ; apply total_set_applied|exact (good_proposals_same _ _ eq_refl)]. Qed.

Lemma balance_start_evaluate push sk op :
  good_operation op → (∀ i, keeps balance_step (push i)) →
  keeps balance_step (start_evaluate hash_of key_addresses nth_element fuel push sk op).
Proof.
  intros Hg Hpush s r s' E S. unfold start_evaluate in E. bind E as core Hp. bind E as [] Hc.
  match type of Hp with _ = Ok (_, ?x) => assert (s = x) as <- by by eapply reads_prepare_fee end.
  match type of Hc with _ = Ok (_, ?x) => assert (s = x) as <- by by eapply reads_check_fee end.
  apply prepare_fee_core in Hp as (P1 & P2 & P3). bind E as x Hx. bind E as n Hn. bind E as [] Ha. ret_inv E.
  apply asset_neg_Ok in Hn as ->.
  match type of Hx with _ = Ok (_, ?t) => assert (fee_step (op_fee op) s t) as Hf end.
  { destruct (proposal_op op) eqn:Ep; [by eapply evaluate_proposal_step|by eapply evaluate_ledger_step]. }
  destruct (Hf S) as [S1 T1]. split.
  - eapply sound_plain; [|exact (plain_keeps _ (frame_adjust_balance _ _) _ _ _ Ha)|done].
    apply books_adjust_balance in Ha. by eapply wf_step_books, S1.
  - intros k. pose proof (effect_adjust_balance (lc k) (le k) (λ _, 0) (lg k) _ _ _ _ _ Ha) as Ta. specialize (T1 k).
    cbn [amount asset_id] in Ta. unfold ledger in *. lia.
Qed.

Lemma balance_apply_nested levels : ∀ depth sk op,
  good_operation op → keeps balance_step (apply_nested hash_of key_addresses nth_element fuel levels depth sk op).
Proof.
  induction levels as [|n IH]; intros depth sk op Hg s r s' E; [done|]. cbn [apply_nested] in E.
  bind_step E. bind E as [] H1. bind E as x Hx. bind E as [] H2. ret_inv E. injection H1 as <-. injection H2 as <-.
  apply balance_start_evaluate in Hx; [|done|].
  - etransitivity; [apply balance_applied_operations|]. etransitivity; [exact Hx|]. apply balance_applied_operations.
  - intros i. apply balance_push_proposal. intros op' Hg'. by apply IH.
Qed.
Lemma balance_apply_operation depth sk op :
  good_operation op → keeps balance_step (apply_operation hash_of key_addresses nth_element fuel depth sk op).
Proof. intros Hg s r s' E. by eapply balance_apply_nested. Qed.
Lemma balance_apply_operations ops :
  Forall good_operation ops → keeps balance_step (apply_operations hash_of key_addresses nth_element fuel ops).
Proof.
  intros Hg. apply keeps_apply_each; [apply _|]. eapply Forall_impl; [exact Hg|]. intros op Ho.
  by apply balance_apply_operation.
Qed.

Lemma reads_when b m : reads m → reads (when b m).
Proof. intros H. unfold when. destruct b; [done|]. apply keeps_ret, _. Qed.

Lemma reads_transaction_checks skip trx :
  reads (check_dupe trx) ∧ reads (read (verify_transaction key_addresses trx)) ∧ reads (check_tapos trx) ∧
  reads (check_time_and_size skip trx).
Proof.
  split_and!.
  - intros s r s' E. unfold check_dupe in E. by apply lift_Ok in E as [_ ->].
  - apply keeps_read, _.
  - intros s r s' E. unfold check_tapos in E. destruct (_ !! _); [|done]. by apply lift_Ok in E as [_ ->].
  - unfold check_time_and_size. solve_reads.
Qed.

(** What an applied transaction has passed, and the state its operations start from. *)
Lemma apply_transaction_inv skip trx s r s' :
  _apply_transaction hash_of key_addresses nth_element fuel skip trx s = Ok (r, s') →
  transaction_validate trx = Ok tt ∧
  (has_skip skip skip_transaction_signatures = false → verify_transaction key_addresses trx s = Ok tt) ∧
  ∃ s1, (s1 = s ∨ s1 = set_transactions (<[trx_id trx := trx_expiration trx]> (transactions s)) s ∧
           transactions s !! trx_id trx = None) ∧
    (has_skip skip skip_transaction_dupe_check = false → transactions s1 !! trx_id trx = Some (trx_expiration trx)) ∧
    apply_operations hash_of key_addresses nth_element fuel (trx_operations trx) s1 = Ok (r, s').
Proof.
  intros E. unfold _apply_transaction in E. destruct (reads_transaction_checks skip trx) as (R1 & R2 & R3 & R4).
  bind E as [] Hv. bind E as [] H1. bind E as [] H2. bind_step E. bind E as [] H3. bind E as [] H4.
  apply (reads_when _ _ R1) in H1. subst. apply (reads_when _ _ R2) in H2 as E2. subst.
  apply reads_when in H3; [subst|apply keeps_bind; [apply _|by apply reads_when|by intros _]].
  split; [done|]. split.
  { intros Hs. rewrite Hs in H2. unfold when in H2. cbn in H2. unfold read in H2. by apply lift_Ok in H2 as [? _]. }
  eexists. split_and!; [| |exact E].
  - unfold when in H4. destruct (negb (has_skip skip skip_transaction_dupe_check)); [|ret_inv H4; by left]. unfold record_transaction in H4.
    destruct (_ !! _) eqn:El; [done|]. injection H4 as <-. by right.
  - intros Hd. rewrite Hd in H4. cbn in H4. unfold record_transaction in H4. destruct (_ !! _) eqn:El; [done|].
    injection H4 as <-. cbn. apply lookup_insert_eq.
Qed.

Lemma balance_apply_transaction skip trx s r s' :
  Forall typed_operation (trx_operations trx) →
  _apply_transaction hash_of key_addresses nth_element fuel skip trx s = Ok (r, s') → balance_step s s'.
Proof.
  intros Ht E. apply apply_transaction_inv in E as (Hv & _ & s1 & Hs1 & _ & E).
  transitivity s1; [|by eapply balance_apply_operations, E; apply good_operations].
  destruct Hs1 as [->|[-> _]]; [reflexivity|]. apply balance_quiet; [by split|intros μ; apply total_set_transactions|exact (good_proposals_same s (set_transactions _ s) eq_refl)].
Qed.

End transaction_ledger.

(** ** Holdings and supply *)

(** Everything that is held of an asset, and its recorded supply. *)
Definition holdings (a : Z) (s : database) : Z :=
  total (linear_weights (λ x, ind (x =? a) 1) (λ _, 0) (λ _, 0) 0) s.
Definition supply (a : Z) (s : database) : Z := from_option current_supply 0 (dyns s !! a).

Lemma sum_map_add {K V} `{Countable K} (f1 f2 f : K → V → Z) m :
  (∀ k v, f k v = f1 k v + f2 k v) → sum_map f m = sum_map f1 m + sum_map f2 m.
Proof.
  intros Hf. induction m as [|k v m Hk IH] using map_ind; [by rewrite !sum_map_empty|].
  rewrite !sum_map_insert_new by done. rewrite Hf. lia.
Qed.

Lemma total_split c e s :
  total (linear_weights c e (λ _, 0) 0) s
  = total (linear_weights c (λ _, 0) (λ _, 0) 0) s + total (linear_weights (λ _, 0) e (λ _, 0) 0) s.
Proof.
  set (μ := linear_weights c e (λ _, 0) 0). set (μ1 := linear_weights c (λ _, 0) (λ _, 0) 0).
  set (μ2 := linear_weights (λ _, 0) e (λ _, 0) 0). unfold total.
  rewrite (sum_map_add (w_stats μ1) (w_stats μ2) (w_stats μ)), (sum_map_add (w_balance μ1) (w_balance μ2) (w_balance μ)),
    (sum_map_add (w_dyn μ1) (w_dyn μ2) (w_dyn μ)), (sum_map_add (w_bitasset μ1) (w_bitasset μ2) (w_bitasset μ)),
    (sum_map_add (w_limit μ1) (w_limit μ2) (w_limit μ)), (sum_map_add (w_call μ1) (w_call μ2) (w_call μ)),
    (sum_map_add (w_settle μ1) (w_settle μ2) (w_settle μ)), (sum_map_add (w_bid μ1) (w_bid μ2) (w_bid μ)),
    (sum_map_add (w_vesting μ1) (w_vesting μ2) (w_vesting μ)), (sum_map_add (w_htlc μ1) (w_htlc μ2) (w_htlc μ)),
    (sum_map_add (w_genesis μ1) (w_genesis μ2) (w_genesis μ)), (sum_map_add (w_fba μ1) (w_fba μ2) (w_fba μ));
    [cbn; lia|intros; cbn; unfold ind; repeat case_match; lia..].
Qed.

Lemma supply_weight a k s :
  total (linear_weights (λ _, 0) (λ x, ind (x =? a) k) (λ _, 0) 0) s = k * supply a s.
Proof.
  unfold total. rewrite (sum_map_null _ (stats s)), (sum_map_null _ (balances s)), (sum_map_null _ (bitassets s)),
    (sum_map_null _ (limit_orders s)), (sum_map_null _ (call_orders s)), (sum_map_null _ (settle_orders s)),
    (sum_map_null _ (bids s)), (sum_map_null _ (vestings s)), (sum_map_null _ (htlcs s)),
    (sum_map_null _ (genesis_balances s)), (sum_map_null _ (fba_accumulators (governance s))); try (intros; cbn; unfold ind; repeat case_match; lia).
  unfold supply. cbn [w_dyn w_dgpo linear_weights]. destruct (dyns s !! a) as [d|] eqn:Ed; cbn [from_option].
  - rewrite <- (insert_delete_id _ _ _ Ed), sum_map_insert_new by apply lookup_delete_eq.
    rewrite sum_map_null; [unfold ind; rewrite Z.eqb_refl; lia|]. intros j d' Hj. unfold ind.
    destruct (j =? a) eqn:Ej; [|lia]. bool_to_prop. subst. by rewrite lookup_delete_eq in Hj.
  - rewrite sum_map_null; [lia|]. intros j d' Hj. unfold ind. destruct (j =? a) eqn:Ej; [|lia].
    bool_to_prop. congruence.
Qed.

Lemma excess_holdings a s : excess a s = holdings a s - supply a s.
Proof. unfold excess, holdings. rewrite total_split, supply_weight. lia. Qed.

(** ** Properties *)
Section transaction_theorems.
Context `{EX : Ext} (hash_of : Z → list Z → Z) (key_addresses : Z → list Z).
Context (nth_element : nth_element_t) (fuel : nat).

(** One applied transaction. *)
Definition transaction_step (s s' : database) : Prop :=
  ∃ skip trx r, Forall typed_operation (trx_operations trx) ∧
    _apply_transaction hash_of key_addresses nth_element fuel skip trx s = Ok (r, s').

Lemma balance_transactions s s' :
  (∀ less n l, nth_element less n l ≡ₚ l) → rtc transaction_step s s' → balance_step s s'.
Proof.
  intros Hn. induction 1 as [|s1 s2 s3 (skip & trx & r & Ht & E) _ IH]; [by intros S|].
  intros S. destruct (balance_apply_transaction _ _ _ _ Hn _ _ _ _ _ Ht E S) as (S2 & T2).
  destruct (IH S2) as (S3 & T3). split; [done|]. intros k. by rewrite T3.
Qed.

(** Everything held adds up to the recorded supply, and the core in orders to what the
    statistics report. *)
Definition ledger_balanced (s : database) : Prop :=
  (∀ a, holdings a s = supply a s) ∧ core_orders_excess s = 0.
Lemma balance_step_balanced s s' :
  balance_step s s' → sound_state s → ledger_balanced s → sound_state s' ∧ ledger_balanced s'.
Proof.
  intros R S [H C]. destruct (R S) as [S' T]. split; [done|]. split.
  - intros a. pose proof (T (Some a)) as Ta. rewrite <- !excess_ledger, !excess_holdings, (H a) in Ta. lia.
  - pose proof (T None) as Tn. rewrite <- (core_orders_ledger s), <- (core_orders_ledger s') in Tn. congruence.
Qed.

(** C2: The ledger balances.  Whatever transactions are applied, with all the
    proposals they execute, for every asset everything that is held (balances, orders, collateral, settlement funds, fee
    pools, locks, vesting and pending fees) adds up to the recorded supply, the core
    in orders adds up to what the account statistics report, and the state stays
    well-formed: the objects of the market are consistent, amounts have their type
    and proposals hold validated operations only. *)
Theorem transactions_balance s s' :
  (∀ less n l, nth_element less n l ≡ₚ l) →
  sound_state s → ledger_balanced s → rtc transaction_step s s' → sound_state s' ∧ ledger_balanced s'.
Proof. intros Hn S B R. exact (balance_step_balanced s s' (balance_transactions s s' Hn R) S B). Qed.

(** The authorities of all accounts, as the account evaluators accept them. *)
Definition wf_authorities (s : database) : Prop :=
  map_Forall (λ _ a, wf_authority (acc_active a) ∧ wf_authority (acc_owner a)) (accounts s).

Lemma signature_keys_elem l r sigs :
  get_signature_keys l r = Ok sigs → ∀ k, k ∈ sigs ↔ k ∈ l ∨ k ∈ r.
Proof.
  revert r. induction l as [|x l IH]; intros r E; cbn in E; [injection E as <-; set_solver|].
  destruct (bool_decide _); [done|]. intros k. rewrite (IH _ E k). set_solver.
Qed.

Lemma required_elem ops op :
  op ∈ ops →
  (∀ id, id ∈ required_active op → id ∈ (operation_get_required_authorities ops).1.1) ∧
  (∀ id, id ∈ required_owner op → id ∈ (operation_get_required_authorities ops).1.2) ∧
  (∀ au, au ∈ required_other op → au ∈ (operation_get_required_authorities ops).2).
Proof.
  intros Ho. cbn. split_and!.
  1-2: intros id Hid; rewrite merge_sort_Permutation, elem_of_elements; apply elem_of_union_list; eexists;
    split; [by apply list_elem_of_fmap_2|done].
  intros au Ha. induction ops as [|op' ops IH]; [by apply not_elem_of_nil in Ho|]. cbn. apply elem_of_app.
  apply elem_of_cons in Ho as [<-|Ho]; auto.
Qed.

Lemma sum_weights_ones (l : list Z) : sum_weights ((λ k, (k, 1)) <$> l) = Z.of_nat (length l).
Proof. induction l as [|k l IH]; [done|]. cbn [fmap list_fmap length]. unfold sum_weights in *. cbn in *. lia. Qed.
Lemma ones_wf n (X : gset Z) :
  Z.of_nat (size X) ≤ uint32_max →
  wf_authority (Authority n [] ((λ k, (k, 1)) <$> merge_sort Z.le (elements X)) []).
Proof.
  intros HX. unfold wf_authority, wf_weights. cbn [key_auths address_auths account_auths].
  rewrite sum_weights_ones, (Permutation_length (merge_sort_Permutation Z.le _)), Forall_fmap.
  split_and!; [apply Forall_forall; intros k _; cbn; lia|constructor|constructor|].
  change (Z.of_nat (size X) + 0 + 0 ≤ uint32_max). lia.
Qed.
Lemma required_other_wf op : typed_operation op → Forall wf_authority (required_other op).
Proof.
  intros Ht. destruct op; cbn [required_other]; try solve [constructor].
  - case_match; [constructor|constructor; [exact (ones_wf _ _ Ht)|constructor]].
  - repeat constructor; cbn; unfold_widths; lia.
Qed.

(** Everything the operations require is satisfied by the keys and the approvals of
    the accounts in [aa] and, as owners, in [oa]. *)
Definition operations_authorized (sigs aa oa : gset Z) (ops : list operation) (s : database) : Prop :=
  ∀ op, op ∈ ops →
    (∀ id, id ∈ required_active op →
       active_ok key_addresses (chain_context s) ∅ sigs (initially_approved aa oa) id) ∧
    (∀ id, id ∈ required_owner op →
       owner_ok key_addresses (chain_context s) ∅ sigs (initially_approved aa oa) oa id) ∧
    (∀ au, au ∈ required_other op →
       auth_ok key_addresses (chain_context s) ∅ sigs (initially_approved aa oa) au).

Lemma verify_operations sigs ac aa oa ops s :
  wf_authorities s → Forall typed_operation ops →
  (let '(active, owner, other) := operation_get_required_authorities ops in
   verify_authority key_addresses active owner other sigs (chain_context s) ac aa oa) = Ok tt →
  operations_authorized sigs aa oa ops s ∧
  (ac = false → ∀ op, op ∈ ops → GRAPHENE_COMMITTEE_ACCOUNT ∉ required_active op).
Proof.
  intros Wa Ht E. destruct (operation_get_required_authorities ops) as [[ra ro] other] eqn:Er.
  assert (∀ op, op ∈ ops → (∀ id, id ∈ required_active op → id ∈ ra) ∧ (∀ id, id ∈ required_owner op → id ∈ ro) ∧
            (∀ au, au ∈ required_other op → au ∈ other)) as Hin.
  { intros op Ho. pose proof (required_elem ops op Ho) as H. by rewrite Er in H. }
  apply verify_authority_satisfied in E as (H0 & H1 & H2 & H3).
  - split; [|intros Hac op Ho Hc; by apply (H0 Hac), (Hin op Ho)].
    intros op Ho. destruct (Hin op Ho) as (I1 & I2 & I3). split_and!; auto.
  - intros a au Hau. cbn in Hau. destruct (accounts s !! a) as [acc|] eqn:Eacc; cbn in Hau; [|by destruct Hau].
    destruct (Wa a acc Eacc) as [? ?]. by destruct Hau as [[= <-]|[= <-]].
  - apply (f_equal snd) in Er. cbn in Er. subst other. clear -Ht.
    induction Ht as [|op ops Ho Ht IH]; cbn; [constructor|]. apply Forall_app. split; [by apply required_other_wf|done].
Qed.

(** C3: Nothing happens without a signature: when a transaction is applied with the
    signature check, its signatures are from different keys, and for each operation
    these keys satisfy the active authority of the account that pays for it and of
    those it approves for (never the committee's), the owner authority of those it
    approves for as owners, and the keys it names (of a claimed genesis balance, of
    an approval). *)
Theorem transaction_authorized skip trx s r s' :
  wf_authorities s → Forall typed_operation (trx_operations trx) →
  has_skip skip skip_transaction_signatures = false →
  _apply_transaction hash_of key_addresses nth_element fuel skip trx s = Ok (r, s') →
  ∃ sigs, get_signature_keys (trx_signees trx) ∅ = Ok sigs ∧ (∀ k, k ∈ sigs ↔ k ∈ trx_signees trx) ∧
    operations_authorized sigs ∅ ∅ (trx_operations trx) s ∧
    ∀ op, op ∈ trx_operations trx → GRAPHENE_COMMITTEE_ACCOUNT ∉ required_active op.
Proof.
  intros Wa Ht Hs E. apply apply_transaction_inv in E as (_ & Hver & _). specialize (Hver Hs).
  unfold verify_transaction in Hver. apply result_bind_Ok in Hver as (sigs & Hk & Hver). exists sigs.
  split; [done|]. split; [intros k; rewrite (signature_keys_elem _ _ _ Hk k); set_solver|].
  destruct (verify_operations sigs false ∅ ∅ (trx_operations trx) s) as [H1 H2]; [done|done| |auto].
  by destruct (operation_get_required_authorities (trx_operations trx)) as [[? ?] ?].
Qed.

End transaction_theorems.

(** *** A transaction on the market of asset 1

    The market of [ex_market] with the supply that is held, small fees and the
    summary of block 3.  Account 17 transfers 100 core to account 18, which sells 50
    units of asset 1 and so fills a part of the margin call of account 17. *)
Definition ex_fees : gmap Z fee_parameters :=
  {[ 0 := FeeParameters 10 5; 1 := FeeParameters 5 0; 2 := FeeParameters 10 0; 27 := FeeParameters 1 0;
     49 := FeeParameters 2 1; 50 := FeeParameters 1 1 ]}.
Definition ex_ledger : database :=
  set_gpo (GlobalProperties (ex_parameters ex_fees) [1; 2; 3] None 10 [])
  (set_block_summaries {[ 3 := (7, 99) ]}
  (set_dyns {[ 0 := AssetDynamicData 7062 0 0 0; 1 := AssetDynamicData 300 0 0 0 ]} (ex_market 900))).
Definition ex_key_addresses (k : Z) : list Z := [k + 1000].
Definition ex_hash (kind : Z) (data : list Z) : Z := kind + foldr Z.add 0 data.
Definition not_less (less : price_feed → price_feed → bool) (a b : price_feed) : Prop := less b a = false.
#[export] Instance not_less_dec less : RelDecision (not_less less) := λ a b, bool_eq_dec (less b a) false.
Definition ex_nth_element : nth_element_t := λ less _ l, merge_sort (not_less less) l.
Definition ex_trx : signed_transaction :=
  SignedTransaction 77 3 99 1600000060
    [transfer_operation (Asset 10 0) 17 18 (Asset 100 0) None;
     limit_order_create_operation (Asset 5 0) 18 (Asset 50 1) (Asset 90 0) 1600001000 false] [218] 300.

Lemma ex_ledger_wf : wf_market ex_ledger.
Proof. by apply (wf_same (ex_market 900)), ex_market_wf. Qed.

Lemma sum_map_singleton {K V} `{Countable K} (f : K → V → Z) k v : sum_map f {[ k := v ]} = f k v.
Proof. rewrite <- insert_empty, sum_map_insert_new, sum_map_empty by apply lookup_empty. lia. Qed.

Lemma ex_ledger_balanced a : holdings a ex_ledger = supply a ex_ledger.
Proof.
  destruct (decide (a = 0)) as [->|H0]; [by vm_compute|]. destruct (decide (a = 1)) as [->|H1]; [by vm_compute|].
  assert ((0 =? a) = false ∧ (1 =? a) = false) as [E0 E1] by (rewrite !Z.eqb_neq; lia).
  unfold holdings, supply, total, ex_ledger, ex_market. cbn -[sum_map lookup insert singletonM linear_weights].
  rewrite !lookup_insert_ne, lookup_singleton_ne by congruence. cbn [from_option].
  rewrite !sum_map_insert_new by done. rewrite !sum_map_singleton, !sum_map_empty.
  cbn -[Z.eqb]. unfold sell_asset_id, collateral_type, CORE. cbn -[Z.eqb]. by rewrite E0, E1.
Qed.

Lemma ex_nth_element_permutes less n l : ex_nth_element less n l ≡ₚ l.
Proof. apply merge_sort_Permutation. Qed.
Lemma ex_ledger_sound : sound_state ex_ledger.
Proof.
  split; [apply ex_ledger_wf| |apply map_Forall_empty].
  split; apply map_Forall_singleton; [split_and!; [by vm_compute|apply map_Forall_empty|by vm_compute..]|by vm_compute].
Qed.

Lemma transactions_balance_witness :
  match _apply_transaction ex_hash ex_key_addresses ex_nth_element 10 0 ex_trx ex_ledger with
  | Ok (r, s') => r = [void_result; object_id_result 0] ∧ holdings 0 s' = supply 0 s' ∧
      bal s' 17 0 = 4890 ∧ bal s' 18 0 = 205 ∧ bal s' 18 1 = 110
  | Err _ => False
  end.
Proof.
  destruct (_apply_transaction ex_hash ex_key_addresses ex_nth_element 10 0 ex_trx ex_ledger) as [[r s']|x] eqn:E;
    [|by vm_compute in E].
  destruct (transactions_balance ex_hash ex_key_addresses ex_nth_element 10 ex_ledger s' ex_nth_element_permutes
    ex_ledger_sound) as (_ & H & _).
  - split; [exact ex_ledger_balanced|by vm_compute].
  - apply rtc_once. exists 0, ex_trx, r. split; [|exact E]. repeat constructor. by vm_compute.
  - split; [|split; [apply H|]]; clear H; vm_compute in E; injection E as <- <-; [done|by vm_compute].
Defined.

Lemma ex_ledger_authorities : wf_authorities ex_ledger.
Proof.
  apply map_Forall_insert_2; [|apply map_Forall_singleton]; split; split_and!; repeat constructor; by vm_compute.
Qed.

Lemma transaction_authorized_witness :
  is_ok (_apply_transaction ex_hash ex_key_addresses ex_nth_element 10 0 ex_trx ex_ledger) = true ∧
  active_ok ex_key_addresses (chain_context ex_ledger) ∅ {[ 218 ]} (initially_approved ∅ ∅) 17.
Proof.
  destruct (_apply_transaction ex_hash ex_key_addresses ex_nth_element 10 0 ex_trx ex_ledger) as [[r s']|x] eqn:E;
    [|by vm_compute in E].
  split; [done|].
  destruct (transaction_authorized ex_hash ex_key_addresses ex_nth_element 10 0 ex_trx ex_ledger r s'
    ex_ledger_authorities) as (sigs & Hs & _ & H & _); [repeat constructor; by vm_compute|done|done|].
  destruct (H (transfer_operation (Asset 10 0) 17 18 (Asset 100 0) None)) as (Ha & _); [by left|].
  replace {[ 218 ]} with sigs; [apply Ha; set_solver|]. cbn in Hs. injection Hs as <-. set_solver.
Defined.

(** Without the key of the account the same transaction is refused. *)
Example ex_trx_unsigned :
  _apply_transaction ex_hash ex_key_addresses ex_nth_element 10 0
    (SignedTransaction 77 3 99 1600000060 (trx_operations ex_trx) [5] 300) ex_ledger = Err tx_missing_active_auth.
Proof. by vm_compute. Qed.
