(* ===== verification/Expire.v ===== *)
(** * What every block expires: chain/db_update.cpp

    The handlers a block runs after its transactions: expired transactions leave
    the list of known ones, expired limit orders are cancelled, due forced
    settlements are matched with the least collateralized debt positions, expired
    time locks are refunded, expired withdraw permissions removed, expired feeds
    replaced by the median of those still alive, and core exchange rates brought up
    to date.

    A loop of the source looks at the first object of an index again in every
    iteration; here it takes as fuel the number of objects, and the theorems show
    that this is enough. *)

From S2P Require Import Prelude External Asset Authority Operations Block Vesting State Balance Fill Market Trade.
From S2P Require Import Evaluator MarketOps Ledger Frame.

(** ** Loops over the front of an index *)

(** [while( next is some a ) body( a )]. *)
Fixpoint while_some {A} (fuel : nat) (next : database → option A) (body : A → M database unit)
    : M database unit :=
  match fuel with
  | O => throw out_of_fuel
  | S fuel =>
      x ← gets next;
      match x with
      | None => mret tt
      | Some a => body a;; while_some fuel next body
      end
  end.

(** The order of an index by a time and the id. *)
Definition earlier {V} (key : V → Z) (a b : Z * V) : bool :=
  (key a.2 <? key b.2) || ((key a.2 =? key b.2) && (a.1 <? b.1)).
(** [begin()] of the index, if it is due. *)
Definition first_due {V} (key : V → Z) (due : Z → bool) (m : gmap Z V) : option (Z * V) :=
  match head (in_order (earlier key) (map_to_list m)) with
  | Some (i, v) => if due (key v) then Some (i, v) else None
  | None => None
  end.

Section expire.
Context `{EX : Ext} (nth_element : nth_element_t) (fuel : nat).

(** ** Transactions, permissions and locks *)

(** The known transactions are kept as a map from id to expiration. *)
Definition clear_expired_transactions : M database unit := λ s,
  while_some (S (size (transactions s)))
    (λ s, first_due id (λ e, time (dgpo s) >? e) (transactions s))
    (λ x, puts (λ s, set_transactions (delete x.1 (transactions s)) s)) s.

Definition update_withdraw_permissions : M database unit := λ s,
  while_some (S (size (permissions s)))
    (λ s, first_due wp_expiration (λ e, e <=? time (dgpo s)) (permissions s))
    (λ x, remove (V:=withdraw_permission_object) x.1) s.

Definition refund_htlc (x : Z * htlc_object) : M database unit :=
  let '(i, h) := x in
  adjust_balance (htlc_from h) (Asset (htlc_amount h) (htlc_asset_id h));;
  push_applied_operation (htlc_refund_operation i (htlc_from h));;
  remove (V:=htlc_object) i.

Definition clear_expired_htlcs : M database unit := λ s,
  while_some (S (size (htlcs s)))
    (λ s, first_due htlc_expiration (λ e, e <=? time (dgpo s)) (htlcs s)) refund_htlc s.

(** ** Limit orders *)
Definition cancel_expired_order (x : Z * limit_order_object) : M database unit :=
  let '(i, o) := x in
  maint_time ← next_maint_time;
  cancel_limit_order i true false;;
  when (maint_time <=? HARDFORK_CORE_606_TIME)
    (_ ← get (V:=asset_object) (sell_asset_id o);
     _ ← check_call_orders fuel (sell_asset_id o) true false;
     _ ← get (V:=asset_object) (receive_asset_id o);
     _ ← check_call_orders fuel (receive_asset_id o) true false;
     mret tt).

Definition clear_expired_limit_orders : M database unit := λ s,
  while_some (S (size (limit_orders s)))
    (λ s, first_due lo_expiration (λ e, e <=? time (dgpo s)) (limit_orders s)) cancel_expired_order s.

(** ** Forced settlements *)
Definition settlement_asset_id (f : force_settlement_object) : Z := asset_id (fs_balance f).

(** [by_expiration]: by asset, settlement date and id. *)
Definition settled_before (a b : Z * force_settlement_object) : bool :=
  if settlement_asset_id a.2 <? settlement_asset_id b.2 then true
  else if settlement_asset_id b.2 <? settlement_asset_id a.2 then false
  else earlier settlement_date a b.
Definition settlements (s : database) : list (Z * force_settlement_object) :=
  in_order settled_before (map_to_list (settle_orders s)).
(** [lower_bound( asset )] and [upper_bound( asset )]. *)
Definition settlement_lower (a : Z) (s : database) : option (Z * force_settlement_object) :=
  head (filter (λ x : Z * force_settlement_object, a ≤ settlement_asset_id x.2) (settlements s)).
Definition settlement_upper (a : Z) (s : database) : option (Z * force_settlement_object) :=
  head (filter (λ x : Z * force_settlement_object, a < settlement_asset_id x.2) (settlements s)).

Definition max_force_settlement_volume (b : asset_bitasset_data_object) (supply : Z) : result Z :=
  let max := maximum_force_settlement_volume (bad_options b) in
  if max =? 0 then Ok 0
  else if max =? GRAPHENE_100_PERCENT then safe_add supply (force_settled_volume b)
  else
    volume ← raw_int64 (supply + force_settled_volume b);
    Ok (u128_to_int64 (u128_div (u128_mul (u128_of volume) max) GRAPHENE_100_PERCENT)).

(** The variables the loop over the settlements keeps. *)
Record settle_vars := SettleVars {
  current_asset : Z;
  max_settlement_volume : asset;
  settlement_fill_price : price;
  sv_settlement_price : price;
  current_asset_finished : bool
}.

(** [next_asset()]. *)
Definition next_asset (v : settle_vars) : M database (option settle_vars) :=
  bound ← gets (settlement_upper (current_asset v));
  mret (match bound with
        | None => None
        | Some (_, f) => Some (SettleVars (settlement_asset_id f) (max_settlement_volume v)
            (settlement_fill_price v) (sv_settlement_price v) false)
        end).

(** [try { match( ... ) } catch( black_swan_exception )]: the exception is thrown
    before anything has changed, so the handler starts from the same state. *)
Definition try_match (call order : Z) (settlement_price : price) (max_settlement : asset) (fill_price : price)
    : M database (option asset) := λ s,
  match match_call_settle call order settlement_price max_settlement fill_price s with
  | Ok (r, s') => Ok (Some r, s')
  | Err black_swan_exception => Ok (None, s)
  | Err e => Err e
  end.

(** Matches an order with the least collateralized positions until it is gone or
    the volume is used up; the result is the settled volume and whether the order
    could not be filled. *)
Fixpoint settle_order (fuel : nat) (mia order : Z) (v : settle_vars) (settled : asset) : M database (asset * bool) :=
  match fuel with
  | O => throw out_of_fuel
  | S fuel =>
      lt ← lift (asset_lt settled (max_settlement_volume v));
      here ← find (V:=force_settlement_object) order;
      match lt, here with
      | true, Some o =>
          bitasset ← get (V:=asset_bitasset_data_object) mia;
          lo ← lift (price_min (short_backing_asset (bad_options bitasset)) mia);
          itr ← gets (call_collateral_lower lo);
          max_settlement ← lift (asset_sub (max_settlement_volume v) settled);
          if amount (fs_balance o) =? 0 then
            cancel_settle_order order true;; mret (settled, false)
          else
            match itr with
            | None => throw undefined_behaviour
            | Some (call, _) =>
                r ← try_match call order (sv_settlement_price v) max_settlement (settlement_fill_price v);
                match r with
                | None => cancel_settle_order order true;; mret (settled, false)
                | Some new_settled =>
                    maint_time ← next_maint_time;
                    if negb (maint_time <=? HARDFORK_CORE_184_TIME) && (amount new_settled =? 0) then
                      here ← find (V:=force_settlement_object) order;
                      mret (settled, match here with Some _ => true | None => false end)
                    else
                      settled ← lift (asset_add settled new_settled);
                      settle_order fuel mia order v settled
                end
            end
      | _, _ => mret (settled, false)
      end
  end.

Definition set_force_settled_volume (x : Z) (b : asset_bitasset_data_object) : asset_bitasset_data_object :=
  AssetBitassetData (bad_options b) (feeds b) (current_feed b) (current_feed_publication_time b)
    (current_maintenance_collateralization b) (is_prediction_market b) x (bad_settlement_price b)
    (settlement_fund b) (asset_cer_updated b) (feed_cer_updated b).

(** The volume and the prices of the current asset, computed once per asset (the
    price before the core-342 hard fork once per order). *)
Definition settle_volume (mia : Z) (bitasset : asset_bitasset_data_object) (v : settle_vars)
    : M database settle_vars :=
  if asset_id (max_settlement_volume v) =? mia then mret v
  else
    dyn ← get (V:=asset_dynamic_data_object) mia;
    x ← lift (max_force_settlement_volume bitasset (current_supply dyn));
    mret (SettleVars (current_asset v) (Asset x mia) (settlement_fill_price v) (sv_settlement_price v)
            (current_asset_finished v)).

Definition settle_prices (mia : Z) (bitasset : asset_bitasset_data_object) (order_balance : asset) (maint_time : Z)
    (v : settle_vars) : result settle_vars :=
  let feed_price := settlement_price (current_feed bitasset) in
  let rest := GRAPHENE_100_PERCENT - force_settlement_offset_percent (bad_options bitasset) in
  fill_price ← (if asset_id (base (settlement_fill_price v)) =? mia then Ok (settlement_fill_price v)
                else r ← ratio_make rest GRAPHENE_100_PERCENT; price_div_ratio feed_price r);
  p ← (if maint_time <=? HARDFORK_CORE_342_TIME then
         receives ← asset_mul order_balance feed_price;
         let a := u128_to_int64 (u128_div (u128_mul (u128_of (amount receives)) rest) GRAPHENE_100_PERCENT) in
         price_div order_balance (Asset a (asset_id receives))
       else if asset_id (base (sv_settlement_price v)) =? mia then Ok (sv_settlement_price v)
       else Ok fill_price);
  Ok (SettleVars (current_asset v) (max_settlement_volume v) fill_price p (current_asset_finished v)).

(** The loop: every iteration consumes the current order or moves to the next
    asset. *)
Fixpoint settle_loop (n : nat) (v : settle_vars) : M database unit :=
  match n with
  | O => throw out_of_fuel
  | S n =>
      let skip v := r ← next_asset v; match r with Some v => settle_loop n v | None => mret tt end in
      itr ← gets (settlement_lower (current_asset v));
      match itr with
      | None => mret tt
      | Some (order_id, order) =>
          let mia := settlement_asset_id order in
          let v := SettleVars mia (max_settlement_volume v) (settlement_fill_price v) (sv_settlement_price v)
                     (current_asset_finished v) in
          head_time ← head_block_time;
          maint_time ← next_maint_time;
          mia_object ← get (V:=asset_object) mia;
          bitasset ← get_bitasset_data mia mia_object;
          if has_settlement bitasset then cancel_settle_order order_id true;; settle_loop n v
          else if settlement_date order >? head_time then skip v
          else if price_is_null (settlement_price (current_feed bitasset)) then
            cancel_settle_order order_id true;; settle_loop n v
          else
            v ← settle_volume mia bitasset v;
            if (force_settled_volume bitasset >=? amount (max_settlement_volume v)) || current_asset_finished v
            then skip v
            else
              v ← lift (settle_prices mia bitasset (fs_balance order) maint_time v);
              r ← settle_order fuel mia order_id v (Asset (force_settled_volume bitasset) mia);
              let '(settled, finished) := r : asset * bool in
              bitasset ← deref (V:=asset_bitasset_data_object) mia;
              when (negb (force_settled_volume bitasset =? amount settled))
                (modify mia (λ b, Ok (set_force_settled_volume (amount settled) b)));;
              settle_loop n (SettleVars (current_asset v) (max_settlement_volume v) (settlement_fill_price v)
                               (sv_settlement_price v) (current_asset_finished v || finished))
      end
  end.

Definition clear_due_settlements : M database unit :=
  l ← gets settlements;
  match l with
  | [] => mret tt
  | (_, f) :: _ =>
      settle_loop fuel (SettleVars (settlement_asset_id f) default_asset default_price default_price false)
  end.

Definition clear_expired_orders : M database unit := clear_expired_limit_orders;; clear_due_settlements.

(** ** Feeds and core exchange rates *)
Definition feed_expiration_time (b : asset_bitasset_data_object) : Z :=
  let current_feed_seconds := current_feed_publication_time b in
  if uint32_max - current_feed_seconds <=? feed_lifetime_sec (bad_options b) then uint32_max
  else current_feed_seconds + feed_lifetime_sec (bad_options b).
Definition feed_is_expired_before_hardfork_615 (b : asset_bitasset_data_object) (t : Z) : bool :=
  feed_expiration_time b >=? t.
Definition feed_is_expired (b : asset_bitasset_data_object) (t : Z) : bool := feed_expiration_time b <=? t.
Definition need_to_update_cer (b : asset_bitasset_data_object) : bool :=
  (feed_cer_updated b || asset_cer_updated b) && negb (price_is_null (core_exchange_rate (current_feed b))).

Definition clear_cer_flags (b : asset_bitasset_data_object) : asset_bitasset_data_object :=
  AssetBitassetData (bad_options b) (feeds b) (current_feed b) (current_feed_publication_time b)
    (current_maintenance_collateralization b) (is_prediction_market b) (force_settled_volume b)
    (bad_settlement_price b) (settlement_fund b) false false.

Definition set_cer (p : price) (a : asset_object) : asset_object :=
  let o := ao_options a in
  AssetObject (issuer a)
    (AssetOptions (max_supply o) (market_fee_percent o) (max_market_fee o) (issuer_permissions o) (flags o) p
       (whitelist_authorities o) (blacklist_authorities o) (whitelist_markets o) (blacklist_markets o)
       (reward_percent o) (whitelist_market_fee_sharing o) (description o)) (bitasset_data_valid a) (buyback_account a)
    (symbol a) (precision a).

(** Copies the rate of the median feed to the asset. *)
Definition copy_cer (mia : Z) : M database unit :=
  a ← get (V:=asset_object) mia;
  b ← deref (V:=asset_bitasset_data_object) mia;
  let rate := core_exchange_rate (current_feed b) in
  when (negb (price_eqb (ao_core_exchange_rate (ao_options a)) rate)) (modify mia (λ a, Ok (set_cer rate a))).

(** The new median; the second component says whether the rate is to be copied. *)
Definition refresh_feed (head_time maint_time : Z) (b : asset_bitasset_data_object)
    : result asset_bitasset_data_object :=
  b ← update_median_feeds nth_element head_time maint_time b;
  Ok (if need_to_update_cer b then clear_cer_flags b else b).

Definition update_expired_feed (mia : Z) : M database unit :=
  head_time ← head_block_time;
  maint_time ← next_maint_time;
  b ← deref (V:=asset_bitasset_data_object) mia;
  if (head_time >=? HARDFORK_615_TIME) || feed_is_expired_before_hardfork_615 b head_time then
    let old_median_feed := current_feed b in
    updated ← lift (update_median_feeds nth_element head_time maint_time b);
    let update_cer := need_to_update_cer updated in
    modify mia (refresh_feed head_time maint_time);;
    b ← deref (V:=asset_bitasset_data_object) mia;
    when (negb (price_is_null (settlement_price (current_feed b)))
          && negb (price_feed_eqb (current_feed b) old_median_feed))
      (_ ← get (V:=asset_object) mia; _ ← check_call_orders fuel mia true false; mret tt);;
    when update_cer (copy_cer mia)
  else mret tt.

(** The loop over the expired feeds in the order of the index by expiration.  An
    update makes the feed fresh, or, when its lifetime is zero, leaves an update
    of the same feed in the same block without effect, so every asset is looked at
    once. *)
Fixpoint update_feeds (ids : list Z) : M database unit :=
  match ids with [] => mret tt | i :: ids => update_expired_feed i;; update_feeds ids end.
Definition expired_feeds (s : database) : list Z :=
  fst <$> in_order (earlier feed_expiration_time)
    (filter (λ x : Z * asset_bitasset_data_object, feed_is_expired x.2 (time (dgpo s)) = true)
       (map_to_list (bitassets s))).
Fixpoint check_assets (ids : list Z) : M database unit :=
  match ids with
  | [] => mret tt
  | i :: ids => _ ← get (V:=asset_object) i; _ ← check_call_orders fuel i true false; check_assets ids
  end.
Definition update_expired_feeds : M database unit :=
  head_time ← head_block_time;
  ids ← gets expired_feeds;
  update_feeds ids;;
  when (negb (head_time >=? HARDFORK_615_TIME))
    (l ← gets (λ s, merge_sort Z.le (elements (issue_453_affected_assets s))); check_assets l).

(** [rbegin()] of the index by [need_to_update_cer], if it needs an update. *)
Definition next_cer (s : database) : option Z :=
  fst <$> last (filter (λ x : Z * asset_bitasset_data_object, need_to_update_cer x.2 = true)
                  (map_to_list (bitassets s))).
Definition update_core_exchange_rates : M database unit := λ s,
  while_some (S (size (bitassets s))) next_cer
    (λ mia, copy_cer mia;; modify mia (λ b, Ok (clear_cer_flags b))) s.

(** ** The maintenance flag *)
Definition set_dynamic_flags (f : Z) (d : dynamic_global_property_object) : dynamic_global_property_object :=
  DynamicGlobalProperties (head_block_number d) (head_block_id d) (time d) (current_witness d)
    (next_maintenance_time d) (witness_budget d) (recently_missed_count d) (current_aslot d)
    (recent_slots_filled d) f (last_irreversible_block_num d)
    (accounts_registered_this_interval d) (last_budget_time d).
Definition update_maintenance_flag (new_maintenance_flag : bool) : M database unit :=
  puts (λ s, set_dgpo (set_dynamic_flags
    (Z.lor (Z.land (dynamic_flags (dgpo s)) (Z.lnot 1)) (if new_maintenance_flag then 1 else 0)) (dgpo s)) s).

End expire.

(** ** The loop rule

    The loop ends when every iteration lowers a measure; it keeps an invariant and
    stops where there is nothing left to do. *)
Section loop_rule.
Context {A : Type} (next : database → option A) (body : A → M database unit).

Lemma while_some_S n s :
  while_some (S n) next body s
  = match next s with None => Ok (tt, s) | Some a => (body a;; while_some n next body) s end.
Proof. cbn. rewrite gets_bind. by destruct (next s). Qed.

Lemma while_some_stops n : ∀ s s', while_some n next body s = Ok (tt, s') → next s' = None.
Proof.
  induction n as [|n IH]; intros s s' E; [done|]. rewrite while_some_S in E.
  destruct (next s) eqn:En; [|ret_inv E; done]. apply M_bind_Ok in E as ([] & s1 & _ & E). eauto.
Qed.

Lemma while_some_keeps R `{!PreOrder R} n :
  (∀ s a s', next s = Some a → body a s = Ok (tt, s') → R s s') → keeps R (while_some n next body).
Proof.
  intros Hb. induction n as [|n IH]; intros s [] s' E; [done|]. rewrite while_some_S in E.
  destruct (next s) eqn:En; [|ret_inv E; done]. apply M_bind_Ok in E as ([] & s1 & E1 & E).
  etransitivity; [by eapply Hb|by eapply IH].
Qed.

Lemma while_some_total (inv : database → Prop) (measure : database → nat) n : ∀ s,
  (∀ s a, inv s → next s = Some a → ∃ s', body a s = Ok (tt, s') ∧ inv s' ∧ (measure s' < measure s)%nat) →
  inv s → (measure s < n)%nat → ∃ s', while_some n next body s = Ok (tt, s') ∧ inv s' ∧ next s' = None.
Proof.
  induction n as [|n IH]; intros s Hb Hi Hn; [lia|]. rewrite while_some_S.
  destruct (next s) as [a|] eqn:En; [|eauto]. destruct (Hb s a Hi En) as (s1 & E1 & Hi1 & Hm).
  destruct (IH s1 Hb Hi1) as (s' & E & ? & ?); [lia|]. exists s'. split_and!; try done.
  unfold mbind, M_bind. by rewrite E1.
Qed.

(** Out of fuel only when an iteration is. *)
Lemma while_some_fuel (measure : database → nat) n : ∀ s,
  (∀ s a s', next s = Some a → body a s = Ok (tt, s') → (measure s' < measure s)%nat) →
  (measure s < n)%nat → while_some n next body s = Err out_of_fuel →
  ∃ s' a, next s' = Some a ∧ body a s' = Err out_of_fuel.
Proof.
  induction n as [|n IH]; intros s Hb Hn E; [lia|]. rewrite while_some_S in E.
  destruct (next s) as [a|] eqn:En; [|done]. unfold mbind, M_bind in E.
  destruct (body a s) as [[[] s1]|x] eqn:E1; [|injection E as ->; eauto].
  apply (IH s1); [done| |done]. pose proof (Hb _ _ _ En E1). lia.
Qed.

End loop_rule.

Section first_due.
Context {V : Type} (key : V → Z) (due : Z → bool).

Lemma earlier_total : Total (not_after (earlier key)).
Proof.
  intros a b. unfold not_after, earlier.
  destruct (key a.2 <? key b.2) eqn:E1, (key b.2 <? key a.2) eqn:E2, (key a.2 =? key b.2) eqn:E3,
    (key b.2 =? key a.2) eqn:E4, (a.1 <? b.1) eqn:E5, (b.1 <? a.1) eqn:E6; cbn; bool_to_prop; auto; lia.
Qed.
Lemma earlier_trans : Transitive (not_after (earlier key)).
Proof.
  intros a b c. unfold not_after, earlier. rewrite !orb_false_iff, !andb_false_iff, !Z.ltb_ge, !Z.eqb_neq. lia.
Qed.

Lemma first_due_Some m i v : first_due key due m = Some (i, v) → m !! i = Some v ∧ due (key v) = true.
Proof.
  unfold first_due. destruct (head _) as [[j w]|] eqn:E; [|done]. destruct (due (key w)) eqn:Ed; [|done].
  intros [= -> ->]. split; [|done]. apply head_Some_elem_of in E. unfold in_order in E.
  rewrite merge_sort_Permutation in E. by apply elem_of_map_to_list in E.
Qed.

Lemma first_due_None m :
  (∀ a b, a ≤ b → due b = true → due a = true) → first_due key due m = None →
  map_Forall (λ _ v, due (key v) = false) m.
Proof.
  intros Hmono E i v Hi. unfold first_due in E.
  assert (Sorted (not_after (earlier key)) (in_order (earlier key) (map_to_list m))) as Hs
    by (apply Sorted_merge_sort, earlier_total).
  apply Sorted_StronglySorted in Hs; [|exact earlier_trans].
  assert ((i, v) ∈ in_order (earlier key) (map_to_list m)) as Hin.
  { unfold in_order. rewrite merge_sort_Permutation. by apply elem_of_map_to_list. }
  destruct (in_order (earlier key) (map_to_list m)) as [|[j w] l]; [by apply not_elem_of_nil in Hin|].
  cbn in E. destruct (due (key w)) eqn:Ed; [done|]. destruct (due (key v)) eqn:Ev; [|done].
  apply StronglySorted_inv in Hs as [_ Hs]. apply elem_of_cons in Hin as [[= -> ->]|Hin]; [congruence|].
  eapply Forall_forall in Hs; [|exact Hin]. unfold not_after, earlier in Hs. cbn in Hs. bool_to_prop.
  rewrite (Hmono (key w) (key v)) in Ed; [done| |done]. lia.
Qed.

End first_due.

Lemma size_delete_lt {V} i (m : gmap Z V) v : m !! i = Some v → (size (delete i m) < size m)%nat.
Proof.
  intros Hi. rewrite map_size_delete_Some by eauto. assert (size m ≠ 0%nat); [|lia].
  intros ->%map_size_empty_inv. done.
Qed.

(** A loop that removes what is due leaves exactly what is not. *)
Lemma sweep {V} (tab : database → gmap Z V) (put : gmap Z V → database → database) (key : V → Z)
    (due : Z → Z → bool) (body : Z * V → M database unit) s :
  (∀ m s, tab (put m s) = m) → (∀ m m' s, put m (put m' s) = put m s) → (∀ s, put (tab s) s = s) →
  (∀ m s, dgpo (put m s) = dgpo s) →
  (∀ x s, tab s !! x.1 = Some x.2 → body x s = Ok (tt, put (delete x.1 (tab s)) s)) →
  (∀ t a b, a ≤ b → due t b = true → due t a = true) →
  while_some (S (size (tab s))) (λ s, first_due key (due (time (dgpo s))) (tab s)) body s
  = Ok (tt, put (filter (λ x, due (time (dgpo s)) (key x.2) = false) (tab s)) s).
Proof.
  intros L1 L2 L3 L4 Hb Hmono. set (P := λ x : Z * V, due (time (dgpo s)) (key x.2) = false).
  destruct (while_some_total (λ s, first_due key (due (time (dgpo s))) (tab s)) body
    (λ s1, ∃ m, s1 = put m s ∧ filter P m = filter P (tab s)) (λ s, size (tab s)) (S (size (tab s))) s)
    as (s' & E & (m & -> & Hm) & Hnone); [| |lia|].
  - intros s1 [i v] (m & -> & Hm). rewrite L1, L4. intros (Hi & Hd)%first_due_Some.
    exists (put (delete i m) s). rewrite L1. split_and!.
    + rewrite Hb by (by rewrite L1). by rewrite L1, L2.
    + exists (delete i m). split; [done|]. rewrite map_filter_delete_not; [done|].
      intros y Hy. unfold P. cbn. congruence.
    + by eapply size_delete_lt.
  - exists (tab s). by rewrite L3.
  - rewrite E. cbn beta in Hnone. rewrite L1, L4 in Hnone. apply first_due_None in Hnone; [|by apply Hmono].
    rewrite <- Hm, map_filter_id; [done|]. intros i v Hi. exact (Hnone i v Hi).
Qed.

(** Transactions stay known until they have expired. *)
Lemma clear_expired_transactions_spec s :
  clear_expired_transactions s
  = Ok (tt, set_transactions (filter (λ x : Z * Z, time (dgpo s) ≤ x.2) (transactions s)) s).
Proof.
  unfold clear_expired_transactions.
  rewrite (sweep transactions set_transactions id (λ t e, t >? e)); try done.
  - do 3 f_equal. apply map_filter_ext. intros i x _. cbn. rewrite Z.gtb_ltb, Z.ltb_ge. done.
  - by intros [].
  - intros t a b ? ?. bool_to_prop. lia.
Qed.

Lemma update_withdraw_permissions_spec s :
  update_withdraw_permissions s
  = Ok (tt, set_permissions (filter (λ x : Z * withdraw_permission_object, time (dgpo s) < wp_expiration x.2)
                               (permissions s)) s).
Proof.
  unfold update_withdraw_permissions.
  rewrite (sweep permissions set_permissions wp_expiration (λ t e, e <=? t)); try done.
  - do 3 f_equal. apply map_filter_ext. intros i x _. cbn. rewrite Z.leb_gt. done.
  - by intros [].
  - intros [i v] s1 Hi. unfold remove. cbn in *. by rewrite Hi.
  - intros t a b ? ?. bool_to_prop. lia.
Qed.

(** ** Refunds of expired time locks *)
Section refunds.
Context `{EX : Ext}.

(** What account [o] gets back of asset [a] at time [t]. *)
Definition due_refund (t o a : Z) (m : gmap Z htlc_object) : Z :=
  sum_map (λ _ h, if decide (htlc_expiration h ≤ t ∧ htlc_from h = o ∧ htlc_asset_id h = a)
                  then htlc_amount h else 0) m.

(** A change of balances, locks and recorded operations only. *)
Definition refund_state (s s' : database) : Prop :=
  s' = set_applied_operations (applied_operations s') (set_htlcs (htlcs s') (set_balances (balances s') s)).

Lemma adjust_balance_state acct d s s' :
  adjust_balance acct d s = Ok (tt, s') → s' = set_balances (balances s') s.
Proof.
  unfold adjust_balance. intros E. destruct (amount d =? 0); [ret_inv E; by destruct s'|].
  bind E as abo Ha. destruct abo.
  - bind E as [] H1. match type of H1 with _ = Ok (_, ?x) => assert (x = s) as -> end.
    { destruct (amount d <? 0); [do 2 bind_step H1; by read_step s H1|by ret_inv H1]. }
    by apply modify_Ok in E as (v & w & _ & _ & ->).
  - bind_step E. unfold add in E. destruct (tbl s !! _); [done|]. destruct (collides _ _ _); [done|]. by injection E as <-.
Qed.

Lemma refund_htlc_spec i h s :
  htlcs s !! i = Some h → 0 ≤ htlc_amount h → (∀ o a, 0 ≤ bal s o a ≤ int64_max) →
  bal s (htlc_from h) (htlc_asset_id h) + htlc_amount h ≤ int64_max →
  ∃ s', refund_htlc (i, h) s = Ok (tt, s') ∧ refund_state s s' ∧ htlcs s' = delete i (htlcs s) ∧
    ∀ o a, bal s' o a = bal s o a + (if decide (htlc_from h = o ∧ htlc_asset_id h = a) then htlc_amount h else 0).
Proof.
  intros Hi Hp Hb Hmax. pose proof (Hb (htlc_from h) (htlc_asset_id h)).
  pose proof (adjust_balance_spec s (htlc_from h) (Asset (htlc_amount h) (htlc_asset_id h)) Hb
    ltac:(cbn; unfold_widths; lia)) as Ha.
  unfold refund_htlc. destruct (adjust_balance _ _ s) as [[[] s1]|e] eqn:E1; [|cbn in Ha; lia].
  apply adjust_balance_state in E1 as Es. destruct Ha as (_ & _ & _ & _ & Ha).
  assert (htlcs s1 = htlcs s) as Eh by by rewrite Es.
  exists (set_htlcs (delete i (htlcs s)) (set_applied_operations (applied_operations s1 ++
    [htlc_refund_operation i (htlc_from h)]) s1)). split_and!; [| |done|].
  - unfold mbind, M_bind. rewrite E1. cbn. unfold remove. cbn. by rewrite Eh, Hi.
  - unfold refund_state. cbn. rewrite Es. by destruct s.
  - intros o a. unfold bal at 1. cbn. fold (bal s1 o a). destruct (Ha o a) as [_ ->]. cbn.
    repeat case_decide; naive_solver.
Qed.

Lemma due_refund_delete t o a m i h :
  m !! i = Some h → htlc_expiration h ≤ t →
  due_refund t o a (delete i m) = due_refund t o a m
    - (if decide (htlc_from h = o ∧ htlc_asset_id h = a) then htlc_amount h else 0).
Proof.
  intros Hi Ht. unfold due_refund. rewrite (sum_map_delete _ _ _ _ Hi). repeat case_decide; naive_solver lia.
Qed.

Lemma due_refund_nonneg t o a m : map_Forall (λ _ h, 0 ≤ htlc_amount h) m → 0 ≤ due_refund t o a m.
Proof. intros Hm. apply sum_map_nonneg. intros i h Hi. specialize (Hm i h Hi). cbn in Hm. case_decide; lia. Qed.

(** C38: Expired time locks are refunded: provided the balances can hold what comes
    back, the handler ends, exactly the locks that have not expired remain, every
    account has received what its expired locks held, and nothing else has changed. *)
Theorem expired_locks_refunded s :
  (∀ o a, 0 ≤ bal s o a) → map_Forall (λ _ h, 0 ≤ htlc_amount h) (htlcs s) →
  (∀ o a, bal s o a + due_refund (time (dgpo s)) o a (htlcs s) ≤ int64_max) →
  ∃ s', clear_expired_htlcs s = Ok (tt, s') ∧ refund_state s s' ∧
    htlcs s' = filter (λ x : Z * htlc_object, time (dgpo s) < htlc_expiration x.2) (htlcs s) ∧
    ∀ o a, bal s' o a = bal s o a + due_refund (time (dgpo s)) o a (htlcs s).
Proof.
  intros Hb Hp Hmax. set (t := time (dgpo s)) in *.
  set (live := λ x : Z * htlc_object, t < htlc_expiration x.2).
  destruct (while_some_total (λ s, first_due htlc_expiration (λ e, e <=? time (dgpo s)) (htlcs s)) refund_htlc
    (λ s1, refund_state s s1 ∧ htlcs s1 ⊆ htlcs s ∧ filter live (htlcs s1) = filter live (htlcs s) ∧
       ∀ o a, 0 ≤ bal s1 o a ∧
         bal s1 o a + due_refund t o a (htlcs s1) = bal s o a + due_refund t o a (htlcs s))
    (λ s, size (htlcs s)) (S (size (htlcs s))) s) as (s' & E & (R & _ & Hl & Hs) & Hnone); [| |lia|].
  - intros s1 [i h] (R & Hsub & Hl & Hs) (Hi & Hd)%first_due_Some. rewrite R in Hd. cbn in Hd. fold t in Hd.
    apply Z.leb_le in Hd.
    assert (0 ≤ htlc_amount h) by (apply (Hp i); by eapply lookup_weaken).
    assert (∀ o a, due_refund t o a (delete i (htlcs s1)) = due_refund t o a (htlcs s1)
      - (if decide (htlc_from h = o ∧ htlc_asset_id h = a) then htlc_amount h else 0)) as Hdel
      by (intros; by apply due_refund_delete).
    assert (∀ o a, 0 ≤ due_refund t o a (delete i (htlcs s1))) as Hnn.
    { intros. apply due_refund_nonneg. intros j v Hj. apply (Hp j). eapply lookup_weaken; [|exact Hsub].
      by apply lookup_delete_Some in Hj as [_ ?]. }
    destruct (refund_htlc_spec i h s1) as (s2 & E2 & R2 & Eh & Hb2); [done|done| | |].
    + intros o a. pose proof (Hs o a). specialize (Hmax o a). specialize (Hdel o a). specialize (Hnn o a).
      case_decide; lia.
    + destruct (Hs (htlc_from h) (htlc_asset_id h)) as [? Ho]. specialize (Hmax (htlc_from h) (htlc_asset_id h)).
      specialize (Hdel (htlc_from h) (htlc_asset_id h)). specialize (Hnn (htlc_from h) (htlc_asset_id h)).
      case_decide; naive_solver lia.
    + exists s2. rewrite Eh. split_and!; [done| | | | |by eapply size_delete_lt].
      * unfold refund_state. rewrite R2, R. by destruct s.
      * etransitivity; [apply delete_subseteq|done].
      * rewrite map_filter_delete_not; [done|]. intros y Hy. unfold live. cbn. assert (y = h) by congruence. subst. lia.
      * intros o a. rewrite Hb2, Hdel. destruct (Hs o a). case_decide; lia.
  - split_and!; try done. unfold refund_state. by destruct s.
  - exists s'. assert (time (dgpo s') = t) as Et by (rewrite R; done).
    apply first_due_None in Hnone; [|intros; bool_to_prop; lia].
    assert (∀ i v, htlcs s' !! i = Some v → t < htlc_expiration v) as Hlive
      by (intros i v Hi; specialize (Hnone i v Hi); cbn in Hnone; rewrite Et in Hnone; by apply Z.leb_gt).
    split_and!; [done|done| |].
    + rewrite <- Hl, map_filter_id; [done|]. intros i v Hi. exact (Hlive i v Hi).
    + intros o a. destruct (Hs o a) as [_ <-]. unfold due_refund. rewrite (sum_map_null _ (htlcs s')); [lia|].
      intros i v Hi%Hlive. case_decide; [lia|done].
Qed.

End refunds.

(** *** An expired lock

    Account 17 gets back the 70 core of its first lock; the second has not expired. *)
Definition ex_lock (expiration : Z) : htlc_object := HtlcObject 17 18 70 0 (0, 0) 0 expiration.
Definition ex_locks : database :=
  set_htlcs {[ 1 := ex_lock 1500000000; 2 := ex_lock 1700000000 ]} (set_balances {[ (17, 0) := AccountBalance 5000 true ]} ex_chain).

Lemma expired_locks_refunded_witness :
  match clear_expired_htlcs ex_locks with
  | Ok (_, s') => bal s' 17 0 = 5070 ∧ htlcs s' = {[ 2 := ex_lock 1700000000 ]}
  | Err _ => False
  end.
Proof.
  assert (∀ o a, 0 ≤ bal ex_locks o a ≤ 5000) as Hb.
  { intros o a. unfold bal, ex_locks. cbn [balances set_htlcs set_balances]. destruct (decide ((17, 0) = (o, a))) as [E|E].
    - rewrite <- E, lookup_singleton_eq. cbn. lia.
    - rewrite lookup_singleton_ne by done. cbn. lia. }
  assert (∀ o a, due_refund (time (dgpo ex_locks)) o a (htlcs ex_locks) ≤ 140) as Hd.
  { intros o a. unfold due_refund, ex_locks. cbn [htlcs set_htlcs]. rewrite sum_map_insert_new by done.
    rewrite <- insert_empty, sum_map_insert_new, sum_map_empty by apply lookup_empty. cbn. repeat case_decide; lia. }
  destruct (expired_locks_refunded ex_locks) as (s' & E & _ & Hl & Hs).
  - intros o a. apply Hb.
  - apply map_Forall_insert_2; [|apply map_Forall_singleton]; cbn; lia.
  - intros o a. specialize (Hb o a). specialize (Hd o a). unfold_widths. lia.
  - rewrite E. split; [rewrite Hs|rewrite Hl]; by vm_compute.
Defined.
