(* ===== verification/ExpireBooks.v ===== *)
(** * What expires keeps the books

    Every handler of Expire.v preserves well-formedness and the ledger of every asset:
    refunds, cancellations, settlements and margin calls move funds, they neither make
    nor lose any. *)

From S2P Require Import Prelude External Asset Authority Operations Block Vesting State Balance Fill Market Trade.
From S2P Require Import Evaluator MarketOps Ledger Frame Transaction Expire.

(** ** Steps that keep the books *)
Definition books_step (s s' : database) : Prop :=
  wf_market s → typed_state s → wf_market s' ∧ typed_state s' ∧ ∀ k, total (ledger k) s' = total (ledger k) s.
#[export] Instance books_step_preorder : PreOrder books_step.
Proof.
  split; [by intros s W T|]. intros s1 s2 s3 H1 H2 W T. destruct (H1 W T) as (W2 & T2 & L2).
  destruct (H2 W2 T2) as (W3 & T3 & L3). split_and!; [done..|]. intros k. by rewrite L3.
Qed.

Lemma books_of s s' : ledger_step s s' → market_frame s s' → books_step s s'.
Proof. intros L F W T. destruct (L W) as [W' E]. split_and!; [done|by apply (mf_typed _ _ F)|done]. Qed.
Lemma books_keeps {A} (m : M database A) : keeps ledger_step m → keeps market_frame m → keeps books_step m.
Proof. intros L F s r s' E. apply books_of; [by eapply L|by eapply F]. Qed.
Lemma books_same s s' :
  limit_orders s' = limit_orders s → call_orders s' = call_orders s → settle_orders s' = settle_orders s →
  bids s' = bids s → assets s' = assets s → bitassets s' = bitassets s → genesis_balances s' = genesis_balances s →
  dgpo s' = dgpo s → (∀ k, total (ledger k) s' = total (ledger k) s) → books_step s s'.
Proof.
  intros H1 H2 H3 H4 H5 H6 H7 H8 HT W [T1 T2]. split_and!; [by eapply wf_same| |done]. split; [by rewrite H6|by rewrite H3].
Qed.

Lemma total_set_permissions μ s x : total μ (set_permissions x s) = total μ s.
Proof. unfold total. reflexivity. Qed.
Lemma total_set_assets μ s x : total μ (set_assets x s) = total μ s.
Proof. unfold total. reflexivity. Qed.

Section expire_books.
Context `{EX : Ext} (nth_element : nth_element_t) (fuel : nat).
Hypothesis nth_element_permutes : ∀ less n l, nth_element less n l ≡ₚ l.

Lemma books_check_call_orders n a en fo : keeps books_step (check_call_orders n a en fo).
Proof. apply books_keeps; [apply sound_keeps_ledger, sound_check_call_orders|apply frame_check_call_orders]. Qed.
Lemma books_cancel_limit_order i v sk : keeps books_step (cancel_limit_order i v sk).
Proof. apply books_keeps; [apply sound_keeps_ledger, sound_cancel_limit_order|apply frame_cancel_limit_order]. Qed.
Lemma books_cancel_settle i v : keeps books_step (cancel_settle_order i v).
Proof. apply books_keeps; [apply sound_keeps_ledger, sound_cancel_settle|apply frame_cancel_settle]. Qed.
Hint Resolve books_check_call_orders books_cancel_limit_order books_cancel_settle : graphene.

Ltac solve_books_step :=
  repeat first [ apply keeps_deref; apply _ | progress solve_keeps_with ltac:(fail) ].

(** *** Transactions, permissions and locks *)
Lemma books_clear_transactions : keeps books_step clear_expired_transactions.
Proof.
  intros s [] s' E. rewrite clear_expired_transactions_spec in E. injection E as <-.
  apply books_same; [reflexivity..|]. intros k. apply total_set_transactions.
Qed.
Lemma books_withdraw_permissions : keeps books_step update_withdraw_permissions.
Proof.
  intros s [] s' E. rewrite update_withdraw_permissions_spec in E. injection E as <-.
  apply books_same; [reflexivity..|]. intros k. apply total_set_permissions.
Qed.
Lemma books_refund_htlc i h s s' :
  htlcs s !! i = Some h → refund_htlc (i, h) s = Ok (tt, s') → books_step s s'.
Proof.
  intros Hi E. unfold refund_htlc in E. bind E as [] H1. bind E as [] H2. injection H2 as <-.
  apply adjust_balance_state in H1 as Es. apply books_adjust_balance in H1 as B.
  assert (htlcs s0 !! i = Some h) as Hi' by by rewrite Es.
  pose proof E as E'. unfold remove in E'. cbn in E'. rewrite Hi' in E'. injection E' as Em.
  apply books_same; try (rewrite <- Em; cbn; by destruct B).
  intros k. apply (total_remove_at (lc k) (le k) (λ _, 0) (lg k) i _ _ h) in E; [|exact Hi'].
  apply (effect_adjust_balance (lc k) (le k) (λ _, 0) (lg k)) in H1. cbn in *. unfold ledger.
  rewrite total_set_applied in E. lia.
Qed.
Lemma books_clear_htlcs : keeps books_step clear_expired_htlcs.
Proof.
  intros s [] s' E. unfold clear_expired_htlcs in E. revert E. apply (while_some_keeps _ _ books_step).
  intros s1 [i h] s2 [Hi _]%first_due_Some. by apply books_refund_htlc.
Qed.

(** *** Limit orders *)
Lemma books_clear_limit_orders : keeps books_step (clear_expired_limit_orders fuel).
Proof.
  intros s [] s' E. unfold clear_expired_limit_orders in E. revert E. apply (while_some_keeps _ _ books_step).
  intros s1 [i o] s2 _. revert s1 s2. assert (keeps books_step (cancel_expired_order fuel (i, o))) as H.
  { unfold cancel_expired_order. solve_books_step. }
  intros s1 s2. apply H.
Qed.
End expire_books.

(** *** Forced settlements *)
Section settlement_books.
Context `{EX : Ext} (fuel : nat).

(** A ratio in lowest terms is no larger than the one it was made of. *)
Lemma ratio_make_bounds n d q :
  0 ≤ n ≤ 2147483647 → 0 < d ≤ 2147483647 → ratio_make n d = Ok q →
  0 < rat_den q ≤ d ∧ 0 ≤ rat_num q ≤ n ∧ (0 < n → 0 < rat_num q).
Proof.
  intros Hn Hd E. destruct (ratio_make_spec n d Hn Hd) as (x & Ex & H1 & H2 & H3). rewrite E in Ex.
  injection Ex as <-. assert (rat_den q | d) as Hdiv.
  { apply (Z.gauss _ (rat_num q)); [exists n; lia|by rewrite Z.gcd_comm]. }
  destruct Hdiv as [k Hk]. assert (0 < k) by nia. assert (rat_num q * k = n) by nia. nia.
Qed.

Lemma price_mul_ratio_Ok p r q :
  int64_ok (amount (base p)) → int64_ok (amount (quote p)) → wf_ratio r → price_mul_ratio p r = Ok q → wf_price q.
Proof.
  intros T1 T2 Wr E. unfold int64_ok in *. assert (wf_price p) as Wp.
  { unfold price_mul_ratio, price_validate in E. monad_inv. bool_to_prop. unfold wf_price, pos_amounts, share_ok. lia. }
  destruct (price_mul_ratio_total p r Wp Wr) as (np & E' & W & _). congruence.
Qed.

(** The fill price is the price of the feed less the settlement offset. *)
Lemma fill_price_wf b r q :
  typed_bitasset b → ratio_make (GRAPHENE_100_PERCENT - force_settlement_offset_percent (bad_options b))
                       GRAPHENE_100_PERCENT = Ok r →
  price_div_ratio (settlement_price (current_feed b)) r = Ok q → wf_price q.
Proof.
  intros ([T1 T2] & _ & Ho) Er E. unfold price_div_ratio in E. apply result_bind_Ok in E as (r' & Er' & E).
  unfold GRAPHENE_100_PERCENT in *. apply ratio_make_bounds in Er as (Hd & Hn & _); [|lia..].
  destruct (Z.eq_dec (rat_num r) 0) as [H0|H0]; [by rewrite H0, ratio_make_zero in Er'|].
  apply ratio_make_bounds in Er' as (Hd' & Hn' & Hp); [|lia..].
  eapply price_mul_ratio_Ok; [done..| |exact E]. unfold wf_ratio. lia.
Qed.

(** Both prices of the loop are usable in every iteration. *)
Definition vars_ok (t : Z) (v : settle_vars) : Prop :=
  (settlement_fill_price v = default_price ∨ wf_price (settlement_fill_price v)) ∧
  usable_price t (sv_settlement_price v).

Lemma settle_prices_ok mia b bal t v v' :
  typed_bitasset b → vars_ok t v → settle_prices mia b bal t v = Ok v' →
  vars_ok t v' ∧ max_settlement_volume v' = max_settlement_volume v ∧ current_asset v' = current_asset v.
Proof.
  intros T [V1 V2] E. unfold settle_prices in E. apply result_bind_Ok in E as (fp & Ef & E).
  apply result_bind_Ok in E as (p & Ep & [= <-]). split; [|done].
  assert (fp = default_price ∨ wf_price fp) as Hf.
  { destruct (asset_id (base (settlement_fill_price v)) =? mia) in Ef; [by injection Ef as <-|]. apply result_bind_Ok in Ef as (r & Er & Ef).
    right. by eapply fill_price_wf. }
  split; [done|]. cbn. intros Ht. destruct (t <=? _) eqn:El; bool_to_prop; [lia|].
  destruct (asset_id (base (sv_settlement_price v)) =? mia) in Ep; injection Ep as <-; [by apply V2|done].
Qed.

Lemma books_match_call_settle call settle mp mx fp s r s' :
  usable_price (next_maintenance_time (dgpo s)) mp → 0 ≤ amount mx →
  match_call_settle call settle mp mx fp s = Ok (r, s') → books_step s s'.
Proof.
  intros U Hm E W T. assert (sound_step s s') as S.
  { apply balanced_sound. eapply balanced_match_call_settle; [done|done| |exact E].
    intros f Hf. by apply (ts_settles _ T settle f). }
  apply books_of; [by apply sound_ledger| |done..]. by apply frame_match_call_settle in E.
Qed.

Lemma settle_order_books n mia order v : ∀ settled s r s',
  vars_ok (next_maintenance_time (dgpo s)) v →
  settle_order n mia order v settled s = Ok (r, s') → books_step s s' ∧ market_frame s s'.
Proof.
  induction n as [|n IH]; intros settled s r s' V E; [done|]. cbn [settle_order] in E.
  bind E as lt Hlt. bind E as here Hh. destruct lt; [|by ret_inv E]. destruct here as [o|]; [|by ret_inv E].
  do 2 bind_step E. bind E as itr Hitr. bind E as mx Hmx. apply asset_lt_Ok in Hlt as [_ Hlt]. apply asset_sub_Ok in Hmx as [_ ->].
  symmetry in Hlt. bool_to_prop.
  assert (∀ s1 r1 s2, (cancel_settle_order order true;; mret r1) s1 = Ok (r, s2) → books_step s1 s2 ∧ market_frame s1 s2)
    as Hcancel.
  { intros s1 r1 s2 Ec. bind Ec as [] Hc. ret_inv Ec. split; [by eapply books_cancel_settle|by eapply frame_cancel_settle]. }
  destruct (_ =? 0); [by eapply Hcancel|]. destruct (call_collateral_lower _ _) as [[call co]|]; [|done].
  apply M_bind_Ok in E as (new & s1 & Et & E). unfold try_match in Et.
  destruct (match_call_settle _ _ _ _ _ s) as [[x s2]|e] eqn:Em.
  2: { destruct e; try done. injection Et as <- <-. by eapply Hcancel. }
  injection Et as <- <-. pose proof (frame_match_call_settle _ _ _ _ _ _ _ _ Em) as F.
  apply books_match_call_settle in Em as B; [|apply V|cbn; lia]. bind_step E.
  destruct (_ && _).
  - bind_step E. by ret_inv E.
  - bind_step E. destruct (IH _ _ _ _ ltac:(by rewrite (mf_dgpo _ _ F)) E) as [B' F'].
    split; [by etransitivity|by etransitivity].
Qed.

Lemma settle_volume_reads mia b v s v' s' :
  settle_volume mia b v s = Ok (v', s') →
  s' = s ∧ current_asset v' = current_asset v ∧ settlement_fill_price v' = settlement_fill_price v ∧
  sv_settlement_price v' = sv_settlement_price v ∧ current_asset_finished v' = current_asset_finished v.
Proof.
  unfold settle_volume. intros E. destruct (_ =? mia); [by ret_inv E|]. do 2 bind_step E. by ret_inv E.
Qed.

Lemma settled_volume_books mia x s s' :
  modify mia (λ b, Ok (set_force_settled_volume x b)) s = Ok (tt, s') → books_step s s' ∧ market_frame s s'.
Proof.
  intros E. assert (market_frame s s') as F.
  { revert E. apply frame_modify_bitasset. by intros b b' [= <-]. }
  split; [|done]. apply books_of; [|done]. revert E. apply ledger_modify_bitasset. by intros b b' [= <-].
Qed.

Lemma settle_loop_books n : ∀ v s s',
  typed_state s → vars_ok (next_maintenance_time (dgpo s)) v →
  settle_loop fuel n v s = Ok (tt, s') → books_step s s' ∧ market_frame s s'.
Proof.
  induction n as [|n IH]; intros v s s' T V E; [done|]. cbn [settle_loop] in E.
  assert (∀ v s s', typed_state s → vars_ok (next_maintenance_time (dgpo s)) v →
    (r ← next_asset v; match r with Some v => settle_loop fuel n v | None => mret tt end) s = Ok (tt, s') →
    books_step s s' ∧ market_frame s s') as Hskip.
  { intros v1 s1 s2 T1 V1 E1. bind E1 as r Hr. unfold next_asset in Hr. bind_step Hr. ret_inv Hr.
    destruct (settlement_upper _ _) as [[i f]|]; [by apply IH in E1|by ret_inv E1]. }
  assert (∀ i v s s', typed_state s → vars_ok (next_maintenance_time (dgpo s)) v →
    (cancel_settle_order i true;; settle_loop fuel n v) s = Ok (tt, s') → books_step s s' ∧ market_frame s s') as Hcancel.
  { intros i v1 s1 s2 T1 V1 E1. bind E1 as [] Hc. pose proof (frame_cancel_settle i true _ _ _ Hc) as F.
    apply books_cancel_settle in Hc.
    destruct (IH v1 _ _ (mf_typed _ _ F T1) ltac:(by rewrite (mf_dgpo _ _ F)) E1). split; by etransitivity. }
  bind E as itr Hitr. destruct (settlement_lower _ _) as [[order_id order]|]; [|by ret_inv E].
  bind_step E. bind_step E. bind E as a Ha. bind E as b Hb. unfold get_bitasset_data in Hb. bind_step Hb.
  read_step s Hb. cbn in Hb.
  match type of E with context [has_settlement b] => idtac end.
  set (v0 := SettleVars (settlement_asset_id order) _ _ _ _) in E.
  assert (vars_ok (next_maintenance_time (dgpo s)) v0) as V0 by exact V.
  destruct (has_settlement b); [by eapply Hcancel|]. destruct (_ >? _); [by eapply Hskip|].
  destruct (price_is_null _); [by eapply Hcancel|]. apply M_bind_Ok in E as (v1 & s1 & Hv & E).
  apply settle_volume_reads in Hv as (-> & Hc & Hf & Hp & Hfin).
  assert (vars_ok (next_maintenance_time (dgpo s)) v1) as V1 by (unfold vars_ok; rewrite Hf, Hp; exact V0).
  destruct (_ || _); [by eapply Hskip|]. bind E as v2 Hv2.
  apply settle_prices_ok in Hv2 as [V2 _]; [|by apply (ts_feeds _ T _ _ Hb)|done].
  apply M_bind_Ok in E as ([settled finished] & s2 & Hs & E).
  apply settle_order_books in Hs as [B1 F1]; [|done].
  apply M_bind_Ok in E as (b2 & s2' & Hb2 & E). apply deref_Ok in Hb2 as [-> Hb2].
  apply M_bind_Ok in E as ([] & s3 & Hm & E).
  assert (books_step s2 s3 ∧ market_frame s2 s3) as [B2 F2].
  { unfold when in Hm. destruct (negb _) in Hm; [by eapply settled_volume_books|by ret_inv Hm]. }
  apply IH in E as [B3 F3].
  - split; repeat (etransitivity; [eassumption|]); done.
  - by apply (mf_typed _ _ F2), (mf_typed _ _ F1).
  - by rewrite (mf_dgpo _ _ F2), (mf_dgpo _ _ F1).
Qed.

End settlement_books.

(** *** Feeds and core exchange rates *)
Section feed_books.
Context `{EX : Ext} (nth_element : nth_element_t) (fuel : nat).
Hypothesis nth_element_permutes : ∀ less n l, nth_element less n l ≡ₚ l.
Hint Resolve books_check_call_orders books_clear_limit_orders : graphene.

Ltac solve_books_step :=
  repeat first [ apply keeps_deref; apply _ | progress solve_keeps_with ltac:(fail) ].

Lemma books_clear_due_settlements : keeps books_step (clear_due_settlements fuel).
Proof.
  intros s [] s' E W T. unfold clear_due_settlements in E. bind E as l Hl.
  destruct (settlements s) as [|[i f] l]; [by ret_inv E|].
  apply settle_loop_books in E as [B _]; [by apply B|done|]. split; [by left|]. by intros _; left.
Qed.
Hint Resolve books_clear_due_settlements : graphene.
Lemma books_clear_expired_orders : keeps books_step (clear_expired_orders fuel).
Proof. unfold clear_expired_orders. solve_books_step. Qed.

Lemma books_modify_bitasset mia f :
  (∀ b b', f b = Ok b' → bad_options b' = bad_options b ∧ settlement_fund b' = settlement_fund b ∧
     bad_settlement_price b' = bad_settlement_price b) →
  (∀ b b', f b = Ok b' → typed_bitasset b → typed_bitasset b') →
  keeps books_step (modify (V:=asset_bitasset_data_object) mia f).
Proof. intros H1 H2. apply books_keeps; [by apply ledger_modify_bitasset|by apply frame_modify_bitasset]. Qed.

Lemma books_refresh_feed mia t mt : keeps books_step (modify mia (refresh_feed nth_element t mt)).
Proof.
  apply books_modify_bitasset; intros b b' E; unfold refresh_feed in E;
    apply result_bind_Ok in E as (b1 & E & [= <-]).
  - apply update_median_feeds_frame in E as (H1 & H2 & H3 & _). by destruct (need_to_update_cer b1).
  - intros T. assert (typed_bitasset b1) by by eapply typed_update_median. by destruct (need_to_update_cer b1).
Qed.
Lemma books_clear_cer_flags mia : keeps books_step (modify mia (λ b, Ok (clear_cer_flags b))).
Proof. apply books_modify_bitasset; by intros b b' [= <-]. Qed.

Lemma books_copy_cer mia : keeps books_step (copy_cer mia).
Proof.
  unfold copy_cer. solve_books_step. apply books_keeps; apply keeps_modify; intros s x y Ha [= <-].
  - intros W. assert (wf_asset x) as Wa by apply (wm_assets _ W _ _ Ha). split; [|intros k; apply total_set_assets].
    destruct W. split; try done. by apply map_Forall_insert_2.
  - split; try done. by intros [].
Qed.
Hint Resolve books_refresh_feed books_clear_cer_flags books_copy_cer : graphene.

Lemma books_update_expired_feed mia : keeps books_step (update_expired_feed nth_element fuel mia).
Proof. unfold update_expired_feed. solve_books_step. Qed.
Hint Resolve books_update_expired_feed : graphene.
Lemma books_update_feeds ids : keeps books_step (update_feeds nth_element fuel ids).
Proof. induction ids as [|i ids IH]; cbn [update_feeds]; solve_books_step. Qed.
Hint Resolve books_update_feeds : graphene.
Lemma books_check_assets ids : keeps books_step (check_assets fuel ids).
Proof. induction ids as [|i ids IH]; cbn [check_assets]; solve_books_step. Qed.
Hint Resolve books_check_assets : graphene.
Lemma books_update_expired_feeds : keeps books_step (update_expired_feeds nth_element fuel).
Proof. unfold update_expired_feeds. solve_books_step. Qed.
Lemma books_core_exchange_rates : keeps books_step update_core_exchange_rates.
Proof.
  intros s [] s' E. unfold update_core_exchange_rates in E. revert E. apply (while_some_keeps _ _ books_step).
  intros s1 mia s2 _. revert s1 s2. assert (keeps books_step (copy_cer mia;; modify mia (λ b, Ok (clear_cer_flags b))))
    as H by solve_books_step. intros s1 s2. apply H.
Qed.
End feed_books.
