(* ===== verification/Budget.v ===== *)
(** * The budget: chain/db_maint.cpp, chain/worker_evaluator.cpp

    Once per maintenance interval the chain sets aside pay for the witnesses of the
    next interval and pays the elected workers, out of the reserve, the accumulated
    fees and what was left of the last budget. *)

From S2P Require Import Prelude External Asset Authority Operations Block Vesting State Balance Fill Market Trade.
From S2P Require Import Evaluator MarketOps Ledger Frame OpFrame Proposal Transaction Expire.

Definition GRAPHENE_CORE_ASSET_CYCLE_RATE : Z := 17.
Definition GRAPHENE_CORE_ASSET_CYCLE_RATE_BITS : Z := 32.

(** The right shift of [fc::uint128_t]. *)
Class ShiftRight := {
  u128_shr : Z → Z → Z;
  u128_shr_spec a n : 0 ≤ a ≤ uint128_max → 0 ≤ n < 128 → u128_shr a n = Z.shiftr a n
}.

Definition is_active (now : Z) (w : worker_object) : bool :=
  (now >=? work_begin_date w) && (now <=? work_end_date w).
Definition approving_stake (w : worker_object) : result Z :=
  raw_int64 (share_of_u64 (total_votes_for w) - share_of_u64 (total_votes_against w)).

Definition set_worker (t : worker_type) (w : worker_object) : worker_object :=
  WorkerObject (worker_account w) (work_begin_date w) (work_end_date w) (daily_pay w) t (vote_for w)
    (vote_against w) (total_votes_for w) (total_votes_against w) (worker_name w) (worker_url w).

Section budget.
Context `{EX : Ext} `{SR : ShiftRight}.

(** ** Workers *)
Definition pay_worker (t : worker_type) (pay : Z) : M database worker_type :=
  match t with
  | refund_worker_type burned =>
      burned ← lift (safe_add burned pay);
      modify (V:=asset_dynamic_data_object) CORE (sub_supply pay);;
      mret (refund_worker_type burned)
  | vesting_balance_worker_type balance =>
      _ ← get (V:=vesting_balance_object) balance;
      now ← head_block_time;
      modify balance (λ v, deposit v now (Asset pay CORE));;
      mret (vesting_balance_worker_type balance)
  | burn_worker_type burned =>
      burned ← lift (safe_add burned pay);
      adjust_balance GRAPHENE_NULL_ACCOUNT (Asset pay CORE);;
      mret (burn_worker_type burned)
  end.

(** Ids with their approving stake: more votes first, then the lower id. *)
Definition worker_before (a b : Z * Z) : bool :=
  if negb (a.2 =? b.2) then a.2 >? b.2 else a.1 <? b.1.
Fixpoint approved_workers (now : Z) (l : list (Z * worker_object)) : result (list (Z * Z)) :=
  match l with
  | [] => Ok []
  | (i, w) :: l =>
      if is_active now w then
        stake ← approving_stake w;
        ws ← approved_workers now l;
        Ok (if stake >? 0 then (i, stake) :: ws else ws)
      else approved_workers now l
  end.
Definition active_workers (now : Z) (s : database) : result (list Z) :=
  ws ← approved_workers now (map_to_list (workers (governance s)));
  Ok ((in_order worker_before ws).*1).

(** A day in microseconds, the unit of the difference of two times. *)
Definition day_count : Z := 86400000000.
Definition prorated_pay (daily passed_time_count : Z) : Z :=
  u128_to_int64 (u128_div (u128_mul (u128_of daily) (u128_of passed_time_count)) day_count).

Fixpoint pay_each (passed_time_count : Z) (ids : list Z) (budget : Z) : M database Z :=
  match ids with
  | [] => mret budget
  | i :: ids =>
      if budget >? 0 then
        w ← deref (V:=worker_object) i;
        let actual_pay := Z.min budget (prorated_pay (daily_pay w) passed_time_count) in
        t ← pay_worker (worker w) actual_pay;
        modify i (λ w, Ok (set_worker t w));;
        budget ← lift (safe_sub budget actual_pay);
        pay_each passed_time_count ids budget
      else mret budget
  end.

Definition pay_workers (budget : Z) : M database Z :=
  head_time ← head_block_time;
  ids ← read (active_workers head_time);
  d ← gets dgpo;
  pay_each ((head_time - last_budget_time d) * 1000000) ids budget.

(** ** The record *)
Definition reserved (a : asset_object) (d : asset_dynamic_data_object) : result Z :=
  safe_sub (max_supply (ao_options a)) (current_supply d).

(** The part of the reserve that may be spent in [dt] seconds, rounded up. *)
Definition spendable (reserve dt : Z) : Z :=
  let budget := u128_mul (u128_mul (u128_of reserve) dt) GRAPHENE_CORE_ASSET_CYCLE_RATE in
  let budget := u128_add budget (Z.shiftl 1 GRAPHENE_CORE_ASSET_CYCLE_RATE_BITS - 1) in
  let budget := u128_shr budget GRAPHENE_CORE_ASSET_CYCLE_RATE_BITS in
  if budget <? u128_of reserve then u128_to_int64 budget else reserve.

Definition initialize_budget_record (now : Z) : M database budget_record :=
  d ← gets dgpo;
  core ← deref (V:=asset_object) CORE;
  core_dd ← deref (V:=asset_dynamic_data_object) CORE;
  initial ← lift (reserved core core_dd);
  let rec dt total := BudgetRecord dt initial (accumulated_fees core_dd) (witness_budget d) 0 total 0 0 0 0 in
  if (last_budget_time d =? 0) || (now <=? last_budget_time d) then mret (rec 0 0)
  else
    let dt := now - last_budget_time d in
    reserve ← lift (safe_add initial (accumulated_fees core_dd));
    reserve ← lift (safe_add reserve (witness_budget d));
    mret (rec dt (spendable reserve dt)).

(** The change of the supply, and the core's dynamic data after it. *)
Definition sum_delta (witness_budget worker_budget leftover fees unused : Z) : result Z :=
  a ← safe_add witness_budget worker_budget;
  a ← safe_sub a leftover;
  a ← safe_sub a fees;
  safe_sub a unused.
Definition apply_delta (witness_budget worker_budget leftover unused delta : Z) (d : asset_dynamic_data_object)
    : result asset_dynamic_data_object :=
  n ← safe_add (current_supply d) delta;
  expected ← sum_delta witness_budget worker_budget leftover (accumulated_fees d) unused;
  (if delta =? expected then Ok tt else Err undefined_behaviour);;
  Ok (AssetDynamicData n (confidential_supply d) 0 (fee_pool d)).

Definition set_budget (budget now : Z) (d : dynamic_global_property_object) : dynamic_global_property_object :=
  DynamicGlobalProperties (head_block_number d) (head_block_id d) (time d) (current_witness d)
    (next_maintenance_time d) budget (recently_missed_count d) (current_aslot d)
    (recent_slots_filled d) (dynamic_flags d) (last_irreversible_block_num d)
    (accounts_registered_this_interval d) now.

Definition worker_share (per_day time_to_maint available : Z) : Z :=
  let worker_budget := u128_div (u128_mul (u128_of per_day) time_to_maint) 86400 in
  if worker_budget >=? u128_of available then available else u128_to_int64 worker_budget.

(** A failed [assert] ends the program. *)
Definition process_budget : M database unit :=
  p ← get_parameters;
  d ← gets dgpo;
  let now := time d in
  let time_to_maint := next_maintenance_time d - now in
  (if (time_to_maint >? 0) && (block_interval p >? 0) then mret tt else throw undefined_behaviour);;
  let blocks_to_maint := u64 (time_to_maint + block_interval p - 1) / block_interval p in
  rec ← initialize_budget_record now;
  let requested := share_of_u64 (u64 (witness_pay_per_block p * blocks_to_maint)) in
  let witness_pay := Z.min requested (total_budget rec) in
  available ← lift (safe_sub (total_budget rec) witness_pay);
  let worker_pay := worker_share (worker_budget_per_day p) time_to_maint available in
  available ← lift (safe_sub available worker_pay);
  leftover ← pay_workers worker_pay;
  _ ← lift (safe_add available leftover);
  delta ← lift (sum_delta witness_pay worker_pay leftover (from_accumulated_fees rec)
                  (from_unused_witness_budget rec));
  modify (V:=asset_dynamic_data_object) CORE (apply_delta witness_pay worker_pay leftover (witness_budget d) delta);;
  puts (λ s, set_dgpo (set_budget witness_pay now (dgpo s)) s);;
  t ← head_block_time;
  puts (λ s, set_budget_records (budget_records (governance s) ++
    [(t, BudgetRecord (time_since_last_budget rec) (from_initial_reserve rec) (from_accumulated_fees rec)
           (from_unused_witness_budget rec) requested (total_budget rec) witness_pay worker_pay leftover delta)]) s).

End budget.

(** ** Where the money goes *)
Section budget_effects.
Context `{EX : Ext} `{SR : ShiftRight}.
Context (k : option Z).

Lemma effect_pay_worker t pay : effect (ledger k) (pay_worker t pay) (λ _, lc k CORE * pay).
Proof.
  intros s r s' E. destruct t as [burned|balance|burned]; cbn [pay_worker] in E.
  - bind E as b Hb. bind E as [] H1. ret_inv E.
    apply (total_modify (ledger k)) in H1 as (v & w & _ & Hw & _ & ->). unfold sub_supply in Hw.
    apply result_bind_Ok in Hw as (n & Hn & [= <-]). safe_inv. unfold ledger. cbn. rewrite le_lc. lia.
  - bind E as v Hv. bind_step E. bind E as [] H1. ret_inv E.
    apply (total_modify (ledger k)) in H1 as (v1 & w & _ & Hw & _ & ->).
    apply vbo_deposit_amount in Hw as (H1 & H2 & H3). unfold ledger. cbn in *. rewrite H1, <- H2, H3. lia.
  - bind E as b Hb. bind E as [] H1. ret_inv E.
    by apply (effect_adjust_balance (lc k) (le k) (λ _, 0) (lg k)) in H1.
Qed.

Lemma effect_set_worker i t : effect (ledger k) (modify i (λ w, Ok (set_worker t w))) (λ _, 0).
Proof.
  intros s [] s' E. apply (total_modify (ledger k)) in E as (v & w & _ & _ & _ & ->). cbn. lia.
Qed.

Lemma effect_pay_each passed ids : ∀ budget,
  effect (ledger k) (pay_each passed ids budget) (λ leftover, lc k CORE * (budget - leftover)).
Proof.
  induction ids as [|i ids IH]; intros budget s r s' E; cbn [pay_each] in E; [ret_inv E; lia|].
  destruct (budget >? 0); [|ret_inv E; lia]. bind E as w Hw. bind E as t Ht. bind E as [] Hm. bind E as b Hb.
  apply effect_pay_worker in Ht. apply effect_set_worker in Hm. apply IH in E. rewrite E, Hm, Ht.
  set (pay := Z.min _ _) in *. assert (b = budget - pay) as -> by (safe_inv; done). generalize (total (ledger k) s).
  intros x. ring.
Qed.
Lemma effect_pay_workers budget :
  effect (ledger k) (pay_workers budget) (λ leftover, lc k CORE * (budget - leftover)).
Proof.
  intros s r s' E. unfold pay_workers in E. bind_step E. bind E as ids Hi. bind_step E. unfold read in Hi. apply lift_Ok in Hi as [_ ->].
  exact (effect_pay_each _ _ _ _ _ _ E).
Qed.
End budget_effects.

(** What the workers' pay leaves alone; of the core's dynamic data only the supply
    changes. *)
Record budget_frame (s s' : database) : Prop := {
  bf_books : same_books s s';
  bf_transactions : transactions s' = transactions s;
  bf_proposals : proposals s' = proposals s;
  bf_accounts : accounts s' = accounts s;
  bf_core dd : dyns s !! CORE = Some dd → ∃ n, dyns s' !! CORE = Some (set_supply n dd)
}.
Lemma set_supply_id d : set_supply (current_supply d) d = d.
Proof. by destruct d. Qed.
#[export] Instance budget_frame_preorder : PreOrder budget_frame.
Proof.
  split; [intros s; split; [reflexivity..|intros d Hd; exists (current_supply d); by rewrite set_supply_id]|].
  intros s1 s2 s3 [B1 T1 P1 A1 C1] [B2 T2 P2 A2 C2].
  split; [by etransitivity|congruence..|]. intros d1 H1. destruct (C1 d1 H1) as (n & H2).
  destruct (C2 _ H2) as (n' & H3). by exists n'.
Qed.
(** Nothing of the core's dynamic data changes. *)
Lemma budget_frame_same s s' :
  same_books s s' → transactions s' = transactions s → proposals s' = proposals s → accounts s' = accounts s →
  dyns s' = dyns s → budget_frame s s'.
Proof.
  intros ? ? ? ? Hd. split; [done..|]. intros d Hc. exists (current_supply d). by rewrite set_supply_id, Hd.
Qed.

Section budget_theorems.
Context `{EX : Ext} `{SR : ShiftRight}.

Lemma pay_worker_state t pay s r s' :
  pay_worker t pay s = Ok (r, s') →
  budget_frame s s' ∧ governance s' = governance s ∧
  (0 ≤ pay → ∀ dd, dyns s !! CORE = Some dd → ∃ dd', dyns s' !! CORE = Some dd' ∧ current_supply dd' ≤ current_supply dd).
Proof.
  intros E. destruct t as [burned|balance|burned]; cbn [pay_worker] in E.
  - bind E as b Hb. bind E as [] H1. ret_inv E. apply modify_Ok in H1 as (v & w & Hv & Hw & ->).
    unfold sub_supply in Hw. apply result_bind_Ok in Hw as (n & Hn & [= <-]). safe_inv. cbn in Hv.
    split_and!; [split; [by split|done..|]|done|].
    + intros d Hd. assert (d = v) as -> by congruence. exists (current_supply v - pay). cbn. by rewrite lookup_insert_eq.
    + intros Hp d Hd. assert (d = v) as -> by congruence. eexists. cbn. rewrite lookup_insert_eq. split; [done|cbn; lia].
  - bind E as v Hv. bind_step E. bind E as [] H1. ret_inv E. apply modify_Ok in H1 as (v1 & w & _ & _ & ->).
    split_and!; [by apply budget_frame_same|done|eauto using Z.le_refl].
  - bind E as b Hb. bind E as [] H1. ret_inv E. apply books_adjust_balance in H1 as B.
    apply adjust_balance_state in H1.
    split_and!; [apply budget_frame_same; [done|by rewrite H1..]|by rewrite H1|]. intros _ dd Hdd. exists dd.
    rewrite H1. split; [done|lia].
Qed.
Lemma set_worker_frame i t s s' : modify i (λ w, Ok (set_worker t w)) s = Ok (tt, s') → budget_frame s s'.
Proof. intros (v & w & _ & _ & ->)%modify_Ok. by apply budget_frame_same. Qed.
Lemma frame_pay_each passed ids : ∀ budget, keeps budget_frame (pay_each passed ids budget).
Proof.
  induction ids as [|i ids IH]; intros budget s r s' E; cbn [pay_each] in E; [ret_inv E; reflexivity|].
  destruct (budget >? 0); [|ret_inv E; reflexivity]. bind E as w Hw. bind E as t Ht. bind E as [] Hm. bind E as b Hs.
  apply pay_worker_state in Ht as (F1 & _). apply set_worker_frame in Hm. apply IH in E.
  etransitivity; [exact F1|]. by etransitivity.
Qed.
Lemma frame_pay_workers budget : keeps budget_frame (pay_workers budget).
Proof.
  intros s r s' E. unfold pay_workers in E. bind_step E. bind E as ids Hi. bind_step E. unfold read in Hi.
  apply lift_Ok in Hi as [_ ->]. by apply frame_pay_each in E.
Qed.

(** The pay of every worker fits its type. *)
Definition wf_workers (passed : Z) (s : database) : Prop :=
  0 ≤ passed ≤ int64_max ∧ map_Forall (λ _ w, 0 ≤ daily_pay w ≤ int64_max ∧ daily_pay w * passed ≤ int64_max * day_count)
    (workers (governance s)).
Lemma prorated_pay_spec daily passed :
  0 ≤ daily ≤ int64_max → 0 ≤ passed ≤ int64_max → daily * passed ≤ int64_max * day_count →
  prorated_pay daily passed = daily * passed / day_count.
Proof.
  intros Hd Hp Hm. unfold prorated_pay. assert (0 < day_count) as Hday by done.
  rewrite (u128_of_spec daily), (u128_of_spec passed) by lia. rewrite u128_mul_spec; [|lia|lia|].
  2: { etransitivity; [exact Hm|]. by vm_compute. }
  rewrite u128_div_spec; [|split; [nia|]|done].
  2: { etransitivity; [exact Hm|]. by vm_compute. }
  apply u128_to_int64_spec. split; [apply Z.div_pos; nia|]. apply Z.div_le_upper_bound; lia.
Qed.

Lemma pay_each_bounds passed ids : ∀ budget s r s',
  0 ≤ budget → wf_workers passed s → pay_each passed ids budget s = Ok (r, s') → 0 ≤ r ≤ budget ∧
  ∀ dd, dyns s !! CORE = Some dd → ∃ dd', dyns s' !! CORE = Some dd' ∧ current_supply dd' ≤ current_supply dd.
Proof.
  assert (∀ s r, 0 ≤ r → 0 ≤ r ≤ r ∧ ∀ dd, dyns s !! CORE = Some dd → ∃ dd', dyns s !! CORE = Some dd' ∧
    current_supply dd' ≤ current_supply dd) as Hstop by (intros s r Hr; split; [lia|eauto using Z.le_refl]).
  induction ids as [|i ids IH]; intros budget s r s' Hb W E; cbn [pay_each] in E; [ret_inv E; by apply Hstop|].
  destruct (budget >? 0); [|ret_inv E; by apply Hstop].
  apply M_bind_Ok in E as (w & s0 & Hw & E). apply deref_Ok in Hw as [-> Hw].
  bind E as t Ht. bind E as [] Hm. bind E as b Hs. set (pay := Z.min _ _) in *.
  destruct W as [Hp W]. destruct (W i w Hw) as [Hd Hx].
  assert (0 ≤ pay ≤ budget) as Hpay.
  { subst pay. rewrite prorated_pay_spec by done. assert (0 ≤ daily_pay w * passed / day_count) by (apply Z.div_pos; [nia|done]).
    lia. }
  apply pay_worker_state in Ht as (_ & Hgov & Hsup). specialize (Hsup (proj1 Hpay)).
  apply modify_Ok in Hm as (v & v' & Hv & [= <-] & Es). cbn in Hv, Es.
  apply IH in E as [Hr Hsup2]; [|safe_inv; lia|].
  - split; [safe_inv; lia|]. intros dd Hdd. destruct (Hsup dd Hdd) as (d1 & H1 & L1).
    destruct (Hsup2 d1) as (d2 & H2 & L2); [by subst|]. exists d2. split; [done|lia].
  - subst. split; [done|]. cbn. rewrite Hgov in *. apply map_Forall_insert_2; [|exact W].
    cbn. by apply (W i v).
Qed.

(** ** The whole budget *)

(** What can be spent: the part of the reserve that has become available, rounded up. *)
Lemma spendable_spec reserve dt :
  0 ≤ reserve ≤ int64_max → 0 ≤ dt ≤ uint32_max →
  spendable reserve dt = Z.min reserve ((reserve * dt * 17 + 4294967295) / 4294967296).
Proof.
  intros Hr Hd. assert (0 ≤ reserve * dt ≤ int64_max * uint32_max) as Hrd by nia.
  assert (int64_max * uint32_max * 17 + 4294967295 ≤ uint128_max) as Hbig by by vm_compute.
  unfold spendable, GRAPHENE_CORE_ASSET_CYCLE_RATE, GRAPHENE_CORE_ASSET_CYCLE_RATE_BITS.
  change (Z.shiftl 1 32 - 1) with 4294967295.
  rewrite u128_of_spec by lia. rewrite (u128_mul_spec reserve dt) by lia.
  rewrite u128_mul_spec by lia. rewrite u128_add_spec by lia. rewrite u128_shr_spec by lia.
  rewrite Z.shiftr_div_pow2 by lia. change (2 ^ 32) with 4294967296. set (b := _ / _).
  assert (0 ≤ b) by (apply Z.div_pos; lia).
  destruct (b <? reserve) eqn:Hb; bool_to_prop; [rewrite u128_to_int64_spec; lia|lia].
Qed.

Lemma initialize_inv now s rec s' :
  initialize_budget_record now s = Ok (rec, s') → s' = s ∧ ∃ a dd,
    assets s !! CORE = Some a ∧ dyns s !! CORE = Some dd ∧
    from_accumulated_fees rec = accumulated_fees dd ∧ from_unused_witness_budget rec = witness_budget (dgpo s) ∧
    (total_budget rec = 0 ∨
     last_budget_time (dgpo s) < now ∧ total_budget rec =
       spendable (max_supply (ao_options a) - current_supply dd + accumulated_fees dd + witness_budget (dgpo s))
         (now - last_budget_time (dgpo s))).
Proof.
  intros E. unfold initialize_budget_record in E. bind_step E.
  apply M_bind_Ok in E as (a & s1 & Ha & E). apply deref_Ok in Ha as [-> Ha].
  apply M_bind_Ok in E as (dd & s1 & Hd & E). apply deref_Ok in Hd as [-> Hd].
  apply M_bind_Ok in E as (ini & s1 & Hi & E). apply lift_Ok in Hi as [Hi ->]. unfold reserved in Hi.
  destruct (_ || _) eqn:Hg.
  - injection E as <- <-. split; [done|]. exists a, dd. split_and!; try done. by left.
  - apply M_bind_Ok in E as (r1 & s1 & H1 & E). apply lift_Ok in H1 as [H1 ->].
    apply M_bind_Ok in E as (r2 & s1 & H2 & E). apply lift_Ok in H2 as [H2 ->]. injection E as <- <-.
    split; [done|]. exists a, dd. split_and!; try done. right. bool_to_prop. split; [lia|]. cbn. f_equal. safe_inv. lia.
Qed.

Lemma worker_share_bounds per_day t available :
  0 ≤ available ≤ int64_max → 0 ≤ worker_share per_day t available ≤ available.
Proof.
  intros Ha. unfold worker_share. rewrite (u128_of_spec available) by done. set (b := u128_div _ _).
  pose proof (u128_div_nonneg (u128_mul (u128_of per_day) t) 86400 : 0 ≤ b).
  destruct (b >=? available) eqn:Hb; bool_to_prop; [lia|]. rewrite u128_to_int64_spec; lia.
Qed.

Lemma apply_delta_Ok wb wk left unused delta d d' :
  apply_delta wb wk left unused delta d = Ok d' →
  ∃ n, safe_add (current_supply d) delta = Ok n ∧ d' = AssetDynamicData n (confidential_supply d) 0 (fee_pool d).
Proof.
  intros E. unfold apply_delta in E. apply result_bind_Ok in E as (n & Hn & E).
  apply result_bind_Ok in E as (x & _ & E). destruct (delta =? x); [|done]. injection E as <-. by exists n.
Qed.

(** The steps of [process_budget]. *)
Definition paid_out (s : database) (witness_pay worker_pay leftover delta : Z) (rec : budget_record) (s1 s' : database) : Prop :=
  initialize_budget_record (time (dgpo s)) s = Ok (rec, s) ∧
  pay_workers worker_pay s = Ok (leftover, s1) ∧
  delta = witness_pay + worker_pay - leftover - from_accumulated_fees rec - from_unused_witness_budget rec ∧
  0 ≤ worker_pay ∧ witness_pay + worker_pay ≤ total_budget rec ∧
  ∃ dd dd', dyns s1 !! CORE = Some dd ∧
    apply_delta witness_pay worker_pay leftover (witness_budget (dgpo s)) delta dd = Ok dd' ∧
    ∃ r, s' = set_budget_records r (set_dgpo (set_budget witness_pay (time (dgpo s)) (dgpo s))
                (set_dyns (<[CORE := dd']> (dyns s1)) s1)).

Lemma process_budget_inv s s' :
  process_budget s = Ok (tt, s') → dgpo s' = set_budget (witness_budget (dgpo s')) (time (dgpo s)) (dgpo s) ∧
  ∃ worker_pay leftover delta rec s1, paid_out s (witness_budget (dgpo s')) worker_pay leftover delta rec s1 s'.
Proof.
  intros E. unfold process_budget in E. bind_step E. bind_step E. bind E as [] Hg.
  match type of Hg with _ = Ok (_, ?x) => assert (x = s) as -> end.
  { destruct (_ && _) in Hg; [by injection Hg|done]. }
  set (p := parameters (gpo s)) in *. set (d := dgpo s) in *.
  apply M_bind_Ok in E as (rec & s0 & Hr & E). apply initialize_inv in Hr as Hs. destruct Hs as [-> _].
  set (wp := Z.min _ _) in *. apply M_bind_Ok in E as (av & s0 & Ha & E). apply lift_Ok in Ha as [Ha ->].
  set (wk := worker_share _ _ _) in *. apply M_bind_Ok in E as (av2 & s0 & Ha2 & E). apply lift_Ok in Ha2 as [Ha2 ->].
  apply M_bind_Ok in E as (left & s1 & Hw & E). bind E as av3 Ha3. bind E as delta Hdelta. bind E as [] Hm.
  apply modify_Ok in Hm as (dd & dd' & Hdd & Hap & ->).
  apply M_bind_Ok in E as ([] & s3 & [= <-] & E). bind_step E. injection E as <-.
  apply frame_pay_workers in Hw as F. pose proof (sb_dgpo _ _ (bf_books _ _ F)) as Hdg. cbn [dgpo set_budget_records set_dgpo].
  cbn. fold d. rewrite Hdg. split; [done|]. exists wk, left, delta, rec, s1. unfold paid_out.
  split; [done|]. split; [done|]. split.
  { unfold sum_delta in Hdelta. monad_inv. safe_inv. lia. }
  assert (av = total_budget rec - wp ∧ in_int64 (total_budget rec - wp) = true) as [-> Hin].
  { rewrite safe_sub_spec in Ha. destruct (in_int64 _); [|done]. by injection Ha as <-. }
  apply in_int64_true in Hin. assert (0 ≤ wk ≤ total_budget rec - wp) as Hwk by (apply worker_share_bounds; lia).
  split; [lia|]. split; [lia|]. exists dd, dd'. split; [done|]. split; [done|]. by eexists.
Qed.

Lemma budget_ledger s s' : process_budget s = Ok (tt, s') → ∀ k, total (ledger k) s' = total (ledger k) s.
Proof.
  intros E k. apply process_budget_inv in E as (_ & wk & left & delta & rec & s1 & Hr & Hw & Hd & _ & _ & dd & dd' & Hdd & Ha & r & ->).
  apply initialize_inv in Hr as (_ & a & dd0 & _ & Hdd0 & Hf & Hu & _).
  apply frame_pay_workers in Hw as F. destruct (bf_core _ _ F _ Hdd0) as (n & Hn).
  assert (dd = set_supply n dd0) as -> by congruence.
  apply (effect_pay_workers k) in Hw. pose proof (sb_dgpo _ _ (bf_books _ _ F)) as Hdg.
  rewrite total_set_budget_records. unfold ledger. rewrite total_set_dgpo.
  pose proof (total_set_tbl (ledger k) (<[CORE := dd']> (dyns s1)) s1) as Ht. cbn [set_tbl dyns_table tbl w_of] in Ht.
  rewrite (sum_map_insert _ _ _ _ _ Hdd) in Ht. apply apply_delta_Ok in Ha as (m & Hm & ->).
  fold (ledger k). rewrite Ht, Hw. cbn. rewrite Hdg, le_lc. safe_inv. cbn. rewrite Hf, Hu.
  generalize (total (ledger k) s). intros x. cbn. ring.
Qed.

(** The budget conserves the core asset.  What is set aside for the witnesses and
    paid to the workers is exactly what the supply grows by plus the accumulated fees
    and the rest of the last budget, so everything held of every asset still adds up to
    its supply. *)
Theorem budget_conserves s s' :
  process_budget s = Ok (tt, s') → ledger_balanced s → ledger_balanced s'.
Proof.
  intros E [H C]. pose proof (budget_ledger _ _ E) as T. split.
  - intros a. pose proof (T (Some a)) as Ta. rewrite <- !excess_ledger, !excess_holdings, (H a) in Ta. lia.
  - pose proof (T None) as Tn. rewrite <- (core_orders_ledger s), <- (core_orders_ledger s') in Tn. congruence.
Qed.

(** C23: The budget stays within the reserve.  However the workers are paid, what is
    taken from the reserve (the part of the maximal supply that is not issued, with the
    accumulated fees and the rest of the last budget) is at most the fraction
    17 / 2^32 of it per second since the last budget, rounded up, and never more than
    the reserve, so the supply stays below the maximum; the fees start over at zero. *)
Theorem budget_within_reserve a dd s s' :
  process_budget s = Ok (tt, s') →
  assets s !! CORE = Some a → dyns s !! CORE = Some dd → u32_ok (time (dgpo s)) → 0 ≤ last_budget_time (dgpo s) →
  let dt := time (dgpo s) - last_budget_time (dgpo s) in
  let reserve := max_supply (ao_options a) - current_supply dd + accumulated_fees dd + witness_budget (dgpo s) in
  0 ≤ reserve ≤ int64_max → 0 ≤ accumulated_fees dd → 0 ≤ witness_budget (dgpo s) → wf_workers (dt * 1000000) s →
  ∃ dd', dyns s' !! CORE = Some dd' ∧ accumulated_fees dd' = 0 ∧ last_budget_time (dgpo s') = time (dgpo s) ∧
    let taken := current_supply dd' - current_supply dd + accumulated_fees dd + witness_budget (dgpo s) in
    taken ≤ (reserve * dt * 17 + 4294967295) / 4294967296 ∧ taken ≤ reserve ∧
    current_supply dd' ≤ max_supply (ao_options a).
Proof.
  intros E Ha Hd Ht Hl dt reserve Hres Hf Hb W.
  apply process_budget_inv in E as (Hdg & wk & left & delta & rec & s1 & Hr & Hw & Hdelta & Hwk & Htot & d1 & d2 & Hd1 & Hap & r & Es).
  apply initialize_inv in Hr as (_ & a0 & dd0 & Ha0 & Hd0 & Hfees & Hunused & Hbudget).
  assert (a0 = a) as -> by congruence. assert (dd0 = dd) as -> by congruence. fold reserve dt in Hbudget.
  assert (0 ≤ left ∧ current_supply d1 ≤ current_supply dd) as [Hleft Hsup].
  { unfold pay_workers in Hw. bind_step Hw. bind Hw as ids Hi. bind_step Hw. unfold read in Hi. apply lift_Ok in Hi as [_ ->].
    apply pay_each_bounds in Hw as [Hr Hx]; [|done|done]. destruct (Hx dd Hd) as (d3 & H3 & L3).
    assert (d3 = d1) as -> by congruence. lia. }
  apply apply_delta_Ok in Hap as (n & Hn & ->).
  assert (total_budget rec ≤ (reserve * dt * 17 + 4294967295) / 4294967296 ∧ total_budget rec ≤ reserve) as [B1 B2].
  { destruct W as [W _]. destruct Hbudget as [->|[Hlt ->]].
    - split; [|lia]. apply Z.div_pos; nia.
    - rewrite spendable_spec; [lia|done|]. unfold u32_ok in Ht. unfold_widths. lia. }
  exists (AssetDynamicData n (confidential_supply d1) 0 (fee_pool d1)). rewrite Es. cbn. rewrite lookup_insert_eq.
  split_and!; try done; safe_inv; lia.
Qed.

End budget_theorems.

(** *** A budget

    Ten days after the last budget; one worker with a vesting balance. *)
#[export, refine] Instance shift_right_ref : ShiftRight := {| u128_shr := Z.shiftr |}.
Proof. done. Defined.

Definition ex_worker : worker_object :=
  WorkerObject 18 1500000000 1700000000 100 (burn_worker_type 0) 7 8 1000 0 String.EmptyString String.EmptyString.
Definition ex_budget : database :=
  set_workers {[ 0 := ex_worker ]}
  (set_dgpo (DynamicGlobalProperties 10 null_id 1600000000 1 1600000020 50 0 10 0 0 0 0 1599136000)
  (set_dyns {[ 0 := AssetDynamicData 6110 0 10 0; 1 := AssetDynamicData 300 0 0 0 ]} ex_chain)).

Lemma ex_budget_balanced : ledger_balanced ex_budget.
Proof.
  split; [intros a|by vm_compute].
  destruct (decide (a = 0)) as [->|H0]; [by vm_compute|]. destruct (decide (a = 1)) as [->|H1]; [by vm_compute|].
  assert ((0 =? a) = false ∧ (1 =? a) = false) as [E0 E1] by (rewrite !Z.eqb_neq; lia).
  unfold holdings, supply, total, ex_budget, ex_chain. cbn -[sum_map lookup insert singletonM linear_weights].
  rewrite !lookup_insert_ne, lookup_singleton_ne by congruence. cbn [from_option].
  rewrite !sum_map_insert_new by done. rewrite !sum_map_singleton, !sum_map_empty.
  cbn -[Z.eqb]. unfold CORE. cbn -[Z.eqb]. by rewrite E0, E1.
Qed.

Lemma budget_conserves_witness :
  match process_budget ex_budget with
  | Ok (_, s') => holdings 0 s' = supply 0 s' ∧ supply 0 s' = 11050
  | Err _ => False
  end.
Proof.
  destruct (process_budget ex_budget) as [[[] s']|e] eqn:E; [|vm_compute in E; discriminate E].
  destruct (budget_conserves ex_budget s' E ex_budget_balanced) as [H _]. split; [apply H|].
  clear H. vm_compute in E. injection E as <-. by vm_compute.
Defined.

Lemma budget_within_reserve_witness :
  match process_budget ex_budget with
  | Ok (_, s') => ∃ dd', dyns s' !! CORE = Some dd' ∧ accumulated_fees dd' = 0 ∧ current_supply dd' ≤ GRAPHENE_MAX_SHARE_SUPPLY
  | Err _ => False
  end.
Proof.
  assert (wf_workers 864000000000 ex_budget) as W.
  { split; [by vm_compute|]. apply map_Forall_singleton. split; by vm_compute. }
  destruct (process_budget ex_budget) as [[[] s']|e] eqn:E; [|vm_compute in E; discriminate E].
  destruct (budget_within_reserve (AssetObject 0 (ex_options 0 0 (ex_unit_price 0 0)) false None String.EmptyString 5)
    (AssetDynamicData 6110 0 10 0) ex_budget s' E) as (dd' & H1 & H2 & _ & _ & _ & H3);
    clear E; [reflexivity|reflexivity|by vm_compute|by vm_compute|by vm_compute|by vm_compute|by vm_compute|exact W|].
  by exists dd'.
Defined.
