(* ===== verification/Election.v ===== *)
(** * Votes: chain/db_maint.cpp, chain/vote_count.hpp

    Once per maintenance interval every voting account's core is counted for what it
    votes for, the witnesses and the committee members with the most votes are
    elected, the authorities of their accounts are set to them, and accounts that are
    controlled by the holders of an asset follow its balances. *)

From S2P Require Import Prelude External Asset Authority Operations Block Vesting State Balance Fill Market Trade.
From S2P Require Import Evaluator MarketOps Ledger Expire.
From Stdlib Require OrderedTypeEx.

Definition HARDFORK_533_TIME : Z := 1456250400.
Definition HARDFORK_607_TIME : Z := 1458752400.
Definition GRAPHENE_PROXY_TO_SELF_ACCOUNT : Z := 5.
Definition u16 (z : Z) : Z := z `mod` 65536.
Definition weight_max : Z := 65535.

(** [boost::multiprecision::detail::find_msb]. *)
Class FindMsb := {
  find_msb : Z → result Z;
  find_msb_spec z : 0 < z ≤ uint64_max → find_msb z = Ok (Z.log2 z)
}.

(** A failed [assert] ends the program. *)
Definition hard_assert (b : bool) : result unit := if b then Ok tt else Err undefined_behaviour.

(** ** Changes of objects *)
Definition set_authorities (owner active : authority) (top_n : Z) (a : account_object) : account_object :=
  AccountObject (membership_expiration_date a) (registrar a) (referrer a) (lifetime_referrer a)
    (network_fee_percentage a) (lifetime_referrer_fee_percentage a) (referrer_rewards_percentage a)
    (whitelisting_accounts a) (blacklisting_accounts a) (allowed_assets a) (cashback_vb a) owner active
    (acc_options a) (owner_special_authority a) (active_special_authority a) top_n (acc_name a)
    (whitelisted_accounts a) (blacklisted_accounts a).
Definition set_active (x : authority) (a : account_object) : account_object :=
  set_authorities (acc_owner a) x (top_n_control_flags a) a.
Definition set_core_in_balance (x : Z) (st : account_statistics_object) : account_statistics_object :=
  AccountStatistics (total_core_in_orders st) x (has_cashback_vb st) (lifetime_fees_paid st) (pending_fees st)
    (pending_vested_fees st) (is_voting st) (stats_name st) (last_vote_time st).
Definition set_witness_votes (n : Z) (w : witness_object) : witness_object :=
  WitnessObject (witness_account w) (pay_vb w) (total_missed w) (signing_key w) (last_aslot w)
    (last_confirmed_block_num w) (witness_vote_id w) n (witness_url w).
Definition set_committee_votes (n : Z) (c : committee_member_object) : committee_member_object :=
  CommitteeMember (committee_member_account c) (committee_vote_id c) n (committee_url c).
Definition set_worker_votes (votes_for votes_against : Z) (w : worker_object) : worker_object :=
  WorkerObject (worker_account w) (work_begin_date w) (work_end_date w) (daily_pay w) (worker w) (vote_for w)
    (vote_against w) votes_for votes_against (worker_name w) (worker_url w).
Definition set_active_witnesses (l : list Z) (g : global_property_object) : global_property_object :=
  GlobalProperties (parameters g) l (pending_parameters g) (next_available_vote_id g) (active_committee_members g).
Definition set_active_committee (l : list Z) (g : global_property_object) : global_property_object :=
  GlobalProperties (parameters g) (active_witnesses g) (pending_parameters g) (next_available_vote_id g) l.

(** ** vote_counter *)
Record vote_counter := VoteCounter {
  last_votes : Z;
  total_votes : Z;
  bitshift : Z;
  vc_auth : authority
}.
Definition new_counter : vote_counter := VoteCounter uint64_max 0 (-1) (Authority 0 [] [] []).

(** [flat_map::operator []] and [emplace] on a map kept in the order of its keys. *)
Fixpoint put_auth (k w : Z) (l : list (Z * Z)) : list (Z * Z) :=
  match l with
  | [] => [(k, w)]
  | (k', w') :: l' => if k <? k' then (k, w) :: l else if k =? k' then (k, w) :: l' else (k', w') :: put_auth k w l'
  end.
Fixpoint emplace_auth (k w : Z) (l : list (Z * Z)) : list (Z * Z) :=
  match l with
  | [] => [(k, w)]
  | (k', w') :: l' => if k <? k' then (k, w) :: l else if k =? k' then l else (k', w') :: emplace_auth k w l'
  end.
Definition add_authority (k w : Z) (a : authority) : authority :=
  Authority (weight_threshold a) (put_auth k w (account_auths a)) (key_auths a) (address_auths a).
Definition set_threshold (n : Z) (a : authority) : authority :=
  Authority n (account_auths a) (key_auths a) (address_auths a).

Section counter.
Context `{MB : FindMsb}.

Definition vc_add (who votes : Z) (vc : vote_counter) : result vote_counter :=
  if votes =? 0 then Ok vc
  else
    hard_assert (votes <=? last_votes vc);;
    shift ← (if bitshift vc =? -1 then msb ← find_msb votes; Ok (Z.max (msb - 15) 0) else Ok (bitshift vc));
    let scaled_votes := Z.max (Z.shiftr votes shift) 1 in
    hard_assert (scaled_votes <=? weight_max);;
    let total := u64 (total_votes vc + scaled_votes) in
    hard_assert (total <=? uint32_max);;
    Ok (VoteCounter votes total shift (add_authority who (u16 scaled_votes) (vc_auth vc))).
Fixpoint vc_add_all (l : list (Z * Z)) (vc : vote_counter) : result vote_counter :=
  match l with [] => Ok vc | (who, votes) :: l => vc ← vc_add who votes vc; vc_add_all l vc end.

Definition finish (vc : vote_counter) (out_auth : authority) : result authority :=
  if total_votes vc =? 0 then Ok out_auth
  else
    hard_assert (total_votes vc <=? uint32_max);;
    Ok (set_threshold (Z.shiftr (total_votes vc) 1 + 1) (vc_auth vc)).

(** The weights before hard fork 533. *)
Definition old_weights (l : list (Z * Z)) : list (Z * Z) :=
  foldl (λ m x, emplace_auth x.1 x.2 m) [] l.
Definition old_authority (l : list (Z * Z)) (a : authority) : result authority :=
  msb ← find_msb (foldl (λ n x, u64 (n + x.2)) 0 l);
  let bits_to_drop := Z.max (msb - 15) 0 in
  let auths := (λ x : Z * Z, (x.1, u16 (Z.max (Z.shiftr x.2 bits_to_drop) 1))) <$> old_weights l in
  let threshold := foldl (λ n x, u32 (n + x.2)) 0 auths in
  Ok (Authority (u32 (threshold / 2 + 1)) auths [] (address_auths a)).

Definition elected_authority (now : Z) (l : list (Z * Z)) (a : authority) : result authority :=
  if now <? HARDFORK_533_TIME then old_authority l a else vc ← vc_add_all l new_counter; finish vc a.

End counter.

(** ** The tally *)

(** The buffers of the database that votes are counted in. *)
Record tally := Tally {
  vote_tally_buffer : list Z;
  witness_count_histogram_buffer : list Z;
  committee_count_histogram_buffer : list Z;
  total_voting_stake : Z
}.
Definition empty_tally : tally := Tally [] [] [] 0.

Definition resize (n : Z) (l : list Z) : list Z :=
  take (Z.to_nat n) l ++ replicate (Z.to_nat n - length l) 0.
Definition vote_tally_helper (old : tally) (g : global_property_object) : tally :=
  Tally (resize (next_available_vote_id g) (vote_tally_buffer old))
    (resize (maximum_witness_count (parameters g) / 2 + 1) (witness_count_histogram_buffer old))
    (resize (maximum_committee_count (parameters g) / 2 + 1) (committee_count_histogram_buffer old)) 0.

(** [id.instance()]. *)
Definition vote_instance (id : Z) : Z := Z.shiftr id 8.

(** An offset behind the end changes nothing. *)
Definition count_stake (stake offset : Z) (l : list Z) : list Z :=
  alter (λ x, u64 (x + stake)) (Z.to_nat offset) l.
Definition count_opinion (stake size maximum : Z) (l : list Z) : list Z :=
  if size <=? maximum then count_stake stake (Z.min (size / 2) (Z.of_nat (length l) - 1)) l else l.

Definition cast_ballot (g : global_property_object) (stake : Z) (o : account_options) (t : tally) : tally :=
  Tally (foldr (λ id, count_stake stake (vote_instance id)) (vote_tally_buffer t) (elements (votes o)))
    (count_opinion stake (num_witness o) (maximum_witness_count (parameters g)) (witness_count_histogram_buffer t))
    (count_opinion stake (num_committee o) (maximum_committee_count (parameters g)) (committee_count_histogram_buffer t))
    (u64 (total_voting_stake t + stake)).

Definition is_member (a : account_object) (now : Z) : bool := negb (is_basic_account a now).
Definition has_some_core_voting (st : account_statistics_object) : bool :=
  is_voting st && ((total_core_in_orders st >? 0) || (core_in_balance st >? 0) || has_cashback_vb st).
Definition has_pending_fees (st : account_statistics_object) : bool :=
  (pending_fees st >? 0) || (pending_vested_fees st >? 0).
Definition need_maintenance (st : account_statistics_object) : bool :=
  has_some_core_voting st || has_pending_fees st.

Section accounts.
Context `{EX : Ext}.

Definition voting_stake (a : account_object) (st : account_statistics_object) : M database Z :=
  cashback ← match cashback_vb a with
             | Some i => v ← get (V:=vesting_balance_object) i; mret (amount (vbo_balance v))
             | None => mret 0
             end;
  x ← lift (raw_int64 (total_core_in_orders st + cashback));
  x ← lift (raw_int64 (x + core_in_balance st));
  mret (u64 x).

Definition tally_helper (g : global_property_object) (stake_account : account_object)
    (st : account_statistics_object) (t : tally) : M database tally :=
  now ← head_block_time;
  if count_non_member_votes (parameters g) || is_member stake_account now then
    opinion_account ← (if voting_account (acc_options stake_account) =? GRAPHENE_PROXY_TO_SELF_ACCOUNT
                       then mret stake_account
                       else get (V:=account_object) (voting_account (acc_options stake_account)));
    stake ← voting_stake stake_account st;
    mret (cast_ballot g stake (acc_options opinion_account) t)
  else mret t.

(** ** Account maintenance *)

(** [rbegin()] of the index by the maintenance flag, if it has the flag. *)
Definition flagged_balance (s : database) : option (Z * Z * account_balance_object) :=
  last (filter (λ x : Z * Z * account_balance_object, maintenance_flag x.2 = true) (map_to_list (balances s))).
Definition refresh_core_balance (x : Z * Z * account_balance_object) : M database unit :=
  _ ← get (V:=account_statistics_object) x.1.1;
  modify x.1.1 (λ st, Ok (set_core_in_balance (balance x.2) st));;
  modify x.1 (λ b, Ok (AccountBalance (balance b) false)).
Definition refresh_core_balances : M database unit := λ s,
  while_some (S (size (balances s))) flagged_balance refresh_core_balance s.

(** The index of the accounts to look at is in the order of their names, which are
    unique.  Paying out the fees of one may add others to it, so the next account is
    looked up before each step, as the source moves its iterator. *)
Definition by_name (a b : Z * account_statistics_object) : bool := String.ltb (stats_name a.2) (stats_name b.2).
Definition next_account (after : option String.string) (s : database) : option Z :=
  fst <$> head (in_order by_name (filter (λ x : Z * account_statistics_object,
    need_maintenance x.2 && match after with Some n => String.ltb n (stats_name x.2) | None => true end = true)
    (map_to_list (stats s)))).
Fixpoint account_loop (fuel : nat) (g : global_property_object) (itr : option Z) (t : tally) : M database tally :=
  match itr with
  | None => mret t
  | Some i =>
      match fuel with
      | O => throw out_of_fuel
      | S fuel =>
          st ← deref (V:=account_statistics_object) i;
          a ← get (V:=account_object) i;
          next ← gets (next_account (Some (stats_name st)));
          t ← (if has_some_core_voting st then tally_helper g a st t else mret t);
          when (has_pending_fees st) (process_fees i);;
          account_loop fuel g next t
      end
  end.
Definition perform_account_maintenance (g : global_property_object) (t : tally) : M database tally := λ s,
  (refresh_core_balances;;
   first ← gets (next_account None);
   account_loop (size (stats s)) g first t) s.

End accounts.

(** ** Elections *)

(** [_vote_tally_buffer[id]]. *)
Definition votes_of (t : tally) (vote_id : Z) : result Z :=
  from_option_r undefined_behaviour (vote_tally_buffer t !! Z.to_nat (vote_instance vote_id)).

(** A candidate: the object with its account, its vote id and its votes. *)
Record candidate := Candidate { cand_account : Z; cand_vote_id : Z; cand_votes : Z }.
Definition more_votes (a b : Z * candidate) : bool :=
  let oa_vote := share_of_u64 (cand_votes a.2) in
  let ob_vote := share_of_u64 (cand_votes b.2) in
  if negb (oa_vote =? ob_vote) then oa_vote >? ob_vote else vote_instance (cand_vote_id a.2) <? vote_instance (cand_vote_id b.2).
Fixpoint candidates (t : tally) (l : list (Z * (Z * Z))) : result (list (Z * candidate)) :=
  match l with
  | [] => Ok []
  | (i, (account, vote_id)) :: l =>
      v ← votes_of t vote_id; l ← candidates t l; Ok ((i, Candidate account vote_id v) :: l)
  end.
(** Without an object the reference to the first one is undefined. *)
Definition sort_votable_objects (count : Z) (l : list (Z * candidate)) : result (list (Z * candidate)) :=
  match l with
  | [] => Err undefined_behaviour
  | _ => Ok (take (Z.to_nat (Z.min count (Z.of_nat (length l)))) (in_order more_votes l))
  end.

(** The loop over the histogram: how many pairs of members are wanted by more than half
    of the stake that has an opinion. *)
Fixpoint count_loop `{EX : Ext} (hist : list Z) (count stake_tally stake_target : Z) : result Z :=
  match hist with
  | [] => Ok count
  | h :: hist =>
      if stake_tally <=? stake_target then
        stake_tally ← safe_add stake_tally (share_of_u64 h);
        count_loop hist (count + 1) stake_tally stake_target
      else Ok count
  end.
Definition wanted_count `{EX : Ext} (hist : list Z) (total : Z) : result Z :=
  match hist with
  | [] => Err undefined_behaviour
  | abstain :: hist =>
      let stake_target := share_of_u64 (u64 (total - abstain) / 2) in
      if stake_target >? 0 then count_loop hist 0 0 stake_target else Ok 0
  end.

Section elections.
Context `{EX : Ext} `{MB : FindMsb}.
(** [_track_standby_votes]. *)
Context (track_standby_votes : bool).

Fixpoint update_total_votes {V} `{Table Z V} `{!Unique V} (vote_id : V → Z) (set_votes : Z → V → V) (t : tally)
    (ids : list Z) : M database unit :=
  match ids with
  | [] => mret tt
  | i :: ids =>
      modify i (λ w, v ← votes_of t (vote_id w); Ok (set_votes v w));;
      update_total_votes vote_id set_votes t ids
  end.

(** The ids of a table in order. *)
Definition ids_of {V} (m : gmap Z V) : list Z := merge_sort Z.le (map_to_list m).*1.
Definition ballot_of (l : list (Z * candidate)) : list (Z * Z) :=
  (λ x : Z * candidate, (cand_account x.2, cand_votes x.2)) <$> l.

Definition update_active_witnesses (t : tally) : M database unit :=
  count ← lift (wanted_count (witness_count_histogram_buffer t) (total_voting_stake t));
  least ← gets (λ s, min_witness_count (governance s));
  all ← read (λ s, candidates t ((λ x : Z * witness_object, (x.1, (witness_account x.2, witness_vote_id x.2)))
                                   <$> map_to_list (witnesses s)));
  wits ← lift (sort_votable_objects (Z.max (count * 2 + 1) least) all);
  ids ← gets (λ s, if track_standby_votes then ids_of (witnesses s) else wits.*1);
  update_total_votes witness_vote_id set_witness_votes t ids;;
  now ← head_block_time;
  _ ← get (V:=account_object) GRAPHENE_WITNESS_ACCOUNT;
  modify GRAPHENE_WITNESS_ACCOUNT (λ a,
    auth ← elected_authority now (ballot_of wits) (acc_active a); Ok (set_active auth a));;
  puts (λ s, set_gpo (set_active_witnesses (merge_sort Z.le wits.*1) (gpo s)) s).

Definition update_active_committee_members (t : tally) : M database unit :=
  count ← lift (wanted_count (committee_count_histogram_buffer t) (total_voting_stake t));
  least ← gets (λ s, min_committee_member_count (governance s));
  all ← read (λ s, candidates t ((λ x : Z * committee_member_object,
                                    (x.1, (committee_member_account x.2, committee_vote_id x.2)))
                                   <$> map_to_list (committee_members (governance s))));
  members ← lift (sort_votable_objects (Z.max (count * 2 + 1) least) all);
  ids ← gets (λ s, if track_standby_votes then ids_of (committee_members (governance s)) else members.*1);
  update_total_votes committee_vote_id set_committee_votes t ids;;
  when (negb (bool_decide (members = [])))
    (now ← head_block_time;
     _ ← get (V:=account_object) GRAPHENE_COMMITTEE_ACCOUNT;
     modify GRAPHENE_COMMITTEE_ACCOUNT (λ a,
       auth ← elected_authority now (ballot_of members) (acc_active a); Ok (set_active auth a));;
     committee_account ← deref (V:=account_object) GRAPHENE_COMMITTEE_ACCOUNT;
     _ ← get (V:=account_object) GRAPHENE_RELAXED_COMMITTEE_ACCOUNT;
     modify GRAPHENE_RELAXED_COMMITTEE_ACCOUNT (λ a, Ok (set_active (acc_active committee_account) a)));;
  puts (λ s, set_gpo (set_active_committee members.*1 (gpo s)) s).

Fixpoint count_workers (t : tally) (allow_negative_votes : bool) (ids : list Z) : M database unit :=
  match ids with
  | [] => mret tt
  | i :: ids =>
      modify i (λ w,
        votes_for ← votes_of t (vote_for w);
        votes_against ← (if allow_negative_votes then votes_of t (vote_against w) else Ok 0);
        Ok (set_worker_votes votes_for votes_against w));;
      count_workers t allow_negative_votes ids
  end.
Definition update_worker_votes (t : tally) : M database unit :=
  now ← head_block_time;
  ids ← gets (λ s, ids_of (workers (governance s)));
  count_workers t (now <? HARDFORK_607_TIME) ids.

(** ** Accounts controlled by the holders of an asset *)

(** [by_asset_balance]: greater balance first, then lower owner. *)
Definition richer (a b : Z * account_balance_object) : bool :=
  if negb (balance a.2 =? balance b.2) then balance a.2 >? balance b.2 else a.1 <? b.1.
Definition holders (asset_type : Z) (s : database) : list (Z * account_balance_object) :=
  in_order richer ((λ x : Z * Z * account_balance_object, (x.1.1, x.2)) <$>
    filter (λ x : Z * Z * account_balance_object, x.1.2 = asset_type) (map_to_list (balances s))).
Fixpoint count_holders (acct num_needed : Z) (l : list (Z * account_balance_object)) (vc : vote_counter)
    : result vote_counter :=
  match l with
  | [] => Ok vc
  | (owner, b) :: l =>
      if owner =? acct then count_holders acct num_needed l vc
      else
        vc ← vc_add owner (u64 (balance b)) vc;
        if num_needed - 1 =? 0 then Ok vc else count_holders acct (num_needed - 1) l vc
  end.

Definition control_by_holders (acct : Z) (is_owner : bool) (auth : special_authority) : M database unit :=
  match auth with
  | no_special_authority => mret tt
  | top_holders_special_authority a num_top_holders =>
      if num_top_holders =? 0 then mret tt
      else
        vc ← read (λ s, count_holders acct num_top_holders (holders a s) new_counter);
        modify acct (λ x,
          out ← finish vc (if is_owner then acc_owner x else acc_active x);
          let flags := if total_votes vc =? 0 then top_n_control_flags x
                       else Z.lor (top_n_control_flags x) (if is_owner then 1 else 2) in
          Ok (if is_owner then set_authorities out (acc_active x) flags x
              else set_authorities (acc_owner x) out flags x))
  end.
Fixpoint visit_special_authorities (l : list (Z * Z)) : M database unit :=
  match l with
  | [] => mret tt
  | (_, acct) :: l =>
      a ← get (V:=account_object) acct;
      control_by_holders acct true (owner_special_authority a);;
      a ← deref (V:=account_object) acct;
      control_by_holders acct false (active_special_authority a);;
      visit_special_authorities l
  end.
Definition update_top_n_authorities : M database unit :=
  l ← gets (λ s, in_order (λ a b, a.1 <? b.1) (map_to_list (special_authorities (governance s))));
  visit_special_authorities l.

End elections.

(** ** The weights of a counted authority *)
Definition scale (most v : Z) : Z := Z.max (Z.shiftr v (Z.max (Z.log2 most - 15) 0)) 1.

Lemma put_auth_perm k w l : k ∉ l.*1 → put_auth k w l ≡ₚ (k, w) :: l.
Proof.
  induction l as [|[k' w'] l IH]; intros Hk; cbn [put_auth]; [done|]. cbn in Hk. apply not_elem_of_cons in Hk as [Hn Hk].
  destruct (k <? k'); [done|]. rewrite (proj2 (Z.eqb_neq k k')) by done. rewrite IH by done. apply perm_swap.
Qed.
Lemma sum_weights_perm l l' : l ≡ₚ l' → sum_weights l = sum_weights l'.
Proof. intros H. unfold sum_weights. induction H; cbn; lia. Qed.

Lemma scale_bounds most v : 0 ≤ v ≤ most → most ≤ uint64_max → 1 ≤ scale most v ≤ weight_max.
Proof.
  intros Hv Hm. unfold scale, weight_max. set (sh := Z.max _ 0). assert (0 ≤ sh) by lia. split; [lia|].
  apply Z.max_lub; [|lia]. rewrite Z.shiftr_div_pow2 by done. apply Z.lt_succ_r, Z.div_lt_upper_bound; [lia|].
  destruct (decide (most = 0)) as [->|]; [assert (0 < 2 ^ sh) by lia; lia|].
  pose proof (Z.log2_spec most ltac:(lia)) as [_ Hl]. change (Z.succ 65535) with (2 ^ 16). rewrite <- Z.pow_add_r by lia.
  assert (2 ^ Z.succ (Z.log2 most) ≤ 2 ^ (sh + 16)) by (apply Z.pow_le_mono_r; lia). lia.
Qed.

Section counter_theorems.
Context `{MB : FindMsb}.

(** The counter after the votes [l], all of them at most the greatest, [most]. *)
Definition counted (most : Z) (l : list (Z * Z)) (vc : vote_counter) : Prop :=
  bitshift vc = Z.max (Z.log2 most - 15) 0 ∧ total_votes vc = sum_weights (account_auths (vc_auth vc)) ∧
  account_auths (vc_auth vc) ≡ₚ prod_map id (scale most) <$> l ∧
  key_auths (vc_auth vc) = [] ∧ address_auths (vc_auth vc) = [].

Lemma sum_scaled most l :
  most ≤ uint64_max → Forall (λ x, 0 ≤ x.2 ≤ most) l →
  0 ≤ sum_weights (prod_map id (scale most) <$> l) ≤ Z.of_nat (length l) * weight_max.
Proof.
  intros Hm. unfold sum_weights. induction 1 as [|[k v] l Hv _ IH]; cbn; [lia|].
  pose proof (scale_bounds most v Hv Hm). cbn in IH. lia.
Qed.

Lemma vc_add_zero who vc : vc_add who 0 vc = Ok vc.
Proof. done. Qed.
Lemma vc_add_counted most done who v vc :
  most ≤ uint64_max → 0 < v ≤ last_votes vc → v ≤ most → counted most done vc →
  Forall (λ x, 0 ≤ x.2 ≤ most) done → who ∉ done.*1 → Z.of_nat (S (length done)) * weight_max ≤ uint32_max →
  ∃ vc', vc_add who v vc = Ok vc' ∧ counted most ((who, v) :: done) vc' ∧ last_votes vc' = v.
Proof.
  intros Hm Hv Hvm (C1 & C2 & C3 & C4 & C5) Hd Hwho Hlen. unfold vc_add.
  rewrite (proj2 (Z.eqb_neq v 0)), (proj2 (Z.leb_le v _)) by lia. cbn [hard_assert mbind result_bind].
  rewrite (proj2 (Z.eqb_neq (bitshift vc) (-1))) by lia. cbn [mbind result_bind]. rewrite C1. fold (scale most v).
  pose proof (scale_bounds most v ltac:(lia) Hm) as Hs. rewrite (proj2 (Z.leb_le _ weight_max)) by lia.
  cbn [hard_assert mbind result_bind]. pose proof (sum_scaled most done Hm Hd) as Hsum.
  assert (total_votes vc = sum_weights (prod_map id (scale most) <$> done)) as Ht
    by (rewrite C2; by apply sum_weights_perm).
  assert (u64 (total_votes vc + scale most v) = total_votes vc + scale most v) as Hu.
  { unfold u64. apply Z.mod_small. unfold_widths. unfold weight_max in *. lia. }
  rewrite Hu, (proj2 (Z.leb_le _ uint32_max)) by lia. cbn [hard_assert mbind result_bind].
  assert (u16 (scale most v) = scale most v) as -> by (unfold u16, weight_max in *; apply Z.mod_small; lia).
  eexists. split; [done|]. split; [|done].
  unfold counted. cbn [bitshift total_votes vc_auth add_authority account_auths key_auths address_auths].
  assert (who ∉ (account_auths (vc_auth vc)).*1) as Hk.
  { rewrite C3, <- list_fmap_compose. done. }
  split_and!; try done.
  - rewrite (sum_weights_perm _ _ (put_auth_perm who _ _ Hk)). unfold sum_weights at 1. cbn. fold (sum_weights (account_auths (vc_auth vc))). lia.
  - by rewrite put_auth_perm, C3.
Qed.

Lemma vc_add_first who v :
  0 < v ≤ uint64_max → ∃ vc, vc_add who v new_counter = Ok vc ∧ counted v [(who, v)] vc ∧ last_votes vc = v.
Proof.
  intros Hv. unfold vc_add. rewrite (proj2 (Z.eqb_neq v 0)), (proj2 (Z.leb_le v _)) by (cbn; lia).
  cbn [hard_assert mbind result_bind new_counter bitshift total_votes]. rewrite (proj2 (Z.eqb_eq (-1) (-1))) by done.
  rewrite find_msb_spec by done. cbn [mbind result_bind]. fold (scale v v).
  pose proof (scale_bounds v v ltac:(lia) (proj2 Hv)) as Hs. unfold weight_max in Hs.
  rewrite (proj2 (Z.leb_le _ weight_max)) by (unfold weight_max; lia). cbn [hard_assert mbind result_bind].
  assert (u64 (0 + scale v v) = scale v v) as -> by (unfold u64; rewrite Z.mod_small; lia).
  rewrite (proj2 (Z.leb_le _ uint32_max)) by (unfold_widths; lia). cbn [hard_assert mbind result_bind].
  assert (u16 (scale v v) = scale v v) as -> by (unfold u16; apply Z.mod_small; lia).
  eexists. split; [done|]. split; [|done]. unfold counted, sum_weights. cbn. split_and!; try done. lia.
Qed.

Lemma vc_add_all_counted most l : ∀ done vc,
  most ≤ uint64_max → counted most done vc → Forall (λ x, 0 ≤ x.2 ≤ most) done →
  NoDup (l ++ done).*1 → StronglySorted (λ x y, y.2 ≤ x.2) l → Forall (λ x, 0 ≤ x.2 ≤ Z.min most (last_votes vc)) l →
  Z.of_nat (length (l ++ done)) * weight_max ≤ uint32_max →
  ∃ vc', vc_add_all l vc = Ok vc' ∧ counted most (reverse (filter (λ x, x.2 ≠ 0) l) ++ done) vc'.
Proof.
  induction l as [|[who v] l IH]; intros done vc Hm C Hd Hnd Hs Hr Hlen; cbn [vc_add_all]; [by exists vc|].
  apply Forall_cons in Hr as [Hv Hr]. apply StronglySorted_inv in Hs as [Hs Hle]. cbn in Hnd, Hv, Hle.
  apply NoDup_cons in Hnd as [Hnot Hnd]. cbn [app length] in Hlen. rewrite filter_cons. cbn [snd].
  destruct (decide (v = 0)) as [->|Hz].
  - rewrite decide_False by (intros H; by apply H). rewrite vc_add_zero. cbn [mbind result_bind].
    apply IH; try done. unfold weight_max in *. lia.
  - rewrite decide_True by done. rewrite fmap_app in Hnot. apply not_elem_of_app in Hnot as [Hnl Hnot].
    destruct (vc_add_counted most done who v vc) as (vc' & -> & C' & Hlast); try done; try lia.
    { rewrite length_app in Hlen. unfold weight_max in *. lia. }
    cbn [mbind result_bind]. destruct (IH ((who, v) :: done) vc') as (vc2 & -> & C2); try done.
    + constructor; [cbn; lia|done].
    + rewrite fmap_app in *. cbn. apply NoDup_app in Hnd as (N1 & N2 & N3). apply NoDup_app. split; [done|].
      split; [|by constructor]. intros x Hx [->|Hx']%elem_of_cons; [done|]. by apply (N2 x).
    + apply Forall_forall. intros x Hx. eapply Forall_forall in Hr; [|exact Hx]. eapply Forall_forall in Hle; [|exact Hx].
      rewrite Hlast. cbn in *. lia.
    + rewrite length_app in *. cbn. lia.
    + exists vc2. split; [done|]. rewrite reverse_cons, <- app_assoc. exact C2.
Qed.

(** C21: Votes become a majority authority.  Given the votes of different accounts,
    greatest first, no assertion of [vote_counter] fails; every account with votes gets
    the top 16 bits of its votes at the scale of the greatest, and at least one, as its
    weight, the weights fit their type, and any accounts reach the threshold exactly
    when they have more than half of all the weight.  Without votes the authority
    stays as it was. *)
Theorem vote_counter_majority l out :
  NoDup l.*1 → StronglySorted (λ x y, y.2 ≤ x.2) l → Forall (λ x, 0 ≤ x.2 ≤ uint64_max) l →
  Z.of_nat (length l) * weight_max ≤ uint32_max →
  ∃ vc a, vc_add_all l new_counter = Ok vc ∧ finish vc out = Ok a ∧
    let most := match l with [] => 0 | x :: _ => x.2 end in
    let voters := filter (λ x, x.2 ≠ 0) l in
    (voters = [] → a = out) ∧
    (voters ≠ [] →
       account_auths a ≡ₚ prod_map id (scale most) <$> voters ∧ key_auths a = [] ∧ address_auths a = [] ∧
       (∀ k w, (k, w) ∈ account_auths a → 1 ≤ w ≤ weight_max) ∧ wf_authority a ∧
       ∀ weight, weight_threshold a ≤ weight ↔ sum_weights (account_auths a) < 2 * weight).
Proof.
  intros Hnd Hs Hr Hlen. set (most := match l with [] => 0 | x :: _ => x.2 end).
  assert (Forall (λ x, 0 ≤ x.2 ≤ most) l) as Hmost.
  { unfold most. destruct l as [|x l]; [constructor|]. apply StronglySorted_inv in Hs as [_ Hs]. apply Forall_cons in Hr as [Hx Hr].
    constructor; [lia|]. apply Forall_forall. intros y Hy. eapply Forall_forall in Hs; [|exact Hy].
    eapply Forall_forall in Hr; [|exact Hy]. cbn in *. lia. }
  assert (0 ≤ most ≤ uint64_max) as Hm by (unfold most; destruct l; [by vm_compute|]; by apply Forall_cons in Hr as [? _]).
  assert (Forall (λ x, x.2 = 0) l ∧ vc_add_all l new_counter = Ok new_counter ∨
    ∃ vc, vc_add_all l new_counter = Ok vc ∧ 0 < most ∧ counted most (reverse (filter (λ x, x.2 ≠ 0) l)) vc ∧
      filter (λ x, x.2 ≠ 0) l ≠ []) as [[Hz E]|(vc & E & Hpos & (C1 & C2 & C3 & C4 & C5) & Hne)].
  { destruct l as [|[who v] l]; [by left|]. destruct (decide (v = 0)) as [->|Hv].
    - left. assert (Forall (λ x, x.2 = 0) ((who, 0) :: l)) as Hz.
      { apply Forall_forall. intros x Hx. eapply Forall_forall in Hmost; [|exact Hx]. unfold most in Hmost. cbn in Hmost. lia. }
      split; [done|]. clear -Hz. induction Hz as [|[k w] l' Hw _ IH]; [done|]. cbn in Hw. subst w.
      cbn [vc_add_all]. rewrite vc_add_zero. exact IH.
    - right. unfold most in *. cbn in Hm. destruct (vc_add_first who v) as (vc & Ev & C & Hl); [lia|]. cbn [vc_add_all].
      rewrite Ev. cbn [mbind result_bind]. apply NoDup_cons in Hnd as [Hnot Hnd]. apply StronglySorted_inv in Hs as [Hs Hle].
      destruct (vc_add_all_counted v l [(who, v)] vc) as (vc' & E' & C'); try done; [lia| | | | |].
      + constructor; [cbn; lia|done].
      + rewrite fmap_app. apply NoDup_app. split; [done|]. split; [|apply NoDup_singleton]. intros x Hx ->%list_elem_of_singleton. done.
      + apply Forall_cons in Hmost as [_ Hmost]. rewrite Hl, Z.min_id. exact Hmost.
      + rewrite length_app. cbn [length] in *. lia.
      + exists vc'. split; [done|]. rewrite filter_cons, decide_True by done. split_and!; [cbn; lia| |done].
        rewrite reverse_cons. exact C'. }
  - assert (filter (λ x, x.2 ≠ 0) l = []) as Hnone.
    { clear -Hz. induction Hz as [|x l Hx _ IH]; [done|]. rewrite filter_cons, decide_False; [done|]. intros H. by apply H. }
    exists new_counter, out. rewrite Hnone. by split_and!.
  - assert (account_auths (vc_auth vc) ≡ₚ prod_map id (scale most) <$> filter (λ x, x.2 ≠ 0) l) as P by by rewrite C3, reverse_Permutation.
    assert (Forall (λ x, 0 ≤ x.2 ≤ most) (filter (λ x, x.2 ≠ 0) l)) as Hf.
    { apply Forall_forall. intros x [_ Hx]%list_elem_of_filter. by eapply Forall_forall in Hmost. }
    pose proof (sum_scaled most _ (proj2 Hm) Hf) as Hsum. rewrite <- (sum_weights_perm _ _ P), <- C2 in Hsum.
    pose proof (length_filter (λ x : Z * Z, x.2 ≠ 0) l) as Hfl.
    assert (total_votes vc ≤ uint32_max) as Ht by (unfold weight_max in *; lia).
    assert (∀ k w, (k, w) ∈ account_auths (vc_auth vc) → 1 ≤ w ≤ weight_max) as Hw.
    { intros k w Hk. rewrite P in Hk. apply list_elem_of_fmap in Hk as ([k' v] & [= -> ->] & Hk).
      eapply Forall_forall in Hf; [|exact Hk]. apply scale_bounds; [exact Hf|lia]. }
    assert (total_votes vc ≠ 0) as Hnz.
    { rewrite C2, (sum_weights_perm _ _ P). destruct (filter _ l) as [|[k v] l'] eqn:El; [done|].
      apply Forall_cons in Hf as [Hv Hf']. pose proof (sum_scaled most l' (proj2 Hm) Hf') as H1.
      pose proof (scale_bounds most v Hv (proj2 Hm)). unfold sum_weights in *. cbn in *. lia. }
    exists vc, (set_threshold (Z.shiftr (total_votes vc) 1 + 1) (vc_auth vc)). split; [done|].
    unfold finish. rewrite (proj2 (Z.eqb_neq _ 0)), (proj2 (Z.leb_le _ uint32_max)) by done.
    split; [done|]. split; [intros H; by rewrite H in Hne|]. intros _.
    cbn [set_threshold account_auths key_auths address_auths weight_threshold]. split_and!; [done|done|done|exact Hw| |].
    + unfold wf_authority, wf_weights. cbn [set_threshold account_auths key_auths address_auths]. rewrite C4, C5.
      split; [done|]. split; [done|]. split; [|change (sum_weights []) with 0; lia]. apply Forall_forall. intros [k w] Hk. apply Hw in Hk. cbn. lia.
    + intros weight. rewrite <- C2, Z.shiftr_div_pow2 by lia. change (2 ^ 1) with 2.
      pose proof (Z.div_mod (total_votes vc) 2). pose proof (Z.mod_pos_bound (total_votes vc) 2). lia.
Qed.

End counter_theorems.

(** ** The candidates with the most votes *)
Definition preferred (a b : candidate) : Prop :=
  share_of_u64 (cand_votes b) < share_of_u64 (cand_votes a) ∨
  share_of_u64 (cand_votes a) = share_of_u64 (cand_votes b) ∧ vote_instance (cand_vote_id a) ≤ vote_instance (cand_vote_id b).
Lemma more_votes_false a b : more_votes b a = false ↔ preferred a.2 b.2.
Proof.
  unfold more_votes, preferred. destruct (Z.eqb_spec (share_of_u64 (cand_votes b.2)) (share_of_u64 (cand_votes a.2))) as [->|Hn];
    cbn [negb]; [rewrite Z.ltb_ge|rewrite Z.gtb_ltb, Z.ltb_ge]; lia.
Qed.
Lemma in_order_perm {V} before (l : list (Z * V)) : in_order before l ≡ₚ l.
Proof. apply merge_sort_Permutation. Qed.
Lemma strongly_sorted_impl {A} (R R' : relation A) l :
  (∀ x y, R x y → R' x y) → StronglySorted R l → StronglySorted R' l.
Proof. intros H. induction 1 as [|x l _ IH Hf]; constructor; [done|]. eapply Forall_impl; [exact Hf|auto]. Qed.
Lemma by_votes_sorted l : StronglySorted (λ x y, preferred x.2 y.2) (in_order more_votes l).
Proof.
  assert (Sorted (not_after more_votes) (in_order more_votes l)) as Hs.
  { apply Sorted_merge_sort. intros x y. unfold not_after. rewrite !more_votes_false. unfold preferred. lia. }
  apply Sorted_StronglySorted in Hs.
  - eapply strongly_sorted_impl; [|exact Hs]. intros x y. apply more_votes_false.
  - intros x y z. unfold not_after. rewrite !more_votes_false. unfold preferred. lia.
Qed.
Lemma sorted_split {A} (R : relation A) n l :
  StronglySorted R l → StronglySorted R (take n l) ∧ ∀ x y, x ∈ take n l → y ∈ drop n l → R x y.
Proof.
  intros Hs. rewrite <- (take_drop n l) in Hs. apply StronglySorted_app in Hs as (H & H1 & _). split; [done|].
  intros x y Hx Hy. by apply H.
Qed.

Lemma candidates_Ok t l : ∀ cs, candidates t l = Ok cs →
  cs.*1 = l.*1 ∧ ∀ i c, (i, c) ∈ cs ↔
    (i, (cand_account c, cand_vote_id c)) ∈ l ∧ votes_of t (cand_vote_id c) = Ok (cand_votes c).
Proof.
  induction l as [|[i [a v]] l IH]; intros cs E; cbn [candidates] in E; [injection E as <-; split; [done|intros i c; rewrite !elem_of_nil; tauto]|].
  apply result_bind_Ok in E as (n & En & E). apply result_bind_Ok in E as (cs' & E' & [= <-]).
  destruct (IH _ E') as [H1 H2]. split; [cbn; by rewrite H1|]. intros j c. rewrite !elem_of_cons, H2. split.
  - intros [[= -> ->]|[? ?]]; cbn; auto.
  - intros [[[= -> Ha Hv]|?] Hc]; [left|auto]. rewrite Hv, En in Hc. injection Hc as ->. destruct c. cbn in *. congruence.
Qed.

Lemma sort_votable_Ok count l r :
  0 ≤ count → sort_votable_objects count l = Ok r →
  ∃ rest, r ++ rest ≡ₚ l ∧ Z.of_nat (length r) = Z.min count (Z.of_nat (length l)) ∧
    StronglySorted (λ x y, preferred x.2 y.2) r ∧ ∀ x y, x ∈ r → y ∈ rest → preferred x.2 y.2.
Proof.
  intros Hc E. unfold sort_votable_objects in E. destruct l as [|x l0] eqn:El; [done|]. rewrite <- El in *. clear El.
  injection E as <-. set (n := Z.to_nat _). exists (drop n (in_order more_votes l)).
  rewrite take_drop. split; [apply in_order_perm|].
  destruct (sorted_split _ n _ (by_votes_sorted l)) as [H1 H2]. split; [|by split].
  rewrite length_take, (Permutation_length (in_order_perm more_votes l)). lia.
Qed.

(** The count is the least at which more than half of the stake with an opinion is
    satisfied, or all of the histogram. *)
Section count.
Context `{EX : Ext}.
Definition sum_shares (l : list Z) : Z := foldr Z.add 0 (share_of_u64 <$> l).
Lemma count_loop_Ok hist : ∀ count tally target c,
  count_loop hist count tally target = Ok c →
  count ≤ c ≤ count + Z.of_nat (length hist) ∧
  (∀ k, 0 ≤ k < c - count → tally + sum_shares (take (Z.to_nat k) hist) ≤ target) ∧
  (c = count + Z.of_nat (length hist) ∨ target < tally + sum_shares (take (Z.to_nat (c - count)) hist)).
Proof.
  induction hist as [|h hist IH]; intros count tally target c E; cbn [count_loop] in E.
  - injection E as <-. cbn. split_and!; [lia..| |lia]. intros k Hk. lia.
  - destruct (tally <=? target) eqn:Ht; bool_to_prop.
    + apply result_bind_Ok in E as (t2 & E2 & E). apply IH in E as (H1 & H2 & H3). safe_inv.
      assert (∀ k, 0 < k → sum_shares (take (Z.to_nat k) (h :: hist)) = share_of_u64 h + sum_shares (take (Z.to_nat (k - 1)) hist)) as Hs.
      { intros k Hk. replace (Z.to_nat k) with (S (Z.to_nat (k - 1))) by lia. done. }
      cbn [length]. split; [lia|]. split.
      * intros k Hk. destruct (decide (k = 0)) as [->|]; [change (sum_shares (take (Z.to_nat 0) (h :: hist))) with 0; lia|]. rewrite Hs by lia.
        specialize (H2 (k - 1) ltac:(lia)). lia.
      * destruct H3 as [H3|H3]; [left; lia|right]. rewrite Hs by lia. replace (c - count - 1) with (c - (count + 1)) by lia. lia.
    + injection E as <-. cbn [length]. split; [lia|]. split; [intros k Hk; lia|right].
      rewrite Z.sub_diag. change (sum_shares (take (Z.to_nat 0) (h :: hist))) with 0. lia.
Qed.

Definition is_wanted_count (hist : list Z) (total c : Z) : Prop :=
  ∃ abstain opinions, hist = abstain :: opinions ∧ 0 ≤ c ≤ Z.of_nat (length opinions) ∧
    let half := share_of_u64 (u64 (total - abstain) / 2) in
    (half ≤ 0 → c = 0) ∧
    (0 < half → (∀ k, 0 ≤ k < c → sum_shares (take (Z.to_nat k) opinions) ≤ half) ∧
       (c = Z.of_nat (length opinions) ∨ half < sum_shares (take (Z.to_nat c) opinions))).
Lemma wanted_count_Ok hist total c : wanted_count hist total = Ok c → is_wanted_count hist total c.
Proof.
  intros E. unfold wanted_count in E. destruct hist as [|abstain opinions]; [done|]. exists abstain, opinions. split; [done|].
  destruct (_ >? 0) eqn:Hg; bool_to_prop.
  - apply count_loop_Ok in E as (H1 & H2 & H3). rewrite Z.sub_0_r in *. split; [lia|]. cbn zeta. split; [lia|]. intros _.
    split; [intros k Hk; specialize (H2 k Hk); lia|]. destruct H3; [left|right]; lia.
  - injection E as <-. split; [lia|]. cbn zeta. split; [done|lia].
Qed.
End count.

(** ** The elected witnesses *)
Section elected.
Context `{EX : Ext} `{MB : FindMsb} (track_standby_votes : bool).

Lemma keeps_update_totals {V} `{Table Z V} `{!Unique V} R `{!PreOrder R} vote_id set_votes t ids :
  (∀ i f, keeps R (modify (V:=V) i f)) → keeps R (update_total_votes (V:=V) vote_id set_votes t ids).
Proof.
  intros Hm. induction ids as [|i ids IH]; cbn [update_total_votes]; [apply (keeps_ret R)|].
  apply (keeps_bind R); [apply Hm|done].
Qed.
Record same_electorate (s s' : database) : Prop := {
  se_accounts : accounts s' = accounts s;
  se_gpo : gpo s' = gpo s;
  se_dgpo : dgpo s' = dgpo s
}.
#[local] Instance same_electorate_preorder : PreOrder same_electorate.
Proof. split; [by intros s|]. intros s1 s2 s3 [] []. split; congruence. Qed.

(** C22: The witnesses with the most votes are elected.  The active witnesses are as many
    as the stake with an opinion asks for: twice plus one the least number that
    satisfies more than half of it, but not fewer than the minimum of the genesis;
    each of them has more votes than every other witness, or as many and an older vote
    id; and the authority of the witness account is the one counted from their votes,
    greatest first. *)
Theorem witnesses_elected t s s' :
  0 ≤ min_witness_count (governance s) →
  update_active_witnesses track_standby_votes t s = Ok (tt, s') →
  ∃ count elected rest a auth,
    is_wanted_count (witness_count_histogram_buffer t) (total_voting_stake t) count ∧
    (∀ i c, (i, c) ∈ elected ++ rest ↔ ∃ w, witnesses s !! i = Some w ∧ cand_account c = witness_account w ∧
       cand_vote_id c = witness_vote_id w ∧ votes_of t (witness_vote_id w) = Ok (cand_votes c)) ∧
    NoDup (elected ++ rest).*1 ∧
    Z.of_nat (length elected) = Z.min (Z.max (count * 2 + 1) (min_witness_count (governance s))) (Z.of_nat (size (witnesses s))) ∧
    (∀ x y, x ∈ elected → y ∈ rest → preferred x.2 y.2) ∧
    active_witnesses (gpo s') ≡ₚ elected.*1 ∧
    StronglySorted (λ x y, preferred x.2 y.2) elected ∧
    accounts s !! GRAPHENE_WITNESS_ACCOUNT = Some a ∧
    elected_authority (time (dgpo s)) (ballot_of elected) (acc_active a) = Ok auth ∧
    accounts s' !! GRAPHENE_WITNESS_ACCOUNT = Some (set_active auth a).
Proof.
  intros Hmin E. unfold update_active_witnesses in E. apply M_bind_Ok in E as (count & s0 & Hc & E).
  apply lift_Ok in Hc as [Hc ->]. bind_step E. apply M_bind_Ok in E as (all & s0 & Ha & E).
  unfold read in Ha. apply lift_Ok in Ha as [Ha ->]. apply M_bind_Ok in E as (wits & s0 & Hw & E).
  apply lift_Ok in Hw as [Hw ->]. bind_step E. apply M_bind_Ok in E as ([] & s1 & Hu & E).
  assert (same_electorate s s1) as [Sa Sg Sd].
  { revert Hu. apply keeps_update_totals; [apply _|]. intros i f. by apply keeps_modify. }
  bind_step E. bind_step E. apply M_bind_Ok in E as ([] & s2 & Hm & E). injection E as <-.
  apply modify_Ok in Hm as (acct & acct' & Hl & Hm & ->). apply result_bind_Ok in Hm as (auth & Hauth & [= <-]).
  apply candidates_Ok in Ha as [Hall Hin]. apply wanted_count_Ok in Hc as Hcount.
  destruct Hcount as (x & y & Ehist & Hrange & Hrest).
  apply sort_votable_Ok in Hw as (rest & Hp & Hlen & Hs & Hpref); [|lia].
  assert (all.*1 = (map_to_list (witnesses s)).*1) as Hids by (rewrite Hall, <- list_fmap_compose; done).
  exists count, wits, rest, acct, auth. split; [by exists x, y|]. cbn in Hl. rewrite Sa in Hl. rewrite Sd in Hauth.
  split_and!; try done.
  - intros i c. rewrite Hp, Hin, list_elem_of_fmap. split.
    + intros (([j w] & [= -> -> ->] & Hj) & Hv). apply elem_of_map_to_list in Hj. by exists w.
    + intros (w & Hw & Hacc & Hid & Hv). split; [|by rewrite Hid]. exists (i, w). cbn.
      split; [by rewrite Hacc, Hid|by apply elem_of_map_to_list].
  - rewrite Hp, Hids. apply NoDup_fst_map_to_list.
  - rewrite Hlen. f_equal. rewrite <- (length_fmap fst all), Hids, length_fmap. by rewrite length_map_to_list.
  - cbn. apply merge_sort_Permutation.
  - cbn. by rewrite lookup_insert_eq.
Qed.

End elected.

(** ** The accounts are looked at once *)
Lemma string_ltb_lt a b : String.ltb a b = true ↔ OrderedTypeEx.String_as_OT.lt a b.
Proof.
  rewrite <- OrderedTypeEx.String_as_OT.cmp_lt. unfold String.ltb, OrderedTypeEx.String_as_OT.cmp.
  destruct (String.compare a b); split; congruence.
Qed.
Lemma string_ltb_irrefl a : String.ltb a a = false.
Proof.
  apply not_true_iff_false. intros H%string_ltb_lt. by apply OrderedTypeEx.String_as_OT.lt_not_eq in H.
Qed.
Lemma string_ltb_trans a b c : String.ltb a b = true → String.ltb b c = true → String.ltb a c = true.
Proof. rewrite !string_ltb_lt. apply OrderedTypeEx.String_as_OT.lt_trans. Qed.

Section account_maintenance.
Context `{EX : Ext}.

Definition names (s : database) : gmap Z String.string := stats_name <$> stats s.
(** The accounts whose name comes after [n]. *)
Definition names_after (n : String.string) (m : gmap Z String.string) : gmap Z String.string :=
  filter (λ x, String.ltb n x.2 = true) m.
Lemma names_after_next n n' i m :
  m !! i = Some n' → String.ltb n n' = true → (size (names_after n' m) < size (names_after n m))%nat.
Proof.
  intros Hi Hn. apply map_subset_size. split.
  - apply map_subseteq_spec. intros j x. unfold names_after. rewrite !map_lookup_filter_Some. intros [Hj Hx].
    split; [done|]. by eapply string_ltb_trans.
  - intros Hs. apply (map_subseteq_spec _ _) with (i := i) (x := n') in Hs.
    + apply map_lookup_filter_Some in Hs as [_ Hs]. cbn in Hs. by rewrite string_ltb_irrefl in Hs.
    + by apply map_lookup_filter_Some.
Qed.
Lemma names_after_lt n i m : m !! i = Some n → (size (names_after n m) < size m)%nat.
Proof.
  intros Hi. apply map_subset_size. split; [apply map_filter_subseteq|]. intros Hs.
  apply (map_subseteq_spec _ _) with (i := i) (x := n) in Hs; [|done].
  apply map_lookup_filter_Some in Hs as [_ Hs]. cbn in Hs. by rewrite string_ltb_irrefl in Hs.
Qed.

Definition same_names (s s' : database) : Prop := names s' = names s.
#[local] Instance same_names_preorder : PreOrder same_names.
Proof. split; [by intros s|]. unfold same_names. intros s1 s2 s3. congruence. Qed.
Lemma names_modify_stats i f :
  (∀ st st', f st = Ok st' → stats_name st' = stats_name st) → keeps same_names (modify (V:=account_statistics_object) i f).
Proof.
  intros Hf. apply keeps_modify. intros s st st' Hst E. unfold same_names, names. cbn in *. rewrite fmap_insert.
  apply insert_id. rewrite lookup_fmap, Hst. cbn. by rewrite (Hf _ _ E).
Qed.
Lemma names_process_fees i : keeps same_names (process_fees i).
Proof.
  assert (∀ a x b, keeps same_names (deposit_cashback a x b)) as Hd.
  { intros a x b. pose proof (names_modify_stats a). unfold deposit_cashback. 
    assert (∀ ov amt vs ty o rv, keeps same_names (deposit_lazy_vesting ov amt vs ty o rv))
      by (intros; apply keeps_deposit_lazy; [apply _|done..]).
    assert (keeps same_names (modify a set_has_cashback_vb)) by (apply names_modify_stats; by intros ? ? [= <-]).
    solve_keeps_with ltac:(done). }
  assert (∀ a x b, keeps same_names (pay_out_fees a x b)) as Hp
    by (intros; unfold pay_out_fees; solve_keeps_with ltac:(done)).
  assert (keeps same_names (modify i clear_pending)).
  { apply names_modify_stats. intros st st' E. unfold clear_pending in E. monad_inv. done. }
  unfold process_fees. solve_keeps_with ltac:(done).
Qed.
Lemma reads_tally_helper g a st t : reads (tally_helper g a st t).
Proof. unfold tally_helper, voting_stake. solve_reads. Qed.

Lemma next_account_Some n s i :
  next_account n s = Some i → ∃ st, stats s !! i = Some st ∧ need_maintenance st = true ∧
    match n with Some n => String.ltb n (stats_name st) = true | None => True end.
Proof.
  unfold next_account. intros E. apply fmap_Some in E as ([j st] & E & ->). apply head_Some_elem_of in E.
  rewrite in_order_perm in E. apply list_elem_of_filter in E as [H E]. apply elem_of_map_to_list in E. exists st.
  apply andb_true_iff in H as [H1 H2]. split_and!; [done|done|]. by destruct n.
Qed.

Lemma bind_same {A B} (m : M database A) (f f' : A → M database B) s :
  (∀ a s', m s = Ok (a, s') → f a s' = f' a s') → (m ≫= f) s = (m ≫= f') s.
Proof. intros H. unfold mbind, M_bind. destruct (m s) as [[a s']|e]; [by apply H|done]. Qed.

Definition enough_fuel (itr : option Z) (n : nat) (s : database) : Prop :=
  match itr with
  | Some i => ∃ x, names s !! i = Some x ∧ (S (size (names_after x (names s))) ≤ n)%nat
  | None => True
  end.
Lemma account_loop_fuel g n : ∀ m itr t s,
  enough_fuel itr n s → (n ≤ m)%nat → account_loop m g itr t s = account_loop n g itr t s.
Proof.
  induction n as [|n IH]; intros m [i|] t s Hn Hm; try (by destruct m); [destruct Hn as (x & _ & ?); lia|].
  destruct m as [|m]; [lia|]. cbn [account_loop]. destruct Hn as (x & Hx & Hn).
  apply bind_same. intros st s0 [-> Hst]%deref_Ok. apply bind_same. intros a s0 [-> _]%get_Ok.
  apply bind_same. intros next s0 [= <- <-]. apply bind_same. intros t' s1 Ht.
  assert (s1 = s) as ->.
  { destruct (has_some_core_voting st); [by apply reads_tally_helper in Ht|by injection Ht as _ <-]. }
  apply bind_same. intros [] s1 Hp. assert (names s1 = names s) as Hnames.
  { destruct (has_pending_fees st); [by eapply names_process_fees|by injection Hp as <-]. }
  apply IH; [|lia]. unfold enough_fuel. destruct (next_account _ s) as [j|] eqn:Ej; [|done].
  apply next_account_Some in Ej as (st' & Hj & _ & Hlt). exists (stats_name st'). rewrite Hnames. unfold names at 1.
  rewrite lookup_fmap, Hj. split; [done|]. unfold names in Hx. rewrite lookup_fmap in Hx. cbn in Hst. rewrite Hst in Hx. injection Hx as <-.
  pose proof (names_after_next (stats_name st) (stats_name st') j (names s)) as Hl. unfold names in Hl at 1.
  rewrite lookup_fmap, Hj in Hl. specialize (Hl eq_refl Hlt). lia.
Qed.

(** Account maintenance looks at every account at most once.  The loop over the
    accounts that vote or have pending fees, in the order of their names, ends within
    as many steps as there are accounts, although paying out fees makes further
    accounts join the ones it goes through. *)
Theorem account_maintenance_ends g t n s :
  (size (stats s) ≤ n)%nat →
  account_loop n g (next_account None s) t s = account_loop (size (stats s)) g (next_account None s) t s.
Proof.
  intros Hn. apply account_loop_fuel; [|done]. unfold enough_fuel. destruct (next_account None s) as [i|] eqn:Ei; [|done].
  apply next_account_Some in Ei as (st & Hi & _). exists (stats_name st). assert (names s !! i = Some (stats_name st)) as Hx
    by (unfold names; by rewrite lookup_fmap, Hi). split; [done|]. apply names_after_lt in Hx.
  unfold names in Hx at 2. rewrite map_size_fmap in Hx. lia.
Qed.
End account_maintenance.

(** *** An election *)
#[export, refine] Instance find_msb_ref : FindMsb :=
  {| find_msb z := if 0 <? z then Ok (Z.log2 z) else Err invalid_argument |}.
Proof. intros z Hz. by rewrite (proj2 (Z.ltb_lt 0 z)) by lia. Defined.

Lemma vote_counter_majority_witness :
  ∃ vc a, vc_add_all [(7, 1000000); (5, 400000); (9, 3); (6, 0)] new_counter = Ok vc ∧
    finish vc (Authority 1 [] [(9, 1)] []) = Ok a ∧
    a = Authority 43751 [(5, 25000); (7, 62500); (9, 1)] [] [] ∧
    (weight_threshold a ≤ 62500 ↔ sum_weights (account_auths a) < 2 * 62500).
Proof.
  destruct (vote_counter_majority [(7, 1000000); (5, 400000); (9, 3); (6, 0)] (Authority 1 [] [(9, 1)] []))
    as (vc & a & E1 & E2 & _ & H).
  - apply (bool_decide_unpack (NoDup [7; 5; 9; 6])). by vm_compute.
  - repeat first [constructor | progress cbn; lia].
  - repeat constructor; by vm_compute.
  - by vm_compute.
  - exists vc, a. split; [exact E1|]. split; [exact E2|]. destruct H as (_ & _ & _ & _ & _ & H); [by vm_compute|].
    split; [|apply H]. clear H. vm_compute in E1. injection E1 as <-. vm_compute in E2. by injection E2 as <-.
Defined.

Definition ex_candidate (account vote_id : Z) : witness_object := WitnessObject account None 0 70 0 0 vote_id 0 String.EmptyString.
Definition ex_tally : tally := Tally [0; 300; 900; 900; 100] [100; 800; 300] [1200] 1200.
Definition ex_election : database :=
  set_witnesses {[ 1 := ex_candidate 17 257; 2 := ex_candidate 18 513; 3 := ex_candidate 19 769; 4 := ex_candidate 20 1025 ]}
  (set_accounts {[ 1 := ex_account 17 ]}
  (set_governance (GovernanceState ∅ ∅ ∅ ∅ ∅ [] 3 3 (IdSequences 20 2 5 0 0 0 0)) ex_chain)).

Lemma witnesses_elected_witness :
  match update_active_witnesses true ex_tally ex_election with
  | Ok (_, s') => active_witnesses (gpo s') = [1; 2; 3] ∧
      acc_active <$> accounts s' !! GRAPHENE_WITNESS_ACCOUNT = Some (Authority 1051 [(17, 300); (18, 900); (19, 900)] [] [])
  | Err _ => False
  end.
Proof.
  destruct (update_active_witnesses true ex_tally ex_election) as [[[] s']|e] eqn:E; [|vm_compute in E; discriminate E].
  destruct (witnesses_elected true ex_tally ex_election s' ltac:(by vm_compute) E)
    as (count & el & rest & a & auth & _ & _ & _ & _ & _ & H1 & _ & _ & _ & H2).
  clear H1 H2. vm_compute in E. injection E as <-. by vm_compute.
Defined.

Lemma account_maintenance_ends_witness :
  account_loop 7 (gpo ex_chain) (next_account None ex_chain) empty_tally ex_chain
  = account_loop (size (stats ex_chain)) (gpo ex_chain) (next_account None ex_chain) empty_tally ex_chain.
Proof. apply (account_maintenance_ends (gpo ex_chain) empty_tally 7 ex_chain). vm_compute. lia. Defined.
