(* ===== verification/Replay.v ===== *)
(** * Operations and the block chain; replayed transactions

    Whatever a transaction does, with the proposals it executes, it changes neither
    the global properties nor the witnesses, the block summaries or the governance
    state, and adds at most itself to the known transactions.  Since a transaction is
    forgotten only when it has expired, it is applied at most once. *)

From S2P Require Import Prelude External Asset Authority Operations Block Vesting State Balance Fill Market Trade.
From S2P Require Import Evaluator MarketOps Ledger Frame OpFrame Proposal Transaction Expire.

Section operations_frame.
Context `{EX : Ext} (hash_of : Z → list Z → Z) (key_addresses : Z → list Z).
Context (nth_element : nth_element_t) (fuel : nat).

Lemma op_evaluate_apply {A} op core (ev : M database A) ap :
  reads ev → (∀ a, keeps op_frame (ap a)) → keeps op_frame (evaluate_apply op core ev ap).
Proof.
  intros Hr Ha. unfold evaluate_apply. pose proof (op_reads _ Hr). pose proof (λ f n, op_plain _ (plain_convert_fee f n)).
  solve_op.
Qed.

Lemma op_proposal_create op account ops ex r : keeps op_frame (proposal_create_apply op account ops ex r).
Proof. unfold proposal_create_apply. destruct (visit_1479 op (0, 0)). solve_op. Qed.
Lemma op_proposal_update push i aa ar oa or ka kr :
  keeps op_frame (push i) → keeps op_frame (proposal_update_apply key_addresses push i aa ar oa or ka kr).
Proof.
  intros Hp. unfold proposal_update_apply. pose proof (λ p, op_reads _ (authorized_reads key_addresses p)).
  assert (∀ e, keeps op_frame (modify i (λ p, Ok (set_fail_reason e p)))) as Hf by (intros e; solve_op).
  pose proof (keeps_try op_frame (push i) _ Hp Hf). solve_op.
Qed.
Lemma op_push_proposal f d i : (∀ op, keeps op_frame (f op)) → keeps op_frame (push_proposal f d i).
Proof.
  intros Hf. unfold push_proposal.
  assert (∀ ops, keeps op_frame (apply_each f ops)) by (intros ops; apply keeps_apply_each; [apply _|by apply Forall_true]).
  solve_op.
Qed.

Lemma op_evaluate_operation push op core :
  (∀ i, keeps op_frame (push i)) →
  keeps op_frame (evaluate_operation hash_of key_addresses nth_element fuel push op core).
Proof.
  intros Hp. destruct reads_market_checks as (R1 & R2 & R3 & R4 & R5 & R6 & R7).
  destruct reads_proposal_checks as (P1 & P2 & P3). unfold evaluate_operation.
  destruct (ledger_evaluator hash_of key_addresses op) as [[ev ap]|] eqn:El.
  { apply op_evaluate_apply; [by eapply ledger_reads|]. intros. eapply op_plain. by eapply plain_ledger. }
  pose proof op_proposal_create. pose proof op_proposal_update.
  destruct op; try apply keeps_throw;
    try (apply op_evaluate_apply; [by auto|]; intros; unfold proposal_delete_apply; solve_op).
  apply keeps_bind; [apply _|by apply op_reads|]. intros _. solve_op.
Qed.

Lemma op_apply_nested n : ∀ d sk op, keeps op_frame (apply_nested hash_of key_addresses nth_element fuel n d sk op).
Proof.
  induction n as [|n IH]; intros d sk op; cbn [apply_nested]; [apply keeps_throw|].
  pose proof (λ d i, op_push_proposal _ d i (IH (d + 1) false)) as Hp.
  pose proof (λ push op core H, op_evaluate_operation push op core H). unfold start_evaluate, set_applied_operation_result.
  solve_op. all: intros s [] s' [= <-]; by split.
Qed.
Lemma op_apply_operation d sk op : keeps op_frame (apply_operation hash_of key_addresses nth_element fuel d sk op).
Proof. intros s r s' E. by eapply op_apply_nested. Qed.
Lemma op_apply_operations ops : keeps op_frame (apply_operations hash_of key_addresses nth_element fuel ops).
Proof. apply keeps_apply_each; [apply _|]. apply Forall_true. apply op_apply_operation. Qed.

End operations_frame.
