(* ===== verification/Maintenance.v ===== *)
(** * Chain maintenance: chain/db_maint.cpp, chain/fba_object.cpp

    [perform_chain_maintenance]: the distribution of the fees of fee-backed assets, the
    votes and elections of [Election], pending parameters, the time of the next
    maintenance, the one-time changes of the hard forks, the bids on settled assets and
    the budget of [Budget]; and what all of it leaves alone: the head, the known
    transactions, the proposals, and the books.

    Two loops run operations in a [try] block without an undo session, so a failing one
    may leave half of its changes behind, which the error monad cannot express.  The
    class [CaughtOperations] leaves open what it leaves: a buyback that does not fail
    is [buyback_order]; the upgrade of annual members, a one-time change of a hard fork,
    is open in any case.  The loops around them are not. *)

From S2P Require Import Prelude External Asset Authority Operations Block Vesting State Balance Fill Market Trade.
From S2P Require Import Evaluator MarketOps Ledger Frame OpFrame Proposal Transaction Expire ExpireBooks Budget Election.
From S2P Require Import Replay.

Definition HARDFORK_613_TIME : Z := 1458752400.
Definition HARDFORK_CORE_518_TIME : Z := 1532008920.
Definition HARDFORK_CORE_868_890_TIME : Z := 1532008920.
Definition HARDFORK_CORE_935_TIME : Z := 1532008920.
Definition HARDFORK_CORE_1465_TIME : Z := 1556028120.
Definition GRAPHENE_1_PERCENT : Z := GRAPHENE_100_PERCENT / 100.
Definition fba_accumulator_id_transfer_to_blind : Z := 0.
Definition fba_accumulator_id_blind_transfer : Z := 1.
Definition fba_accumulator_id_transfer_from_blind : Z := 2.

(** What the blocks after it see of the chain. *)
Record chain_frame (s s' : database) : Prop := {
  cf_id : head_block_id (dgpo s') = head_block_id (dgpo s);
  cf_num : head_block_number (dgpo s') = head_block_number (dgpo s);
  cf_time : time (dgpo s') = time (dgpo s);
  cf_transactions : transactions s' = transactions s
}.
#[export] Instance chain_frame_preorder : PreOrder chain_frame.
Proof. split; [by intros s|]. intros s1 s2 s3 [] []. split; congruence. Qed.

(** ** The operations in [try] blocks *)
Section caught_operations.
Context `{EX : Ext} (hash_of : Z → list Z → Z) (key_addresses : Z → list Z).
Context (nth_element : nth_element_t) (fuel : nat).

(** The body of the [try] block of [create_buyback_orders]: an order that sells a whole
    balance at any price, and what remains of it is cancelled. *)
Definition buyback_order (acct : Z) (to_sell : asset) (to_buy : Z) : M database unit :=
  r ← apply_operation hash_of key_addresses nth_element fuel 0 true
        (limit_order_create_operation (Asset 0 CORE) acct to_sell (Asset 1 to_buy) uint32_max false);
  match r with
  | object_id_result order_id =>
      order ← find (V:=limit_order_object) order_id;
      match order with
      | Some _ =>
          apply_operation hash_of key_addresses nth_element fuel 0 true
            (limit_order_cancel_op (Asset 0 CORE) acct order_id);;
          mret tt
      | None => mret tt
      end
  | _ => throw assert_exception
  end.

(** A [try] block.  When its body does not throw, or throws what the handler does not
    catch, the block does the same; what a caught failure has left behind is open, but
    for what no operation changes. *)
Class CaughtOperations := {
  try_buyback : Z → asset → Z → M database unit;
  try_upgrade : Z → M database unit;
  buyback_done acct sell buy s s' :
    buyback_order acct sell buy s = Ok (tt, s') → try_buyback acct sell buy s = Ok (tt, s');
  buyback_thrown acct sell buy s e :
    buyback_order acct sell buy s = Err e → caught e = false → try_buyback acct sell buy s = Err e;
  buyback_frame acct sell buy : keeps chain_frame (try_buyback acct sell buy);
  upgrade_frame acct : keeps chain_frame (try_upgrade acct)
}.

Lemma op_chain {A} (m : M database A) : keeps op_frame m → keeps chain_frame m.
Proof. intros H s r s' E. destruct (H _ _ _ E) as [_ Hd _ _ Ht _ _]. split; congruence. Qed.
Lemma chain_buyback_order acct sell buy : keeps chain_frame (buyback_order acct sell buy).
Proof.
  apply op_chain. unfold buyback_order. apply keeps_bind; [apply _|apply op_apply_operation|].
  intros []; try apply keeps_throw. apply keeps_bind; [apply _|by apply keeps_find, _|].
  intros []; [|apply keeps_ret; apply _]. apply keeps_bind; [apply _|apply op_apply_operation|].
  intros ?. apply keeps_ret. apply _.
Qed.
End caught_operations.
#[global] Arguments try_buyback {_ _ _ _ _ _} _ _ _.
#[global] Arguments try_upgrade {_ _ _ _ _ _} _.
#[global] Arguments buyback_frame {_ _ _ _ _ _} _ _ _.
#[global] Arguments upgrade_frame {_ _ _ _ _ _} _.

(** ** Changes of objects *)
Definition set_fba_fees (x : Z) (f : fba_accumulator_object) : fba_accumulator_object :=
  FbaAccumulator x (designated_asset f).
Definition set_call_price (p : price) (c : call_order_object) : call_order_object :=
  CallOrder (borrower c) (collateral c) (debt c) p (target_collateral_ratio c).
Definition set_max_supply (x : Z) (a : asset_object) : asset_object :=
  let o := ao_options a in
  AssetObject (issuer a)
    (AssetOptions x (market_fee_percent o) (max_market_fee o) (issuer_permissions o) (flags o)
       (ao_core_exchange_rate o) (whitelist_authorities o) (blacklist_authorities o) (whitelist_markets o)
       (blacklist_markets o) (reward_percent o) (whitelist_market_fee_sharing o) (description o))
    (bitasset_data_valid a) (buyback_account a) (symbol a) (precision a).
Definition set_parameters (p : chain_parameters) (pending : option chain_parameters) (g : global_property_object)
    : global_property_object :=
  GlobalProperties p (active_witnesses g) pending (next_available_vote_id g) (active_committee_members g).
Definition set_op_fees (x : gmap Z fee_parameters) (p : chain_parameters) : chain_parameters :=
  ChainParameters x (fee_scale p) (block_interval p) (maximum_block_size p) (maintenance_interval p)
    (maintenance_skip_slots p) (cashback_vesting_period_seconds p) (cashback_vesting_threshold p)
    (witness_pay_per_block p) (witness_pay_vesting_seconds p) (reserve_percent_of_fee p) (updatable_htlc_options p)
    (maximum_time_until_expiration p) (maximum_transaction_size p) (max_authority_depth p)
    (maximum_proposal_lifetime p) (committee_proposal_review_period p) (worker_budget_per_day p)
    (maximum_witness_count p) (maximum_committee_count p) (count_non_member_votes p) (accounts_per_fee_scale p)
    (account_fee_scale_bitshifts p) (maximum_authority_membership p) (network_percent_of_fee p)
    (lifetime_referrer_percent_of_fee p) (allow_non_member_whitelists p) (maximum_asset_whitelist_authorities p)
    (maximum_asset_feed_publishers p).
Definition set_next_maintenance (t : Z) (d : dynamic_global_property_object) : dynamic_global_property_object :=
  DynamicGlobalProperties (head_block_number d) (head_block_id d) (time d) (current_witness d) t (witness_budget d)
    (recently_missed_count d) (current_aslot d) (recent_slots_filled d) (dynamic_flags d)
    (last_irreversible_block_num d) 0 (last_budget_time d).

(** [for( i : l ) f( i );]. *)
Fixpoint each {A} (f : A → M database unit) (l : list A) : M database unit :=
  match l with [] => mret tt | x :: l => f x;; each f l end.
(** The market-issued assets in the order of their ids. *)
Definition market_issued (s : database) : list Z :=
  ids_of (filter (λ x : Z * asset_object, is_market_issued x.2 = true) (assets s)).

Section maintenance.
Context `{EX : Ext} `{SR : ShiftRight} `{MB : FindMsb}.
Context {hash_of : Z → list Z → Z} {key_addresses : Z → list Z}.
Context (nth_element : nth_element_t) (fuel : nat) (track_standby_votes : bool).
Context {CO : CaughtOperations hash_of key_addresses nth_element fuel}.

(** ** Fee-backed assets *)
Definition is_configured (f : fba_accumulator_object) : M database bool :=
  match designated_asset f with
  | None => mret false
  | Some d =>
      dasset ← find (V:=asset_object) d;
      match dasset with
      | None => mret false
      | Some a =>
          let opts := ao_options a in
          if is_market_issued a then mret false
          else if negb (Z.land (issuer_permissions opts) charge_market_fee =? issuer_permissions opts) then mret false
          else if negb (Z.land (flags opts) charge_market_fee =? flags opts) then mret false
          else match buyback_account a with
               | None => mret false
               | Some _ =>
                   issuer_acct ← get (V:=account_object) (issuer a);
                   match owner_special_authority issuer_acct, active_special_authority issuer_acct with
                   | top_holders_special_authority x _, top_holders_special_authority y _ =>
                       mret ((x =? d) && (y =? d) && (top_n_control_flags issuer_acct =? Z.lor 1 2))
                   | _, _ => mret false
                   end
               end
      end
  end.

Definition fba_cut (fees pct : Z) : Z := u128_to_int64 (u128_div (u128_mul (u128_of fees) pct) GRAPHENE_100_PERCENT).
Definition pay_fba (account fba_id x : Z) : M database unit :=
  when (negb (x =? 0))
    (adjust_balance account (Asset x CORE);; push_applied_operation (fba_distribute_operation account fba_id x)).
Definition split_fba_balance (fba_id network_pct buyback_pct issuer_pct : Z) : M database unit :=
  assert_that (network_pct + buyback_pct + issuer_pct =? GRAPHENE_100_PERCENT);;
  fba ← get (V:=fba_accumulator_object) fba_id;
  let fees := accumulated_fba_fees fba in
  if fees =? 0 then mret tt
  else
    configured ← is_configured fba;
    if negb configured then
      modify (V:=asset_dynamic_data_object) CORE (sub_supply fees);;
      modify fba_id (λ f, Ok (set_fba_fees 0 f))
    else
      let buyback_amount := fba_cut fees buyback_pct in
      let issuer_amount := fba_cut fees issuer_pct in
      paid ← lift (safe_add buyback_amount issuer_amount);
      assert_that (paid <=? fees);;
      network_amount ← lift (safe_sub fees paid);
      d ← lift (from_option_r undefined_behaviour (designated_asset fba));
      a ← get (V:=asset_object) d;
      when (negb (network_amount =? 0)) (modify (V:=asset_dynamic_data_object) CORE (sub_supply network_amount));;
      buyback ← lift (from_option_r undefined_behaviour (buyback_account a));
      pay_fba buyback fba_id buyback_amount;;
      pay_fba (issuer a) fba_id issuer_amount;;
      modify fba_id (λ f, Ok (set_fba_fees 0 f)).
Definition distribute_fba_balances : M database unit :=
  let P := GRAPHENE_1_PERCENT in
  split_fba_balance fba_accumulator_id_transfer_to_blind (20 * P) (60 * P) (20 * P);;
  split_fba_balance fba_accumulator_id_blind_transfer (20 * P) (60 * P) (20 * P);;
  split_fba_balance fba_accumulator_id_transfer_from_blind (20 * P) (60 * P) (20 * P).

(** ** Buyback orders and annual members *)

(** The next entry of the account's balances, in the order of their assets. *)
Definition next_holding (acct : Z) (after : option Z) (s : database) : option (Z * account_balance_object) :=
  head (in_order (λ a b, a.1 <? b.1)
    ((λ x : Z * Z * account_balance_object, (x.1.2, x.2)) <$>
     filter (λ x : Z * Z * account_balance_object,
       (x.1.1 =? acct) && match after with Some a => a <? x.1.2 | None => true end = true) (map_to_list (balances s)))).
Fixpoint sell_holdings (n : nat) (acct to_buy : Z) (allowed : gset Z) (after : option Z) : M database unit :=
  entry ← gets (next_holding acct after);
  match entry with
  | None => mret tt
  | Some (a, b) =>
      match n with
      | O => throw out_of_fuel
      | S n =>
          when (negb (a =? to_buy) && negb (balance b =? 0) && bool_decide (a ∈ allowed))
            (try_buyback acct (Asset (balance b) a) to_buy);;
          sell_holdings n acct to_buy allowed (Some a)
      end
  end.
Definition buy_back (asset_to_buy : Z) : M database unit :=
  a ← get (V:=asset_object) asset_to_buy;
  acct ← lift (from_option_r undefined_behaviour (buyback_account a));
  account ← get (V:=account_object) acct;
  match allowed_assets account with
  | None => mret tt
  | Some allowed => sell_holdings fuel acct asset_to_buy allowed None
  end.
Definition create_buyback_orders : M database unit :=
  l ← gets (λ s, in_order (λ a b, a.1 <? b.1) (map_to_list (buybacks (governance s))));
  each buy_back l.*2.

Definition is_annual_member (a : account_object) (now : Z) : bool :=
  negb (membership_expiration_date a =? uint32_max) && negb (is_basic_account a now).
Definition deprecate_annual_member (now acct : Z) : M database unit :=
  a ← deref (V:=account_object) acct; when (is_annual_member a now) (try_upgrade acct).
Definition deprecate_annual_members : M database unit :=
  now ← head_block_time; ids ← gets (λ s, ids_of (accounts s)); each (deprecate_annual_member now) ids.

(** ** Bids on settled assets *)
Definition debt_in_bid (b : collateral_bid_object) (supply : Z) : asset :=
  let debt := quote (inv_swan_price b) in
  if amount debt >? supply then Asset supply (asset_id debt) else debt.
(** The bids that cover the supply, and how much they cover. *)
Fixpoint covering_bids (bad : asset_bitasset_data_object) (supply : Z) (ids : list Z) (covered : Z)
    : M database (Z * list Z) :=
  match ids with
  | [] => mret (covered, [])
  | i :: ids =>
      if covered <? supply then
        bid ← deref (V:=collateral_bid_object) i;
        let debt := debt_in_bid bid supply in
        total ← lift (asset_mul debt (bad_settlement_price bad));
        total ← lift (asset_add total (base (inv_swan_price bid)));
        cp ← lift (call_price debt total (maintenance_collateral_ratio (current_feed bad)));
        if price_geb (price_inv cp) (settlement_price (current_feed bad)) then mret (covered, [])
        else
          covered ← lift (safe_add covered (amount debt));
          r ← covering_bids bad supply ids covered;
          mret (r.1, i :: r.2)
      else mret (covered, [])
  end.
Fixpoint execute_bids (bad : asset_bitasset_data_object) (supply : Z) (ids : list Z) (to_cover remaining_fund : Z)
    : M database (Z * Z) :=
  match ids with
  | [] => mret (to_cover, remaining_fund)
  | i :: ids =>
      bid ← deref (V:=collateral_bid_object) i;
      let debt := debt_in_bid bid supply in
      collateral ← lift (asset_mul debt (bad_settlement_price bad));
      let '(debt, collateral) := if amount debt >=? to_cover then (to_cover, remaining_fund)
                                 else (amount debt, amount collateral) in
      to_cover ← lift (safe_sub to_cover debt);
      remaining_fund ← lift (safe_sub remaining_fund collateral);
      execute_bid i debt collateral (current_feed bad);;
      execute_bids bad supply ids to_cover remaining_fund
  end.
Definition process_bids (mia : Z) : M database unit :=
  bad ← deref (V:=asset_bitasset_data_object) mia;
  if is_prediction_market bad || price_is_null (settlement_price (current_feed bad)) then mret tt
  else
    zero ← lift (asset_mul (Asset 0 (short_backing_asset (bad_options bad))) (bad_settlement_price bad));
    let to_revive_id := asset_id zero in
    _ ← get (V:=asset_object) to_revive_id;
    bdd ← get (V:=asset_dynamic_data_object) to_revive_id;
    let supply := current_supply bdd in
    hi ← lift (price_max (short_backing_asset (bad_options bad)) to_revive_id);
    ids ← gets (bid_range to_revive_id hi);
    r ← covering_bids bad supply ids 0;
    if r.1 <? supply then mret tt
    else
      left ← execute_bids bad supply r.2 supply (settlement_fund bad);
      assert_that (left.2 =? 0);;
      assert_that (left.1 =? 0);;
      _cancel_bids_and_revive_mpa to_revive_id.

(** ** One-time changes *)
Fixpoint reset_call_prices (ids : list Z) (current : Z) (abd : option asset_bitasset_data_object) : M database unit :=
  match ids with
  | [] => mret tt
  | i :: ids =>
      call ← deref (V:=call_order_object) i;
      abd ← (if negb (current =? debt_type call)
             then a ← get (V:=asset_object) (debt_type call); b ← get_bitasset_data (debt_type call) a; mret (Some b)
             else mret abd);
      match abd with
      | None => mret tt
      | Some bad =>
          when (negb (is_prediction_market bad))
            (modify i (λ c, p ← call_price (get_debt c) (get_collateral c) (maintenance_collateral_ratio (current_feed bad));
                            Ok (set_call_price p c)))
      end;;
      reset_call_prices ids (debt_type call) abd
  end.
Definition update_call_orders_hf_343 : M database unit :=
  l ← gets calls_by_collateral; reset_call_prices l.*1 0 None.
Definition unit_call_price (c : call_order_object) : call_order_object :=
  set_call_price (Price (Asset 1 (asset_id (base (co_call_price c)))) (Asset 1 (asset_id (quote (co_call_price c))))) c.
Definition update_call_orders_hf_1270 : M database unit :=
  ids ← gets (λ s, ids_of (call_orders s)); each (λ i, modify i (λ c, Ok (unit_call_price c))) ids.
Definition match_call_orders : M database unit :=
  ids ← gets market_issued; check_assets fuel ids.
Definition update_all_median_feeds : M database unit :=
  head_time ← head_block_time;
  next_maint_time ← next_maint_time;
  ids ← gets (λ s, ids_of (bitassets s));
  each (λ i, modify i (update_median_feeds nth_element head_time next_maint_time)) ids.

Definition correct_max_supply (mia : Z) : M database unit :=
  a ← deref (V:=asset_object) mia;
  d ← get (V:=asset_dynamic_data_object) mia;
  let m := max_supply (ao_options a) in
  when ((current_supply d >? m) && negb (m =? GRAPHENE_MAX_SHARE_SUPPLY))
    (modify mia (λ a, Ok (set_max_supply (Z.min (current_supply d) GRAPHENE_MAX_SHARE_SUPPLY) a))).
Definition process_hf_1465 : M database unit := ids ← gets market_issued; each correct_max_supply ids.

Definition invalid_feed (fed : bool) (backing : Z) (f : Z * price_feed) : bool :=
  negb (asset_id (quote (settlement_price f.2)) =? backing)
  && (fed || negb (price_eqb (settlement_price f.2) default_price)).
Definition nullify_feed (f : Z * price_feed) : Z * price_feed :=
  (f.1, PriceFeed default_price (core_exchange_rate f.2) (maintenance_collateral_ratio f.2)
          (maximum_short_squeeze_ratio f.2)).
Definition correct_feeds (fed : bool) (b : asset_bitasset_data_object) : asset_bitasset_data_object :=
  let invalid := invalid_feed fed (short_backing_asset (bad_options b)) in
  set_feeds (if fed then filter (λ x : Z * (Z * price_feed), invalid x.2 = false) (feeds b)
             else (λ f, if invalid f then nullify_feed f else f) <$> feeds b) b.
Definition correct_asset_feeds (skip_check_call_orders : bool) (mia : Z) : M database unit :=
  head_time ← head_block_time;
  next_maint_time ← next_maint_time;
  a ← deref (V:=asset_object) mia;
  let fed := negb (Z.land (flags (ao_options a)) (Z.lor witness_fed_asset committee_fed_asset) =? 0) in
  old ← get_bitasset_data mia a;
  modify mia (λ b, Ok (correct_feeds fed b));;
  modify mia (update_median_feeds nth_element head_time next_maint_time);;
  new ← deref (V:=asset_bitasset_data_object) mia;
  when (negb skip_check_call_orders
        && negb (price_eqb (settlement_price (current_feed old)) (settlement_price (current_feed new))))
    (_ ← check_call_orders fuel mia true false; mret tt).
Definition process_hf_868_890 (skip_check_call_orders : bool) : M database unit :=
  ids ← gets market_issued; each (correct_asset_feeds skip_check_call_orders) ids.

(** [changed_something] is only reported. *)
Fixpoint process_hf_935_from (ids : list Z) (changed_something : bool) : M database unit :=
  match ids with
  | [] => mret tt
  | mia :: ids =>
      a ← deref (V:=asset_object) mia;
      before ← (if changed_something then mret false
                else b ← get_bitasset_data mia a; mret (has_settlement b));
      called_some ← check_call_orders fuel mia true false;
      after ← (if changed_something then mret false
               else b ← deref (V:=asset_bitasset_data_object) mia; mret (has_settlement b));
      process_hf_935_from ids (changed_something || negb (eqb before after) || called_some)
  end.
Definition process_hf_935 : M database unit := ids ← gets market_issued; process_hf_935_from ids false.

(** ** Bitassets *)
Definition clear_settled_volume (drop : option Z) (b : asset_bitasset_data_object) : asset_bitasset_data_object :=
  let b := set_force_settled_volume 0 b in
  match drop with
  | Some calculated => set_feeds (filter (λ x : Z * (Z * price_feed), (x.2.1 <? calculated) = false) (feeds b)) b
  | None => b
  end.
Definition process_bitasset (head_time : Z) (mia : Z) : M database unit :=
  b ← deref (V:=asset_bitasset_data_object) mia;
  drop ← (if head_time >=? HARDFORK_CORE_518_TIME then
            a ← get (V:=asset_object) mia;
            let lifetime := feed_lifetime_sec (bad_options b) in
            mret (if negb (Z.land (flags (ao_options a)) (Z.lor witness_fed_asset committee_fed_asset) =? 0)
                     && (lifetime <? head_time)
                  then Some (head_time - lifetime) else None)
          else mret None);
  modify mia (λ b, Ok (clear_settled_volume drop b));;
  when (has_settlement b) (process_bids mia).
Definition process_bitassets : M database unit :=
  head_time ← head_block_time; ids ← gets (λ s, ids_of (bitassets s)); each (process_bitasset head_time) ids.

(** ** Parameters and the next maintenance *)

(** The scaling of the fee of account creation, kept under its tag, is removed. *)
Definition unscale_account_fee (registered : Z) (p : chain_parameters) : result chain_parameters :=
  f ← from_option_r assert_exception (op_fees p !! 5);
  (if accounts_per_fee_scale p =? 0 then Err undefined_behaviour else Ok tt);;
  let shift := u32 (account_fee_scale_bitshifts p * (registered / accounts_per_fee_scale p)) in
  (if shift <? 64 then Ok tt else Err undefined_behaviour);;
  Ok (set_op_fees (<[5 := FeeParameters (Z.shiftr (fp_fee f) shift) (fp_rate f)]> (op_fees p)) p).
Definition update_parameters : M database unit :=
  d ← gets dgpo;
  g ← gets gpo;
  p ← lift (unscale_account_fee (accounts_registered_this_interval d) (parameters g));
  puts (set_gpo (match pending_parameters g with
                 | Some pending => set_parameters pending None g
                 | None => set_parameters p None g
                 end)).

Definition next_maintenance (b : signed_block) (head next interval : Z) : result Z :=
  if next <=? timestamp b then
    if interval =? 0 then Err undefined_behaviour
    else if block_num b =? 1 then Ok (tps_add 0 (u32 ((timestamp b / interval + 1) * interval)))
    else
      let y := Z.quot (tps_diff head next) interval in
      Ok (tps_add next (u32 ((y + 1) * interval)))
  else Ok next.

(** A hard fork takes effect between two maintenance times. *)
Definition crosses (fork old new : Z) : bool := (old <=? fork) && (new >? fork).

Definition perform_chain_maintenance (b : signed_block) : M database unit :=
  distribute_fba_balances;;
  create_buyback_orders;;
  g ← gets gpo;
  t ← perform_account_maintenance g (vote_tally_helper empty_tally g);
  update_top_n_authorities;;
  update_active_witnesses track_standby_votes t;;
  update_active_committee_members track_standby_votes t;;
  update_worker_votes t;;
  update_parameters;;
  d ← gets dgpo;
  p ← get_parameters;
  let old := next_maintenance_time d in
  new ← lift (next_maintenance b (time d) old (maintenance_interval p));
  when ((old <? HARDFORK_613_TIME) && (new >=? HARDFORK_613_TIME)) deprecate_annual_members;;
  let hf_343 := crosses HARDFORK_CORE_343_TIME old new in
  when (crosses HARDFORK_CORE_868_890_TIME old new) (process_hf_868_890 hf_343);;
  when (crosses HARDFORK_CORE_935_TIME old new && negb hf_343) process_hf_935;;
  let hf_1270 := crosses HARDFORK_CORE_1270_TIME old new in
  when (crosses HARDFORK_CORE_1465_TIME old new) process_hf_1465;;
  puts (λ s, set_dgpo (set_next_maintenance new (dgpo s)) s);;
  when hf_343 (update_call_orders_hf_343;; match_call_orders);;
  when hf_1270 (update_call_orders_hf_1270;; update_all_median_feeds;; match_call_orders);;
  process_bitassets;;
  process_budget.

End maintenance.

(** ** What maintenance leaves alone *)

(** Accounts, elections and fees: nothing the market is made of, and the ledger stays. *)
Record quiet (s s' : database) : Prop := {
  q_limits : limit_orders s' = limit_orders s;
  q_calls : call_orders s' = call_orders s;
  q_settles : settle_orders s' = settle_orders s;
  q_bids : bids s' = bids s;
  q_assets : assets s' = assets s;
  q_bitassets : bitassets s' = bitassets s;
  q_genesis : genesis_balances s' = genesis_balances s;
  q_dgpo : dgpo s' = dgpo s;
  q_transactions : transactions s' = transactions s;
  q_proposals : proposals s' = proposals s;
  q_buybacks : buybacks (governance s') = buybacks (governance s);
  q_total k : total (ledger k) s' = total (ledger k) s
}.
#[export] Instance quiet_preorder : PreOrder quiet.
Proof. split; [by intros s|]. intros s1 s2 s3 [] []. split; [congruence..|]. intros k. congruence. Qed.

(** What comes before the next maintenance time is set also leaves that, the proposals
    and the buybacks alone. *)
Record early_frame (s s' : database) : Prop := {
  ef_id : head_block_id (dgpo s') = head_block_id (dgpo s);
  ef_num : head_block_number (dgpo s') = head_block_number (dgpo s);
  ef_time : time (dgpo s') = time (dgpo s);
  ef_next : next_maintenance_time (dgpo s') = next_maintenance_time (dgpo s);
  ef_transactions : transactions s' = transactions s;
  ef_proposals : proposals s' = proposals s;
  ef_buybacks : buybacks (governance s') = buybacks (governance s)
}.
#[export] Instance early_frame_preorder : PreOrder early_frame.
Proof. split; [by intros s|]. intros s1 s2 s3 [] []. split; congruence. Qed.

Lemma quiet_early s s' : quiet s s' → early_frame s s'.
Proof. intros []. split; congruence. Qed.
Lemma quiet_books s s' : quiet s s' → books_step s s'.
Proof. intros []. by apply books_same. Qed.
Lemma early_market s s' : market_frame s s' → early_frame s s'.
Proof. intros []. split; congruence. Qed.
Lemma early_chain s s' : early_frame s s' → chain_frame s s'.
Proof. intros []. by split. Qed.

(** A step that keeps both. *)
Definition maintained (s s' : database) : Prop := books_step s s' ∧ early_frame s s'.
#[export] Instance maintained_preorder : PreOrder maintained.
Proof. split; [by intros s|]. intros s1 s2 s3 [B1 F1] [B2 F2]. split; by etransitivity. Qed.
Lemma maintained_quiet {A} (m : M database A) : keeps quiet m → keeps maintained m.
Proof. intros H s r s' E%H. split; [by apply quiet_books|by apply quiet_early]. Qed.
Lemma maintained_market {A} (m : M database A) : keeps books_step m → keeps market_frame m → keeps maintained m.
Proof. intros B F s r s' E. split; [by eapply B|by eapply early_market, F]. Qed.

Lemma balance_books s s' : books_step s s' → proposals s' = proposals s → balance_step s s'.
Proof.
  intros B Hp [W T G]. destruct (B W T) as (W' & T' & L). split; [|done]. split; [done|done|].
  by apply (good_proposals_same s).
Qed.
Lemma balance_maintained s s' : maintained s s' → balance_step s s'.
Proof. intros [B F]. by apply balance_books, (ef_proposals _ _ F). Qed.

(** Tables that no weight sees. *)
Lemma total_set_accounts μ s x : total μ (set_accounts x s) = total μ s.
Proof. unfold total. reflexivity. Qed.
Lemma total_set_witnesses μ s x : total μ (set_witnesses x s) = total μ s.
Proof. unfold total. reflexivity. Qed.
Lemma total_set_workers μ s x : total μ (set_workers x s) = total μ s.
Proof. unfold total. reflexivity. Qed.
Lemma total_set_committee μ s x : total μ (set_committee_members x s) = total μ s.
Proof. unfold total. reflexivity. Qed.
Ltac quiet_write :=
  intros; split; [reflexivity..|intros k; first
    [apply total_set_accounts | apply total_set_witnesses | apply total_set_workers | apply total_set_committee
    |apply total_set_gpo | apply total_set_applied]].
Ltac solve_quiet := repeat first
  [ apply keeps_deref; apply _ | progress solve_keeps_with ltac:(quiet_write) ].
Lemma quiet_puts_gpo f : keeps quiet (puts (λ s, set_gpo (f s) s)).
Proof. intros s [] s' [= <-]. quiet_write. Qed.
Lemma quiet_reads {A} (m : M database A) : reads m → keeps quiet m.
Proof. apply reads_keeps, _. Qed.
#[export] Hint Resolve quiet_puts_gpo : graphene.
Lemma quiet_read {A} (f : database → result A) : keeps quiet (read f).
Proof. intros s r s' E. apply lift_Ok in E as [_ ->]. reflexivity. Qed.
#[export] Hint Resolve quiet_read : graphene.

(** Only the weights have to be looked at. *)
Lemma quiet_stats i f :
  (∀ st st', f st = Ok st' → ∀ k, w_stats (ledger k) i st' = w_stats (ledger k) i st) →
  keeps quiet (modify (V:=account_statistics_object) i f).
Proof.
  intros Hf s [] s' E. assert (∀ k, total (ledger k) s' = total (ledger k) s) as T.
  { intros k. destruct (total_modify (ledger k) _ _ _ _ E) as (v & w & _ & Ew & _ & ->). cbn [w_of stats_table].
    rewrite (Hf _ _ Ew). lia. }
  apply modify_Ok in E as (v & w & _ & _ & ->). by split.
Qed.
Lemma quiet_flag k : keeps quiet (modify (V:=account_balance_object) k (λ b, Ok (AccountBalance (balance b) false))).
Proof.
  intros s [] s' E. assert (∀ k, total (ledger k) s' = total (ledger k) s) as T.
  { intros k0. destruct (total_modify (ledger k0) _ _ _ _ E) as (v & w & _ & [= <-] & _ & ->). cbn. lia. }
  apply modify_Ok in E as (v & w & _ & _ & ->). by split.
Qed.

Section quiet_handlers.
Context `{EX : Ext} `{MB : FindMsb}.

(** *** Fees of accounts *)
Lemma static_process_fees i s s' :
  process_fees i s = Ok (tt, s') → same_books s s' ∧ transactions s' = transactions s ∧ proposals s' = proposals s ∧
  governance s' = governance s.
Proof.
  set (R := λ s s' : database, same_books s s' ∧ transactions s' = transactions s ∧ proposals s' = proposals s ∧
    governance s' = governance s).
  assert (PreOrder R) as HP.
  { split; [by intros x|]. intros x y z (B1 & T1 & P1 & G1) (B2 & T2 & P2 & G2).
    split; [by etransitivity|]. split_and!; congruence. }
  assert (∀ ov amt vs ty o rv, keeps R (deposit_lazy_vesting ov amt vs ty o rv)) as Hl.
  { intros. apply keeps_deposit_lazy; [apply _|by split..]. }
  assert (∀ a x b, keeps R (deposit_cashback a x b)) as Hd
    by (intros; unfold deposit_cashback; solve_keeps_with ltac:(by split)).
  assert (∀ a x b, keeps R (pay_out_fees a x b)) as Hp
    by (intros; unfold pay_out_fees; solve_keeps_with ltac:(by split)).
  assert (keeps R (process_fees i)) as H by (unfold process_fees; solve_keeps_with ltac:(by split)). apply H.
Qed.
Lemma quiet_process_fees i : keeps quiet (process_fees i).
Proof.
  intros s [] s' E. destruct (static_process_fees _ _ _ E) as ([] & Ht & Hp & Hg). split; try done; [by rewrite Hg|].
  intros k. apply (effect_process_fees (lc k) (le k) (λ _, 0) (lg k)) in E; [unfold ledger; lia|]. rewrite le_lc. lia.
Qed.
Lemma quiet_refresh x : keeps quiet (refresh_core_balance x).
Proof.
  unfold refresh_core_balance. pose proof (quiet_flag x.1).
  assert (keeps quiet (modify x.1.1 (λ st, Ok (set_core_in_balance (balance x.2) st)))).
  { apply quiet_stats. by intros st st' [= <-]. } solve_quiet.
Qed.
Lemma quiet_account_loop g n : ∀ itr t, keeps quiet (account_loop n g itr t).
Proof.
  induction n as [|n IH]; intros [i|] t; cbn [account_loop]; try apply (keeps_ret quiet); [apply keeps_throw|].
  pose proof quiet_process_fees. pose proof (λ g a st t, quiet_reads _ (reads_tally_helper g a st t)). solve_quiet.
Qed.
Lemma quiet_account_maintenance g t : keeps quiet (perform_account_maintenance g t).
Proof.
  intros s r s' E. unfold perform_account_maintenance in E. apply M_bind_Ok in E as ([] & s1 & E1 & E). bind_step E.
  apply quiet_account_loop in E. etransitivity; [|exact E]. unfold refresh_core_balances in E1. revert E1.
  apply (while_some_keeps _ _ quiet). intros s2 x s3 _. apply quiet_refresh.
Qed.

(** *** Elections *)
Lemma quiet_control acct own x : keeps quiet (control_by_holders acct own x).
Proof. unfold control_by_holders. solve_quiet. Qed.
Lemma quiet_top_n : keeps quiet update_top_n_authorities.
Proof.
  assert (∀ l, keeps quiet (visit_special_authorities l)) as H.
  { pose proof quiet_control. induction l as [|[i a] l IH]; cbn [visit_special_authorities]; solve_quiet. }
  unfold update_top_n_authorities. solve_quiet.
Qed.
Lemma quiet_witnesses track t : keeps quiet (update_active_witnesses track t).
Proof.
  assert (∀ ids, keeps quiet (update_total_votes witness_vote_id set_witness_votes t ids)) as H.
  { intros. apply keeps_update_totals; [apply _|]. intros. solve_quiet. }
  unfold update_active_witnesses. solve_quiet.
Qed.
Lemma quiet_committee track t : keeps quiet (update_active_committee_members track t).
Proof.
  assert (∀ ids, keeps quiet (update_total_votes committee_vote_id set_committee_votes t ids)) as H.
  { intros. apply keeps_update_totals; [apply _|]. intros. solve_quiet. }
  unfold update_active_committee_members. solve_quiet.
Qed.
Lemma quiet_worker_votes t : keeps quiet (update_worker_votes t).
Proof.
  assert (∀ neg ids, keeps quiet (count_workers t neg ids)) as H.
  { intros neg. induction ids as [|i ids IH]; cbn [count_workers]; solve_quiet. }
  unfold update_worker_votes. solve_quiet.
Qed.
Lemma quiet_parameters : keeps quiet update_parameters.
Proof.
  unfold update_parameters. apply keeps_bind; [apply _|apply (keeps_gets quiet)|intros d].
  apply keeps_bind; [apply _|apply (keeps_gets quiet)|intros g].
  apply keeps_bind; [apply _|apply (keeps_lift quiet)|intros p]. intros s [] s' [= <-]. quiet_write.
Qed.

(** *** Fee-backed assets *)
Lemma reads_is_configured f : reads (is_configured f).
Proof. unfold is_configured. solve_reads. Qed.
Record static (s s' : database) : Prop := {
  st_books : same_books s s';
  st_transactions : transactions s' = transactions s;
  st_proposals : proposals s' = proposals s;
  st_buybacks : buybacks (governance s') = buybacks (governance s)
}.
#[local] Instance static_preorder : PreOrder static.
Proof. split; [by intros s|]. intros s1 s2 s3 [] []. split; [by etransitivity|congruence..]. Qed.
Lemma quiet_static s s' : static s s' → (∀ k, total (ledger k) s' = total (ledger k) s) → quiet s s'.
Proof. intros [[]] T. by split. Qed.
Lemma static_fba a b c d : keeps static (split_fba_balance a b c d).
Proof.
  assert (∀ f, keeps static (is_configured f)) by (intros; by apply reads_keeps, reads_is_configured; apply _).
  assert (∀ acct x, keeps static (adjust_balance acct x)).
  { intros acct x s [] s' E. pose proof (books_adjust_balance _ _ _ _ _ E) as B. apply adjust_balance_state in E.
    split; [done|by rewrite E..]. }
  unfold split_fba_balance, pay_fba. solve_keeps_with ltac:(by split).
Qed.
Lemma effect_pay_fba k acct i x : effect (ledger k) (pay_fba acct i x) (λ _, lc k CORE * x).
Proof.
  intros s [] s' E. unfold pay_fba, when in E. destruct (Z.eqb_spec x 0) as [->|]; cbn [negb] in E; [ret_inv E; lia|].
  bind E as [] H1. injection E as <-. rewrite total_set_applied.
  apply (effect_adjust_balance (lc k) (le k) (λ _, 0) (lg k)) in H1. unfold ledger. rewrite H1. done.
Qed.
Lemma governance_pay_fba acct i x s s' : pay_fba acct i x s = Ok (tt, s') → governance s' = governance s.
Proof.
  intros E. unfold pay_fba, when in E. destruct (negb _); [|by ret_inv E]. bind E as [] H1.
  apply adjust_balance_state in H1. injection E as <-. by rewrite H1.
Qed.
Lemma effect_fba_supply k x : effect (ledger k) (modify (V:=asset_dynamic_data_object) CORE (sub_supply x)) (λ _, lc k CORE * x).
Proof.
  intros s [] s' E. apply (total_modify (ledger k)) in E as (v & w & _ & Hw & _ & ->). unfold sub_supply in Hw.
  apply result_bind_Ok in Hw as (n & Hn & [= <-]). safe_inv. unfold ledger. cbn. rewrite le_lc. lia.
Qed.
Lemma effect_clear_fba k i fees s s' :
  modify i (λ f, Ok (set_fba_fees 0 f)) s = Ok (tt, s') → accumulated_fba_fees <$> fba_accumulators (governance s) !! i = Some fees →
  total (ledger k) s' = total (ledger k) s - lc k CORE * fees.
Proof.
  intros E Hf. apply (total_modify (ledger k)) in E as (v & w & Hv & [= <-] & _ & ->). cbn in Hv |- *. rewrite Hv in Hf.
  injection Hf as <-. lia.
Qed.
Lemma quiet_split_fba a b c d : keeps quiet (split_fba_balance a b c d).
Proof.
  intros s [] s' E. apply quiet_static; [by eapply static_fba|]. intros k. unfold split_fba_balance in E. bind_step E.
  apply M_bind_Ok in E as (fba & s1 & Hf & E). apply get_Ok in Hf as [-> Hf]. cbn in Hf.
  destruct (_ =? 0); [by ret_inv E|]. apply M_bind_Ok in E as (ok & s1 & Hok & E).
  apply reads_is_configured in Hok as Es. subst s1. assert (∀ s1, fba_accumulators (governance s1) = fba_accumulators (governance s) →
    accumulated_fba_fees <$> fba_accumulators (governance s1) !! a = Some (accumulated_fba_fees fba)) as Hkeep
    by (intros s1 ->; by rewrite Hf).
  destruct ok; cbn [negb] in E.
  - apply M_bind_Ok in E as (paid & s1 & Hp & E). apply lift_Ok in Hp as [Hp ->]. bind_step E.
    apply M_bind_Ok in E as (net & s1 & Hn & E). apply lift_Ok in Hn as [Hn ->].
    apply M_bind_Ok in E as (dd & s1 & Hd & E). apply lift_Ok in Hd as [_ ->].
    apply M_bind_Ok in E as (ao & s1 & Ha & E). apply get_Ok in Ha as [-> _].
    apply M_bind_Ok in E as ([] & s1 & H1 & E). apply M_bind_Ok in E as (bb & s2 & Hb & E). apply lift_Ok in Hb as [_ ->].
    apply M_bind_Ok in E as ([] & s2 & H2 & E). apply M_bind_Ok in E as ([] & s3 & H3 & E).
    assert (governance s1 = governance s ∧ total (ledger k) s1 = total (ledger k) s + lc k CORE * net) as [G1 T1].
    { unfold when in H1. destruct (Z.eqb_spec net 0) as [->|]; cbn [negb] in H1; [ret_inv H1; split; [done|lia]|].
      split; [|by apply (effect_fba_supply k) in H1]. by apply modify_Ok in H1 as (v & w & _ & _ & ->). }
    apply governance_pay_fba in H2 as G2. apply governance_pay_fba in H3 as G3.
    apply (effect_pay_fba k) in H2, H3. apply (effect_clear_fba k _ (accumulated_fba_fees fba)) in E;
      [|apply Hkeep; by rewrite G3, G2, G1]. rewrite E, H3, H2, T1. safe_inv.
    generalize (total (ledger k) s), (lc k CORE). intros T x. ring.
  - bind E as [] H1. apply (effect_fba_supply k) in H1 as T1. apply modify_Ok in H1 as (v & w & _ & _ & Es).
    apply (effect_clear_fba k _ (accumulated_fba_fees fba)) in E; [|apply Hkeep; by rewrite Es]. rewrite E, T1.
    generalize (total (ledger k) s), (lc k CORE). intros T x. ring.
Qed.
Lemma quiet_distribute : keeps quiet distribute_fba_balances.
Proof. unfold distribute_fba_balances. pose proof quiet_split_fba. solve_quiet. Qed.
End quiet_handlers.

(** ** The market in maintenance *)
Section market_maintenance.
Context `{EX : Ext} (nth_element : nth_element_t) (fuel : nat).
Hypothesis nth_element_permutes : ∀ less n l, nth_element less n l ≡ₚ l.

Lemma maintained_check_calls a en fo : keeps maintained (check_call_orders fuel a en fo).
Proof. apply maintained_market; [apply books_check_call_orders|apply frame_check_call_orders]. Qed.
Lemma maintained_reads {A} (m : M database A) : reads m → keeps maintained m.
Proof. apply reads_keeps, _. Qed.
Lemma maintained_bitasset mia f :
  (∀ b b', f b = Ok b' → bad_options b' = bad_options b ∧ settlement_fund b' = settlement_fund b ∧
     bad_settlement_price b' = bad_settlement_price b) →
  (∀ b b', f b = Ok b' → typed_bitasset b → typed_bitasset b') →
  keeps maintained (modify (V:=asset_bitasset_data_object) mia f).
Proof.
  intros H1 H2. apply maintained_market; [by apply books_modify_bitasset|by apply frame_modify_bitasset].
Qed.
Lemma maintained_median mia t mt : keeps maintained (modify mia (update_median_feeds nth_element t mt)).
Proof.
  apply maintained_bitasset; intros b b' E.
  - by apply update_median_feeds_frame in E as (H1 & H2 & H3 & _).
  - by eapply typed_update_median.
Qed.
Lemma maintained_each {A} (f : A → M database unit) l : (∀ x, keeps maintained (f x)) → keeps maintained (each f l).
Proof.
  intros Hf. induction l as [|x l IH]; cbn [each]; [apply (keeps_ret maintained)|].
  apply (keeps_bind maintained); [apply Hf|done].
Qed.
Hint Resolve maintained_check_calls maintained_median : graphene.
Ltac solve_maintained := repeat first
  [ apply keeps_deref; apply _ | progress solve_keeps_with ltac:(fail) ].

(** *** One-time changes *)
Lemma typed_correct_feeds fed b : typed_bitasset b → typed_bitasset (correct_feeds fed b).
Proof.
  intros (T1 & T2 & T3). split; [done|]. split; [|done]. cbn. destruct fed.
  - intros i x [Hx _]%map_lookup_filter_Some. exact (T2 i x Hx).
  - intros i x Hx. apply lookup_fmap_Some in Hx as (y & <- & Hy). destruct (invalid_feed _ _ _); [|exact (T2 i y Hy)].
    by split.
Qed.
Lemma maintained_asset_feeds sk mia : keeps maintained (correct_asset_feeds nth_element fuel sk mia).
Proof.
  assert (∀ fed, keeps maintained (modify mia (λ b, Ok (correct_feeds fed b)))) as H.
  { intros fed. apply maintained_bitasset; intros b b' [= <-]; [done|apply typed_correct_feeds]. }
  unfold correct_asset_feeds. solve_maintained.
Qed.
Lemma maintained_hf_868_890 sk : keeps maintained (process_hf_868_890 nth_element fuel sk).
Proof.
  unfold process_hf_868_890. apply keeps_bind; [apply _|apply (keeps_gets maintained)|intros ids].
  apply maintained_each, maintained_asset_feeds.
Qed.
Lemma maintained_hf_935 : keeps maintained (process_hf_935 fuel).
Proof.
  assert (∀ ids ch, keeps maintained (process_hf_935_from fuel ids ch)) as H.
  { induction ids as [|i ids IH]; intros ch; cbn [process_hf_935_from]; solve_maintained. }
  unfold process_hf_935. solve_maintained.
Qed.
Lemma maintained_max_supply mia : keeps maintained (correct_max_supply mia).
Proof.
  assert (∀ x, keeps maintained (modify mia (λ a, Ok (set_max_supply x a)))) as H.
  { intros x s [] s' E. apply modify_Ok in E as (a & a' & Ha & [= <-] & ->). split.
    - intros W T. split; [|split; [by destruct T|intros k; apply total_set_assets]].
      destruct W as [W1 W2 W3 W4 W5 W6 W7]. split; try done. cbn. apply map_Forall_insert_2; [|done]. exact (W2 mia a Ha).
    - by split. }
  unfold correct_max_supply. solve_maintained.
Qed.
Lemma maintained_hf_1465 : keeps maintained process_hf_1465.
Proof.
  unfold process_hf_1465. apply keeps_bind; [apply _|apply (keeps_gets maintained)|intros ids].
  apply maintained_each, maintained_max_supply.
Qed.

(** A new call price in the same assets. *)
Lemma maintained_call_price i f :
  (∀ c c', f c = Ok c' → ∃ p, c' = set_call_price p c ∧ asset_id (base p) = collateral_type c ∧ asset_id (quote p) = debt_type c) →
  keeps maintained (modify (V:=call_order_object) i f).
Proof.
  intros Hf s [] s' E. assert (∀ k, total (ledger k) s' = total (ledger k) s) as T.
  { intros k. destruct (total_modify (ledger k) _ _ _ _ E) as (v & w & _ & Ew & _ & ->).
    destruct (Hf _ _ Ew) as (p & -> & Hb & Hq). cbn. unfold collateral_type in *. cbn. rewrite Hb. lia. }
  apply modify_Ok in E as (c & c' & Hc & Ef & ->). destruct (Hf _ _ Ef) as (p & -> & Hb & Hq). split; [|by split].
  intros W [T1 T2]. split; [|split; [by split|done]]. destruct W as [W1 W2 W3 W4 W5 W6 W7]. split; try done. cbn.
  apply map_Forall_insert_2; [|done]. pose proof (W6 i c Hc) as Wc. unfold call_backed, collateral_type, debt_type in *.
  cbn. rewrite ?Hb, ?Hq. exact Wc.
Qed.
Lemma maintained_hf_343 : keeps maintained update_call_orders_hf_343.
Proof.
  assert (∀ i mcr, keeps maintained (modify i (λ c, p ← call_price (get_debt c) (get_collateral c) mcr;
                                                    Ok (set_call_price p c)))) as Hm.
  { intros i mcr. apply maintained_call_price. intros c c' E. apply result_bind_Ok in E as (p & Hp & [= <-]).
    apply call_price_ids in Hp as [H1 H2]. exists p. done. }
  assert (∀ ids cur abd, keeps maintained (reset_call_prices ids cur abd)) as H.
  { induction ids as [|i ids IH]; intros cur abd; cbn [reset_call_prices]; solve_maintained. }
  unfold update_call_orders_hf_343. solve_maintained.
Qed.
Lemma maintained_hf_1270 : keeps maintained update_call_orders_hf_1270.
Proof.
  unfold update_call_orders_hf_1270. apply keeps_bind; [apply _|apply (keeps_gets maintained)|intros ids].
  apply maintained_each. intros i. apply maintained_call_price. intros c c' [= <-]. by eexists.
Qed.
Lemma maintained_match_calls : keeps maintained (match_call_orders fuel).
Proof.
  assert (∀ ids, keeps maintained (check_assets fuel ids)) as H by (induction ids; cbn [check_assets]; solve_maintained).
  unfold match_call_orders. solve_maintained.
Qed.
Lemma maintained_medians : keeps maintained (update_all_median_feeds nth_element).
Proof.
  unfold update_all_median_feeds. do 3 (apply keeps_bind; [apply _|apply (keeps_gets maintained)|intros ?]).
  apply maintained_each. intros i. apply maintained_median.
Qed.

(** *** Bids *)
Lemma covering_reads bad supply ids : ∀ covered, reads (covering_bids bad supply ids covered).
Proof. induction ids as [|i ids IH]; intros c; cbn [covering_bids]; solve_reads. Qed.

Lemma bids_execute_bid i d cf f : keeps (λ s s' : database, bids s' ⊆ bids s) (execute_bid i d cf f).
Proof.
  assert (PreOrder (λ s s' : database, bids s' ⊆ bids s)) as HP by (split; [intros x; reflexivity|intros x y z H1 H2; by etransitivity]).
  unfold execute_bid. solve_keeps_with ltac:(intros; cbn; first [reflexivity | apply delete_subseteq]).
Qed.

(** What executing bids does: they take over debt and get a part of the settlement
    fund. *)
Lemma execute_bids_spec mia b0 bad supply ids : ∀ to_cover fund s tc fd s',
  execute_bids bad supply ids to_cover fund s = Ok ((tc, fd), s') → bitassets s !! mia = Some b0 →
  (∀ i bid, i ∈ ids → bids s !! i = Some bid → asset_id (quote (inv_swan_price bid)) = mia) →
  wf_market s → wf_market s' ∧ market_frame s s' ∧ bitassets s' = bitassets s ∧
  ∀ c e q g, total (linear_weights c e q g) s' = total (linear_weights c e q g) s
    + c (short_backing_asset (bad_options b0)) * (fund - fd) + q mia * (to_cover - tc).
Proof.
  induction ids as [|i ids IH]; intros to_cover fund s tc fd s' E Hb0 Hids W; cbn [execute_bids] in E.
  { injection E as <- <- <-. split; [done|]. split; [reflexivity|]. split; [done|]. intros. lia. }
  apply M_bind_Ok in E as (bid & s1 & Hbid & E). apply deref_Ok in Hbid as [-> Hbid]. cbn in Hbid.
  apply M_bind_Ok in E as (coll & s1 & Hc & E). apply lift_Ok in Hc as [_ ->].
  destruct (if _ >=? _ then _ else _) as [d cl].
  apply M_bind_Ok in E as (tc2 & s1 & Ht & E). apply lift_Ok in Ht as [Ht ->].
  apply M_bind_Ok in E as (fd2 & s1 & Hf & E). apply lift_Ok in Hf as [Hf ->].
  apply M_bind_Ok in E as ([] & s1 & He & E).
  pose proof (frame_execute_bid _ _ _ _ _ _ _ He) as F. pose proof (bitassets_execute_bid _ _ _ _ _ _ _ He) as B.
  pose proof (wf_execute_bid _ _ _ _ _ _ _ He W) as W1. pose proof (bids_execute_bid _ _ _ _ _ _ _ He) as Hsub.
  pose proof (Hids i bid ltac:(by left) Hbid) as Hq. pose proof (wm_bids _ W i bid Hbid) as Hbk.
  unfold bid_backed in Hbk. rewrite Hq in Hbk. specialize (Hbk b0 Hb0).
  apply IH in E as (W2 & F2 & B2 & T2); [|by rewrite B| |done].
  - split; [done|]. split; [by etransitivity|]. split; [congruence|]. intros c e q g.
    pose proof (effect_execute_bid c e q g i d cl _ _ _ bid Hbid He) as T1. rewrite Hbk, Hq in T1. rewrite T2, T1. safe_inv.
    generalize (total (linear_weights c e q g) s). intros x. ring.
  - intros j x Hj Hx. apply (Hids j); [by right|]. by eapply lookup_weaken.
Qed.

Lemma cancel_revive_spec mia s s' :
  _cancel_bids_and_revive_mpa mia s = Ok (tt, s') → ∃ b, bitassets s !! mia = Some b ∧ has_settlement b = true ∧
    bitassets s' = <[mia := set_settlement default_price 0 b]> (bitassets s) ∧ wf_step s s' ∧ market_frame s s' ∧
    ∀ c e q g, total (linear_weights c e q g) s' = total (linear_weights c e q g) s
      - c (short_backing_asset (bad_options b)) * settlement_fund b.
Proof.
  intros E. assert (market_frame s s') as F.
  { pose proof frame_cancel_bids. pose proof frame_clear_settlement.
    assert (keeps market_frame (_cancel_bids_and_revive_mpa mia)) as K by (unfold _cancel_bids_and_revive_mpa; solve_frame).
    by eapply K. }
  unfold _cancel_bids_and_revive_mpa in E. bind E as a Ha. bind_step E.
  apply M_bind_Ok in E as (b & s1 & Hb & E). apply deref_Ok in Hb as [-> Hb]. cbn in Hb. do 2 bind_step E.
  bind E as hi Hhi. bind_step E. apply M_bind_Ok in E as ([] & s1 & Hc & E).
  pose proof (bitassets_cancel_bids _ _ _ _ Hc) as B. exists b. split; [done|]. split; [done|]. split.
  - apply modify_Ok in E as (v & w & Hv & [= <-] & ->). cbn in Hv |- *. rewrite B in *. congruence.
  - split; [|split; [exact F|]].
    + etransitivity; [by eapply wf_cancel_bids|]. apply modify_Ok in E as (v & w & Hv & [= <-] & ->). by eapply wf_insert_bitasset.
    + intros c e q g. apply (total_modify (linear_weights c e q g)) in E as (v & w & Hv & [= <-] & _ & T). cbn in Hv.
      rewrite B, Hb in Hv. injection Hv as <-. apply (effect_cancel_bids c e q g) in Hc. rewrite T, Hc. cbn.
      generalize (total (linear_weights c e q g) s). intros x. ring.
Qed.

(** The ids of the bids on an asset. *)
Lemma bid_range_quote a hi s i bid :
  i ∈ bid_range a hi s → bids s !! i = Some bid → asset_id (quote (inv_swan_price bid)) = a.
Proof.
  intros Hi Hb. unfold bid_range in Hi. apply list_elem_of_fmap in Hi as ([j x] & -> & Hi).
  rewrite in_order_perm in Hi. apply list_elem_of_filter in Hi as [[H _] Hi]. apply elem_of_map_to_list in Hi.
  cbn in *. congruence.
Qed.
Lemma covering_subset bad supply ids : ∀ covered s r s',
  covering_bids bad supply ids covered s = Ok (r, s') → ∀ i, i ∈ r.2 → i ∈ ids.
Proof.
  induction ids as [|i ids IH]; intros covered s r s' E j Hj; cbn [covering_bids] in E; [by injection E as <- _|].
  destruct (_ <? _); [|injection E as <- _; by apply not_elem_of_nil in Hj]. bind E as bid Hb. bind E as t Ht. bind E as t2 Ht2.
  bind E as cp Hcp. destruct (price_geb _ _); [injection E as <- _; by apply not_elem_of_nil in Hj|].
  bind E as c Hc. apply M_bind_Ok in E as (r2 & s2 & Hr & E). injection E as <- _. cbn in Hj.
  apply elem_of_cons in Hj as [->|Hj]; [by left|right]. by eapply IH.
Qed.

(** The asset that the bids revive is the settled one. *)
Lemma settlement_unit mia b z :
  wf_bitasset mia b → has_settlement b = true →
  asset_mul (Asset 0 (short_backing_asset (bad_options b))) (bad_settlement_price b) = Ok z → asset_id z = mia.
Proof.
  intros W H E. unfold wf_bitasset in W. rewrite H in W. destruct W as [W1 W2]. unfold asset_mul in E. cbn in E.
  destruct (_ =? _) eqn:E1 in E; bool_to_prop; [monad_inv; cbn in *; congruence|].
  destruct (_ =? _) eqn:E2 in E; [|done]. monad_inv. done.
Qed.

Lemma process_bids_spec mia b s s' :
  wf_market s → bitassets s !! mia = Some b → has_settlement b = true → process_bids mia s = Ok (tt, s') →
  s' = s ∨ ∃ d, dyns s !! mia = Some d ∧ wf_market s' ∧ market_frame s s' ∧
    bitassets s' = <[mia := set_settlement default_price 0 b]> (bitassets s) ∧
    ∀ c e q g, total (linear_weights c e q g) s' = total (linear_weights c e q g) s + q mia * current_supply d.
Proof.
  intros W Hb Hs E. unfold process_bids in E. apply M_bind_Ok in E as (b1 & s1 & Hb1 & E).
  apply deref_Ok in Hb1 as [-> Hb1]. cbn in Hb1. assert (b1 = b) as -> by congruence.
  destruct (_ || _); [injection E as <-; by left|]. apply M_bind_Ok in E as (z & s1 & Hz & E). apply lift_Ok in Hz as [Hz ->].
  apply (settlement_unit mia) in Hz; [|exact (wm_funds _ W mia b Hb)|done]. rewrite Hz in E. clear Hz.
  apply M_bind_Ok in E as (a & s1 & Ha & E). apply get_Ok in Ha as [-> _].
  apply M_bind_Ok in E as (d & s1 & Hd & E). apply get_Ok in Hd as [-> Hd].
  apply M_bind_Ok in E as (hi & s1 & Hhi & E). apply lift_Ok in Hhi as [_ ->]. bind_step E.
  apply M_bind_Ok in E as (r & s1 & Hr & E). pose proof (covering_subset _ _ _ _ _ _ _ Hr) as Hsub.
  apply covering_reads in Hr. subst s1. destruct (_ <? _); [injection E as <-; by left|right].
  apply M_bind_Ok in E as ([tc fd] & s1 & He & E). bind_step E. bind_step E. bool_to_prop. cbn in *. subst.
  eapply (execute_bids_spec mia b) in He as (W1 & F1 & B1 & T1); [|done| |done].
  2: { intros i bid Hi Hbid. eapply bid_range_quote; [by apply Hsub|done]. }
  apply cancel_revive_spec in E as (b2 & Hb2 & _ & B2 & W2 & F2 & T2). rewrite B1, Hb in Hb2. injection Hb2 as <-.
  exists d. split; [done|]. split; [by apply W2|]. split; [by etransitivity|]. split; [by rewrite B2, B1|].
  intros c e q g. rewrite T2, T1. generalize (total (linear_weights c e q g) s). intros x. ring.
Qed.

(** C24: Bids revive a settled asset exactly or not at all.  Either nothing happens, or
    the bids that are executed take over debt of exactly the whole supply and get
    exactly the whole settlement fund as collateral, what everybody holds stays as it
    was for every asset, and the asset is no longer settled. *)
Theorem bids_cover_all mia b s s' :
  wf_market s → bitassets s !! mia = Some b → has_settlement b = true → process_bids mia s = Ok (tt, s') →
  s' = s ∨
  ∃ d, dyns s !! mia = Some d ∧
    (bitassets s' !! mia = Some (set_settlement default_price 0 b)) ∧
    (∀ a, excess a s' = excess a s) ∧
    (∀ a, debt_excess a s' = debt_excess a s + ind (mia =? a) (current_supply d)).
Proof.
  intros W Hb Hs E. apply (process_bids_spec mia b) in E as [->|(d & Hd & _ & _ & B & T)]; [by left|right|done..].
  exists d. split; [done|]. split; [by rewrite B, lookup_insert_eq|]. unfold excess, debt_excess.
  split; intros a; rewrite T; unfold ind; destruct (mia =? a); lia.
Qed.

Lemma frame_process_bids mia : keeps market_frame (process_bids mia).
Proof.
  pose proof frame_cancel_bids. pose proof frame_clear_settlement. pose proof frame_execute_bid.
  assert (∀ bad supply ids c, keeps market_frame (covering_bids bad supply ids c))
    by (intros; apply reads_keeps; [apply _|apply covering_reads]).
  assert (∀ bad supply ids c f, keeps market_frame (execute_bids bad supply ids c f)).
  { intros bad supply. induction ids as [|i ids IH]; intros c f; cbn [execute_bids]; solve_frame. }
  unfold process_bids, _cancel_bids_and_revive_mpa. solve_frame.
Qed.
Lemma maintained_process_bids mia s s' b :
  bitassets s !! mia = Some b → has_settlement b = true → process_bids mia s = Ok (tt, s') → maintained s s'.
Proof.
  intros Hb Hs E. pose proof (frame_process_bids _ _ _ _ E) as F. split; [|by apply early_market]. intros W T.
  apply (process_bids_spec mia b) in E as [->|(d & _ & W' & _ & _ & L)]; [done| |done..].
  split; [done|]. split; [by apply (mf_typed _ _ F)|]. intros k. unfold ledger. rewrite L. lia.
Qed.

(** *** Bitassets *)
Lemma clear_volume_keeps drop b :
  bad_options (clear_settled_volume drop b) = bad_options b ∧ settlement_fund (clear_settled_volume drop b) = settlement_fund b ∧
  bad_settlement_price (clear_settled_volume drop b) = bad_settlement_price b ∧
  (typed_bitasset b → typed_bitasset (clear_settled_volume drop b)).
Proof.
  destruct drop as [t|]; cbn; split_and!; try done. intros (T1 & T2 & T3). split; [done|]. split; [|done].
  intros i x [Hx _]%map_lookup_filter_Some. exact (T2 i x Hx).
Qed.
Lemma maintained_process_bitasset now mia : keeps maintained (process_bitasset now mia).
Proof.
  intros s [] s' E. unfold process_bitasset in E. apply M_bind_Ok in E as (b & s1 & Hb & E). apply deref_Ok in Hb as [-> Hb].
  apply M_bind_Ok in E as (drop & s1 & Hd & E).
  assert (s1 = s) as -> by (destruct (_ >=? _); [bind_step Hd|]; by ret_inv Hd).
  apply M_bind_Ok in E as ([] & s1 & Hm & E). etransitivity.
  - assert (keeps maintained (modify mia (λ b, Ok (clear_settled_volume drop b)))) as K; [|by eapply K].
    apply maintained_bitasset; intros x y [= <-]; destruct (clear_volume_keeps drop x) as (? & ? & ? & ?); by try split_and!.
  - apply modify_Ok in Hm as (b1 & b2 & Hb1 & [= <-] & ->). assert (b1 = b) as -> by congruence.
    unfold when in E. destruct (has_settlement b) eqn:Hs; [|ret_inv E; reflexivity].
    eapply (maintained_process_bids mia _ _ (clear_settled_volume drop b)); [cbn; apply lookup_insert_eq| |exact E].
    unfold has_settlement in *. by destruct (clear_volume_keeps drop b) as (_ & _ & -> & _).
Qed.
Lemma maintained_bitassets : keeps maintained process_bitassets.
Proof.
  unfold process_bitassets. do 2 (apply keeps_bind; [apply _|apply (keeps_gets maintained)|intros ?]).
  apply maintained_each, maintained_process_bitasset.
Qed.
End market_maintenance.

(** ** Maintenance as a whole *)
Section maintenance_steps.
Context `{EX : Ext} `{SR : ShiftRight} `{MB : FindMsb}.
Context {hash_of : Z → list Z → Z} {key_addresses : Z → list Z}.
Context (nth_element : nth_element_t) (fuel : nat) (track_standby_votes : bool).
Context {CO : CaughtOperations hash_of key_addresses nth_element fuel}.

Lemma chain_early {A} (m : M database A) : keeps early_frame m → keeps chain_frame m.
Proof. intros H s r s' E. by eapply early_chain, H. Qed.
Lemma chain_quiet {A} (m : M database A) : keeps quiet m → keeps chain_frame m.
Proof. intros H. apply chain_early. intros s r s' E. by eapply quiet_early, H. Qed.

(** *** The buybacks and the upgrades of annual members *)
Lemma chain_buyback : keeps chain_frame (create_buyback_orders nth_element fuel).
Proof.
  assert (∀ n a b al x, keeps chain_frame (sell_holdings nth_element fuel n a b al x)) as H.
  { pose proof buyback_frame. induction n as [|n IH]; intros; cbn [sell_holdings]; solve_keeps_with ltac:(fail). }
  assert (∀ a, keeps chain_frame (buy_back nth_element fuel a)) as Hb by (intros; unfold buy_back; solve_keeps_with ltac:(fail)).
  assert (∀ l, keeps chain_frame (each (buy_back nth_element fuel) l)) as Hl
    by (induction l; cbn [each]; solve_keeps_with ltac:(fail)).
  unfold create_buyback_orders. solve_keeps_with ltac:(fail).
Qed.
Lemma chain_deprecate : keeps chain_frame (deprecate_annual_members nth_element fuel).
Proof.
  pose proof upgrade_frame. assert (∀ t i, keeps chain_frame (deprecate_annual_member nth_element fuel t i)) as H0
    by (intros; unfold deprecate_annual_member; repeat first [apply keeps_deref; apply _|progress solve_keeps_with ltac:(fail)]).
  assert (∀ t l, keeps chain_frame (each (deprecate_annual_member nth_element fuel t) l)) as Hl
    by (induction l; cbn [each]; solve_keeps_with ltac:(fail)).
  unfold deprecate_annual_members. solve_keeps_with ltac:(fail).
Qed.
Lemma no_buybacks s : buybacks (governance s) = ∅ → create_buyback_orders nth_element fuel s = Ok (tt, s).
Proof. intros Hb. unfold create_buyback_orders, gets, mbind, M_bind. by rewrite Hb. Qed.

(** *** The budget *)
Lemma budget_maintained s s' :
  process_budget s = Ok (tt, s') → books_step s s' ∧ chain_frame s s' ∧ proposals s' = proposals s.
Proof.
  intros E. pose proof (budget_ledger _ _ E) as T.
  apply process_budget_inv in E as (Hd & wk & left & delta & rec & s1 & _ & Hw & _ & _ & _ & dd & dd' & _ & _ & r & Es).
  apply frame_pay_workers in Hw as [[B1 B2 B3 B4 B5 B6 B7 B8 B9] Ft Fp _ _]. split_and!.
  - intros W [T1 T2]. split; [|split; [|exact T]].
    + assert (time (dgpo s') = time (dgpo s)) as Ht by by rewrite Hd.
      destruct W. split; rewrite ?Ht; try done; rewrite Es; cbn; by rewrite ?B1, ?B2, ?B4, ?B5, ?B6, ?B7.
    + split; rewrite Es; cbn; [by rewrite B6|by rewrite B3].
  - split; [by rewrite Hd..|rewrite Es; cbn; congruence].
  - rewrite Es. cbn. congruence.
Qed.

(** *** The time of the next maintenance *)
Lemma set_next_maintained t s : books_step s (set_dgpo (set_next_maintenance t (dgpo s)) s).
Proof.
  intros W T. split; [|split; [by destruct T|]].
  - destruct W. by split.
  - intros k. rewrite total_set_dgpo. cbn. lia.
Qed.

(** *** What the blocks that follow see *)
Lemma chain_market {A} (m : M database A) : keeps market_frame m → keeps chain_frame m.
Proof. intros H s r s' E. by eapply early_chain, early_market, H. Qed.
Hint Extern 3 (keeps chain_frame _) => apply chain_market; solve [eauto with graphene nocore] : graphene.
Hint Extern 4 (keeps chain_frame _) => apply chain_quiet; solve [eauto with graphene nocore] : graphene.
Ltac solve_chain := repeat first
  [ apply keeps_deref; apply _ | progress solve_keeps_with ltac:(by split) ].
Lemma chain_each {A} (f : A → M database unit) l : (∀ x, keeps chain_frame (f x)) → keeps chain_frame (each f l).
Proof.
  intros Hf. induction l as [|x l IH]; cbn [each]; [apply (keeps_ret chain_frame)|].
  apply (keeps_bind chain_frame); [apply Hf|done].
Qed.
Lemma chain_hard_forks :
  (∀ sk, keeps chain_frame (process_hf_868_890 nth_element fuel sk)) ∧ keeps chain_frame (process_hf_935 fuel) ∧
  keeps chain_frame process_hf_1465 ∧ keeps chain_frame update_call_orders_hf_343 ∧
  keeps chain_frame update_call_orders_hf_1270 ∧ keeps chain_frame (update_all_median_feeds nth_element) ∧
  keeps chain_frame (match_call_orders fuel) ∧ keeps chain_frame process_bitassets.
Proof.
  pose proof (λ a en fo, chain_market _ (frame_check_call_orders fuel a en fo)).
  pose proof (λ mia, chain_market _ (frame_process_bids mia)).
  assert (∀ sk mia, keeps chain_frame (correct_asset_feeds nth_element fuel sk mia))
    by (intros; unfold correct_asset_feeds; solve_chain).
  assert (∀ ids ch, keeps chain_frame (process_hf_935_from fuel ids ch)).
  { induction ids as [|i ids IH]; intros ch; cbn [process_hf_935_from]; solve_chain. }
  assert (∀ mia, keeps chain_frame (correct_max_supply mia)) by (intros; unfold correct_max_supply; solve_chain).
  assert (∀ ids cur abd, keeps chain_frame (reset_call_prices ids cur abd)).
  { induction ids as [|i ids IH]; intros cur abd; cbn [reset_call_prices]; solve_chain. }
  assert (∀ ids, keeps chain_frame (check_assets fuel ids)) by (induction ids; cbn [check_assets]; solve_chain).
  assert (∀ t mia, keeps chain_frame (process_bitasset t mia)) by (intros; unfold process_bitasset; solve_chain).
  pose proof (λ A f l, @chain_each A f l).
  unfold process_hf_868_890, process_hf_935, process_hf_1465, update_call_orders_hf_343, update_call_orders_hf_1270,
    update_all_median_feeds, match_call_orders, process_bitassets. split_and!; intros; solve_chain;
    apply chain_each; intros; solve_chain.
Qed.
Lemma maintenance_frame b : keeps chain_frame (perform_chain_maintenance nth_element fuel track_standby_votes b).
Proof.
  destruct chain_hard_forks as (H1 & H2 & H3 & H4 & H5 & H6 & H7 & H8).
  pose proof chain_buyback. pose proof chain_deprecate. pose proof (chain_quiet _ quiet_distribute).
  pose proof (λ g t, chain_quiet _ (quiet_account_maintenance g t)). pose proof (chain_quiet _ quiet_top_n).
  pose proof (λ t, chain_quiet _ (quiet_witnesses track_standby_votes t)).
  pose proof (λ t, chain_quiet _ (quiet_committee track_standby_votes t)).
  pose proof (λ t, chain_quiet _ (quiet_worker_votes t)). pose proof (chain_quiet _ quiet_parameters).
  assert (∀ t, keeps chain_frame (puts (λ s, set_dgpo (set_next_maintenance t (dgpo s)) s)))
    by (intros t s [] s' [= <-]; by split).
  assert (keeps chain_frame process_budget) by (intros s [] s' E; apply (budget_maintained _ _ E)).
  unfold perform_chain_maintenance. solve_chain.
Qed.

(** *** The books *)
Hypothesis nth_element_permutes : ∀ less n l, nth_element less n l ≡ₚ l.

(** The state in which maintenance catches no exception: nothing is bought back, and
    annual memberships have been deprecated. *)
Definition settled_chain (s : database) : Prop :=
  buybacks (governance s) = ∅ ∧ HARDFORK_613_TIME ≤ next_maintenance_time (dgpo s).
Lemma settled_early s s' : early_frame s s' → settled_chain s → settled_chain s'.
Proof. intros F [H1 H2]. split; [by rewrite (ef_buybacks _ _ F)|by rewrite (ef_next _ _ F)]. Qed.

Lemma balance_keeps {A} (m : M database A) s r s' : keeps maintained m → m s = Ok (r, s') → balance_step s s'.
Proof. intros H E. by eapply balance_maintained, H. Qed.
Lemma maintained_when c (m : M database unit) : keeps maintained m → keeps maintained (when c m).
Proof. intros H. unfold when. destruct c; [done|apply (keeps_ret maintained)]. Qed.

Lemma maintenance_balance b s s' :
  settled_chain s → perform_chain_maintenance nth_element fuel track_standby_votes b s = Ok (tt, s') → balance_step s s'.
Proof.
  intros S E. unfold perform_chain_maintenance in E.
  apply M_bind_Ok in E as ([] & s1 & H1 & E). apply quiet_distribute in H1 as Q1.
  apply M_bind_Ok in E as ([] & s2 & H2 & E). rewrite no_buybacks in H2 by (rewrite (q_buybacks _ _ Q1); apply S).
  injection H2 as <-. apply M_bind_Ok in E as (g & s2 & [= <- <-] & E).
  apply M_bind_Ok in E as (t & s2 & H3 & E). apply quiet_account_maintenance in H3 as Q3.
  apply M_bind_Ok in E as ([] & s3 & H4 & E). apply quiet_top_n in H4 as Q4.
  apply M_bind_Ok in E as ([] & s4 & H5 & E). apply quiet_witnesses in H5 as Q5.
  apply M_bind_Ok in E as ([] & s5 & H6 & E). apply quiet_committee in H6 as Q6.
  apply M_bind_Ok in E as ([] & s6 & H7 & E). apply quiet_worker_votes in H7 as Q7.
  apply M_bind_Ok in E as ([] & s7 & H8 & E). apply quiet_parameters in H8 as Q8.
  assert (quiet s s7) as Q by (repeat (etransitivity; [eassumption|]); reflexivity).
  clear Q1 Q3 Q4 Q5 Q6 Q7 Q8 H1 H3 H4 H5 H6 H7 H8.
  apply M_bind_Ok in E as (d & s8 & [= <- <-] & E). apply M_bind_Ok in E as (p & s8 & [= <- <-] & E).
  apply M_bind_Ok in E as (new & s8 & Hnew & E). apply lift_Ok in Hnew as [Hnew ->].
  assert ((next_maintenance_time (dgpo s7) <? HARDFORK_613_TIME) = false) as Hold.
  { apply Z.ltb_ge. rewrite (q_dgpo _ _ Q). apply S. }
  rewrite Hold in E. cbn [andb] in E. apply M_bind_Ok in E as ([] & s8 & [= <-] & E).
  transitivity s7; [by apply balance_maintained; split; [apply quiet_books|apply quiet_early]|].
  apply M_bind_Ok in E as ([] & s8 & H1 & E). apply balance_keeps in H1; [|by apply maintained_when, maintained_hf_868_890].
  apply M_bind_Ok in E as ([] & s9 & H2 & E). apply balance_keeps in H2; [|by apply maintained_when, maintained_hf_935].
  apply M_bind_Ok in E as ([] & s10 & H3 & E). apply balance_keeps in H3; [|by apply maintained_when, maintained_hf_1465].
  apply M_bind_Ok in E as ([] & s11 & [= <-] & E).
  transitivity s8; [done|]. transitivity s9; [done|]. transitivity s10; [done|]. clear H1 H2 H3.
  transitivity (set_dgpo (set_next_maintenance new (dgpo s10)) s10); [by apply balance_books; [apply set_next_maintained|]|].
  apply M_bind_Ok in E as ([] & s12 & H4 & E). apply balance_keeps in H4.
  2: { apply maintained_when, (keeps_bind maintained); [apply maintained_hf_343|intros _; by apply maintained_match_calls]. }
  apply M_bind_Ok in E as ([] & s13 & H5 & E). apply balance_keeps in H5.
  2: { apply maintained_when, (keeps_bind maintained); [apply maintained_hf_1270|intros _].
       apply (keeps_bind maintained); [by apply maintained_medians|intros _; by apply maintained_match_calls]. }
  apply M_bind_Ok in E as ([] & s14 & H6 & E). apply balance_keeps in H6; [|by apply maintained_bitassets].
  apply budget_maintained in E as (B & _ & Hp).
  transitivity s12; [done|]. transitivity s13; [done|]. transitivity s14; [done|]. by apply balance_books.
Qed.

End maintenance_steps.

(** ** The time of the next maintenance *)

Section next_time.
Context `{EX : Ext}.

(** C25: Maintenance is rescheduled to the first due time after the head.  The next
    time is later than the head, at most an interval later, and a whole number of
    intervals after the old one; after the first block it is the first multiple of the
    interval.  A block that is not due leaves the time as it is. *)
Theorem next_maintenance_least b head next interval :
  0 < interval → 0 ≤ next → head = timestamp b → 0 ≤ head → head + interval ≤ uint32_max →
  if head <? next then next_maintenance b head next interval = Ok next
  else ∃ t, next_maintenance b head next interval = Ok t ∧ head < t ≤ head + interval ∧
         (if block_num b =? 1 then (interval | t) else (interval | t - next)).
Proof.
  intros Hi Hn Hh H0 Hm. unfold next_maintenance. rewrite <- Hh. rewrite Z.leb_antisym.
  destruct (Z.ltb_spec head next) as [|Hle]; [done|]. cbn [negb]. rewrite (proj2 (Z.eqb_neq interval 0)) by lia.
  assert (∀ x, 0 ≤ x ≤ uint32_max → u32 x = x) as Hu by (intros x Hx; unfold u32; apply Z.mod_small; unfold uint32_max in Hx; lia).
  assert (∀ x, 0 ≤ x → 0 ≤ x `div` interval * interval ≤ x ∧ x < x `div` interval * interval + interval) as Hq.
  { intros x Hx. pose proof (Z.div_mod x interval ltac:(lia)). pose proof (Z.mod_pos_bound x interval Hi).
    pose proof (Z.div_pos x interval Hx Hi). nia. }
  destruct (_ =? 1).
  - specialize (Hq head H0). exists ((head / interval + 1) * interval). rewrite Hu, tps_add_spec by lia.
    split; [done|]. split; [lia|]. by exists (head / interval + 1).
  - specialize (Hq (head - next) ltac:(lia)). rewrite tps_diff_spec, Z.quot_div_nonneg by lia.
    exists (next + ((head - next) / interval + 1) * interval). rewrite Hu, tps_add_spec by lia.
    split; [done|]. split; [lia|]. exists ((head - next) / interval + 1). lia.
Qed.
End next_time.

Lemma next_maintenance_least_witness :
  next_maintenance (SignedBlock (byte_swap 10, 9) 1600000005 3 21 70 [] null_id 0) 1600000005 1599996400 3600
  = Ok 1600003600.
Proof.
  destruct (next_maintenance_least (SignedBlock (byte_swap 10, 9) 1600000005 3 21 70 [] null_id 0)
    1600000005 1599996400 3600) as (t & E & Ht & k & Hk); [done..|]. rewrite E. f_equal. lia.
Defined.

(** *** Maintenance on the example market

    Asset 1 is settled for 600 core; two bids together take over its 300 units. *)
(** A [try] block on a copy of the state: a caught failure leaves nothing behind. *)
#[export, refine] Instance caught_operations_ref `{EX : Ext} hash_of key_addresses nth_element fuel
    : CaughtOperations hash_of key_addresses nth_element fuel := {|
  try_buyback acct sell buy :=
    try_catch (buyback_order hash_of key_addresses nth_element fuel acct sell buy) (λ _, mret tt);
  try_upgrade acct := mret tt
|}.
Proof.
  - intros acct sell buy s s' E. unfold try_catch. by rewrite E.
  - intros acct sell buy s e E He. unfold try_catch. by rewrite E, He.
  - intros acct sell buy. apply keeps_try; [apply chain_buyback_order|]. intros e. apply (keeps_ret chain_frame).
  - intros acct. apply (keeps_ret chain_frame).
Defined.

Definition ex_settled : asset_bitasset_data_object := set_settlement (Price (Asset 1 1) (Asset 2 0)) 600 ex_bitasset.
Definition ex_bids : database :=
  set_bids {[ 5 := CollateralBid 17 (Price (Asset 500 0) (Asset 200 1));
              6 := CollateralBid 18 (Price (Asset 300 0) (Asset 150 1)) ]}
  (set_call_orders ∅ (set_bitassets {[ 1 := ex_settled ]} (ex_market 700))).

Lemma ex_bids_wf : wf_market ex_bids.
Proof.
  destruct (ex_market_wf 700) as [W1 W2 W3 W4 W5 W6 W7]. split; try done; cbn.
  - apply map_Forall_singleton. by vm_compute.
  - apply map_Forall_insert_2; [|apply map_Forall_singleton]; intros b Hb; cbn in Hb;
      rewrite lookup_singleton_eq in Hb; by injection Hb as <-.
Qed.
Lemma bids_cover_all_witness :
  match process_bids 1 ex_bids with
  | Ok (_, s') => excess 0 s' = excess 0 ex_bids ∧ debt_excess 1 s' = debt_excess 1 ex_bids + 300 ∧ bids s' = ∅ ∧
      sum_map (λ _, debt) (call_orders s') = 300
  | Err _ => False
  end.
Proof.
  destruct (process_bids 1 ex_bids) as [[[] s']|e] eqn:E; [|vm_compute in E; discriminate E].
  destruct (bids_cover_all 1 ex_settled ex_bids s' ex_bids_wf) as [->|(d & Hd & _ & He & Hde)];
    [reflexivity|by vm_compute|exact E| |].
  - vm_compute in E. discriminate E.
  - split; [apply He|]. split.
    + rewrite Hde. vm_compute in Hd. injection Hd as <-. reflexivity.
    + clear He Hde. vm_compute in E. injection E as <-. by vm_compute.
Defined.
