(* ===== verification/ProposalRun.v ===== *)
(** * Executing proposals: chain/proposal_evaluator.cpp, db_block.cpp, db_update.cpp

    Approvals execute a proposal when they suffice, and a due proposal is executed or
    removed.  Nested executions end: the guard of [push_proposal] bounds them.  Nothing
    is executed that the approvals collected for it do not authorize. *)

From S2P Require Import Prelude External Asset Authority Operations Block Vesting State Balance Fill Market Trade.
From S2P Require Import Evaluator MarketOps Ledger Frame OpFrame Proposal Transaction Expire Replay.

Section clear.
Context `{EX : Ext} (hash_of : Z → list Z → Z) (key_addresses : Z → list Z).
Context (nth_element : nth_element_t) (fuel : nat).

(** [database::push_proposal], nothing being executed around it. *)
Definition push_due_proposal (proposal : Z) : M database unit :=
  push_proposal (apply_operation hash_of key_addresses nth_element fuel 1 false) 0 proposal.

Definition due_proposal (s : database) : option (Z * proposal_object) :=
  first_due proposal_expiration (λ e, e <=? time (dgpo s)) (proposals s).
(** A due proposal: executed if its approvals suffice, removed if they do not or if it
    fails. *)
Definition clear_expired_proposal (x : Z * proposal_object) : M database unit :=
  let '(i, p) := x in
  executed ← try_catch
    (ok ← is_authorized_to_execute key_addresses p;
     if ok : bool then push_due_proposal i;; mret true else mret false) (λ _, mret false);
  when (negb executed) (remove (V:=proposal_object) i).
Definition clear_expired_proposals : M database unit := λ s,
  while_some (S (size (proposals s))) due_proposal clear_expired_proposal s.

End clear.

(** ** The nesting of executions *)
Section nesting.
Context `{EX : Ext} (hash_of : Z → list Z → Z) (key_addresses : Z → list Z).
Context (nth_element : nth_element_t) (fuel : nat).
Notation nested := (apply_nested hash_of key_addresses nth_element fuel).

(** Computations that agree on the states an operation of [s0] goes through. *)
Definition agree {A} (s0 : database) (m1 m2 : M database A) : Prop := ∀ s, op_frame s0 s → m1 s = m2 s.

Lemma agree_refl {A} s0 (m : M database A) : agree s0 m m.
Proof. by intros s _. Qed.
Lemma agree_bind {A B} s0 (m1 m2 : M database A) (k1 k2 : A → M database B) :
  agree s0 m1 m2 → keeps op_frame m2 → (∀ a, agree s0 (k1 a) (k2 a)) → agree s0 (m1 ≫= k1) (m2 ≫= k2).
Proof.
  intros Hm Hk H s F. unfold mbind, M_bind. rewrite (Hm s F). destruct (m2 s) as [[a s1]|e] eqn:E; [|done].
  apply H. etransitivity; [exact F|]. by eapply Hk.
Qed.
Lemma agree_try {A} s0 (m1 m2 : M database A) h : agree s0 m1 m2 → agree s0 (try_catch m1 h) (try_catch m2 h).
Proof. intros H s F. unfold try_catch. by rewrite (H s F). Qed.
Lemma agree_apply_each s0 f g ops :
  (∀ op, agree s0 (f op) (g op)) → (∀ op, keeps op_frame (g op)) → agree s0 (apply_each f ops) (apply_each g ops).
Proof.
  intros Hfg Hg. induction ops as [|op ops IH]; cbn [apply_each]; [apply agree_refl|].
  apply agree_bind; [done..|intros r]. apply agree_bind; [done| |intros; apply agree_refl].
  apply keeps_apply_each; [apply _|by apply Forall_true].
Qed.

Lemma agree_push f g d i s0 :
  (d < 2 * Z.of_nat (length (active_witnesses (gpo s0))) → ∀ op, agree s0 (f op) (g op)) →
  (∀ op, keeps op_frame (g op)) → agree s0 (push_proposal f d i) (push_proposal g d i).
Proof.
  intros Hfg Hg s F. unfold push_proposal. unfold mbind, M_bind, gets, deref.
  destruct (tbl s !! i) as [p|]; [|done]. cbn. rewrite (of_gpo _ _ F).
  destruct (d <? 2 * Z.of_nat (length (active_witnesses (gpo s0)))) eqn:Ed; [|done]. cbn.
  apply Z.ltb_lt in Ed. by rewrite (agree_apply_each s0 f g _ (Hfg Ed) Hg s F).
Qed.

Lemma agree_evaluate_operation push1 push2 op core s0 :
  (∀ i, agree s0 (push1 i) (push2 i)) →
  agree s0 (evaluate_operation hash_of key_addresses nth_element fuel push1 op core)
    (evaluate_operation hash_of key_addresses nth_element fuel push2 op core).
Proof.
  intros Hp. unfold evaluate_operation. destruct (ledger_evaluator hash_of key_addresses op) as [[ev ap]|]; [by intros s|].
  destruct op; try by intros s. destruct reads_proposal_checks as (_ & P2 & _). unfold evaluate_apply.
  pose proof (λ f n, op_plain _ (plain_convert_fee f n)).
  apply agree_bind; [by intros s|by apply op_reads|intros a].
  apply agree_bind; [by intros s|solve_op|intros _]. apply agree_bind; [by intros s|solve_op|intros _].
  unfold proposal_update_apply.
  apply agree_bind; [by intros s|solve_op|intros _]. apply agree_bind; [by intros s|solve_op|intros p].
  destruct (review_period_time p); [by intros s|].
  apply agree_bind; [by intros s|by apply op_reads, authorized_reads|intros ok].
  intros s F. unfold when. destruct ok; [|done]. unfold mbind, M_bind. by rewrite (agree_try s0 _ _ _ (Hp _) s F).
Qed.

Lemma nested_agree n : ∀ m d sk op s0,
  (Z.to_nat (2 * Z.of_nat (length (active_witnesses (gpo s0))) - d) < n)%nat →
  (Z.to_nat (2 * Z.of_nat (length (active_witnesses (gpo s0))) - d) < m)%nat →
  agree s0 (nested n d sk op) (nested m d sk op).
Proof.
  induction n as [|n IH]; intros m d sk op s0 Hn Hm; [lia|]. destruct m as [|m]; [lia|]. cbn [apply_nested].
  assert (∀ i, agree s0 (push_proposal (nested n (d + 1) false) d i) (push_proposal (nested m (d + 1) false) d i)) as Hp.
  { intros i. apply agree_push; [|intros op'; apply op_apply_nested]. intros Hd op'. apply IH; lia. }
  assert (∀ i, keeps op_frame (push_proposal (nested m (d + 1) false) d i)) as Hk
    by (intros i; apply op_push_proposal; intros op'; apply op_apply_nested).
  apply agree_bind; [by intros s|solve_op|intros op_id].
  apply agree_bind; [by intros s|intros s [] s' [= <-]; by split|intros _].
  unfold start_evaluate. pose proof op_evaluate_operation.
  apply agree_bind; [|solve_op|intros; apply agree_refl].
  apply agree_bind; [by intros s|solve_op|intros c]. apply agree_bind; [by intros s|solve_op|intros _].
  apply agree_bind; [by apply agree_evaluate_operation|by apply op_evaluate_operation|intros; apply agree_refl].
Qed.

(** C10: Nested proposals end.  The guard on the number of executions around a proposal
    stops the recursion of applying operations: twice as many levels as there are
    active witnesses, less those already used, suffice, and more levels never change
    a result. *)
Theorem nesting_is_bounded levels depth sk op s :
  (Z.to_nat (2 * Z.of_nat (length (active_witnesses (gpo s))) - depth) < levels)%nat →
  nested levels depth sk op s = apply_operation hash_of key_addresses nth_element fuel depth sk op s.
Proof. intros Hl. unfold apply_operation. apply (nested_agree levels _ depth sk op s); [done|lia|reflexivity]. Qed.

End nesting.

(** ** Approvals *)
Section execution.
Context `{EX : Ext} (hash_of : Z → list Z → Z) (key_addresses : Z → list Z).
Context (nth_element : nth_element_t) (fuel : nat).

Definition put_proposal (i : Z) (p : proposal_object) (s : database) : database :=
  set_proposals (<[i := p]> (proposals s)) s.

Lemma no_collision i p s : collides (V:=proposal_object) i p s = false.
Proof.
  unfold collides. apply not_true_iff_false. rewrite existsb_exists. intros (x & _ & Hx).
  apply andb_true_iff in Hx as [_ Hx]. done.
Qed.
Lemma modify_proposal i f p s :
  proposals s !! i = Some p → modify (V:=proposal_object) i (λ p, Ok (f p)) s = Ok (tt, put_proposal i (f p) s).
Proof. intros Hi. unfold modify. cbn. rewrite Hi, no_collision. done. Qed.

Lemma authorized_spec p s :
  wf_authorities s → Forall typed_operation (proposed_operations p) → ∀ b s',
  is_authorized_to_execute key_addresses p s = Ok (b, s') →
  s' = s ∧ (b = true → operations_authorized key_addresses (available_key_approvals p)
    (available_active_approvals p) (available_owner_approvals p) (proposed_operations p) s).
Proof.
  intros W Ht b s' E. unfold is_authorized_to_execute in E. destruct (verify_proposal key_addresses p s) as [[]|e] eqn:Ev.
  - injection E as <- <-. split; [done|intros _]. unfold verify_proposal in Ev.
    refine (proj1 (verify_operations key_addresses _ true _ _ _ s W Ht _)).
    by destruct (operation_get_required_authorities (proposed_operations p)) as [[? ?] ?].
  - destruct (caught e); [|done]. by injection E as <- <-.
Qed.

(** C9: A proposal is executed only with sufficient approvals.  Applying an update
    stores the approvals and, when there is no review period, either leaves it at
    that, or every operation of the proposal is authorized by the approvals now
    collected and they are applied and the proposal removed, or an operation fails:
    then none of them has any effect and only the reason is recorded. *)
Theorem approval_executes_authorized apply_op depth i aa ar oa or ka kr p s r s' :
  wf_authorities s → proposals s !! i = Some p → Forall typed_operation (proposed_operations p) →
  proposal_update_apply key_addresses (push_proposal apply_op depth) i aa ar oa or ka kr s = Ok (r, s') →
  let q := update_approvals aa ar oa or ka kr p in
  let s1 := put_proposal i q s in
  s' = s1 ∨
  (review_period_time p = None ∧
   operations_authorized key_addresses (available_key_approvals q) (available_active_approvals q)
     (available_owner_approvals q) (proposed_operations p) s1 ∧
   ((∃ rs s2, apply_each apply_op (proposed_operations p) s1 = Ok (rs, s2) ∧
       s' = set_proposals (delete i (proposals s2)) s2) ∨
    (∃ e, push_proposal apply_op depth i s1 = Err e ∧ s' = put_proposal i (set_fail_reason e q) s1))).
Proof.
  intros W Hi Ht E q s1. unfold proposal_update_apply, mbind, M_bind in E.
  rewrite (modify_proposal _ _ _ _ Hi) in E. fold q in E. fold s1 in E.
  assert (proposals s1 !! i = Some q) as Hq by apply lookup_insert_eq.
  unfold deref in E. cbn [tbl proposals_table] in E. rewrite Hq in E.
  assert (review_period_time q = review_period_time p) as Hr by done. rewrite Hr in E.
  destruct (review_period_time p) as [t|]; [injection E as _ <-; by left|].
  destruct (is_authorized_to_execute key_addresses q s1) as [[b s2]|e] eqn:Ea; [|done].
  apply authorized_spec in Ea as [-> Ha]; [|done..]. unfold when in E.
  destruct b; [|injection E as _ <-; by left]. right. split; [done|]. split; [by apply Ha|]. unfold try_catch in E.
  destruct (push_proposal apply_op depth i s1) as [[[] s2]|e] eqn:Ep.
  - injection E as _ <-. left. unfold push_proposal in Ep. bind Ep as p2 Hp2.
    unfold deref in Hp2. cbn [tbl proposals_table] in Hp2. rewrite Hq in Hp2. injection Hp2 as <-.
    bind_step Ep. bind Ep as [] Hd. bind Ep as rs Hrs.
    exists rs. eexists. split; [exact Hrs|]. unfold remove in Ep. cbn in Ep. case_match; by simplify_eq.
  - right. exists e. split; [done|]. destruct (caught e); [|done].
    rewrite (modify_proposal _ _ _ _ Hq) in E. by injection E as _ <-.
Qed.

(** ** Due proposals *)

(** No proposal becomes due while an operation is applied. *)
Definition due (s : database) (p : proposal_object) : Prop := proposal_expiration p ≤ time (dgpo s).
Record due_frame (s s' : database) : Prop := {
  df_time : time (dgpo s') = time (dgpo s);
  df_due i p' : proposals s' !! i = Some p' → due s p' → ∃ p, proposals s !! i = Some p ∧ due s p
}.
#[local] Instance due_frame_preorder : PreOrder due_frame.
Proof.
  split; [split; eauto|]. intros s1 s2 s3 [T1 D1] [T2 D2]. split; [congruence|]. intros i p Hp Hd.
  unfold due in *. rewrite T1 in D2. destruct (D2 i p Hp Hd) as (p2 & H2 & Hd2). by apply (D1 i p2).
Qed.

Lemma due_plain s s' : plain_frame s s' → due_frame s s'.
Proof. intros [[_ Hd _ _ _ _ _] Hp _ _]. split; [by rewrite Hd|]. rewrite Hp. eauto. Qed.
Lemma due_keeps {A} (m : M database A) : keeps plain_frame m → keeps due_frame m.
Proof. intros H s r s' E. by eapply due_plain, H. Qed.
Lemma due_reads {A} (m : M database A) : reads m → keeps due_frame m.
Proof. apply reads_keeps, _. Qed.
Lemma due_modify i f :
  (∀ p p', f p = Ok p' → proposal_expiration p' = proposal_expiration p) →
  keeps due_frame (modify (V:=proposal_object) i f).
Proof.
  intros Hf s [] s' E. apply modify_Ok in E as (p & p' & Hi & Hp & ->). split; [done|]. intros j q Hj Hd. cbn in Hj, Hi.
  apply lookup_insert_Some in Hj as [[<- <-]|[_ Hj]]; [|eauto]. exists p. split; [done|].
  unfold due in *. by rewrite <- (Hf _ _ Hp).
Qed.
Lemma due_remove i : keeps due_frame (remove (V:=proposal_object) i).
Proof.
  intros s [] s' E. unfold remove in E. cbn in E. destruct (proposals s !! i); [|done]. injection E as <-.
  split; [done|]. intros j q Hj Hd. cbn in Hj. apply lookup_delete_Some in Hj as [_ Hj]. eauto.
Qed.
Hint Extern 3 (keeps due_frame _) => apply due_keeps; solve [eauto with graphene nocore] : graphene.
Hint Extern 3 (keeps due_frame _) => apply due_reads; solve [eauto with graphene nocore] : graphene.
Ltac solve_due := repeat first
  [ apply keeps_deref; apply _ | progress solve_keeps_with ltac:(by split; eauto) ].

Lemma due_evaluate_apply {A} op core (ev : M database A) ap :
  reads ev →
  (∀ a s s1 r s2, ev s = Ok (a, s) → plain_frame s s1 → ap a s1 = Ok (r, s2) → due_frame s1 s2) →
  keeps due_frame (evaluate_apply op core ev ap).
Proof.
  intros Hr Ha s r s' E. unfold evaluate_apply in E. bind E as a Hev. apply Hr in Hev as Es. subst.
  bind E as [] H1. bind E as [] H2. apply plain_convert_fee in H1.
  apply (plain_keeps _ (frame_pay_fee_default _ _)) in H2.
  pose proof (transitivity H1 H2) as F. transitivity s1; [by apply due_plain|]. by eapply Ha.
Qed.

Lemma due_proposal_create op account ops ex r s x s' :
  time (dgpo s) < ex → proposal_create_apply op account ops ex r s = Ok (x, s') → due_frame s s'.
Proof.
  intros He E. unfold proposal_create_apply in E. bind_step E. bind_step E.
  destruct (visit_1479 op (0, 0)) as [m c] eqn:Ev. bind E as [] Hx.
  match type of Hx with _ = Ok (_, ?x) => assert (s = x) as <- end.
  { unfold when in Hx. destruct (_ >? _); [by apply lift_Ok in Hx as [_ ->]|by injection Hx as <-]. }
  bind E as i Hi. ret_inv E. unfold create, State.add in Hi. destruct (tbl s !! _); [done|].
  destruct (collides _ _ _); [done|]. injection Hi as _ <-. split; [done|]. intros j p Hj Hd. cbn in Hj.
  apply lookup_insert_Some in Hj as [[<- <-]|[_ Hj]]; [|eauto]. exfalso. unfold due, new_proposal in Hd.
  rewrite Ev in Hd. cbn in Hd. lia.
Qed.

Lemma create_evaluate_later op ops ex r s :
  proposal_create_evaluate op ops ex r s = Ok (tt, s) → time (dgpo s) < ex.
Proof.
  intros E. unfold proposal_create_evaluate in E. bind_step E. bind E as [] H1.
  apply hardfork_check_reads in H1. subst. bind E as [] H2. apply reads_when in H2; [subst|apply keeps_lift, _].
  bind_step E. bind E as [] H3. bool_to_prop. lia.
Qed.

Lemma due_push_proposal f d i : (∀ op, keeps due_frame (f op)) → keeps due_frame (push_proposal f d i).
Proof.
  intros Hf. unfold push_proposal. pose proof due_remove.
  assert (∀ ops, keeps due_frame (apply_each f ops)) by (intros ops; apply keeps_apply_each; [apply _|by apply Forall_true]).
  solve_due.
Qed.

Lemma due_proposal_update push i aa ar oa or ka kr :
  keeps due_frame (push i) → keeps due_frame (proposal_update_apply key_addresses push i aa ar oa or ka kr).
Proof.
  intros Hp. unfold proposal_update_apply. pose proof (λ p, due_reads _ (authorized_reads key_addresses p)).
  assert (∀ e, keeps due_frame (modify i (λ p, Ok (set_fail_reason e p)))) as Hf
    by (intros e; apply due_modify; by intros p p' [= <-]).
  assert (keeps due_frame (modify i (λ p, Ok (update_approvals aa ar oa or ka kr p))))
    by (apply due_modify; by intros p p' [= <-]).
  pose proof (keeps_try due_frame (push i) _ Hp Hf). solve_due.
Qed.

Lemma due_market_apply :
  (∀ who a, keeps due_frame (asset_settle_apply who a)) ∧
  (∀ who a f, keeps due_frame (asset_publish_feed_apply nth_element fuel who a f)).
Proof. split; intros; unfold asset_settle_apply, asset_publish_feed_apply; solve_due. Qed.

Lemma due_evaluate_operation push op core :
  (∀ i, keeps due_frame (push i)) →
  keeps due_frame (evaluate_operation hash_of key_addresses nth_element fuel push op core).
Proof.
  intros Hp. destruct reads_market_checks as (R1 & R2 & R3 & R4 & R5 & R6 & R7), due_market_apply as (M1 & M2).
  destruct reads_proposal_checks as (P1 & P2 & P3). unfold evaluate_operation.
  destruct (ledger_evaluator hash_of key_addresses op) as [[ev ap]|] eqn:El.
  { apply due_evaluate_apply; [by eapply ledger_reads|]. intros a s s1 r s2 _ _ E. eapply due_plain.
    by eapply plain_ledger. }
  destruct op; try apply keeps_throw.
  1: { apply keeps_bind; [apply _|by apply due_reads|]. intros _. solve_due. }
  all: apply due_evaluate_apply; [by auto|]; intros a0 s s1 r s2 Hev F E.
  6: { destruct a0. apply create_evaluate_later in Hev. destruct F as [[_ Hd _ _ _ _ _] _ _ _]. rewrite <- Hd in Hev.
    by eapply due_proposal_create. }
  all: pose proof due_remove; pose proof due_proposal_update.
  all: match type of E with ?m _ = _ => assert (keeps due_frame m) as K by (unfold proposal_delete_apply; solve_due) end.
  all: exact (K _ _ _ E).
Qed.

Lemma due_apply_nested n : ∀ d sk op, keeps due_frame (apply_nested hash_of key_addresses nth_element fuel n d sk op).
Proof.
  induction n as [|n IH]; intros d sk op; cbn [apply_nested]; [apply keeps_throw|].
  pose proof (λ d i, due_push_proposal _ d i (IH (d + 1) false)) as Hp.
  pose proof due_evaluate_operation. unfold start_evaluate, set_applied_operation_result. solve_due.
  intros s [] s' [= <-]; split; eauto.
Qed.
Lemma due_apply_operation d sk op : keeps due_frame (apply_operation hash_of key_addresses nth_element fuel d sk op).
Proof. intros s r s' E. by eapply due_apply_nested. Qed.

Definition number_due (s : database) : nat :=
  size (filter (λ x : Z * proposal_object, proposal_expiration x.2 ≤ time (dgpo s)) (proposals s)).

Lemma number_due_lt s s' i p :
  due_frame s s' → proposals s !! i = Some p → due s p → proposals s' !! i = None →
  (number_due s' < number_due s)%nat.
Proof.
  intros [Ht Hd] Hi Hp Hn. unfold number_due.
  rewrite <- !size_dom. apply subset_size. rewrite Ht. split.
  - intros j (q & Hq)%elem_of_dom. apply map_lookup_filter_Some in Hq as [Hq Hdq].
    destruct (Hd j q Hq Hdq) as (q' & ? & ?). apply elem_of_dom. exists q'. by apply map_lookup_filter_Some.
  - intros Hs. assert (i ∈ dom (filter (λ x : Z * proposal_object, proposal_expiration x.2 ≤ time (dgpo s)) (proposals s))) as Hin.
    { apply elem_of_dom. exists p. by apply map_lookup_filter_Some. }
    apply Hs, elem_of_dom in Hin as [q Hq]. apply map_lookup_filter_Some in Hq as [Hq _]. congruence.
Qed.

Notation clear_one := (clear_expired_proposal hash_of key_addresses nth_element fuel).
Notation push_due := (push_due_proposal hash_of key_addresses nth_element fuel).

(** What is to happen to a proposal that is due: it is executed when its approvals
    authorize it; when they do not, or the check or the execution throws, it is removed
    and nothing else changes. *)
Variant cleared_one (i : Z) (p : proposal_object) (s : database) : database → Prop :=
  | executed s' :
      is_authorized_to_execute key_addresses p s = Ok (true, s) → push_due i s = Ok (tt, s') →
      cleared_one i p s s'
  | not_authorized :
      is_authorized_to_execute key_addresses p s = Ok (false, s) →
      cleared_one i p s (set_proposals (delete i (proposals s)) s)
  | threw e :
      is_authorized_to_execute key_addresses p s = Err e ∨
        is_authorized_to_execute key_addresses p s = Ok (true, s) ∧ push_due i s = Err e →
      caught e → cleared_one i p s (set_proposals (delete i (proposals s)) s).

(** [n] proposals cleared one after the other, each the next that is due and each gone. *)
Inductive cleared : nat → database → database → Prop :=
  | cleared_done s : cleared 0 s s
  | cleared_next n i p s s1 s2 :
      due_proposal s = Some (i, p) → cleared_one i p s s1 → proposals s1 !! i = None →
      cleared n s1 s2 → cleared (S n) s s2.

Lemma clear_one_spec i p s :
  proposals s !! i = Some p →
  match clear_one (i, p) s with
  | Ok (_, s') => due_frame s s' ∧ proposals s' !! i = None ∧ cleared_one i p s s'
  | Err e => caught e = false ∧
      (is_authorized_to_execute key_addresses p s = Err e ∨ push_due i s = Err e)
  end.
Proof.
  intros Hi. unfold clear_expired_proposal, try_catch, mbind, M_bind.
  assert (remove (V:=proposal_object) i s = Ok (tt, set_proposals (delete i (proposals s)) s)) as Hr.
  { unfold remove. cbn. by rewrite Hi. }
  pose proof (due_remove i _ _ _ Hr) as Fr.
  destruct (is_authorized_to_execute key_addresses p s) as [[ok s1]|e] eqn:Ea.
  - apply authorized_reads in Ea as Es; subst s1. destruct ok; cbn [when negb].
    + destruct (push_due i s) as [[[] s2]|e] eqn:Ep; cbn.
      * split; [|split; [|by apply executed]].
        -- eapply due_push_proposal; [|exact Ep]. intros op. apply due_apply_operation.
        -- unfold push_due_proposal, push_proposal in Ep. bind Ep as q Hq. bind_step Ep. bind Ep as [] Hd. bind Ep as rs Hrs.
           unfold remove in Ep. cbn in Ep. case_match; simplify_eq. apply lookup_delete_eq.
      * destruct (caught e) eqn:Ec; [|by auto]. cbn. rewrite Hr. split; [done|]. split; [apply lookup_delete_eq|].
        eapply threw; [right; by split|by rewrite Ec].
    + cbn. rewrite Hr. split; [done|]. split; [apply lookup_delete_eq|by apply not_authorized].
  - destruct (caught e) eqn:Ec; [|by auto]. cbn. rewrite Hr. split; [done|]. split; [apply lookup_delete_eq|].
    eapply threw; [by left|by rewrite Ec].
Qed.

Lemma clear_loop n : ∀ s, (number_due s < n)%nat →
  ∃ k s', (k ≤ number_due s)%nat ∧ cleared k s s' ∧ due_frame s s' ∧
    match while_some n due_proposal clear_one s with
    | Ok (_, s2) => s2 = s' ∧ due_proposal s' = None
    | Err e => caught e = false ∧ ∃ i p, due_proposal s' = Some (i, p) ∧
        (is_authorized_to_execute key_addresses p s' = Err e ∨ push_due i s' = Err e)
    end.
Proof.
  induction n as [|n IH]; intros s Hn; [lia|]. rewrite while_some_S.
  destruct (due_proposal s) as [[i p]|] eqn:Ed.
  2: { exists 0%nat, s. split_and!; [lia|constructor|reflexivity|done..]. }
  pose proof Ed as Hd. apply first_due_Some in Ed as [Hi Hp]. pose proof (clear_one_spec i p s Hi) as H.
  unfold mbind, M_bind. destruct (clear_one (i, p) s) as [[[] s1]|e].
  2: { exists 0%nat, s. destruct H as [Hc H]. split_and!; [lia|constructor|reflexivity|done|by exists i, p]. }
  destruct H as (F & Hg & H).
  assert (number_due s1 < number_due s)%nat.
  { apply (number_due_lt s s1 i p); try done. unfold due. by apply Z.leb_le. }
  destruct (IH s1 ltac:(lia)) as (k & s' & Hk & Hs & F' & Hr).
  exists (S k), s'. split_and!; [lia|by econstructor|by etransitivity|exact Hr].
Qed.

(** C11: Due proposals are cleared.  Whatever the executed proposals do, among them
    proposing, approving and executing others, the handler ends after clearing at most
    as many proposals as were due: each is executed or, when its approvals do not
    authorize it or it throws, removed without further effect, each is gone afterwards,
    and none becomes due on the way.  It then returns with no due proposal left; or the
    next due proposal throws what no handler of the program catches, and the block fails
    with that: the loop itself never runs out. *)
Theorem clear_proposals_ends s :
  ∃ k s', (k ≤ number_due s)%nat ∧ cleared k s s' ∧ due_frame s s' ∧
    match clear_expired_proposals hash_of key_addresses nth_element fuel s with
    | Ok (_, s2) =>
        s2 = s' ∧ map_Forall (λ _ p, time (dgpo s) < proposal_expiration p) (proposals s')
    | Err e => caught e = false ∧ ∃ i p, due_proposal s' = Some (i, p) ∧
        (is_authorized_to_execute key_addresses p s' = Err e ∨ push_due i s' = Err e)
    end.
Proof.
  unfold clear_expired_proposals.
  assert (number_due s ≤ size (proposals s))%nat.
  { unfold number_due. rewrite <- !size_dom. apply subseteq_size, dom_filter_subseteq. }
  destruct (clear_loop (S (size (proposals s))) s ltac:(lia)) as (k & s' & Hk & Hs & F & Hr).
  exists k, s'. split_and!; [done..|]. destruct (while_some _ _ _ s) as [[[] s2]|e]; [|done].
  destruct Hr as [-> Hd]. split; [done|].
  unfold due_proposal in Hd. apply first_due_None in Hd; [|intros; bool_to_prop; lia]. rewrite (df_time _ _ F) in Hd.
  intros i p Hi. specialize (Hd i p Hi). cbn in Hd. by apply Z.leb_gt.
Qed.

End execution.

(** ** The books *)
Section proposal_books.
Context `{EX : Ext} (hash_of : Z → list Z → Z) (key_addresses : Z → list Z).
Context (nth_element : nth_element_t) (fuel : nat).

Lemma clear_one_keeps R `{!PreOrder R} x :
  (∀ i, keeps R (push_due_proposal hash_of key_addresses nth_element fuel i)) →
  (∀ i, keeps R (remove (V:=proposal_object) i)) →
  keeps R (clear_expired_proposal hash_of key_addresses nth_element fuel x).
Proof.
  intros Hp Hr. destruct x as [i p]. unfold clear_expired_proposal.
  apply keeps_bind; [apply _| |intros []; [apply keeps_ret; apply _|apply Hr]].
  apply keeps_try; [|intros e; apply keeps_ret; apply _].
  apply keeps_bind; [apply _|apply reads_keeps, authorized_reads; apply _|intros []; [|apply keeps_ret; apply _]].
  apply keeps_bind; [apply _|apply Hp|intros _]. apply (keeps_ret R).
Qed.
Lemma clear_proposals_keeps R `{!PreOrder R} :
  (∀ i, keeps R (push_due_proposal hash_of key_addresses nth_element fuel i)) →
  (∀ i, keeps R (remove (V:=proposal_object) i)) →
  keeps R (clear_expired_proposals hash_of key_addresses nth_element fuel).
Proof.
  intros Hp Hr s [] s' E. unfold clear_expired_proposals in E. revert E. apply (while_some_keeps _ _ R).
  intros s1 x s2 _. by apply clear_one_keeps.
Qed.

Lemma op_clear_proposals : keeps op_frame (clear_expired_proposals hash_of key_addresses nth_element fuel).
Proof.
  apply clear_proposals_keeps; [apply _| |intros i; solve_op].
  intros i. apply op_push_proposal. intros op. apply op_apply_operation.
Qed.
Lemma balance_clear_proposals :
  (∀ less n l, nth_element less n l ≡ₚ l) →
  keeps balance_step (clear_expired_proposals hash_of key_addresses nth_element fuel).
Proof.
  intros Hn. apply clear_proposals_keeps; [apply _| |intros i; apply balance_remove_proposal].
  intros i. apply balance_push_proposal. intros op Hop. by apply balance_apply_operation.
Qed.

End proposal_books.

(** *** A proposed transfer

    Account 17 has proposed to pay account 18; its approval executes the proposal. *)
Definition ex_proposed : list operation := [transfer_operation (Asset 10 0) 17 18 (Asset 100 0) None].
Definition ex_proposal (expiration : Z) : proposal_object :=
  ProposalObject expiration None ex_proposed {[ 17 ]} ∅ ∅ ∅ ∅ 18 None.
Definition ex_proposals : database := set_proposals {[ 5 := ex_proposal 1600009000 ]} ex_ledger.
Definition ex_apply (depth : Z) : operation → M database operation_result :=
  apply_operation ex_hash ex_key_addresses ex_nth_element 10 depth false.

Lemma nesting_is_bounded_witness :
  apply_nested ex_hash ex_key_addresses ex_nth_element 10 50 0 false
    (proposal_update_operation (Asset 1 0) 17 5 {[ 17 ]} ∅ ∅ ∅ ∅ ∅ 10) ex_proposals
  = ex_apply 0 (proposal_update_operation (Asset 1 0) 17 5 {[ 17 ]} ∅ ∅ ∅ ∅ ∅ 10) ex_proposals.
Proof. unfold ex_apply. apply (nesting_is_bounded ex_hash ex_key_addresses ex_nth_element 10 50). vm_compute. lia. Defined.

Lemma wf_authorities_proposals x s : wf_authorities s → wf_authorities (set_proposals x s).
Proof. done. Qed.

Lemma approval_executes_authorized_witness :
  match proposal_update_apply ex_key_addresses (push_proposal (ex_apply 1) 0) 5 {[ 17 ]} ∅ ∅ ∅ ∅ ∅ ex_proposals with
  | Ok (_, s') => proposals s' = ∅ ∧ bal s' 17 0 = 4890 ∧
      operations_authorized ex_key_addresses ∅ {[ 17 ]} ∅ ex_proposed
        (put_proposal 5 (update_approvals {[ 17 ]} ∅ ∅ ∅ ∅ ∅ (ex_proposal 1600009000)) ex_proposals)
  | Err _ => False
  end.
Proof.
  destruct (proposal_update_apply _ _ _ _ _ _ _ _ _ ex_proposals) as [[r s']|e] eqn:E; [|by vm_compute in E].
  assert (proposals ex_proposals !! 5 = Some (ex_proposal 1600009000)) as Hi by apply lookup_singleton_eq.
  assert (Forall typed_operation (proposed_operations (ex_proposal 1600009000))) as Ht by repeat constructor.
  pose proof (approval_executes_authorized ex_key_addresses (ex_apply 1) 0 5 {[ 17 ]} ∅ ∅ ∅ ∅ ∅
    (ex_proposal 1600009000) ex_proposals r s' (wf_authorities_proposals _ _ ex_ledger_authorities) Hi Ht E) as H.
  destruct H as [->|(_ & Ha & _)]; [exfalso; vm_compute in E; discriminate E|].
  split_and!; [..|exact Ha]; clear Ha; vm_compute in E; injection E as <- <-; by vm_compute.
Defined.

(** Two proposals are due: the approved one is executed, the other removed. *)
Definition ex_due : database :=
  set_proposals
    {[ 5 := ex_proposal 1500000000;
       6 := update_approvals {[ 17 ]} ∅ ∅ ∅ ∅ ∅ (ex_proposal 1500000000) ]} ex_ledger.

Lemma clear_proposals_ends_witness :
  ∃ k s', (k ≤ 2)%nat ∧ cleared ex_hash ex_key_addresses ex_nth_element 10 k ex_due s' ∧
    proposals s' = ∅ ∧ bal s' 17 0 = 4890.
Proof.
  destruct (clear_proposals_ends ex_hash ex_key_addresses ex_nth_element 10 ex_due) as (k & s' & Hk & Hc & _ & H).
  exists k, s'. split_and!; [by vm_compute in Hk|exact Hc|..]; clear Hk Hc.
  all: destruct (clear_expired_proposals ex_hash ex_key_addresses ex_nth_element 10 ex_due) as [[u s2]|e] eqn:E;
    [|by vm_compute in E].
  all: destruct H as [<- _]; vm_compute in E; injection E as <- <-; by vm_compute.
Defined.
