(* ===== verification/ApplyBlock.v ===== *)
(** * Applying a block: chain/db_block.cpp

    [_apply_block]: the checks of the header, the size and the merkle root, the
    transactions in order, the counters and the pay of the witnesses, maintenance when
    it is due, the summary, and everything a block expires.  It is the state transition
    [push_block] relies on: the instance of [ChainState] at the end is the database of
    the chain.

    The books are kept by every block but one: a block that is due for maintenance and
    buys back assets, or deprecates annual members, runs operations whose failures leave
    changes this development only has the frame of ([CaughtOperations]). *)

From S2P Require Import Prelude External Asset UndoDb Authority Operations Block ForkDb BlockStore Chain.
From S2P Require Import Vesting State Balance WitnessSchedule Fill Market Trade.
From S2P Require Import Evaluator MarketOps Ledger Frame OpFrame Proposal Transaction Expire ExpireBooks Budget Election Maintenance Replay ProposalRun.

Definition skip_witness_signature : Z := 1.
Definition skip_merkle_check : Z := 128.
Definition skip_undo_history_check : Z := 512.
Definition skip_witness_schedule_check : Z := 1024.

(** What blocks carry beyond the fields of their record: the transaction behind a
    digest, the packed sizes and the recovery of the key of a signature; what is
    unpacked has its type. *)
Class BlockCodec := {
  unpack_transaction : Z → signed_transaction;
  pack_size : signed_block → Z;
  recover_key : Z → block_id_type * Z * Z * Z → result Z;
  unpack_typed t : Forall typed_operation (trx_operations (unpack_transaction t))
}.

Section apply_block.
Context `{EX : Ext} `{BX : BlockExt} `{SB : SlotBits} `{BC : BlockCodec}.
Context `{SR : ShiftRight} `{MB : FindMsb}.
Context (hash_of : Z → list Z → Z) (key_addresses : Z → list Z).
Context (nth_element : nth_element_t) (fuel : nat) (track_standby_votes : bool).
Context {CO : CaughtOperations hash_of key_addresses nth_element fuel}.

(** ** The header *)
Definition signee (b : signed_block) : result Z :=
  recover_key (witness_signature b) (previous b, timestamp b, witness b, transaction_merkle_root b).
Definition validate_signee (b : signed_block) (expected_signee : Z) : result bool :=
  k ← signee b; Ok (k =? expected_signee).

Definition check_schedule (b : signed_block) : M database unit :=
  slot_num ← (λ s, lift (get_slot_at_time (timestamp b) s) s);
  assert_that (slot_num >? 0);;
  scheduled_witness ← (λ s, lift (get_scheduled_witness slot_num s) s);
  assert_that (witness b =? scheduled_witness).

Definition validate_block_header (skip : Z) (b : signed_block) : M database unit :=
  d ← gets dgpo;
  assert_that (bool_decide (head_block_id d = previous b));;
  assert_that (time d <? timestamp b);;
  w ← get (V:=witness_object) (witness b);
  when (negb (has_skip skip skip_witness_signature))
    (ok ← lift (validate_signee b (signing_key w)); assert_that ok);;
  when (negb (has_skip skip skip_witness_schedule_check)) (check_schedule b).

Definition check_block (skip : Z) (b : signed_block) : M database unit :=
  p ← get_parameters;
  when (negb (has_skip skip skip_block_size_check)) (assert_that (pack_size b <=? maximum_block_size p));;
  assert_that (has_skip skip skip_merkle_check || (transaction_merkle_root b =? (calculate_merkle_root b).1));;
  validate_block_header skip b.

Notation apply_trx := (_apply_transaction hash_of key_addresses nth_element fuel).
Fixpoint apply_transactions (skip : Z) (l : list Z) : M database unit :=
  match l with
  | [] => mret tt
  | t :: l => _ ← apply_trx skip (unpack_transaction t); apply_transactions skip l
  end.

(** ** The block *)

(** Up to the new head; the result tells whether maintenance is due. *)
Definition begin_apply (checkpoints : list Z) (skip : Z) (b : signed_block) : M database bool :=
  puts (set_applied_operations []);;
  check_block skip b;;
  maint_needed ← gets (λ s, next_maintenance_time (dgpo s) <=? timestamp b);
  puts (set_issue_453_affected_assets ∅);;
  apply_transactions skip (Block.transactions b);;
  missed ← update_witness_missed_blocks b;
  _ ← update_global_dynamic_data checkpoints (has_skip skip skip_undo_history_check) b missed;
  mret maint_needed.

Definition create_block_summary (b : signed_block) : M database unit := λ s,
  let sid := Z.land (block_num b) 65535 in
  match block_summaries s !! sid with
  | None => Err assert_exception
  | Some _ => Ok (tt, set_block_summaries (<[sid := (block_id b).1]> (block_summaries s)) s)
  end.

(** The expirations, in the order of the source. *)
Definition clear_expired : M database unit :=
  clear_expired_transactions;;
  clear_expired_proposals hash_of key_addresses nth_element fuel;;
  clear_expired_orders fuel;;
  clear_expired_htlcs;;
  update_expired_feeds nth_element fuel;;
  update_core_exchange_rates;;
  update_withdraw_permissions.

Definition end_apply (b : signed_block) (maint_needed : bool) : M database unit :=
  update_signing_witness (witness b) b;;
  update_last_irreversible_block;;
  when maint_needed (perform_chain_maintenance nth_element fuel track_standby_votes b);;
  create_block_summary b;;
  clear_expired;;
  update_maintenance_flag maint_needed;;
  update_witness_schedule;;
  puts (set_applied_operations []).

Definition _apply_block (checkpoints : list Z) (skip : Z) (b : signed_block) : M database unit :=
  maint_needed ← begin_apply checkpoints skip b; end_apply b maint_needed.

End apply_block.

(** ** What the handlers leave alone *)
Record handler_frame (s s' : database) : Prop := {
  hf_op : op_frame s s';
  hf_proposals : proposals s' = proposals s
}.
#[export] Instance handler_frame_preorder : PreOrder handler_frame.
Proof. split; [by intros s|]. intros s1 s2 s3 [] []. split; [by etransitivity|congruence]. Qed.
Lemma handler_market {A} (m : M database A) : keeps market_frame m → keeps handler_frame m.
Proof. intros H s r s' E. destruct (H _ _ _ E). by split. Qed.
Lemma handler_reads {A} (m : M database A) : reads m → keeps handler_frame m.
Proof. apply reads_keeps, _. Qed.
Lemma while_some_handler {A} R `{!PreOrder R} n (next : database → option A) body :
  (∀ a, keeps R (body a)) → keeps R (while_some n next body).
Proof. intros Hb s [] s' E. revert E. apply (while_some_keeps _ _ R). intros s1 a s2 _. apply Hb. Qed.

(** Paying a witness touches vesting balances and the witness only. *)
Section witness_pay.
Context `{EX : Ext}.

Lemma books_witness_pay wit amt : bookkeeping (deposit_witness_pay wit amt).
Proof.
  assert (∀ ov amt vs ty o rv, bookkeeping (deposit_lazy_vesting ov amt vs ty o rv)) as Hl.
  { intros. apply keeps_deposit_lazy; [apply _|by split..]. }
  unfold deposit_witness_pay. solve_keeps_with ltac:(by split).
Qed.
Lemma handler_witness_pay wit amt :
  keeps (λ s s', gpo s' = gpo s ∧ dgpo s' = dgpo s ∧ transactions s' = transactions s ∧
                 proposals s' = proposals s ∧ governance s' = governance s) (deposit_witness_pay wit amt).
Proof.
  assert (PreOrder (λ s s' : database, gpo s' = gpo s ∧ dgpo s' = dgpo s ∧ transactions s' = transactions s ∧
    proposals s' = proposals s ∧ governance s' = governance s)) as HP by (split; [done|]; intros s1 s2 s3; naive_solver congruence).
  assert (∀ ov amt vs ty o rv, keeps (λ s s', gpo s' = gpo s ∧ dgpo s' = dgpo s ∧ transactions s' = transactions s ∧
    proposals s' = proposals s ∧ governance s' = governance s) (deposit_lazy_vesting ov amt vs ty o rv)).
  { intros. apply keeps_deposit_lazy; [apply _|done..]. }
  unfold deposit_witness_pay. solve_keeps_with ltac:(done).
Qed.
End witness_pay.

Section handlers.
Context `{EX : Ext} (nth_element : nth_element_t) (fuel : nat).
Hint Extern 3 (keeps handler_frame _) => apply handler_market; solve [eauto with graphene nocore] : graphene.
Hint Extern 3 (keeps handler_frame _) => apply handler_reads; solve [eauto with graphene nocore] : graphene.
Ltac solve_handler := repeat first
  [ apply keeps_deref; apply _ | progress solve_keeps_with ltac:(by split) ].

Lemma handler_check_calls a en fo : keeps handler_frame (check_call_orders fuel a en fo).
Proof. apply handler_market, frame_check_call_orders. Qed.
Lemma handler_cancel_settle i v : keeps handler_frame (cancel_settle_order i v).
Proof. apply handler_market, frame_cancel_settle. Qed.
Hint Resolve handler_check_calls handler_cancel_settle : graphene.

Lemma handler_limit_orders : keeps handler_frame (clear_expired_limit_orders fuel).
Proof.
  intros s r s' E. revert E. unfold clear_expired_limit_orders. apply while_some_handler; [apply _|]. intros [i o].
  unfold cancel_expired_order. solve_handler.
Qed.
Lemma handler_htlcs : keeps handler_frame clear_expired_htlcs.
Proof.
  intros s r s' E. revert E. unfold clear_expired_htlcs. apply while_some_handler; [apply _|]. intros [i h].
  unfold refund_htlc. solve_handler.
Qed.
Lemma handler_permissions : keeps handler_frame update_withdraw_permissions.
Proof.
  intros s r s' E. revert E. unfold update_withdraw_permissions. apply while_some_handler; [apply _|]. intros x. solve_handler.
Qed.

Lemma handler_settle_order n mia i v : ∀ settled, keeps handler_frame (settle_order n mia i v settled).
Proof.
  assert (∀ c o p ms fp, keeps handler_frame (try_match c o p ms fp)) as Ht.
  { intros c o p ms fp s r s' E. unfold try_match in E.
    destruct (match_call_settle c o p ms fp s) as [[x s1]|e] eqn:Em; [injection E as _ <-|by destruct e; simplify_eq].
    revert Em. apply handler_market, frame_match_call_settle. }
  induction n as [|n IH]; intros settled; cbn [settle_order]; [apply keeps_throw|]. solve_handler.
Qed.
Lemma handler_settle_loop n : ∀ v, keeps handler_frame (settle_loop fuel n v).
Proof.
  induction n as [|n IH]; intros v; cbn [settle_loop]; [apply keeps_throw|]. pose proof handler_settle_order.
  assert (∀ mia a, reads (get_bitasset_data mia a)) by (intros; unfold get_bitasset_data; solve_reads).
  assert (∀ mia b v, reads (settle_volume mia b v)) by (intros; unfold settle_volume; solve_reads).
  assert (∀ v, reads (next_asset v)) by (intros; unfold next_asset; solve_reads). solve_handler.
Qed.
Lemma handler_orders : keeps handler_frame (clear_expired_orders fuel).
Proof.
  unfold clear_expired_orders, clear_due_settlements. pose proof handler_limit_orders. pose proof handler_settle_loop.
  solve_handler.
Qed.

Lemma handler_copy_cer mia : keeps handler_frame (copy_cer mia).
Proof. unfold copy_cer. solve_handler. Qed.
Lemma handler_feeds : keeps handler_frame (update_expired_feeds nth_element fuel).
Proof.
  pose proof handler_copy_cer. unfold update_expired_feeds.
  assert (∀ mia, keeps handler_frame (update_expired_feed nth_element fuel mia))
    by (intros; unfold update_expired_feed; solve_handler).
  assert (∀ ids, keeps handler_frame (update_feeds nth_element fuel ids))
    by (induction ids; cbn [update_feeds]; solve_handler).
  assert (∀ ids, keeps handler_frame (check_assets fuel ids)) by (induction ids; cbn [check_assets]; solve_handler).
  solve_handler.
Qed.
Lemma handler_exchange_rates : keeps handler_frame update_core_exchange_rates.
Proof.
  intros s r s' E. revert E. unfold update_core_exchange_rates. apply while_some_handler; [apply _|]. intros mia.
  pose proof handler_copy_cer. solve_handler.
Qed.
End handlers.

(** ** The first half of a block *)
Section block_frames.
Context `{EX : Ext} `{BX : BlockExt} `{SB : SlotBits} `{BC : BlockCodec}.
Context (hash_of : Z → list Z → Z) (key_addresses : Z → list Z).
Context (nth_element : nth_element_t) (fuel : nat).
Notation apply_trx := (_apply_transaction hash_of key_addresses nth_element fuel).
Notation apply_trxs := (apply_transactions hash_of key_addresses nth_element fuel).
Notation begin_ := (begin_apply hash_of key_addresses nth_element fuel).

Lemma global_data_inv cps sk b missed s r s' :
  update_global_dynamic_data cps sk b missed s = Ok (r, s') → s' = set_dgpo (block_dgp cps b missed (dgpo s)) s.
Proof.
  intros E. unfold update_global_dynamic_data in E. apply M_bind_Ok in E as ([] & s1 & [= <-] & E).
  apply M_bind_Ok in E as (d & s2 & [= <- <-] & E). apply M_bind_Ok in E as ([] & s3 & E3 & E).
  injection E as _ <-. destruct sk; [by injection E3 as <-|]. by apply lift_Ok in E3 as [_ ->].
Qed.
Lemma reads_witness_objects l : reads (witness_objects l).
Proof. induction l as [|i l IH]; cbn [witness_objects]; solve_reads. Qed.
Lemma irreversible_inv s s' :
  update_last_irreversible_block s = Ok (tt, s') →
  s' = s ∨ ∃ n, last_irreversible_block_num (dgpo s) < n ∧ s' = set_dgpo (set_irreversible n (dgpo s)) s.
Proof.
  intros E. unfold update_last_irreversible_block in E. bind_step E. bind E as ws Hw.
  apply reads_witness_objects in Hw. subst. bind_step E. bind_step E. destruct (_ >? _) eqn:Hg.
  - injection E as <-. right. eexists. split; [|reflexivity]. bool_to_prop. lia.
  - ret_inv E. by left.
Qed.
Lemma reads_header skip b : reads (validate_block_header skip b).
Proof.
  unfold validate_block_header, check_schedule.
  assert (∀ f : database → result Z, reads (λ s, lift (f s) s)) by (intros f s r s' E; by apply lift_Ok in E as [_ ->]).
  assert (∀ c m, reads m → reads (when c m)) by (intros; by apply reads_when). solve_reads.
Qed.
Lemma reads_check_block skip b : reads (check_block skip b).
Proof.
  unfold check_block. pose proof reads_header. assert (∀ c m, reads m → reads (when c m)) by (intros; by apply reads_when).
  solve_reads.
Qed.

(** A transaction adds at most itself to the known ones. *)
Lemma apply_trx_frame skip trx s r s' :
  apply_trx skip trx s = Ok (r, s') →
  dgpo s' = dgpo s ∧ governance s' = governance s ∧
  ∀ id e, transactions s !! id = Some e → transactions s' !! id = Some e.
Proof.
  intros E. apply apply_transaction_inv in E as (_ & _ & s1 & Hs1 & _ & E).
  apply op_apply_operations in E as [_ Hd _ _ Ht _ Hg]. rewrite Hd, Ht, Hg. destruct Hs1 as [->|[-> Hn]]; [done|].
  split; [done|]. split; [done|]. intros id e Hi. cbn. rewrite lookup_insert_ne; [done|]. intros <-. congruence.
Qed.
Lemma apply_trxs_frame skip l : ∀ s r s', apply_trxs skip l s = Ok (r, s') →
  dgpo s' = dgpo s ∧ governance s' = governance s ∧
  ∀ id e, transactions s !! id = Some e → transactions s' !! id = Some e.
Proof.
  induction l as [|t l IH]; intros s r s' E; cbn [apply_transactions] in E; [by injection E as _ <-|].
  apply M_bind_Ok in E as (x & s1 & E1 & E). apply apply_trx_frame in E1 as (D1 & G1 & T1).
  apply IH in E as (D2 & G2 & T2). split; [congruence|]. split; [congruence|auto].
Qed.

Definition missed_frame (s s' : database) : Prop :=
  dgpo s' = dgpo s ∧ transactions s' = transactions s ∧ governance s' = governance s.
Lemma missed_loop_frame n : ∀ i, keeps missed_frame (missed_loop n i).
Proof.
  induction n as [|n IH]; intros i s r s' E; cbn [missed_loop] in E; [by injection E as _ <-|].
  bind E as w Hw. bind E as o Ho. bind E as [] Hm. apply modify_Ok in Hm as (v & v' & _ & _ & ->).
  by apply IH in E as (? & ? & ?).
Qed.
Lemma missed_blocks_frame b : keeps missed_frame (update_witness_missed_blocks b).
Proof.
  intros s m s' E. unfold update_witness_missed_blocks in E. bind E as slot Hs. bind E as [] Hz. bind_step E.
  bind E as [] Hl. ret_inv E. destruct (_ <? _); [by apply missed_loop_frame in Hl|by ret_inv Hl].
Qed.

(** The state after it. *)
Lemma begin_inv cps skip b s maint s' :
  begin_ cps skip b s = Ok (maint, s') →
  maint = (next_maintenance_time (dgpo s) <=? timestamp b) ∧
  check_block skip b (set_applied_operations [] s) = Ok (tt, set_applied_operations [] s) ∧
  ∃ s1 missed, apply_trxs skip (Block.transactions b) (set_issue_453_affected_assets ∅ (set_applied_operations [] s))
                 = Ok (tt, s1) ∧
    transactions s' = transactions s1 ∧ dgpo s' = block_dgp cps b missed (dgpo s) ∧ governance s' = governance s.
Proof.
  intros E. unfold begin_apply in E. apply M_bind_Ok in E as ([] & s0 & [= <-] & E). bind E as [] Hc.
  apply reads_check_block in Hc as Es. subst. apply M_bind_Ok in E as (m & s2 & [= <- <-] & E).
  apply M_bind_Ok in E as ([] & s2 & [= <-] & E).
  apply M_bind_Ok in E as ([] & s1 & Ht & E). apply M_bind_Ok in E as (missed & s3 & Hm & E).
  apply M_bind_Ok in E as (n & s4 & Hg & E). injection E as <- <-. apply global_data_inv in Hg as ->.
  apply missed_blocks_frame in Hm as (Hd & Htr & Hgov). split; [done|]. split; [done|]. exists s1, missed.
  split; [exact Ht|]. cbn. apply apply_trxs_frame in Ht as (Hd1 & Hg1 & _). split; [done|].
  split; [by rewrite Hd, Hd1|]. rewrite Hgov. exact Hg1.
Qed.

(** What maintenance finds in the second half is what the block started with. *)
Lemma settled_begin cps skip b s maint s' : begin_ cps skip b s = Ok (maint, s') → settled_chain s → settled_chain s'.
Proof. intros (_ & _ & s1 & missed & _ & _ & Hd & Hg)%begin_inv [H1 H2]. split; [by rewrite Hg|by rewrite Hd]. Qed.
Lemma settled_signing wit b : keeps (λ s s', settled_chain s → settled_chain s') (update_signing_witness wit b).
Proof.
  intros s [] s' E. apply update_signing_witness_inv in E as (s1 & aslot & E1 & E).
  apply modify_Ok in E as (v & w & _ & _ & ->). apply handler_witness_pay in E1 as (_ & Hd & _ & _ & Hg).
  intros [H1 H2]. split; cbn; [by rewrite Hg|by rewrite Hd].
Qed.
Lemma settled_irreversible : keeps (λ s s', settled_chain s → settled_chain s') update_last_irreversible_block.
Proof. by intros s [] s' [->|(n & _ & ->)]%irreversible_inv. Qed.
End block_frames.

(** ** The books across a block *)
Section block_balance.
Context `{EX : Ext} `{BX : BlockExt} `{SB : SlotBits} `{BC : BlockCodec}.
Context `{SR : ShiftRight} `{MB : FindMsb}.
Context (hash_of : Z → list Z → Z) (key_addresses : Z → list Z).
Context (nth_element : nth_element_t) (fuel : nat) (track_standby_votes : bool).
Context {CO : CaughtOperations hash_of key_addresses nth_element fuel}.
Notation begin_ := (begin_apply hash_of key_addresses nth_element fuel).
Notation end_ := (end_apply hash_of key_addresses nth_element fuel track_standby_votes).
Notation block_ := (_apply_block hash_of key_addresses nth_element fuel track_standby_votes).
Hypothesis nth_element_permutes : ∀ less n l, nth_element less n l ≡ₚ l.

Lemma balance_handler {A} (m : M database A) :
  keeps books_step m → keeps handler_frame m → keeps balance_step m.
Proof. intros B H s r s' E. apply balance_books; [by eapply B|]. by eapply hf_proposals, H. Qed.
Lemma balance_clear_transactions : keeps balance_step clear_expired_transactions.
Proof.
  intros s [] s' E. apply balance_books; [by eapply books_clear_transactions|].
  rewrite clear_expired_transactions_spec in E. by injection E as <-.
Qed.
Lemma balance_clear_expired : keeps balance_step (clear_expired hash_of key_addresses nth_element fuel).
Proof.
  unfold clear_expired.
  apply keeps_bind; [apply _|exact balance_clear_transactions|intros _].
  apply keeps_bind; [apply _|by apply balance_clear_proposals|intros _].
  apply keeps_bind; [apply _|apply balance_handler; [by eapply books_clear_expired_orders|apply handler_orders]|intros _].
  apply keeps_bind; [apply _|apply balance_handler; [by eapply books_clear_htlcs|apply handler_htlcs]|intros _].
  apply keeps_bind; [apply _|apply balance_handler; [by eapply books_update_expired_feeds|apply handler_feeds]|intros _].
  apply keeps_bind; [apply _|apply balance_handler; [by eapply books_core_exchange_rates|apply handler_exchange_rates]|intros _].
  apply balance_handler; [by eapply books_withdraw_permissions|apply handler_permissions].
Qed.

(** Changes of the global properties that leave the budget alone. *)
Lemma balance_set_dgpo d s :
  u32_ok (time d) → witness_budget d = witness_budget (dgpo s) → balance_step s (set_dgpo d s).
Proof.
  intros Hd Hb [W T G]. split; [split; [|by destruct T|exact G]|].
  - destruct W. by split.
  - intros k. unfold ledger. rewrite total_set_dgpo. cbn. rewrite Hb. lia.
Qed.
Lemma balance_reads {A} (m : M database A) : reads m → keeps balance_step m.
Proof. apply reads_keeps, _. Qed.
Lemma balance_modify_witness i f : keeps balance_step (modify (V:=witness_object) i f).
Proof.
  intros s [] s' E. assert (∀ μ, total μ s' = total μ s) as T.
  { intros μ. destruct (total_modify (V:=witness_object) μ _ _ _ _ E) as (v & w & _ & _ & _ & ->). cbn. lia. }
  apply (total_modify (V:=witness_object) (ledger None)) in E as (v & w & _ & _ & -> & _).
  apply balance_quiet; [by split|done|exact (good_proposals_same _ _ eq_refl)].
Qed.

Lemma balance_missed_blocks b : keeps balance_step (update_witness_missed_blocks b).
Proof.
  unfold update_witness_missed_blocks. pose proof balance_modify_witness.
  assert (∀ n i, keeps balance_step (missed_loop n i)) as Hl.
  { induction n as [|n IH]; intros i; cbn [missed_loop]; [apply (keeps_ret balance_step)|].
    apply keeps_bind; [apply _|intros s r s' E; by apply lift_Ok in E as [_ ->]|intros w].
    apply keeps_bind; [apply _|apply keeps_get; apply _|intros _]. apply keeps_bind; [apply _|done|intros _; apply IH]. }
  apply keeps_bind; [apply _|intros s r s' E; by apply lift_Ok in E as [_ ->]|intros slot].
  apply keeps_bind; [apply _|apply (keeps_lift balance_step)|intros _].
  apply keeps_bind; [apply _|apply (keeps_gets balance_step)|intros n].
  apply keeps_bind; [apply _| |intros _; apply (keeps_ret balance_step)].
  destruct (_ <? _); [apply Hl|apply (keeps_ret balance_step)].
Qed.

Lemma balance_global_data cps sk b missed s r s' :
  u32_ok (timestamp b) → update_global_dynamic_data cps sk b missed s = Ok (r, s') → balance_step s s'.
Proof. intros Ht E. apply global_data_inv in E as ->. by apply balance_set_dgpo. Qed.


Lemma balance_signing_witness wit b : keeps balance_step (update_signing_witness wit b).
Proof.
  intros s [] s' E S. pose proof (λ k, signing_witness_total wit b s s' (lc k) (le k) (λ _, 0) (lg k) E) as T.
  split; [|exact T]. destruct S as [W [T1 T2] G].
  apply update_signing_witness_inv in E as (s1 & aslot & E1 & E).
  apply (total_modify (V:=witness_object) (ledger None)) in E as (v & w & _ & _ & -> & _).
  pose proof (books_witness_pay _ _ _ _ _ E1) as B. apply handler_witness_pay in E1 as (_ & _ & _ & Hp & _).
  split.
  - apply (wf_same s1); [reflexivity..|]. apply (wf_step_books _ _ B). destruct W. by split.
  - split; cbn; [rewrite (sb_bitassets _ _ B)|rewrite (sb_settle _ _ B)]; done.
  - exact (good_proposals_same s s1 Hp G).
Qed.

(** Bookkeeping the ledger does not see. *)
Lemma balance_summary b : keeps balance_step (create_block_summary b).
Proof.
  intros s [] s' E. unfold create_block_summary in E. destruct (block_summaries s !! _); [|done]. injection E as <-.
  apply balance_quiet; [by split|intros μ; apply total_set_summaries|exact (good_proposals_same _ _ eq_refl)].
Qed.
Lemma balance_schedule : keeps balance_step update_witness_schedule.
Proof.
  intros s [] s' E. unfold update_witness_schedule in E. destruct (_ =? 0)%nat; [done|].
  destruct (_ =? 0); [|injection E as <-; reflexivity]. apply result_bind_Ok in E as (l & _ & [= <-]).
  apply balance_quiet; [by split|intros μ; apply total_set_shuffled|exact (good_proposals_same _ _ eq_refl)].
Qed.
Lemma balance_maintenance_flag f : keeps balance_step (update_maintenance_flag f).
Proof. intros s [] s' [= <-] S. apply balance_set_dgpo; [apply S|reflexivity|done]. Qed.
Lemma balance_irreversible : keeps balance_step update_last_irreversible_block.
Proof.
  intros s [] s' [->|(n & _ & ->)]%irreversible_inv; [reflexivity|]. intros S. by apply balance_set_dgpo; [apply S|..].
Qed.
Lemma balance_clear_applied : keeps balance_step (puts (set_applied_operations [])).
Proof. intros s [] s' [= <-]. apply balance_applied_operations. Qed.

Lemma balance_end_rest b maint :
  keeps balance_step (create_block_summary b;; clear_expired hash_of key_addresses nth_element fuel;;
    update_maintenance_flag maint;; update_witness_schedule;; puts (set_applied_operations [])).
Proof.
  apply keeps_bind; [apply _|apply balance_summary|intros _].
  apply keeps_bind; [apply _|apply balance_clear_expired|intros _].
  apply keeps_bind; [apply _|apply balance_maintenance_flag|intros _].
  apply keeps_bind; [apply _|apply balance_schedule|intros _]. apply balance_clear_applied.
Qed.
(** Maintenance, unless it runs operations this development has only the frame of. *)
Lemma balance_end b (maint : bool) s s' :
  (maint = true → settled_chain s) → end_ b maint s = Ok (tt, s') → balance_step s s'.
Proof.
  intros Hs E. unfold end_apply in E. apply M_bind_Ok in E as ([] & s1 & E1 & E).
  apply M_bind_Ok in E as ([] & s2 & E2 & E). apply M_bind_Ok in E as ([] & s3 & E3 & E).
  assert (balance_step s2 s3) as R3.
  { destruct maint; [|injection E3 as <-; reflexivity]. eapply maintenance_balance; [done| |exact E3].
    by eapply settled_irreversible, settled_signing, Hs. }
  transitivity s1; [by eapply balance_signing_witness|]. transitivity s2; [by eapply balance_irreversible|].
  transitivity s3; [done|]. by eapply balance_end_rest.
Qed.

Lemma balance_transactions_of skip l : keeps balance_step (apply_transactions hash_of key_addresses nth_element fuel skip l).
Proof.
  induction l as [|t l IH]; cbn [apply_transactions]; [apply (keeps_ret balance_step)|].
  apply keeps_bind; [apply _| |intros _; exact IH]. intros s r s' E.
  eapply balance_apply_transaction; [exact nth_element_permutes|apply unpack_typed|exact E].
Qed.
Lemma balance_begin cps skip b :
  u32_ok (timestamp b) → keeps balance_step (begin_apply hash_of key_addresses nth_element fuel cps skip b).
Proof.
  intros Ht. unfold begin_apply.
  apply keeps_bind; [apply _|apply balance_clear_applied|intros _].
  apply keeps_bind; [apply _|apply balance_reads, reads_check_block|intros _].
  apply keeps_bind; [apply _|apply (keeps_gets balance_step)|intros maint].
  apply keeps_bind; [apply _| |intros _].
  { intros s [] s' [= <-]. apply balance_quiet; [by split|intros μ; apply total_set_issue|exact (good_proposals_same _ _ eq_refl)]. }
  apply keeps_bind; [apply _|apply balance_transactions_of|intros _].
  apply keeps_bind; [apply _|apply balance_missed_blocks|intros missed].
  apply keeps_bind; [apply _| |intros _; apply (keeps_ret balance_step)].
  intros s r s' E. by eapply balance_global_data.
Qed.
(** A block after which the books are known: it is not due for maintenance, or
    maintenance runs nothing this development has only the frame of. *)
Definition accounted (b : signed_block) (s : database) : Prop :=
  timestamp b < next_maintenance_time (dgpo s) ∨ settled_chain s.
Lemma balance_apply_block cps skip b s s' :
  u32_ok (timestamp b) → accounted b s → block_ cps skip b s = Ok (tt, s') → balance_step s s'.
Proof.
  intros Ht Ha E. unfold _apply_block in E. apply M_bind_Ok in E as (maint & s1 & Hb & E).
  transitivity s1; [by eapply balance_begin|]. eapply balance_end; [|exact E]. intros ->.
  pose proof Hb as Hb'. apply begin_inv in Hb' as (Hm & _). destruct Ha as [Ha|Ha]; [|by eapply settled_begin].
  symmetry in Hm. apply Z.leb_le in Hm. lia.
Qed.

(** C4: A block keeps the books.  Whatever transactions and proposals it contains,
    whatever it expires, settles and pays, and whatever maintenance it performs
    (elections, the budget, bids, changes of hard forks), when it applies to a sound
    state in which everything held of every asset adds up to its supply, so it does
    afterwards.  Maintenance that buys back assets or deprecates annual members is
    excluded. *)
Theorem block_keeps_books cps skip b s s' :
  u32_ok (timestamp b) → accounted b s → sound_state s → ledger_balanced s →
  block_ cps skip b s = Ok (tt, s') →
  sound_state s' ∧ ledger_balanced s'.
Proof.
  intros Ht Ha S B E. exact (balance_step_balanced s s' (balance_apply_block cps skip b s s' Ht Ha E) S B).
Qed.

End block_balance.

(** ** The head and the known transactions *)
Section block_chain.
Context `{EX : Ext} `{BX : BlockExt} `{SB : SlotBits} `{BC : BlockCodec}.
Context `{SR : ShiftRight} `{MB : FindMsb}.
Context (hash_of : Z → list Z → Z) (key_addresses : Z → list Z).
Context (nth_element : nth_element_t) (fuel : nat) (track_standby_votes : bool).
Context {CO : CaughtOperations hash_of key_addresses nth_element fuel}.
Notation apply_trx := (_apply_transaction hash_of key_addresses nth_element fuel).
Notation apply_trxs := (apply_transactions hash_of key_addresses nth_element fuel).
Notation begin_ := (begin_apply hash_of key_addresses nth_element fuel).
Notation end_ := (end_apply hash_of key_addresses nth_element fuel track_standby_votes).
Notation block_ := (_apply_block hash_of key_addresses nth_element fuel track_standby_votes).

(** A transaction is known, or it has expired on a chain that checks expirations. *)
Definition known (id e : Z) (s : database) : Prop :=
  transactions s !! id = Some e ∨ (e < time (dgpo s) ∧ 0 < head_block_number (dgpo s)).
(** The head stays and nothing is forgotten. *)
Record remembers (s s' : database) : Prop := {
  rm_id : head_block_id (dgpo s') = head_block_id (dgpo s);
  rm_num : head_block_number (dgpo s') = head_block_number (dgpo s);
  rm_time : time (dgpo s') = time (dgpo s);
  rm_known id e : 0 < head_block_number (dgpo s) → known id e s → known id e s'
}.
#[local] Instance remembers_preorder : PreOrder remembers.
Proof. split; [by intros s|]. intros s1 s2 s3 [] []. split; [congruence..|]. intros id e Hn K. apply rm_known1; [congruence|auto]. Qed.

Lemma remembers_chain s s' : chain_frame s s' → remembers s s'.
Proof. intros [H1 H2 H3 H4]. split; [done..|]. unfold known. by rewrite H2, H3, H4. Qed.
Lemma remembers_op {A} (m : M database A) : keeps op_frame m → keeps remembers m.
Proof.
  intros H s r s' E. destruct (H _ _ _ E) as [_ Hd _ _ Ht _ _]. apply remembers_chain. by split; rewrite ?Hd.
Qed.
Lemma remembers_handler {A} (m : M database A) : keeps handler_frame m → keeps remembers m.
Proof. intros H. apply remembers_op. intros s r s' E. by eapply hf_op, H. Qed.
Lemma remembers_reads {A} (m : M database A) : reads m → keeps remembers m.
Proof. apply reads_keeps, _. Qed.
Lemma remembers_puts f : (∀ s, chain_frame s (f s)) → keeps remembers (puts f).
Proof. intros H s [] s' [= <-]. by apply remembers_chain. Qed.

Lemma remembers_clear_transactions : keeps remembers clear_expired_transactions.
Proof.
  intros s [] s' E. rewrite clear_expired_transactions_spec in E. injection E as <-. split; [done..|].
  intros id e Hn [H|H]; [|by right]. destruct (decide (time (dgpo s) ≤ e)).
  - left. cbn. by apply map_lookup_filter_Some.
  - right. cbn. lia.
Qed.
Lemma remembers_clear_expired : keeps remembers (clear_expired hash_of key_addresses nth_element fuel).
Proof.
  unfold clear_expired.
  apply keeps_bind; [apply _|apply remembers_clear_transactions|intros _].
  apply keeps_bind; [apply _|apply remembers_op, op_clear_proposals|intros _].
  apply keeps_bind; [apply _|apply remembers_handler, handler_orders|intros _].
  apply keeps_bind; [apply _|apply remembers_handler, handler_htlcs|intros _].
  apply keeps_bind; [apply _|apply remembers_handler, handler_feeds|intros _].
  apply keeps_bind; [apply _|apply remembers_handler, handler_exchange_rates|intros _].
  apply remembers_handler, handler_permissions.
Qed.

Lemma remembers_signing_witness wit b : keeps remembers (update_signing_witness wit b).
Proof.
  intros s [] s' E. apply update_signing_witness_inv in E as (s1 & aslot & E1 & E).
  apply (total_modify (V:=witness_object) (ledger None)) in E as (v & w & _ & _ & -> & _).
  apply handler_witness_pay in E1 as (_ & Hd & Ht & _ & _). apply remembers_chain. split; cbn; rewrite ?Hd, ?Ht; reflexivity.
Qed.
Lemma remembers_end b maint : keeps remembers (end_ b maint).
Proof.
  unfold end_apply.
  apply keeps_bind; [apply _|apply remembers_signing_witness|intros _].
  apply keeps_bind; [apply _| |intros _].
  { intros s [] s' [->|(n & _ & ->)]%irreversible_inv; [reflexivity|]. by apply remembers_chain. }
  apply keeps_bind; [apply _| |intros _].
  { destruct maint; [|apply (keeps_ret remembers)]. intros s r s' E. apply remembers_chain.
    exact (maintenance_frame nth_element fuel track_standby_votes b s r s' E). }
  apply keeps_bind; [apply _| |intros _].
  { intros s [] s' E. unfold create_block_summary in E. destruct (block_summaries s !! _); [|done]. injection E as <-.
    by apply remembers_chain. }
  apply keeps_bind; [apply _|apply remembers_clear_expired|intros _].
  apply keeps_bind; [apply _|by apply remembers_puts|intros _].
  apply keeps_bind; [apply _| |intros _; by apply remembers_puts].
  intros s [] s' E. unfold update_witness_schedule in E. destruct (_ =? 0)%nat; [done|].
  destruct (_ =? 0); [|injection E as <-; reflexivity]. apply result_bind_Ok in E as (l & _ & [= <-]).
  by apply remembers_chain.
Qed.

Lemma check_block_inv skip b s :
  check_block skip b s = Ok (tt, s) →
  (has_skip skip skip_block_size_check = false → pack_size b ≤ maximum_block_size (parameters (gpo s))) ∧
  (has_skip skip skip_merkle_check = false → transaction_merkle_root b = (calculate_merkle_root b).1) ∧
  head_block_id (dgpo s) = previous b ∧ time (dgpo s) < timestamp b ∧
  (has_skip skip skip_witness_signature = false →
     ∃ w, witnesses s !! witness b = Some w ∧ signee b = Ok (signing_key w)) ∧
  (has_skip skip skip_witness_schedule_check = false →
     ∃ slot, get_slot_at_time (timestamp b) s = Ok slot ∧ 0 < slot ∧ get_scheduled_witness slot s = Ok (witness b)).
Proof.
  intros E. unfold check_block in E. bind_step E. bind E as [] H1. apply reads_when in H1 as Es; [subst|apply (keeps_lift _)].
  bind E as [] H2. unfold validate_block_header in E. bind_step E. bind E as [] H3. bind E as [] H4. bind E as w Hw.
  bind E as [] H5. assert (reads (check_schedule b)) as Hr.
  { unfold check_schedule. assert (∀ f : database → result Z, reads (λ s, lift (f s) s))
      by (intros f s1 r s2 E1; by apply lift_Ok in E1 as [_ ->]). solve_reads. }
  apply reads_when in H5 as Es; [subst|solve_reads].
  split_and!.
  - intros Hk. rewrite Hk in H1. cbn in H1. apply lift_Ok in H1 as [H1 _]. apply fc_assert_Ok in H1. bool_to_prop. lia.
  - intros Hk. rewrite Hk in H2. cbn in H2. bool_to_prop. done.
  - by apply bool_decide_eq_true in H3.
  - bool_to_prop. lia.
  - intros Hk. rewrite Hk in H5. cbn in H5. bind H5 as ok Hok. exists w. split; [done|].
    unfold validate_signee in Hok. apply result_bind_Ok in Hok as (k & Hk1 & [= <-]).
    apply lift_Ok in H5 as [H5 _]. apply fc_assert_Ok in H5. bool_to_prop. congruence.
  - intros Hk. rewrite Hk in E. cbn in E. unfold check_schedule in E. bind E as slot Hs. bind E as [] H6.
    bind E as x Hx. exists slot. apply lift_Ok in E as [E _]. apply fc_assert_Ok in E. bool_to_prop. split; [done|].
    split; [lia|]. congruence.
Qed.


(** C8: An accepted block extends the chain.  It was built on the head, is later than
    it, has a merkle root that matches its transactions and the allowed size, is signed
    with the key of its witness, and its witness is the one scheduled for the slot of
    its time; the corresponding check flags aside.  Then it is the new head. *)
Theorem accepted_block_extends cps skip b s s' :
  block_ cps skip b s = Ok (tt, s') →
  head_block_id (dgpo s) = previous b ∧ time (dgpo s) < timestamp b ∧
  (has_skip skip skip_block_size_check = false → pack_size b ≤ maximum_block_size (parameters (gpo s))) ∧
  (has_skip skip skip_merkle_check = false → transaction_merkle_root b = (calculate_merkle_root b).1) ∧
  (has_skip skip skip_witness_signature = false →
     ∃ w, witnesses s !! witness b = Some w ∧ signee b = Ok (signing_key w)) ∧
  (has_skip skip skip_witness_schedule_check = false →
     ∃ slot, get_slot_at_time (timestamp b) s = Ok slot ∧ 0 < slot ∧ get_scheduled_witness slot s = Ok (witness b)) ∧
  head_block_id (dgpo s') = (block_id b).1 ∧ head_block_number (dgpo s') = block_num b ∧
  time (dgpo s') = timestamp b.
Proof.
  intros E. unfold _apply_block in E. apply M_bind_Ok in E as (maint & s1 & Eb & E).
  apply begin_inv in Eb as (_ & Hc & s0 & missed & _ & _ & Hd & _). apply check_block_inv in Hc as (H1 & H2 & H3 & H4 & H5 & H6).
  apply remembers_end in E as [R1 R2 R3 _]. rewrite R1, R2, R3, Hd. by split_and!.
Qed.

Lemma known_begin cps skip b s maint s' id e :
  0 < block_num b → begin_ cps skip b s = Ok (maint, s') → known id e s → known id e s'.
Proof.
  intros Hn E K. apply begin_inv in E as (_ & Hc & s1 & missed & Ht & Htr & Hd & _).
  apply check_block_inv in Hc as (_ & _ & _ & Hlt & _). apply apply_trxs_frame in Ht as (_ & _ & Ht). cbn in Ht, Hlt.
  unfold known. rewrite Htr, Hd. cbn. destruct K as [K|[K _]]; [left; by apply Ht|right; lia].
Qed.

(** Transactions and blocks in any order; block numbers have not wrapped around. *)
Inductive chain_step : database → database → Prop :=
| step_transaction skip trx r s s' : apply_trx skip trx s = Ok (r, s') → chain_step s s'
| step_block cps skip b s s' : 0 < block_num b → block_ cps skip b s = Ok (tt, s') → chain_step s s'.

Lemma known_step s s' id e : chain_step s s' → known id e s → known id e s'.
Proof.
  intros [skip trx r s1 s2 E|cps skip b s1 s2 Hn E] K.
  - apply apply_trx_frame in E as (Hd & _ & Ht). unfold known in *. rewrite Hd. destruct K; auto.
  - unfold _apply_block in E. apply M_bind_Ok in E as (maint & s0 & Eb & E). pose proof Eb as Eb'.
    apply begin_inv in Eb' as (_ & _ & s3 & missed & _ & _ & Hd & _).
    apply (known_begin _ _ _ _ _ _ _ _ Hn Eb) in K. apply remembers_end in E as [_ _ _ R]. apply R; [by rewrite Hd|done].
Qed.

Lemma apply_trx_fresh skip trx s r s' :
  has_skip skip skip_transaction_dupe_check = false → apply_trx skip trx s = Ok (r, s') →
  ¬ known (trx_id trx) (trx_expiration trx) s ∧ transactions s' !! trx_id trx = Some (trx_expiration trx).
Proof.
  intros Hk E. pose proof E as E'. apply apply_transaction_inv in E' as (_ & _ & s1 & Hs1 & Hx & E').
  apply op_apply_operations in E' as [_ _ _ _ Ht _ _]. rewrite Ht. split; [|by apply Hx].
  unfold _apply_transaction in E. destruct (reads_transaction_checks key_addresses skip trx) as (R1 & R2 & R3 & R4).
  bind E as [] Hv. bind E as [] H1. bind E as [] H2. bind_step E. bind E as [] H3.
  apply (reads_when _ _ R1) in H1 as Es. match type of Es with _ = ?b => subst b end. apply (reads_when _ _ R2) in H2 as Es. match type of Es with _ = ?b => subst b end. rewrite Hk in H1. cbn in H1.
  unfold check_dupe in H1. apply lift_Ok in H1 as [H1 _]. apply fc_assert_Ok in H1.
  intros [K|[K Hn]]; [by rewrite K in H1|]. assert (head_block_number (dgpo s) >? 0 = true) as Hg by lia.
  rewrite Hg in H3. cbn in H3. bind H3 as [] H4. apply (reads_when _ _ R3) in H4 as Es. match type of Es with _ = ?b => subst b end.
  unfold check_time_and_size in H3. bind_step H3. bind_step H3. bind H3 as [] H5. bind H3 as [] H6. bool_to_prop. lia.
Qed.

(** C5: No transaction is applied twice.  Once it has been applied with the duplicate
    check, whatever transactions and blocks follow, it is refused forever: it stays
    known until it has expired, and an expired transaction is not accepted. *)
Theorem no_replay skip skip' trx r s s1 s2 :
  has_skip skip skip_transaction_dupe_check = false → has_skip skip' skip_transaction_dupe_check = false →
  apply_trx skip trx s = Ok (r, s1) → rtc chain_step s1 s2 →
  is_ok (apply_trx skip' trx s2) = false.
Proof.
  intros H1 H2 E R. apply apply_trx_fresh in E as [_ E]; [|done].
  assert (known (trx_id trx) (trx_expiration trx) s2) as K.
  { assert (known (trx_id trx) (trx_expiration trx) s1) as K1 by (by left). clear E H1.
    induction R as [|s1 s3 s2 S _ IH]; [done|]. apply IH. by eapply known_step. }
  destruct (apply_trx skip' trx s2) as [[r2 s3]|e] eqn:E2; [|done]. by apply apply_trx_fresh in E2 as [Hn _].
Qed.

(** ** The state transition of the chain *)
#[refine] Instance chain_state (unpacked_size : Z → Z) : ChainState database := {|
  Chain.head_block_id s := head_block_id (dgpo s);
  head_block_num s := head_block_number (dgpo s);
  last_irreversible_num s := last_irreversible_block_num (dgpo s);
  trx_known t s := match transactions s !! trx_id (unpack_transaction t) with Some _ => true | None => false end;
  trx_size := unpacked_size;
  Chain.apply_trx skip t s := snd <$> apply_trx skip (unpack_transaction t) s;
  begin_block cps skip b s := begin_ cps skip b s;
  end_block skip b maint s := snd <$> end_ b maint s
|}.
Proof.
  - intros cps skip b o maint o' E. apply begin_inv in E as (_ & Hc & s1 & missed & _ & _ & Hd & _).
    apply check_block_inv in Hc as (_ & _ & H & _). rewrite Hd. by split_and!.
  - intros skip b maint o o' E. destruct (end_ b maint o) as [[[] s]|e] eqn:Ee; [|done]. injection E as <-.
    by destruct (remembers_end _ _ _ _ _ Ee).
Defined.

End block_chain.

(** *** A block on the example market

    Witness 3 signs, in its slot, a block with the transaction of [ex_trx] on top of
    block 10. *)
#[export, refine] Instance block_codec_ref : BlockCodec := {|
  unpack_transaction t := if t =? 1 then ex_trx else SignedTransaction t 3 99 1600000060 [] [] 10;
  pack_size b := 1000;
  recover_key sig _ := Ok sig
|}.
Proof. intros t. case_match; [|constructor]. repeat constructor. by vm_compute. Defined.
Definition ex_dgpo : dynamic_global_property_object :=
  DynamicGlobalProperties 10 (byte_swap 10, 9) 1600000000 1 1600003600 0 0 10 0 0 0 0 1599996400.
Definition ex_head : database :=
  set_dgpo ex_dgpo
    (set_witnesses {[ 1 := ex_witness 10; 2 := ex_witness 9; 3 := ex_witness 8 ]}
       (set_block_summaries {[ 3 := (7, 99); 11 := null_id ]} ex_ledger)).
Definition ex_new_block : signed_block := SignedBlock (byte_swap 10, 9) 1600000005 3 21 70 [1] null_id 0.
Definition ex_apply_block : M database unit :=
  _apply_block ex_hash ex_key_addresses ex_nth_element 10 true [] 0 ex_new_block.

Lemma balance_set_witnesses x y s : balance_step s (set_witnesses x (set_block_summaries y s)).
Proof.
  apply balance_quiet; [by split| |exact (good_proposals_same s (set_witnesses _ (set_block_summaries _ _)) eq_refl)].
  intros μ. rewrite total_set_witnesses. apply total_set_summaries.
Qed.
Lemma ex_head_sound : sound_state ex_head ∧ ledger_balanced ex_head.
Proof.
  assert (balance_step ex_ledger ex_head) as R.
  { etransitivity; [apply balance_set_witnesses|]. apply balance_set_dgpo; [by vm_compute|reflexivity]. }
  apply (balance_step_balanced _ _ R ex_ledger_sound). split; [exact ex_ledger_balanced|by vm_compute].
Qed.

(** The same block when maintenance is due, with a worker and nothing to buy back. *)
Definition ex_due : database :=
  set_dgpo (DynamicGlobalProperties 10 (byte_swap 10, 9) 1600000000 1 1600000003 0 0 10 0 0 0 0 1599136000)
  (set_accounts {[ 0 := ex_account 18; 1 := ex_account 18; 2 := ex_account 18; 17 := ex_account 18; 18 := ex_account 18 ]}
  (set_gpo (GlobalProperties (ex_parameters (<[5 := FeeParameters 20 0]> ex_fees)) [1; 2; 3] None 10 [])
  (set_governance (GovernanceState {[ 0 := CommitteeMember 17 2 0 String.EmptyString; 1 := CommitteeMember 18 3 0 String.EmptyString; 2 := CommitteeMember 17 4 0 String.EmptyString ]}
     {[ 0 := ex_worker ]}
     {[ 0 := FbaAccumulator 0 None; 1 := FbaAccumulator 0 None; 2 := FbaAccumulator 0 None ]} ∅ ∅ [] 3 3 (IdSequences 20 2 4 3 1 0 0)) ex_head))).
Lemma total_set_governance μ g s :
  total μ (set_governance g s) =
  total μ s - sum_map (w_fba μ) (fba_accumulators (governance s)) + sum_map (w_fba μ) (fba_accumulators g).
Proof. unfold total. cbn. lia. Qed.
Lemma ex_due_sound : sound_state ex_due ∧ ledger_balanced ex_due.
Proof.
  destruct ex_head_sound as [S B]. refine (balance_step_balanced ex_head _ _ S B).
  etransitivity; [|apply balance_set_dgpo; [by vm_compute|reflexivity]]. apply balance_books; [|reflexivity].
  set (g := GovernanceState _ _ _ _ _ _ _ _ _). intros W T. split; [by destruct W|]. split; [by destruct T|]. intros k.
  rewrite total_set_accounts, total_set_gpo, total_set_governance. unfold g. cbn [fba_accumulators].
  rewrite !sum_map_insert_new, sum_map_singleton by done. change (fba_accumulators (governance ex_head)) with (∅ : gmap Z fba_accumulator_object).
  rewrite sum_map_empty. cbn [ledger linear_weights w_fba accumulated_fba_fees]. lia.
Qed.
Lemma block_keeps_books_witness :
  match ex_apply_block ex_due with
  | Ok (_, s') => holdings 0 s' = supply 0 s' ∧ bal s' 17 0 = 4890 ∧ supply 0 s' = 726850 ∧
      next_maintenance_time (dgpo s') = 1600003603 ∧ witness_budget (dgpo s') = 720000
  | Err _ => False
  end.
Proof.
  assert (u32_ok (timestamp ex_new_block)) as Ht by by vm_compute.
  assert (settled_chain ex_due) as Hm by (split; [reflexivity|by vm_compute]).
  destruct ex_due_sound as [S B]. unfold ex_apply_block.
  destruct (_apply_block ex_hash ex_key_addresses ex_nth_element 10 true [] 0 ex_new_block ex_due) as [[[] s']|e] eqn:E;
    [|vm_compute in E; discriminate E].
  pose proof (block_keeps_books ex_hash ex_key_addresses ex_nth_element 10 true ex_nth_element_permutes [] 0 ex_new_block
    ex_due s' Ht (or_intror Hm) S B E) as (_ & H & _).
  split; [apply H|]. clear H. vm_compute in E. injection E as <-. by vm_compute.
Defined.

Lemma accepted_block_extends_witness :
  match ex_apply_block ex_head with
  | Ok (_, s') => head_block_id (dgpo s') = (block_id ex_new_block).1 ∧ get_slot_at_time 1600000005 ex_head = Ok 1 ∧
      get_scheduled_witness 1 ex_head = Ok 3
  | Err _ => False
  end.
Proof.
  unfold ex_apply_block.
  destruct (_apply_block ex_hash ex_key_addresses ex_nth_element 10 true [] 0 ex_new_block ex_head) as [[[] s']|e] eqn:E;
    [|vm_compute in E; discriminate E].
  pose proof (accepted_block_extends ex_hash ex_key_addresses ex_nth_element 10 true [] 0 ex_new_block ex_head s' E)
    as (_ & _ & _ & _ & _ & H & Hid & _).
  split; [exact Hid|]. destruct (H eq_refl) as (slot & Hs & _ & Hw).
  assert (slot = 1) as -> by (vm_compute in Hs; by injection Hs as <-). split; [exact Hs|exact Hw].
Defined.

Lemma no_replay_witness :
  match _apply_transaction ex_hash ex_key_addresses ex_nth_element 10 0 ex_trx ex_head with
  | Ok (_, s1) => is_ok (_apply_transaction ex_hash ex_key_addresses ex_nth_element 10 0 ex_trx s1) = false
  | Err _ => False
  end.
Proof.
  destruct (_apply_transaction _ _ _ _ _ _ ex_head) as [[r s1]|e] eqn:E; [|vm_compute in E; discriminate E].
  exact (no_replay ex_hash ex_key_addresses ex_nth_element 10 true 0 0 ex_trx r ex_head s1 s1 eq_refl eq_refl E (rtc_refl _ _)).
Defined.

