(* ===== verification/Generate.v ===== *)
(** * Generating a block: chain/db_block.cpp

    [generate_block] discards the pending session, applies the pending transactions
    again on the head, each in a session of its own that is undone when it throws or
    the block would become too big, builds and signs a block of those that remain, and
    pushes it; [validate_transaction] applies a transaction in a session that is always
    undone.  The sessions leave no trace: what the loop computes is a fold over the
    pending transactions, started on the head. *)

From S2P Require Import Prelude External Asset UndoDb Authority Operations Block ForkDb BlockStore Chain ForkSwitch.
From S2P Require Import Pending Vesting State Balance WitnessSchedule Fill Market Trade Evaluator MarketOps Ledger Frame.
From S2P Require Import OpFrame Proposal Transaction Expire ExpireBooks Budget Election Maintenance Replay ProposalRun.
From S2P Require Import ApplyBlock.

(** The packing of blocks and transactions, the results a transaction is stored with,
    and the keys of a witness. *)
Class BlockPacking `{BlockCodec} := {
  (** [processed_transaction]: the transaction with the results of its operations *)
  process : Z → database → Z;
  packed_size : Z → Z;
  packed_header_size : Z;
  packed_id_size : Z → Z;
  public_key : Z → Z;
  sign : Z → block_id_type * Z * Z * Z → Z;
  process_same t s : unpack_transaction (process t s) = unpack_transaction t;
  packed_size_range t : 0 ≤ packed_size t ≤ uint32_max;
  (** the number of transactions is packed seven bits per byte *)
  pack_size_parts b : Z.of_nat (length (Block.transactions b)) < 2 ^ 21 →
    pack_size b ≤ packed_header_size - packed_id_size 0 + 3 + packed_id_size (witness b)
                  + foldr (λ t n, packed_size t + n) 0 (Block.transactions b);
  recover_sign k h : recover_key (sign k h) h = Ok (public_key k)
}.

Section generate.
Context `{EX : Ext} `{BX : BlockExt} `{SB : SlotBits} `{BC : BlockCodec} `{BP : !BlockPacking}.
Context `{SR : ShiftRight} `{MB : FindMsb}.
Context (hash_of : Z → list Z → Z) (key_addresses : Z → list Z).
Context (nth_element : nth_element_t) (fuel : nat) (track_standby_votes : bool) (unpacked_size : Z → Z).
Context {CO : CaughtOperations hash_of key_addresses nth_element fuel}.
#[local] Instance the_chain : ChainState database :=
  chain_state hash_of key_addresses nth_element fuel track_standby_votes unpacked_size.
Notation chain := (chain_database (St:=database)).
Implicit Types (c : chain).

Definition max_block_header_size (witness_id : Z) : Z :=
  packed_header_size - packed_id_size 0 + 3 + packed_id_size witness_id.

(** One transaction in its temporary session. *)
Definition try_transaction (skip maximum total tx : Z) : P chain (option (Z * Z)) := λ c,
  match change (Chain.apply_trx skip tx) (set_objects (a_start (objects c)) c) with
  | (Ok _, c1) =>
      let ptx := process tx (cur c) in
      let new_total_size := u64 (total + packed_size ptx) in
      if new_total_size >? maximum then (on_objects a_undo;; mret None) c1
      else (on_objects a_merge;; mret (Some (ptx, new_total_size))) c1
  | (Err e, c1) => if caught e then (on_objects a_undo;; mret None) c1 else (on_objects a_undo;; raise e) c1
  end.
Fixpoint gather (skip maximum : Z) (l : list Z) (total : Z) (block : list Z) : P chain (list Z) :=
  match l with
  | [] => mret block
  | tx :: l =>
      if u64 (total + packed_size tx) >? maximum then gather skip maximum l total block
      else
        r ← try_transaction skip maximum total tx;
        match r with
        | Some (ptx, new_total_size) => gather skip maximum l new_total_size (block ++ [ptx])
        | None => gather skip maximum l total block
        end
  end.

(** The new block.  [calculate_merkle_root] caches its result. *)
Definition make_block (skip : Z) (head_id : block_id_type) (w witness_id key : Z) (l : list Z) : signed_block :=
  let '(root, b) := calculate_merkle_root (SignedBlock head_id w 0 0 0 l null_id 0) in
  SignedBlock head_id w witness_id root
    (if has_skip skip skip_witness_signature then 0 else sign key (head_id, w, witness_id, root))
    (Block.transactions b) (_block_id b) (_calculated_merkle_root b).

Definition _generate_block (skip w witness_id key : Z) : P chain signed_block :=
  slot_num ← run (λ c, get_slot_at_time w (cur c));
  run (λ _, fc_assert (slot_num >? 0));;
  scheduled_witness ← run (λ c, get_scheduled_witness slot_num (cur c));
  run (λ _, fc_assert (scheduled_witness =? witness_id));;
  reset_pending_session;;
  (if has_skip skip skip_witness_signature then mret tt
   else run (λ c, o ← from_option_r assert_exception (witnesses (cur c) !! witness_id);
                  fc_assert (signing_key o =? public_key key)));;
  maximum ← run (λ c, Ok (maximum_block_size (parameters (gpo (cur c)))));
  on_objects (λ a, Ok (a_start a));;
  update (λ c, Ok (set_session true c));;
  pending ← run (λ c, Ok (_pending_tx c));
  l ← gather skip maximum pending (max_block_header_size witness_id) [];
  reset_pending_session;;
  head_id ← get_head_block_id;
  let b := make_block skip head_id w witness_id key l in
  _ ← Chain.push_block (Z.lor skip skip_transaction_signatures) b;
  mret b.
Definition generate_block (skip w witness_id key : Z) : P chain signed_block := _generate_block skip w witness_id key.

Definition validate_transaction (skip trx : Z) : P chain unit := λ c,
  match change (Chain.apply_trx skip trx) (set_objects (a_start (objects c)) c) with
  | (Ok _, c1) => on_objects a_undo c1
  | (Err e, c1) => (on_objects a_undo;; raise e) c1
  end.

(** ** The loop as a fold *)
Fixpoint collect (skip maximum : Z) (l : list Z) (total : Z) (o : database) : result (list Z * database) :=
  match l with
  | [] => Ok ([], o)
  | tx :: l =>
      if u64 (total + packed_size tx) >? maximum then collect skip maximum l total o
      else
        match Chain.apply_trx skip tx o with
        | Ok o' =>
            let ptx := process tx o in
            if u64 (total + packed_size ptx) >? maximum then collect skip maximum l total o
            else r ← collect skip maximum l (u64 (total + packed_size ptx)) o'; Ok (ptx :: r.1, r.2)
        | Err e => if caught e then collect skip maximum l total o else Err e
        end
  end.

(** A chain with the pending session open on the head [base], in state [o]. *)
Definition session_on (base o : database) (c0 c : chain) : Prop :=
  ∃ s, c = set_objects (Abs o (base :: s) 1 (a_max (objects c0))) c0.

Lemma try_transaction_spec skip maximum total tx base o c0 c :
  (1 ≤ a_max (objects c0))%nat → session_on base o c0 c →
  ∃ c1 o1, try_transaction skip maximum total tx c =
    (match Chain.apply_trx skip tx o with
     | Ok _ => let ptx := process tx o in
         Ok (if u64 (total + packed_size ptx) >? maximum then None else Some (ptx, u64 (total + packed_size ptx)))
     | Err e => if caught e then Ok None else Err e
     end, c1) ∧ session_on base o1 c0 c1 ∧
    o1 = match Chain.apply_trx skip tx o with
         | Ok o' => if u64 (total + packed_size (process tx o)) >? maximum then o else o'
         | Err _ => o
         end.
Proof.
  intros Hm [s ->]. destruct c0 as [[o0 s0 n0 m] f db pt pp ps cps]. cbn in Hm. destruct m as [|m]; [lia|].
  unfold try_transaction, change, on_objects, update, mbind, P_bind, result_bind, a_start, raise, a_merge, a_undo, cur.
  cbn -[u32 u64 Chain.apply_trx]. change (u32 (1 + 1)) with 2.
  destruct (Chain.apply_trx skip tx o) as [o'|e]; cbn -[u64].
  - destruct (_ >? maximum); cbn; do 2 eexists; (split; [reflexivity|split; [by eexists|reflexivity]]).
  - destruct (caught e); cbn; do 2 eexists; (split; [reflexivity|split; [by eexists|reflexivity]]).
Qed.

Lemma gather_spec skip maximum base c0 l : ∀ total block o c,
  (1 ≤ a_max (objects c0))%nat → session_on base o c0 c →
  ∃ c1 o1, session_on base o1 c0 c1 ∧
    gather skip maximum l total block c =
    (match collect skip maximum l total o with Ok r => Ok (block ++ r.1) | Err e => Err e end, c1).
Proof.
  induction l as [|tx l IH]; intros total block o c Hm Hs; cbn [gather collect].
  { exists c, o. split; [done|]. cbn. by rewrite app_nil_r. }
  destruct (_ >? maximum); [by apply IH|]. rewrite P_bind_eq.
  destruct (try_transaction_spec skip maximum total tx base o c0 c Hm Hs) as (c1 & o1 & -> & H1 & ->).
  destruct (Chain.apply_trx skip tx o) as [o'|e].
  - cbn zeta. destruct (_ >? maximum); [by apply IH|].
    destruct (IH (u64 (total + packed_size (process tx o))) (block ++ [process tx o]) o' c1 Hm H1) as (c2 & o2 & H2 & ->).
    exists c2, o2. split; [done|]. destruct (collect _ _ l _ o') as [[r o3]|e]; cbn; [|done]. by rewrite <- app_assoc.
  - destruct (caught e); [by apply IH|]. by exists c1, o.
Qed.


(** ** What a generated block is *)
Lemma collect_sound skip maximum l : ∀ total o r o',
  collect skip maximum l total o = Ok (r, o') → 0 ≤ total ≤ maximum → maximum ≤ uint32_max →
  apply_transactions hash_of key_addresses nth_element fuel skip r o = Ok (tt, o') ∧
  (unpack_transaction <$> r) `sublist_of` (unpack_transaction <$> l) ∧
  total + foldr (λ t n, packed_size t + n) 0 r ≤ maximum ∧ (length r ≤ length l)%nat.
Proof.
  induction l as [|tx l IH]; intros total o r o' E Ht Hm; cbn [collect] in E.
  { injection E as <- <-. cbn. split_and!; [done|constructor|lia|lia]. }
  assert (collect skip maximum l total o = Ok (r, o') →
    apply_transactions hash_of key_addresses nth_element fuel skip r o = Ok (tt, o') ∧
    (unpack_transaction <$> r) `sublist_of` (unpack_transaction <$> tx :: l) ∧
    total + foldr (λ t n, packed_size t + n) 0 r ≤ maximum ∧ (length r ≤ length (tx :: l))%nat) as Hskip.
  { intros E1. destruct (IH _ _ _ _ E1 Ht Hm) as (H1 & H2 & H3 & H4). split_and!; [done|by constructor|done|cbn; lia]. }
  destruct (_ >? maximum); [by apply Hskip|]. destruct (Chain.apply_trx skip tx o) as [o1|e] eqn:Ea.
  2: { destruct (caught e); [by apply Hskip|done]. }
  cbn zeta in E. destruct (_ >? maximum) eqn:Hg; [by apply Hskip|].
  assert (u64 (total + packed_size (process tx o)) = total + packed_size (process tx o)) as Hu.
  { pose proof (packed_size_range (process tx o)). unfold u64. apply Z.mod_small. unfold uint32_max in *. lia. }
  rewrite Hu in *. apply Z.gtb_ltb, Z.ltb_ge in Hg || (rewrite Z.gtb_ltb in Hg; apply Z.ltb_ge in Hg).
  apply result_bind_Ok in E as ([r1 o2] & E & [= <- <-]).
  pose proof (packed_size_range (process tx o)) as Hp. apply IH in E as (H1 & H2 & H3 & H4); [|lia|done].
  split_and!.
  - cbn [apply_transactions]. rewrite process_same. cbn in Ea.
    destruct (_apply_transaction hash_of key_addresses nth_element fuel skip (unpack_transaction tx) o) as [[x o3]|e] eqn:Et;
      cbn in Ea; [injection Ea as ->|done].
    unfold mbind, M_bind. rewrite Et. exact H1.
  - cbn. rewrite process_same. by constructor.
  - cbn. lia.
  - cbn. lia.
Qed.

Lemma make_block_spec skip head_id w witness_id key l :
  let b := make_block skip head_id w witness_id key l in
  previous b = head_id ∧ timestamp b = w ∧ witness b = witness_id ∧ Block.transactions b = l ∧
  transaction_merkle_root b = (calculate_merkle_root b).1 ∧
  (has_skip skip skip_witness_signature = false → signee b = Ok (public_key key)).
Proof.
  unfold make_block, calculate_merkle_root. cbn [Block.transactions].
  destruct l as [|t l]; [split_and!; try reflexivity; intros Hk; unfold signee; cbn; rewrite Hk; apply recover_sign|].
  cbn [_calculated_merkle_root]. change (u32 0 =? 0) with true. cbn [Block.transactions _calculated_merkle_root _block_id].
  set (r := checksum_hash _).
  split_and!; try reflexivity.
  - cbn [_calculated_merkle_root transaction_merkle_root Block.transactions]. destruct (u32 r =? 0); reflexivity.
  - intros Hk. unfold signee. cbn. rewrite Hk. apply recover_sign.
Qed.

(** Transactions leave what the schedule depends on. *)
Lemma applied_schedule l : ∀ o o', applied l o o' →
  dgpo o' = dgpo o ∧ gpo o' = gpo o ∧ shuffled_witnesses o' = shuffled_witnesses o.
Proof.
  induction l as [|tx l IH]; intros o o' Ha; cbn in Ha; [by subst|]. destruct Ha as (sk & o1 & E & Ha).
  destruct (_apply_transaction hash_of key_addresses nth_element fuel sk (unpack_transaction tx) o) as [[x o3]|e] eqn:Et;
    cbn in E; [injection E as ->|done].
  apply apply_transaction_inv in Et as (_ & _ & s1 & Hs1 & _ & Et). apply op_apply_operations in Et as [Hg Hd Hsh _ _ _ _].
  assert (dgpo s1 = dgpo o ∧ gpo s1 = gpo o ∧ shuffled_witnesses s1 = shuffled_witnesses o) as (D & G & S)
    by (destruct Hs1 as [->|[-> _]]; done).
  apply IH in Ha as (H1 & H2 & H3). split_and!; congruence.
Qed.
Lemma slot_frame w o o' : dgpo o' = dgpo o → gpo o' = gpo o → get_slot_at_time w o' = get_slot_at_time w o.
Proof. intros Hd Hg. unfold get_slot_at_time, get_slot_time. by rewrite Hd, Hg. Qed.
Lemma scheduled_frame n o o' :
  dgpo o' = dgpo o → shuffled_witnesses o' = shuffled_witnesses o → get_scheduled_witness n o' = get_scheduled_witness n o.
Proof. intros Hd Hs. unfold get_scheduled_witness. by rewrite Hd, Hs. Qed.

Lemma reset_spec c :
  pending_ok c → ∃ c1, reset_pending_session c = (Ok tt, c1) ∧ cur c1 = head_state c ∧ _pending_tx_session c1 = false ∧
    _pending_tx c1 = _pending_tx c ∧ same_chain c c1 ∧ a_active (objects c1) = 0 ∧ a_max (objects c1) = a_max (objects c).
Proof.
  destruct c as [[o s n m] f db pt pp ps cps]. unfold pending_ok, same_chain, head_state, cur, reset_pending_session.
  cbn. intros (Hm & Hp). destruct ps; cbn in *.
  - destruct Hp as (-> & Hs & Ha). destruct s as [|base s]; [done|]. eexists. split; [reflexivity|]. by split_and!.
  - destruct Hp as (-> & ->). eexists. split; [reflexivity|]. by split_and!.
Qed.

(** Everything up to the push. *)
Lemma generate_inv skip w witness_id key c b c' :
  pending_ok c → generate_block skip w witness_id key c = (Ok b, c') →
  let o := head_state c in
  ∃ slot l o' c1 switched,
    get_slot_at_time w o = Ok slot ∧ 0 < slot ∧ get_scheduled_witness slot o = Ok witness_id ∧
    (has_skip skip skip_witness_signature = false →
       ∃ x, witnesses o !! witness_id = Some x ∧ signing_key x = public_key key) ∧
    collect skip (maximum_block_size (parameters (gpo o))) (_pending_tx c) (max_block_header_size witness_id) o = Ok (l, o') ∧
    b = make_block skip (Chain.head_block_id o) w witness_id key l ∧
    Chain.push_block (Z.lor skip skip_transaction_signatures) b c1 = (Ok switched, c') ∧
    cur c1 = o ∧ _pending_tx c1 = _pending_tx c ∧ same_chain c c1.
Proof.
  intros Ok_c E o. unfold generate_block, _generate_block in E.
  assert (dgpo (cur c) = dgpo o ∧ gpo (cur c) = gpo o ∧ shuffled_witnesses (cur c) = shuffled_witnesses o) as (Hd & Hg & Hsh).
  { unfold o. destruct Ok_c as (Hm & Hp). unfold head_state in *. destruct (_pending_tx_session c); [|done].
    destruct Hp as (_ & _ & Ha). by apply applied_schedule in Ha. }
  rewrite P_bind_run, (slot_frame w o (cur c) Hd Hg) in E. destruct (get_slot_at_time w o) as [slot|e] eqn:Eslot; [|done].
  rewrite P_bind_run in E. destruct (fc_assert (slot >? 0)) as [[]|e] eqn:Epos; [|done]. apply fc_assert_Ok in Epos.
  rewrite P_bind_run, (scheduled_frame slot o (cur c) Hd Hsh) in E.
  destruct (get_scheduled_witness slot o) as [sw|e] eqn:Esw; [|done].
  rewrite P_bind_run in E. destruct (fc_assert (sw =? witness_id)) as [[]|e] eqn:Eeq; [|done]. apply fc_assert_Ok in Eeq.
  apply Z.eqb_eq in Eeq. subst sw.
  destruct (reset_spec c Ok_c) as (c1 & Er & Hcur & Hsess & Hpend & Hsame & Hact & Hmax).
  rewrite P_bind_eq, Er in E. fold o in Hcur.
  assert (∃ k : P chain unit, ((if has_skip skip skip_witness_signature then mret tt
     else run (λ c, x ← from_option_r assert_exception (witnesses (cur c) !! witness_id);
                    fc_assert (signing_key x =? public_key key))) : P chain unit) = k ∧
     ((∃ e, k c1 = (Err e, c1)) ∨ k c1 = (Ok tt, c1) ∧ (has_skip skip skip_witness_signature = false →
       ∃ x, witnesses o !! witness_id = Some x ∧ signing_key x = public_key key))) as (k & Ek & Hk).
  { eexists. split; [reflexivity|]. destruct (has_skip _ _); [by right|]. unfold run. rewrite Hcur.
    destruct (witnesses o !! witness_id) as [x|] eqn:Ex; [|left; by eexists]. cbn [from_option_r mbind result_bind].
    destruct (fc_assert (signing_key x =? public_key key)) as [[]|e] eqn:Ef; [right|left; by eexists].
    split; [done|]. intros _. exists x. apply fc_assert_Ok in Ef. apply Z.eqb_eq in Ef. done. }
  rewrite Ek, P_bind_eq in E. destruct Hk as [[e Hk]|[Hk Hkey]]; rewrite Hk in E; [done|]. clear k Ek Hk.
  rewrite P_bind_run, P_bind_on_objects, P_bind_update, P_bind_run, P_bind_eq in E.
  set (c2 := set_session true (set_objects (a_start (objects c1)) c1)) in E.
  assert (session_on o o (set_session true c1) c2) as Hs.
  { exists (take (a_max (objects c1)) (a_snaps (objects c1))). unfold c2, a_start. rewrite Hact. cbn.
    change (u32 (0 + 1)) with 1. unfold cur in Hcur. by rewrite Hcur. }
  destruct (gather_spec skip (maximum_block_size (parameters (gpo (cur c1)))) o (set_session true c1) (_pending_tx c2)
    (max_block_header_size witness_id) [] o c2) as (c3 & o1 & [s Hs3] & Eg); [cbn; rewrite Hmax; apply Ok_c|done|].
  rewrite Eg in E. rewrite Hcur in E. change (_pending_tx c2) with (_pending_tx c1) in E. rewrite Hpend in E.
  destruct (collect _ _ _ _ _) as [[l o2]|e] eqn:Ec; [|done]. cbn [fst app] in E.
  rewrite P_bind_eq in E. unfold reset_pending_session in E. rewrite P_bind_run in E.
  subst c3. cbn [_pending_tx_session set_objects set_session] in E. rewrite P_bind_on_objects in E.
  cbn [objects set_objects a_undo a_active fc_assert] in E. cbn in E.
  unfold update in E. cbn in E. unfold get_head_block_id in E. rewrite P_bind_run in E. unfold cur in E. cbn in E.
  rewrite P_bind_eq in E. destruct (Chain.push_block _ _ _) as [[sw|e] c4] eqn:Ep; [|done].
  injection E as <- <-. eexists slot, l, o2, _, sw. split; [done|]. split; [lia|]. split; [done|]. split; [done|].
  split; [done|]. split; [reflexivity|]. split; [exact Ep|]. split; [done|]. split; [done|].
  destruct Hsame as (S1 & S2 & S3 & S4 & S5). unfold same_chain, head_state in *. rewrite Hsess in S1. cbn.
  by split_and!.
Qed.

Lemma M_bind_pass {A B} (m : M database A) (k : A → M database B) o a : m o = Ok (a, o) → (m ≫= k) o = k a o.
Proof. intros E. unfold mbind, M_bind. by rewrite E. Qed.
(** A block that passes every check. *)
Lemma check_block_passes skip b o :
  pack_size b ≤ maximum_block_size (parameters (gpo o)) → transaction_merkle_root b = (calculate_merkle_root b).1 →
  head_block_id (dgpo o) = previous b → time (dgpo o) < timestamp b → is_Some (witnesses o !! witness b) →
  (has_skip skip skip_witness_signature = false →
     ∃ x, witnesses o !! witness b = Some x ∧ signee b = Ok (signing_key x)) →
  (∃ slot, get_slot_at_time (timestamp b) o = Ok slot ∧ 0 < slot ∧ get_scheduled_witness slot o = Ok (witness b)) →
  check_block skip b o = Ok (tt, o).
Proof.
  intros H1 H2 H3 H4 [x Hx] H5 (slot & H6 & H7 & H8).
  assert (∀ c : bool, c = true → (assert_that c : M database unit) o = Ok (tt, o)) as Ha by (by intros c ->).
  unfold check_block, get_parameters, when. rewrite (M_bind_pass _ _ o (parameters (gpo o))) by done.
  rewrite (M_bind_pass _ _ o tt) by (destruct (negb _); [apply Ha; lia|done]).
  rewrite (M_bind_pass _ _ o tt) by (apply Ha; rewrite H2, Z.eqb_refl; by rewrite orb_true_r).
  unfold validate_block_header, when. rewrite (M_bind_pass _ _ o (dgpo o)) by done.
  rewrite (M_bind_pass _ _ o tt) by (apply Ha; by apply bool_decide_eq_true).
  rewrite (M_bind_pass _ _ o tt) by (apply Ha; lia).
  rewrite (M_bind_pass _ _ o x) by (unfold get; cbn; by rewrite Hx).
  rewrite (M_bind_pass _ _ o tt).
  - destruct (negb _); [|done]. unfold check_schedule. rewrite (M_bind_pass _ _ o slot) by (unfold lift; by rewrite H6).
    rewrite (M_bind_pass _ _ o tt) by (apply Ha; lia). rewrite (M_bind_pass _ _ o (witness b)) by (unfold lift; by rewrite H8).
    apply Ha. apply Z.eqb_refl.
  - destruct (has_skip skip skip_witness_signature) eqn:Hk; [done|]. cbn [negb]. destruct (H5 eq_refl) as (x' & Hx' & Hs).
    assert (x' = x) as -> by congruence. rewrite (M_bind_pass _ _ o true); [by apply Ha|].
    unfold lift, validate_signee. rewrite Hs. cbn. by rewrite Z.eqb_refl.
Qed.

(** C13: A generated block is a good one.  If [generate_block] returns a block, the node
    has pushed exactly this block on the head it was built on; it passes every check of
    its header, its size and its merkle root there, signed with the key of the witness
    scheduled for its slot; and its transactions are pending ones, in their order, that
    apply to the head one after the other.  The sessions the loop opened have left no
    trace. *)
Theorem generated_block skip w witness_id key c b c' :
  pending_ok c → generate_block skip w witness_id key c = (Ok b, c') →
  let o := head_state c in let p := parameters (gpo o) in
  0 < block_interval p → 0 ≤ time (dgpo o) → 0 ≤ maintenance_skip_slots p →
  slot_base o + block_interval p ≤ uint32_max →
  0 ≤ max_block_header_size witness_id ≤ maximum_block_size p → maximum_block_size p ≤ uint32_max →
  Z.of_nat (length (_pending_tx c)) < 2 ^ 21 → is_Some (witnesses o !! witness_id) →
  check_block skip b o = Ok (tt, o) ∧
  (unpack_transaction <$> Block.transactions b) `sublist_of` (unpack_transaction <$> _pending_tx c) ∧
  (∃ o', apply_transactions hash_of key_addresses nth_element fuel skip (Block.transactions b) o = Ok (tt, o')) ∧
  ∃ c1 switched, Chain.push_block (Z.lor skip skip_transaction_signatures) b c1 = (Ok switched, c') ∧
    cur c1 = o ∧ _pending_tx c1 = _pending_tx c ∧ same_chain c c1.
Proof.
  intros Ok_c E o p Hi Ht Hsk Hb Hh Hmax Hlen [x Hx].
  pose proof (generate_inv _ _ _ _ _ _ _ Ok_c E) as G. cbv zeta in G. fold o in G.
  destruct G as (slot & l & o' & c1 & sw & E1 & Hpos & E2 & Hkey & Ec & Eb & Ep & Hc).
  destruct (collect_sound _ _ _ _ _ _ _ Ec Hh Hmax) as (A1 & A2 & A3 & A4).
  destruct (make_block_spec skip (Chain.head_block_id o) w witness_id key l) as (B1 & B2 & B3 & B4 & B5 & B6).
  rewrite <- Eb in *. split; [|split; [by rewrite B4|split; [exists o'; by rewrite B4|by eexists c1, sw]]].
  assert (time (dgpo o) < w) as Hw.
  { destruct (slot_time_spec 1 o) as [F1 F2]; [done..|fold p; lia|]. unfold get_slot_at_time in E1. rewrite F1 in E1. cbn in E1.
    destruct (w <? _) eqn:Hlt; [injection E1 as <-; lia|]. apply Z.ltb_ge in Hlt. fold p in F2. fold p in Hlt. lia. }
  assert (pack_size b ≤ maximum_block_size p) as Hsize.
  { pose proof (pack_size_parts b) as Hp. rewrite B3, B4 in Hp. specialize (Hp ltac:(lia)). fold p in A3.
    unfold max_block_header_size in A3. lia. }
  apply check_block_passes; rewrite ?B1, ?B2, ?B3; [exact Hsize|exact B5|reflexivity|exact Hw|by exists x| |by exists slot].
  intros Hk. destruct (Hkey Hk) as (x' & Hx' & Hk'). exists x'. split; [done|]. rewrite Hk'. by apply B6.
Qed.

(** Validating a transaction tells whether it applies to the pending state and leaves
    everything as it was. *)
Lemma validate_transaction_spec skip trx c :
  pending_ok c →
  let r := validate_transaction skip trx c in
  r.1 = match Chain.apply_trx skip trx (cur c) with Ok _ => Ok tt | Err e => Err e end ∧
  pending_ok r.2 ∧ same_chain c r.2 ∧ cur r.2 = cur c ∧ _pending_tx r.2 = _pending_tx c.
Proof.
  destruct c as [[o s n m] f db pt pp ps cps]. unfold pending_ok, same_chain, head_state, cur, validate_transaction.
  cbn -[Chain.apply_trx].
  intros (Hm & Hp). destruct m as [|m]; [lia|].
  unfold change, on_objects, update, mbind, P_bind, result_bind, a_start, raise, a_undo, cur.
  cbn -[u32 Chain.apply_trx]. destruct ps.
  - destruct Hp as (-> & Hs & Ha). destruct s as [|base s]; [done|]. change (u32 (1 + 1)) with 2. cbn -[Chain.apply_trx] in *.
    destruct (Chain.apply_trx skip trx o) as [o'|e]; cbn; split_and!; try done; lia.
  - destruct Hp as (-> & ->). change (u32 (0 + 1)) with 1. cbn -[Chain.apply_trx].
    destruct (Chain.apply_trx skip trx o) as [o'|e]; cbn; split_and!; try done; lia.
Qed.

End generate.

(** ** What a node answers *)
Section node.
Context {St : Type} `{CS : ChainState St}.
Implicit Types (c : chain_database (St:=St)).

Definition is_known_block (id : block_id_type) c : bool :=
  ForkDb.is_known_block id (_fork_db c) || contains id (_block_id_to_block c).
Definition get_block_id_for_num (block_num : Z) c : result block_id_type :=
  fetch_block_id (Z.to_nat block_num) (_block_id_to_block c).
Definition fetch_block_by_id (id : block_id_type) c : result (option signed_block) :=
  match fetch_block id (_fork_db c) with
  | None => Ok (fetch_optional id (_block_id_to_block c))
  | Some p => it ← item (_fork_db c) p; Ok (Some (data it))
  end.
Definition fetch_block_by_number (num : Z) c : result (option signed_block) :=
  match ForkDb.fetch_block_by_number num (_fork_db c) with
  | [p] => it ← item (_fork_db c) p; Ok (Some (data it))
  | _ => Ok (fetch_by_number (Z.to_nat num) (_block_id_to_block c))
  end.

Fixpoint item_ids (f : fork_database) (l : list positive) : result (list block_id_type) :=
  match l with [] => Ok [] | p :: l => it ← item f p; ids ← item_ids f l; Ok (id it :: ids) end.
Definition last_previous (f : fork_database) (l : list positive) : result block_id_type :=
  p ← from_option_r undefined_behaviour (last l); it ← item f p; Ok (previous (data it)).
Definition get_block_ids_on_fork (head_of_fork : block_id_type) c : result (list block_id_type) :=
  let f := _fork_db c in
  branches ← fetch_branch_from (Chain.head_block_id (cur c)) head_of_fork f;
  first ← last_previous f branches.1;
  second ← last_previous f branches.2;
  hard_assert (bool_decide (first = second));;
  ids ← item_ids f branches.2;
  Ok (ids ++ [first]).

Definition add_checkpoints (checkpts : gmap Z block_id_type) c : chain_database :=
  ChainDatabase (objects c) (_fork_db c) (_block_id_to_block c) (_pending_tx c) (_popped_tx c) (_pending_tx_session c)
    (checkpts ∪ _checkpoints c).
Definition before_last_checkpoint c : bool :=
  match last (checkpoint_numbers (_checkpoints c)) with Some n => n >=? head_block_num (cur c) | None => false end.
End node.
Definition is_known_transaction (id : Z) (s : database) : bool :=
  match transactions s !! id with Some _ => true | None => false end.

(** *** Witness 3 generates the block after block 10

    One transaction is pending. *)
#[export, refine] Instance block_packing_ref : BlockPacking := {|
  process t s := t;
  packed_size t := 300;
  packed_header_size := 1000;
  packed_id_size i := 1;
  public_key k := k;
  sign k h := k
|}.
Proof.
  - done.
  - intros t. by vm_compute.
  - intros b _. cbn. assert (0 ≤ foldr (λ _ n : Z, 300 + n) 0 (Block.transactions b)); [|lia].
    induction (Block.transactions b); cbn; lia.
  - done.
Defined.

#[local] Instance ex_state : ChainState database := chain_state ex_hash ex_key_addresses ex_nth_element 10 true (λ _, 300).
Definition ex_head_block : signed_block := SignedBlock (byte_swap 9, 9) 1600000000 1 0 70 [] (byte_swap 10, 9) 0.
Definition ex_node : chain_database (St:=database) :=
  (push_transaction 0 1 (ChainDatabase (Abs ex_head [] 0 10) (start_block ex_head_block empty_fork_db) [] [] [] false ∅)).2.
Notation ex_generate := (generate_block ex_hash ex_key_addresses ex_nth_element 10 true (λ _, 300) 0 1600000005 3 70 ex_node).

Lemma ex_node_ok : pending_ok ex_node.
Proof. apply push_transaction_ok. split; vm_compute; [lia|done]. Qed.
Lemma ex_node_bounds :
  let o := head_state ex_node in let p := parameters (gpo o) in
  (0 < block_interval p ∧ 0 ≤ time (dgpo o) ∧ 0 ≤ maintenance_skip_slots p ∧ slot_base o + block_interval p ≤ uint32_max) ∧
  0 ≤ max_block_header_size 3 ≤ maximum_block_size p ∧ maximum_block_size p ≤ uint32_max ∧
  Z.of_nat (length (_pending_tx ex_node)) < 2 ^ 21 ∧ is_Some (witnesses o !! 3).
Proof.
  cbv zeta. repeat match goal with |- _ ∧ _ => split end; vm_compute; try done.
  by eexists.
Qed.
Lemma generated_block_witness :
  match ex_generate with
  | (Ok b, c') => check_block 0 b (head_state ex_node) = Ok (tt, head_state ex_node) ∧ Block.transactions b = [1] ∧
      head_block_number (dgpo (cur c')) = 11 ∧ _pending_tx c' = []
  | (Err _, _) => False
  end.
Proof.
  destruct ex_node_bounds as ((H1 & H2 & H3 & H4) & H5 & H6 & H7 & H8).
  destruct ex_generate as [[b|e] c'] eqn:E; [|vm_compute in E; discriminate E].
  pose proof (generated_block ex_hash ex_key_addresses ex_nth_element 10 true (λ _, 300) 0 1600000005 3 70 ex_node b c'
    ex_node_ok E H1 H2 H3 H4 H5 H6 H7 H8) as (H & _).
  split; [exact H|]. clear H H1 H2 H3 H4 H5 H6 H7 H8. vm_compute in E. injection E as <- <-. by vm_compute.
Defined.
