(* ===== verification/Names.v ===== *)
(** * Account names and asset symbols (protocol/account.cpp, protocol/asset_ops.cpp)

    The validity of account names and asset symbols, and the names whose
    registration is cheap.  The loop over the labels of a name works on indices
    as in the source.  Its comment gives a grammar and adds that each label has three
    characters or more; the code takes the least length of a label from
    GRAPHENE_MIN_ACCOUNT_NAME_LENGTH, which config.hpp sets to 1.  The length is an
    argument here, and the theorem shows for every length that the loop ends and accepts
    exactly the names of the grammar whose labels have it. *)

From S2P Require Import Prelude.
From Stdlib Require Import Ascii.
From Stdlib Require String.
Import Stdlib.Strings.String.StringSyntax.
#[local] Abbreviation string := String.string.

Definition GRAPHENE_MIN_ACCOUNT_NAME_LENGTH : nat := 1.
Definition GRAPHENE_MAX_ACCOUNT_NAME_LENGTH : nat := 63.
Definition GRAPHENE_MIN_ASSET_SYMBOL_LENGTH : nat := 3.
Definition GRAPHENE_MAX_ASSET_SYMBOL_LENGTH : nat := 16.

(** ** Characters *)
Definition between (lo hi : nat) (c : ascii) : bool :=
  (lo <=? nat_of_ascii c)%nat && (nat_of_ascii c <=? hi)%nat.
Definition is_lower (c : ascii) : bool := between 97 122 c.
Definition is_upper (c : ascii) : bool := between 65 90 c.
Definition is_digit (c : ascii) : bool := between 48 57 c.
Definition is_let_dig (c : ascii) : bool := is_lower c || is_digit c.
Definition is_let_dig_hyp (c : ascii) : bool := is_let_dig c || Ascii.eqb c "-".

(** A string as the characters its operator [[]] reads; there is a NUL after the last. *)
Definition chars (s : string) : list ascii := String.list_ascii_of_string s.
Definition char_at (s : list ascii) (i : nat) : ascii := nth i s zero.

(** [std::string::find_first_of( c, begin )], [None] for [npos]. *)
Fixpoint find_in (c : ascii) (s : list ascii) : option nat :=
  match s with
  | [] => None
  | x :: s' => if Ascii.eqb x c then Some 0%nat else S <$> find_in c s'
  end.
Definition find_first_of (c : ascii) (s : list ascii) (begin : nat) : option nat :=
  Nat.add begin <$> find_in c (drop begin s).
(** [std::string::find_last_of( c )] and [rfind]. *)
Definition find_last_of (c : ascii) (s : list ascii) : option nat :=
  (λ i, length s - 1 - i)%nat <$> find_in c (rev s).

(** ** is_valid_name *)

Section valid_name.
(** The value of GRAPHENE_MIN_ACCOUNT_NAME_LENGTH. *)
Context (min_length : nat).

(** One round of the loop of [is_valid_name] for the label from [begin] to [end_]. *)
Definition label_ok (name : list ascii) (begin end_ : nat) : bool :=
  if (end_ - begin <? min_length)%nat then false
  else if negb (is_lower (char_at name begin)) then false
  else if negb (is_let_dig (char_at name (end_ - 1))) then false
  else forallb (λ i, is_let_dig_hyp (char_at name i)) (seq (begin + 1) (end_ - 1 - (begin + 1))).

Fixpoint labels_ok (fuel : nat) (name : list ascii) (begin : nat) : option bool :=
  match fuel with
  | O => None
  | S fuel' =>
      let end_ := match find_first_of "." name begin with Some e => e | None => length name end in
      if negb (label_ok name begin end_) then Some false
      else if (end_ =? length name)%nat then Some true
      else labels_ok fuel' name (end_ + 1)
  end.

Definition is_valid_name_of (s : string) : option bool :=
  let name := chars s in
  let len := length name in
  if (len <? min_length)%nat then Some false
  else if (GRAPHENE_MAX_ACCOUNT_NAME_LENGTH <? len)%nat then Some false
  else labels_ok (S len) name 0.
End valid_name.
Definition is_valid_name : string → option bool := is_valid_name_of GRAPHENE_MIN_ACCOUNT_NAME_LENGTH.

(** The characters in order; a digit, a dot, a hyphen or a slash ends the search. *)
Definition is_vowel (c : ascii) : bool :=
  existsb (Ascii.eqb c) ["a"; "e"; "i"; "o"; "u"; "y"]%char.
Fixpoint cheap_loop (s : list ascii) (v : bool) : bool :=
  match s with
  | [] => if negb v then true else false
  | c :: s' =>
      if is_digit c then true
      else if Ascii.eqb c "." || Ascii.eqb c "-" || Ascii.eqb c "/" then true
      else cheap_loop s' (if is_vowel c then true else v)
  end.
Definition is_cheap_name (n : string) : bool := cheap_loop (chars n) false.

(** ** is_valid_symbol *)
Fixpoint symbol_loop (s : list ascii) (dot_already_present : bool) : bool :=
  match s with
  | [] => true
  | c :: s' =>
      if is_upper c || is_digit c then symbol_loop s' dot_already_present
      else if Ascii.eqb c "." then
        if dot_already_present then false else symbol_loop s' true
      else false
  end.
Definition is_alpha (c : ascii) : bool := is_upper c || is_lower c.
Definition is_valid_symbol (symbol : string) : bool :=
  let s := chars symbol in
  if (length s <? GRAPHENE_MIN_ASSET_SYMBOL_LENGTH)%nat then false
  else if bool_decide (take 3 s = ["B"; "I"; "T"]%char) then false
  else if (GRAPHENE_MAX_ASSET_SYMBOL_LENGTH <? length s)%nat then false
  else if negb (is_alpha (char_at s 0)) then false
  else if negb (is_alpha (char_at s (length s - 1)) || is_digit (char_at s (length s - 1))) then false
  else symbol_loop s false.

(** ** The grammar of names *)
Inductive label : list ascii → Prop :=
| label_letter c : is_lower c = true → label [c]
| label_long c l d :
    is_lower c = true → Forall (λ x, is_let_dig_hyp x = true) l → is_let_dig d = true →
    label (c :: l ++ [d]).
(** Labels of some length, joined by dots. *)
Definition long_label (min_length : nat) (l : list ascii) : Prop := label l ∧ (min_length ≤ length l)%nat.
Inductive domain (min_length : nat) : list ascii → Prop :=
| domain_label l : long_label min_length l → domain min_length l
| domain_dot l d : long_label min_length l → domain min_length d → domain min_length (l ++ "."%char :: d).

Lemma lower_not_dot c : is_lower c = true → c ≠ "."%char.
Proof. by intros H ->. Qed.
Lemma let_dig_not_dot c : is_let_dig c = true → c ≠ "."%char.
Proof. by intros H ->. Qed.
Lemma ldh_not_dot c : is_let_dig_hyp c = true → c ≠ "."%char.
Proof. by intros H ->. Qed.
#[local] Hint Resolve lower_not_dot let_dig_not_dot ldh_not_dot : core.

(** No label has a dot, so the first dot of a domain ends its first label. *)
Lemma label_no_dot l : label l → Forall (λ c, c ≠ "."%char) l.
Proof.
  intros [c Hc|c m d Hc Hm Hd]; [by auto|].
  constructor; [by auto|]. apply Forall_app; split; [|by auto].
  eapply Forall_impl; [exact Hm|]. simpl. auto.
Qed.

Lemma find_in_None c s : find_in c s = None ↔ Forall (λ x, x ≠ c) s.
Proof.
  induction s as [|x s IH]; simpl; [by split|].
  destruct (Ascii.eqb_spec x c) as [->|Hx].
  - split; [done|]. by inversion 1.
  - rewrite fmap_None, IH. split; [by constructor|by inversion 1].
Qed.
Lemma find_in_Some c s i :
  find_in c s = Some i ↔ ∃ l r, s = l ++ c :: r ∧ length l = i ∧ Forall (λ x, x ≠ c) l.
Proof.
  revert i. induction s as [|x s IH]; intros i; simpl.
  - split; [done|]. intros ([|] & ? & ? & _); done.
  - destruct (Ascii.eqb_spec x c) as [->|Hx].
    + split.
      * intros [= <-]. by exists [], s.
      * intros ([|y l] & r & E & <- & Hl); simplify_eq/=; [done|]. by inversion Hl.
    + rewrite fmap_Some. split.
      * intros (j & (l & r & -> & <- & Hl)%IH & ->). exists (x :: l), r. auto.
      * intros ([|y l] & r & [= ? ?] & <- & Hl); simplify_eq/=. inversion_clear Hl.
        eexists; split; [|done]. apply IH. eauto.
Qed.

(** ** The loop on the rest of the name *)

(** A label of the name, as a list of its own. *)
Definition label_chars (l : list ascii) : bool :=
  match l with
  | [] => false
  | [c] => is_lower c
  | c :: l' => is_lower c && is_let_dig (char_at l (length l - 1))
               && forallb is_let_dig_hyp (take (length l - 2) l')
  end.

Lemma label_chars_label l : label_chars l = true ↔ label l.
Proof.
  split.
  - destruct l as [|c [|d l]]; [done| |]; intros H; [by constructor|].
    cbn [label_chars] in H.
    destruct (exists_last (l:=d :: l)) as (m & x & E); [done|]. rewrite E in *.
    apply andb_prop in H as [[H1 H2]%andb_prop H3].
    cbn [length] in *. rewrite length_app in *. cbn [length] in *.
    unfold char_at in H2.
    replace (S (length m + 1) - 1)%nat with (S (length m)) in H2 by lia. cbn [nth] in H2.
    rewrite app_nth2, Nat.sub_diag in H2 by lia. cbn in H2.
    replace (S (length m + 1) - 2)%nat with (length m) in H3 by lia.
    rewrite take_app_length in H3.
    constructor; [done| |done]. apply Forall_forall. intros y Hy.
    apply forallb_forall with (x := y) in H3; [done|]. by apply list_elem_of_In.
  - intros [c Hc|c m d Hc Hm Hd]; [done|].
    assert (label_chars (c :: m ++ [d]) = is_lower c && is_let_dig (char_at (c :: m ++ [d]) (length (c :: m ++ [d]) - 1))
       && forallb is_let_dig_hyp (take (length (c :: m ++ [d]) - 2) (m ++ [d]))) as -> by by destruct m.
    cbn [length]. rewrite length_app. cbn [length]. unfold char_at.
    replace (S (length m + 1) - 1)%nat with (S (length m)) by lia. cbn [nth].
    rewrite app_nth2, Nat.sub_diag by lia. cbn [nth].
    replace (S (length m + 1) - 2)%nat with (length m) by lia. rewrite take_app_length, Hc, Hd.
    simpl. apply forallb_forall. intros y Hy%list_elem_of_In. by eapply Forall_forall in Hm.
Qed.

Lemma char_at_app p l i : char_at (p ++ l) (length p + i) = char_at l i.
Proof. unfold char_at. rewrite app_nth2 by lia. f_equal. lia. Qed.
Lemma char_at_prefix l r i : (i < length l)%nat → char_at (l ++ r) i = char_at l i.
Proof. intros. unfold char_at. by rewrite app_nth1. Qed.

Lemma char_at_drop l b : char_at l b = char_at (drop b l) 0.
Proof. revert l. induction b as [|b IH]; intros [|x l]; [done..|]. apply IH. Qed.

Lemma forallb_chars (f : ascii → bool) l b n :
  (b + n ≤ length l)%nat → forallb (λ i, f (char_at l i)) (seq b n) = forallb f (take n (drop b l)).
Proof.
  revert b. induction n as [|n IH]; intros b Hb; [by rewrite take_0|].
  cbn [seq forallb]. rewrite IH by lia.
  destruct (drop b l) as [|x r] eqn:E.
  - apply (f_equal length) in E. rewrite length_drop in E. simpl in E. lia.
  - simpl. f_equal.
    + by rewrite char_at_drop, E.
    + f_equal. f_equal. replace (S b) with (b + 1)%nat by lia. by rewrite <-drop_drop, E.
Qed.

Section loop.
Context (min_length : nat) (min_positive : (1 ≤ min_length)%nat).
Local Notation domain := (domain min_length).
Local Notation long_label := (long_label min_length).

Definition long_label_chars (l : list ascii) : bool := (min_length <=? length l)%nat && label_chars l.
Lemma long_label_chars_label l : long_label_chars l = true ↔ long_label l.
Proof.
  unfold long_label_chars, Names.long_label. rewrite andb_true_iff, Nat.leb_le, label_chars_label. tauto.
Qed.

Lemma label_ok_chars p l r :
  label_ok min_length (p ++ l ++ r) (length p) (length p + length l) = long_label_chars l.
Proof.
  unfold label_ok, long_label_chars.
  replace (length p + length l - length p)%nat with (length l) by lia.
  rewrite Nat.ltb_antisym. destruct (Nat.leb_spec min_length (length l)) as [Hmin|]; [|done]. cbn [negb andb].
  destruct l as [|c l]; [cbn in Hmin; lia|]. cbn [length].
  replace (char_at (p ++ (c :: l) ++ r) (length p)) with c
    by (rewrite <-(Nat.add_0_r (length p)), char_at_app; done).
  replace (length p + S (length l) - 1)%nat with (length p + length l)%nat by lia.
  rewrite char_at_app, char_at_prefix by (simpl; lia).
  rewrite forallb_chars by (rewrite !length_app; simpl; lia).
  rewrite <-drop_drop, drop_app_length. simpl.
  replace (length p + length l - (length p + 1))%nat with (length l - 1)%nat by lia.
  destruct l as [|d l].
  - simpl. unfold char_at; simpl. unfold is_let_dig. destruct (is_lower c); done.
  - cbn [length]. replace (S (length l) - 1)%nat with (length l) by lia.
    rewrite drop_0. rewrite take_app_le by (simpl; lia).
    replace (S (S (length l)) - 2)%nat with (length l) by lia.
    replace (S (S (length l)) - 1)%nat with (S (length l)) by lia.
    change (char_at (c :: (d :: l) ++ r) 0) with c.
    destruct (is_lower c), (is_let_dig _); done.
Qed.

Lemma domain_inv s :
  domain s ↔ match find_in "."%char s with
             | None => long_label s
             | Some i => long_label (take i s) ∧ domain (drop (S i) s)
             end.
Proof.
  destruct (find_in _ s) as [i|] eqn:E.
  - apply find_in_Some in E as (l & r & -> & <- & Hl).
    rewrite take_app_length. replace (S (length l)) with (length (l ++ ["."%char])) by (rewrite length_app; simpl; lia).
    replace (l ++ "."%char :: r) with ((l ++ ["."%char]) ++ r) by by rewrite <-app_assoc.
    rewrite drop_app_length, <-app_assoc. simpl. split.
    + inversion 1 as [? H'|l' d H1 H2 E].
      * destruct H' as [H' _]. apply label_no_dot, Forall_app in H' as [_ H']. by inversion H'.
      * assert (find_in "."%char (l' ++ "."%char :: d) = Some (length l')) as F1.
        { apply find_in_Some. exists l', d. destruct H1. auto using label_no_dot. }
        assert (find_in "."%char (l ++ "."%char :: r) = Some (length l)) as F2.
        { apply find_in_Some. eauto. }
        rewrite E, F2 in F1. injection F1 as F1. apply app_inj_1 in E as [-> [= ->]]; [done|lia].
    + intros [??]. by constructor.
  - apply find_in_None in E. split.
    + inversion 1 as [? H'|l' d H1 H2 E']; [done|]. subst. apply Forall_app in E as [_ E]. by inversion E.
    + by constructor.
Qed.

Lemma labels_ok_domain fuel p s :
  (length s < fuel)%nat →
  ∃ b, labels_ok min_length fuel (p ++ s) (length p) = Some b ∧ (b = true ↔ domain s).
Proof.
  revert p s. induction fuel as [|fuel IH]; intros p s Hf; [lia|].
  cbn [labels_ok]. unfold find_first_of. rewrite drop_app_length.
  pose proof (domain_inv s) as HD.
  destruct (find_in "."%char s) as [i|] eqn:E; simpl.
  - apply find_in_Some in E as (l & r & -> & <- & Hl).
    rewrite take_app_length in HD. rewrite label_ok_chars.
    destruct (long_label_chars l) eqn:El; simpl.
    + apply long_label_chars_label in El.
      rewrite (proj2 (Nat.eqb_neq _ _)) by (rewrite !length_app; simpl; lia).
      destruct (IH (p ++ l ++ ["."%char]) r) as (b & Eb & Hb).
      { rewrite length_app in Hf. simpl in Hf. lia. }
      exists b. split.
      * rewrite <-Eb. rewrite <-!app_assoc. simpl. f_equal. rewrite !length_app. simpl. lia.
      * rewrite Hb, HD. replace (drop (S (length l)) (l ++ "."%char :: r)) with r; [by intuition|].
        rewrite drop_app_ge by lia. by replace (S (length l) - length l)%nat with 1%nat by lia.
    + exists false. split; [done|]. rewrite HD. split; [done|]. intros [Hl' _].
      apply long_label_chars_label in Hl'. congruence.
  - rewrite length_app. pose proof (label_ok_chars p s []) as EL. rewrite app_nil_r in EL. rewrite EL.
    apply find_in_None in E.
    destruct (long_label_chars s) eqn:El; simpl.
    + rewrite Nat.eqb_refl. exists true. split; [done|]. by rewrite HD, <-long_label_chars_label, El.
    + exists false. split; [done|]. by rewrite HD, <-long_label_chars_label, El.
Qed.
End loop.

(** C19: Whatever least length of a label is configured, the loop of [is_valid_name]
    ends on every string, and it accepts exactly the strings of at least that length and
    at most 63 characters that are labels of at least that length joined by single
    dots; a label is a lower case letter followed by lower case letters, digits and
    hyphens and ends with a letter or digit.  With the length 3 this is the rule of the
    comment; [is_valid_name] is the instance the configuration chooses. *)
Theorem is_valid_name_grammar min_length s :
  (1 ≤ min_length)%nat →
  ∃ b, is_valid_name_of min_length s = Some b ∧
    (b = true ↔ (min_length ≤ String.length s ≤ GRAPHENE_MAX_ACCOUNT_NAME_LENGTH)%nat ∧
                domain min_length (chars s)).
Proof.
  intros Hmin. unfold is_valid_name_of. assert (length (chars s) = String.length s) as ->.
  { unfold chars. induction s; simpl; auto. }
  destruct (Nat.ltb_spec (String.length s) min_length).
  { exists false. split; [done|]. split; [done|lia]. }
  destruct (Nat.ltb_spec GRAPHENE_MAX_ACCOUNT_NAME_LENGTH (String.length s)).
  { exists false. split; [done|]. split; [done|lia]. }
  destruct (labels_ok_domain min_length Hmin (S (length (chars s))) [] (chars s)) as (b & Eb & Hb); [lia|].
  assert (length (chars s) = String.length s) as EL.
  { unfold chars. clear. induction s; simpl; auto. }
  rewrite EL in Eb. exists b. split; [exact Eb|]. rewrite Hb. intuition.
Qed.

(** The code accepts labels that the comment on it excludes. *)
Lemma is_valid_name_grammar_witness :
  is_valid_name "a.b" = Some true ∧ domain 1 (chars "a.b") ∧ ¬ domain 3 (chars "a.b").
Proof.
  split; [reflexivity|]. split.
  - destruct (is_valid_name_grammar 1 "a.b" ltac:(lia)) as (b & E & H). injection E as <-. by apply H.
  - destruct (is_valid_name_grammar 3 "a.b" ltac:(lia)) as (b & E & H). injection E as <-.
    intros Hd. assert (false = true) as X by (apply H; split; [vm_compute; lia|exact Hd]). discriminate X.
Defined.

Example name_1 : is_valid_name "init0" = Some true. Proof. reflexivity. Qed.
Example name_2 : is_valid_name "a.b-c.d9" = Some true. Proof. reflexivity. Qed.
Example name_3 : is_valid_name "a..b" = Some false. Proof. reflexivity. Qed.
Example name_4 : is_valid_name "a-" = Some false. Proof. reflexivity. Qed.
Example name_5 : is_valid_name "ab." = Some false. Proof. reflexivity. Qed.

(** ** Symbols *)
Definition symbol_char (c : ascii) : bool := is_upper c || is_digit c.
Definition dots (s : list ascii) : nat := length (filter (λ c, c = "."%char) s).

Lemma symbol_loop_spec s d :
  symbol_loop s d = true ↔
  Forall (λ c, symbol_char c = true ∨ c = "."%char) s ∧ (dots s ≤ if d then 0 else 1)%nat.
Proof.
  revert d. induction s as [|c s IH]; intros d; simpl; unfold dots in *.
  { split; [|done]. intros _. split; [done|]. simpl. destruct d; lia. }
  rewrite Forall_cons. fold (symbol_char c). destruct (symbol_char c) eqn:Ec.
  - rewrite IH. rewrite filter_cons_False by (by intros ->). intuition.
  - destruct (Ascii.eqb_spec c ".") as [->|Hc].
    + rewrite filter_cons_True by done. simpl.
      destruct d; [split; [done|intros [_ H]; lia]|]. rewrite IH. intuition lia.
    + split; [done|]. intros [[[H|H] _] _]; done.
Qed.

(** An asset symbol is accepted exactly when it has 3 to 16 characters, does
    not start with BIT, consists of capital letters, digits and at most one dot,
    starts with a letter and does not end with the dot. *)
Theorem is_valid_symbol_spec s :
  is_valid_symbol s = true ↔
  (GRAPHENE_MIN_ASSET_SYMBOL_LENGTH ≤ length (chars s) ≤ GRAPHENE_MAX_ASSET_SYMBOL_LENGTH)%nat ∧
  take 3 (chars s) ≠ ["B"; "I"; "T"]%char ∧
  Forall (λ c, symbol_char c = true ∨ c = "."%char) (chars s) ∧ (dots (chars s) ≤ 1)%nat ∧
  is_upper (char_at (chars s) 0) = true ∧ symbol_char (char_at (chars s) (length (chars s) - 1)) = true.
Proof.
  unfold is_valid_symbol. set (l := chars s).
  destruct (Nat.ltb_spec (length l) GRAPHENE_MIN_ASSET_SYMBOL_LENGTH) as [|H1]; [intuition lia|].
  case_bool_decide; [by (split; [done|]; intros (_ & ? & _))|].
  destruct (Nat.ltb_spec GRAPHENE_MAX_ASSET_SYMBOL_LENGTH (length l)) as [|H2]; [intuition lia|].
  unfold GRAPHENE_MIN_ASSET_SYMBOL_LENGTH in *.
  assert (∀ i, (i < length l)%nat → Forall (λ c, symbol_char c = true ∨ c = "."%char) l →
    char_at l i = "."%char ∨ is_upper (char_at l i) = true ∨ is_digit (char_at l i) = true) as HC.
  { intros i Hi HF. apply Forall_nth with (i := i) (d := zero) in HF; [|done].
    unfold char_at. destruct HF as [[|]%orb_prop|]; auto. }
  assert (∀ c, is_lower c = true → symbol_char c = false ∧ c ≠ "."%char) as HL.
  { intros c. unfold is_lower, symbol_char, is_upper, is_digit, between. intros Hc.
    split; [|by intros ->]. apply andb_prop in Hc as [Hc1%Nat.leb_le Hc2%Nat.leb_le].
    rewrite (proj2 (Nat.leb_gt _ 90)), (proj2 (Nat.leb_gt _ 57)) by lia. by rewrite !andb_false_r. }
  assert (∀ c, is_digit c = true → is_alpha c = false) as HD.
  { intros c. unfold is_alpha, is_lower, is_upper, is_digit, between. intros Hc.
    apply andb_prop in Hc as [Hc1%Nat.leb_le Hc2%Nat.leb_le].
    rewrite (proj2 (Nat.leb_gt 65 _)), (proj2 (Nat.leb_gt 97 _)) by lia. done. }
  destruct (is_alpha (char_at l 0)) eqn:E0; simpl.
  - destruct (is_alpha (char_at l (length l - 1)) || is_digit (char_at l (length l - 1))) eqn:E1; simpl.
    + rewrite symbol_loop_spec. split; [|intuition]. intros [HF Hd]. split_and!; try done; try lia.
      * destruct (HC 0%nat ltac:(lia) HF) as [Hc|[Hc|Hc]]; [rewrite Hc in E0; done|done|].
        apply HD in Hc. congruence.
      * unfold symbol_char. destruct (HC (length l - 1)%nat ltac:(lia) HF) as [Hc|[Hc|Hc]];
          [rewrite Hc in E1; done| |]; rewrite Hc; [done|apply orb_true_r].
    + split; [done|]. intros (_ & _ & _ & _ & _ & Hs). clear -E1 Hs. unfold symbol_char, is_alpha in *.
      revert E1 Hs. generalize (char_at l (length l - 1)). intros c.
      by destruct (is_upper c), (is_lower c), (is_digit c).
  - split; [done|]. intros (_ & _ & _ & _ & Hu & _). unfold is_alpha in E0. by rewrite Hu in E0.
Qed.

Example symbol_1 : is_valid_symbol "TEST.USD" = true. Proof. reflexivity. Qed.
Example symbol_2 : is_valid_symbol "BITUSD" = false. Proof. reflexivity. Qed.
Example symbol_3 : is_valid_symbol "ABC." = false. Proof. reflexivity. Qed.

(** ** Cheap names *)

(** A name is cheap exactly when it has a digit, a dot, a hyphen or a slash,
    or no vowel. *)
Theorem is_cheap_name_spec n :
  is_cheap_name n = true ↔
  Exists (λ c, is_digit c || Ascii.eqb c "." || Ascii.eqb c "-" || Ascii.eqb c "/" = true) (chars n)
  ∨ Forall (λ c, is_vowel c = false) (chars n).
Proof.
  unfold is_cheap_name. set (l := chars n).
  enough (∀ v, cheap_loop l v = true ↔
    Exists (λ c, is_digit c || Ascii.eqb c "." || Ascii.eqb c "-" || Ascii.eqb c "/" = true) l
    ∨ (v = false ∧ Forall (λ c, is_vowel c = false) l)) as -> by intuition.
  induction l as [|c l IH]; intros v; simpl.
  { rewrite Exists_nil. destruct v; simpl; intuition. }
  rewrite Exists_cons, Forall_cons. destruct (is_digit c); simpl; [intuition|].
  destruct (Ascii.eqb c "." || Ascii.eqb c "-" || Ascii.eqb c "/"); simpl; [intuition|].
  rewrite IH. destruct (is_vowel c), v; intuition congruence.
Qed.
