(* ===== verification/Candidates.v ===== *)
(** * Candidates: witnesses, committee members, workers and the votes for them

    The evaluators of chain/witness_evaluator.cpp, committee_member_evaluator.cpp
    and worker_evaluator.cpp, the vote ids of protocol/vote.hpp, and the check of
    an account's votes (chain/account_evaluator.cpp, protocol/account.cpp).  A
    candidate gets the next vote id of the global properties; elections (Election)
    read the tally at the instances of these ids.  The theorems show that instances
    are never given twice, that the tally has a place for each of them, and that
    accepted votes name candidates. *)

From S2P Require Import Prelude External Asset Authority Operations Block Vesting State Balance Fill Market Trade.
From S2P Require Import Evaluator MarketOps Ledger Expire Election.

Definition HARDFORK_CORE_143_TIME : Z := 1512747600.
Definition HARDFORK_CORE_1468_TIME : Z := 1556028120.
Definition GRAPHENE_MAX_URL_LENGTH : nat := 127.
Definition GRAPHENE_MAX_WORKER_NAME_LENGTH : nat := 63.

(** ** vote_id_type *)
Definition vt_committee : Z := 0.
Definition vt_witness : Z := 1.
Definition vt_worker : Z := 2.
Definition make_vote_id (type instance : Z) : Z := Z.lor (u32 (Z.shiftl instance 8)) type.
Definition vote_type (id : Z) : Z := Z.land id 255.
Definition set_vote_type (type id : Z) : Z := Z.lor (Z.land id 4294967040) (Z.land type 255).
Definition set_vote_instance (instance id : Z) : Z := Z.lor (Z.land id 255) (u32 (Z.shiftl instance 8)).

Definition set_next_vote_id (n : Z) (g : global_property_object) : global_property_object :=
  GlobalProperties (parameters g) (active_witnesses g) (pending_parameters g) n (active_committee_members g).
(** [vote_id_type(type, p.next_available_vote_id++)]. *)
Definition take_vote_id (type : Z) : M database Z :=
  n ← gets (λ s, next_available_vote_id (gpo s));
  puts (λ s, set_gpo (set_next_vote_id (u32 (n + 1)) (gpo s)) s);;
  mret (make_vote_id type n).

(** Ids are compared through their conversion to a number, which is the instance. *)
Definition same_vote_id (a b : Z) : bool := vote_instance a =? vote_instance b.

(** ** Operations *)
Record witness_create_operation := WitnessCreate {
  wc_fee : asset; wc_witness_account : Z; wc_url : String.string; wc_block_signing_key : Z }.
Record witness_update_operation := WitnessUpdate {
  wu_fee : asset; wu_witness : Z; wu_witness_account : Z; wu_new_url : option String.string;
  wu_new_signing_key : option Z }.
Record committee_member_create_operation := CommitteeMemberCreate {
  cc_fee : asset; cc_committee_member_account : Z; cc_url : String.string }.
Record committee_member_update_operation := CommitteeMemberUpdate {
  cu_fee : asset; cu_committee_member : Z; cu_committee_member_account : Z; cu_new_url : option String.string }.
Record committee_member_update_global_parameters_operation := UpdateGlobalParameters {
  ug_fee : asset; ug_new_parameters : chain_parameters }.
Inductive worker_initializer :=
| refund_worker_initializer
| vesting_balance_worker_initializer (pay_vesting_period_days : Z)
| burn_worker_initializer.
Record worker_create_operation := WorkerCreate {
  wk_fee : asset; wk_owner : Z; wk_work_begin_date : Z; wk_work_end_date : Z; wk_daily_pay : Z;
  wk_name : String.string; wk_url : String.string; wk_initializer : worker_initializer }.

Definition url_ok (u : String.string) : bool := (String.length u <? GRAPHENE_MAX_URL_LENGTH)%nat.
Definition new_url_ok (u : option String.string) : bool := match u with Some u => url_ok u | None => true end.
Definition witness_create_validate (op : witness_create_operation) : result unit :=
  fc_assert (amount (wc_fee op) >=? 0);; fc_assert (url_ok (wc_url op)).
Definition witness_update_validate (op : witness_update_operation) : result unit :=
  fc_assert (amount (wu_fee op) >=? 0);; fc_assert (new_url_ok (wu_new_url op)).
Definition committee_member_create_validate (op : committee_member_create_operation) : result unit :=
  fc_assert (amount (cc_fee op) >=? 0);; fc_assert (url_ok (cc_url op)).
Definition committee_member_update_validate (op : committee_member_update_operation) : result unit :=
  fc_assert (amount (cu_fee op) >=? 0);; fc_assert (new_url_ok (cu_new_url op)).
Definition worker_create_validate (op : worker_create_operation) : result unit :=
  fc_assert (amount (wk_fee op) >=? 0);;
  fc_assert (wk_work_end_date op >? wk_work_begin_date op);;
  fc_assert (wk_daily_pay op >? 0);;
  fc_assert (wk_daily_pay op <? GRAPHENE_MAX_SHARE_SUPPLY);;
  fc_assert (String.length (wk_name op) <? GRAPHENE_MAX_WORKER_NAME_LENGTH)%nat;;
  fc_assert (url_ok (wk_url op)).

(** ** Evaluators *)
Definition is_lifetime_member (a : account_object) : bool := membership_expiration_date a =? uint32_max.

(** The unique keys of an index other than the id: an insertion that repeats one fails. *)
Definition no_conflict {V} (conflict : V → bool) (m : gmap Z V) : bool :=
  negb (existsb (λ x, conflict x.2) (map_to_list m)).

Definition witness_create_evaluate (op : witness_create_operation) : M database unit :=
  a ← get (V:=account_object) (wc_witness_account op);
  assert_that (is_lifetime_member a).
Definition witness_create_apply (op : witness_create_operation) : M database Z :=
  id ← take_vote_id vt_witness;
  ok ← gets (λ s, no_conflict (λ w, (witness_account w =? wc_witness_account op) || same_vote_id (witness_vote_id w) id)
                    (witnesses s));
  assert_that ok;;
  create (λ _, WitnessObject (wc_witness_account op) None 0 (wc_block_signing_key op) 0 0 id 0 (wc_url op)).

Definition witness_update_evaluate (op : witness_update_operation) : M database unit :=
  w ← get (V:=witness_object) (wu_witness op);
  assert_that (witness_account w =? wu_witness_account op).
Definition update_witness (op : witness_update_operation) (w : witness_object) : witness_object :=
  WitnessObject (witness_account w) (pay_vb w) (total_missed w) (default (signing_key w) (wu_new_signing_key op))
    (last_aslot w) (last_confirmed_block_num w) (witness_vote_id w) (witness_total_votes w)
    (default (witness_url w) (wu_new_url op)).
Definition witness_update_apply (op : witness_update_operation) : M database unit :=
  _ ← get (V:=witness_object) (wu_witness op);
  modify (wu_witness op) (λ w, Ok (update_witness op w)).

Definition committee_member_create_evaluate (op : committee_member_create_operation) : M database unit :=
  a ← get (V:=account_object) (cc_committee_member_account op);
  assert_that (is_lifetime_member a).
Definition committee_member_create_apply (op : committee_member_create_operation) : M database Z :=
  id ← take_vote_id vt_committee;
  ok ← gets (λ s, no_conflict (λ c, (committee_member_account c =? cc_committee_member_account op)
                                    || same_vote_id (committee_vote_id c) id) (committee_members (governance s)));
  assert_that ok;;
  create (λ _, CommitteeMember (cc_committee_member_account op) id 0 (cc_url op)).

Definition committee_member_update_evaluate (op : committee_member_update_operation) : M database unit :=
  c ← get (V:=committee_member_object) (cu_committee_member op);
  assert_that (committee_member_account c =? cu_committee_member_account op).
Definition committee_member_update_apply (op : committee_member_update_operation) : M database unit :=
  _ ← get (V:=committee_member_object) (cu_committee_member op);
  modify (cu_committee_member op) (λ c,
    Ok (CommitteeMember (committee_member_account c) (committee_vote_id c) (committee_total_votes c)
          (default (committee_url c) (cu_new_url op)))).

(** The new parameters take effect at the next maintenance. *)
Definition update_global_parameters_evaluate (is_proposed_trx : bool)
    (op : committee_member_update_global_parameters_operation) : M database unit :=
  assert_that is_proposed_trx;;
  now ← head_block_time;
  assert_that ((now >? HARDFORK_CORE_1468_TIME)
               || match updatable_htlc_options (ug_new_parameters op) with Some _ => false | None => true end).
Definition update_global_parameters_apply (op : committee_member_update_global_parameters_operation)
    : M database unit :=
  puts (λ s, set_gpo (GlobalProperties (parameters (gpo s)) (active_witnesses (gpo s)) (Some (ug_new_parameters op))
                        (next_available_vote_id (gpo s)) (active_committee_members (gpo s))) s).

(** [worker_init_visitor]: the days become seconds in 32 bits. *)
Definition init_worker (owner : Z) (i : worker_initializer) : M database worker_type :=
  match i with
  | vesting_balance_worker_initializer days =>
      now ← head_block_time;
      b ← create (λ _, VestingBalanceObject owner (Asset 0 CORE)
            (cdd_policy (CddVestingPolicy (u32 (days * SECONDS_PER_DAY)) 0 0 now)) vbt_worker);
      mret (vesting_balance_worker_type b)
  | refund_worker_initializer => mret (refund_worker_type 0)
  | burn_worker_initializer => mret (burn_worker_type 0)
  end.
Definition worker_create_evaluate (op : worker_create_operation) : M database unit :=
  a ← get (V:=account_object) (wk_owner op);
  assert_that (is_lifetime_member a);;
  now ← head_block_time;
  assert_that (wk_work_begin_date op >=? now).
Definition worker_create_apply (op : worker_create_operation) : M database Z :=
  for_id ← take_vote_id vt_worker;
  against_id ← take_vote_id vt_worker;
  t ← init_worker (wk_owner op) (wk_initializer op);
  ok ← gets (λ s, no_conflict (λ w, same_vote_id (vote_for w) for_id || same_vote_id (vote_against w) against_id)
                    (workers (governance s)));
  assert_that ok;;
  create (λ _, WorkerObject (wk_owner op) (wk_work_begin_date op) (wk_work_end_date op) (wk_daily_pay op) t
                 for_id against_id 0 0 (wk_name op) (wk_url op)).

(** The evaluators that change the candidates. *)
Inductive candidate_operation :=
| co_witness_create (op : witness_create_operation)
| co_witness_update (op : witness_update_operation)
| co_committee_member_create (op : committee_member_create_operation)
| co_committee_member_update (op : committee_member_update_operation)
| co_worker_create (op : worker_create_operation).
Definition candidate_validate (o : candidate_operation) : result unit :=
  match o with
  | co_witness_create op => witness_create_validate op
  | co_witness_update op => witness_update_validate op
  | co_committee_member_create op => committee_member_create_validate op
  | co_committee_member_update op => committee_member_update_validate op
  | co_worker_create op => worker_create_validate op
  end.
Definition candidate_evaluate (o : candidate_operation) : M database unit :=
  match o with
  | co_witness_create op => witness_create_evaluate op
  | co_witness_update op => witness_update_evaluate op
  | co_committee_member_create op => committee_member_create_evaluate op
  | co_committee_member_update op => committee_member_update_evaluate op
  | co_worker_create op => worker_create_evaluate op
  end.
Definition candidate_apply (o : candidate_operation) : M database (option Z) :=
  match o with
  | co_witness_create op => i ← witness_create_apply op; mret (Some i)
  | co_witness_update op => witness_update_apply op;; mret None
  | co_committee_member_create op => i ← committee_member_create_apply op; mret (Some i)
  | co_committee_member_update op => committee_member_update_apply op;; mret None
  | co_worker_create op => i ← worker_create_apply op; mret (Some i)
  end.

(** ** Votes of an account *)

(** [account_options::validate]: the loop over the votes in the order of their instances. *)
Fixpoint needed (votes : list Z) (needed_witnesses needed_committee : Z) : Z * Z :=
  match votes with
  | [] => (needed_witnesses, needed_committee)
  | id :: votes =>
      if (vote_type id =? vt_witness) && negb (needed_witnesses =? 0)
      then needed votes (needed_witnesses - 1) needed_committee
      else if (vote_type id =? vt_committee) && negb (needed_committee =? 0)
      then needed votes needed_witnesses (needed_committee - 1)
      else needed votes needed_witnesses needed_committee
  end.
Definition votes_in_order (o : account_options) : list Z := merge_sort Z.le (elements (votes o)).
Definition account_options_validate (o : account_options) : result unit :=
  let '(w, c) := needed (votes_in_order o) (num_witness o) (num_committee o) in
  fc_assert ((w =? 0) && (c =? 0)).

Definition has_witness (id : Z) (s : database) : bool :=
  negb (no_conflict (λ w, same_vote_id (witness_vote_id w) id) (witnesses s)).
Definition has_committee_member (id : Z) (s : database) : bool :=
  negb (no_conflict (λ c, same_vote_id (committee_vote_id c) id) (committee_members (governance s))).
Definition has_worker_for (id : Z) (s : database) : bool :=
  negb (no_conflict (λ w, same_vote_id (vote_for w) id) (workers (governance s))).
Definition has_worker_against (id : Z) (s : database) : bool :=
  negb (no_conflict (λ w, same_vote_id (vote_against w) id) (workers (governance s))).

Fixpoint votes_below (max_vote_id : Z) (votes : list Z) (has_worker_votes : bool) : result bool :=
  match votes with
  | [] => Ok has_worker_votes
  | id :: votes =>
      fc_assert (vote_instance id <? max_vote_id);;
      votes_below max_vote_id votes (has_worker_votes || (vote_type id =? vt_worker))
  end.
Definition vote_exists (s : database) (id : Z) : result unit :=
  if vote_type id =? vt_committee then fc_assert (has_committee_member id s)
  else if vote_type id =? vt_witness then fc_assert (has_witness id s)
  else if vote_type id =? vt_worker then fc_assert (has_worker_for id s)
  else fc_assert false.

Definition verify_account_votes (o : account_options) : M database unit :=
  p ← get_parameters;
  assert_that (num_witness o <=? maximum_witness_count p);;
  assert_that (num_committee o <=? maximum_committee_count p);;
  proxy ← find (V:=account_object) (voting_account o);
  assert_that (match proxy with Some _ => true | None => false end);;
  max_vote_id ← gets (λ s, next_available_vote_id (gpo s));
  has_worker_votes ← lift (votes_below max_vote_id (votes_in_order o) false);
  now ← head_block_time;
  when (has_worker_votes && (now >=? HARDFORK_607_TIME))
    (read (λ s, check_each (λ id, if vote_type id =? vt_worker then fc_assert (negb (has_worker_against id s))
                                  else Ok tt) (votes_in_order o)));;
  when (now >=? HARDFORK_CORE_143_TIME) (read (λ s, check_each (vote_exists s) (votes_in_order o))).

(** ** Vote ids *)
Definition vote_id_instances : Z := 16777216.

Lemma make_vote_id_spec type instance :
  0 ≤ type < 256 → 0 ≤ instance < vote_id_instances →
  vote_type (make_vote_id type instance) = type ∧ vote_instance (make_vote_id type instance) = instance.
Proof.
  unfold vote_id_instances, make_vote_id, vote_type, vote_instance, u32. intros Ht Hi.
  rewrite Z.shiftl_mul_pow2, Z.mod_small by lia.
  change 255 with (Z.ones 8). split.
  - rewrite Z.land_lor_distr_l, !Z.land_ones by lia.
    by rewrite Z.mod_mul, (Z.mod_small type) by lia.
  - rewrite Z.shiftr_lor, !Z.shiftr_div_pow2 by lia.
    by rewrite Z.div_mul, (Z.div_small type), Z.lor_0_r by lia.
Qed.

Lemma vote_id_eq a b : vote_type a = vote_type b → vote_instance a = vote_instance b → a = b.
Proof.
  unfold vote_type, vote_instance. change 255 with (Z.ones 8).
  rewrite !Z.land_ones, !Z.shiftr_div_pow2 by lia. intros Ht Hi.
  rewrite (Z.div_mod a (2 ^ 8)), (Z.div_mod b (2 ^ 8)) by lia. congruence.
Qed.

(** ** The candidates of a state *)
Definition vals (m : gmap Z Z) : list Z := (map_to_list m).*2.
Definition witness_ids (s : database) : gmap Z Z := witness_vote_id <$> witnesses s.
Definition committee_ids (s : database) : gmap Z Z := committee_vote_id <$> committee_members (governance s).
Definition for_ids (s : database) : gmap Z Z := vote_for <$> workers (governance s).
Definition against_ids (s : database) : gmap Z Z := vote_against <$> workers (governance s).
Definition vote_ids (s : database) : list Z :=
  vals (witness_ids s) ++ vals (committee_ids s) ++ vals (for_ids s) ++ vals (against_ids s).

(** Each id has the type of its table and its instance was taken from the counter;
    no two have the same instance. *)
Record wf_candidates (s : database) : Prop := {
  wfc_witness : Forall (λ id, vote_type id = vt_witness) (vals (witness_ids s));
  wfc_committee : Forall (λ id, vote_type id = vt_committee) (vals (committee_ids s));
  wfc_for : Forall (λ id, vote_type id = vt_worker) (vals (for_ids s));
  wfc_against : Forall (λ id, vote_type id = vt_worker) (vals (against_ids s));
  wfc_below : Forall (λ id, 0 ≤ vote_instance id < next_available_vote_id (gpo s)) (vote_ids s);
  wfc_distinct : NoDup (vote_instance <$> vote_ids s);
  wfc_next : 0 ≤ next_available_vote_id (gpo s)
}.

Lemma vals_insert i x m : m !! i = None → vals (<[i := x]> m) ≡ₚ x :: vals m.
Proof. intros. unfold vals. by rewrite map_to_list_insert. Qed.

(** The counter gives an instance that no candidate has. *)
Lemma fresh_instance n n' l l' :
  Forall (λ id, 0 ≤ vote_instance id < n) l → NoDup (vote_instance <$> l) →
  Forall (λ id, n ≤ vote_instance id < n') l' → NoDup (vote_instance <$> l') → 0 ≤ n ≤ n' →
  Forall (λ id, 0 ≤ vote_instance id < n') (l' ++ l) ∧ NoDup (vote_instance <$> (l' ++ l)).
Proof.
  intros Hl Hd Hl' Hd' Hn. split.
  - apply Forall_app. split; (eapply Forall_impl; [eassumption|simpl; lia]).
  - rewrite fmap_app. apply NoDup_app. split_and!; [done| |done].
    intros i (a & -> & Ha)%list_elem_of_fmap (b & E & Hb)%list_elem_of_fmap.
    rewrite Forall_forall in Hl. rewrite Forall_forall in Hl'.
    specialize (Hl _ Hb). specialize (Hl' _ Ha). simpl in *. lia.
Qed.

Lemma create_inv {V} `{Table Z V} `{!Unique V} `{!Sequence V} (f : Z → V) s i s' :
  create f s = Ok (i, s') →
  tbl (V:=V) s !! i = None ∧ s' = set_next (V:=V) (i + 1) (set_tbl (<[i := f i]> (tbl s)) s) ∧
  i = next_id (V:=V) s.
Proof.
  unfold create, add. destruct (tbl (V:=V) s !! _) eqn:E; [done|].
  destruct (collides _ _ s); [done|]. by intros [= <- <-].
Qed.

Section candidates.
Context `{EX : Ext}.

(** What creating candidates does to the ids: the tables keep the ids they have, and
    the new ids are made from the next instances. *)
Record ids_extended (s s' : database) (new : list Z) : Prop := {
  ie_perm : vote_ids s' ≡ₚ new ++ vote_ids s;
  ie_witness : witness_ids s ⊆ witness_ids s';
  ie_committee : committee_ids s ⊆ committee_ids s';
  ie_for : for_ids s ⊆ for_ids s';
  ie_against : against_ids s ⊆ against_ids s'
}.

Definition vote_state (s : database) :=
  (witness_ids s, committee_ids s, for_ids s, against_ids s, next_available_vote_id (gpo s)).

Lemma ids_same s s' : vote_state s' = vote_state s → ids_extended s s' [].
Proof. intros [= H1 H2 H3 H4 _]. unfold vote_ids. split; unfold vote_ids; rewrite ?H1, ?H2, ?H3, ?H4; done. Qed.

Lemma wf_candidates_same s s' : vote_state s' = vote_state s → wf_candidates s → wf_candidates s'.
Proof. intros [= H1 H2 H3 H4 H5] []. split; unfold vote_ids in *; rewrite ?H1, ?H2, ?H3, ?H4, ?H5; done. Qed.

(** The next [k] vote ids are taken. *)
Lemma wf_extend s s' new :
  wf_candidates s → ids_extended s s' new →
  Forall (λ id, vote_type id = vt_witness) (vals (witness_ids s')) →
  Forall (λ id, vote_type id = vt_committee) (vals (committee_ids s')) →
  Forall (λ id, vote_type id = vt_worker) (vals (for_ids s')) →
  Forall (λ id, vote_type id = vt_worker) (vals (against_ids s')) →
  Forall (λ id, next_available_vote_id (gpo s) ≤ vote_instance id < next_available_vote_id (gpo s')) new →
  NoDup (vote_instance <$> new) → next_available_vote_id (gpo s) ≤ next_available_vote_id (gpo s') →
  wf_candidates s'.
Proof.
  intros [] X ? ? ? ? Hnew Hd Hle. destruct X as [HP _ _ _ _].
  destruct (fresh_instance _ _ _ _ wfc_below0 wfc_distinct0 Hnew Hd) as [Hb Hn]; [lia|].
  split; try done; [by rewrite HP|by rewrite HP|lia].
Qed.

(** ** The evaluators *)
Ltac split_create HN :=
  match goal with
  | H : create _ _ = Ok (_, _) |- _ => apply create_inv in H as (HN & -> & _); simpl in HN
  end.
Lemma take_vote_id_inv type s id s' :
  take_vote_id type s = Ok (id, s') →
  id = make_vote_id type (next_available_vote_id (gpo s)) ∧
  s' = set_gpo (set_next_vote_id (u32 (next_available_vote_id (gpo s) + 1)) (gpo s)) s.
Proof. unfold take_vote_id. intros E. monad_inv. done. Qed.

Ltac split_ids :=
  repeat match goal with
  | H : take_vote_id _ _ = Ok (_, _) |- _ => apply take_vote_id_inv in H as [-> ->]
  end.

Lemma init_worker_ids owner i s t s' : init_worker owner i s = Ok (t, s') → vote_state s' = vote_state s.
Proof.
  unfold init_worker, head_block_time. destruct i; intros E; monad_inv; [done| |done].
  by split_create HN.
Qed.

Lemma u32_small n : 0 ≤ n < 4294967296 → u32 n = n.
Proof. intros. unfold u32. by apply Z.mod_small. Qed.

Lemma insert_new_subseteq (m : gmap Z Z) i x : m !! i = None → m ⊆ <[i := x]> m.
Proof. apply insert_subseteq. Qed.

Lemma vals_type ty i x m :
  m !! i = None → vote_type x = ty → Forall (λ id, vote_type id = ty) (vals m) →
  Forall (λ id, vote_type id = ty) (vals (<[i := x]> m)).
Proof. intros. rewrite vals_insert by done. by constructor. Qed.

(** One candidate with one vote id more. *)
Lemma wf_one_more ty s s' :
  let n := next_available_vote_id (gpo s) in
  0 ≤ ty < 256 → wf_candidates s → n < vote_id_instances →
  ids_extended s s' [make_vote_id ty n] → next_available_vote_id (gpo s') = u32 (n + 1) →
  Forall (λ id, vote_type id = vt_witness) (vals (witness_ids s')) →
  Forall (λ id, vote_type id = vt_committee) (vals (committee_ids s')) →
  Forall (λ id, vote_type id = vt_worker) (vals (for_ids s')) →
  Forall (λ id, vote_type id = vt_worker) (vals (against_ids s')) → wf_candidates s'.
Proof.
  intros n Hty W Hn X EN ? ? ? ?. pose proof (wfc_next _ W) as Hz.
  destruct (make_vote_id_spec ty n Hty) as [_ HI]; [by split|].
  unfold vote_id_instances in Hn. rewrite u32_small in EN by (unfold n in *; lia).
  apply (wf_extend s s' _ W X); try done; fold n; rewrite ?EN.
  - constructor; [|done]. rewrite HI. lia.
  - apply NoDup_singleton.
  - lia.
Qed.

Lemma next_type ty s :
  0 ≤ ty < 256 → wf_candidates s → next_available_vote_id (gpo s) < vote_id_instances →
  vote_type (make_vote_id ty (next_available_vote_id (gpo s))) = ty.
Proof. intros Hty W Hn. apply make_vote_id_spec; [done|]. split; [apply W|done]. Qed.

Definition kept_and_extended (s s' : database) : Prop :=
  wf_candidates s' ∧ ∃ new, ids_extended s s' new.

Lemma witness_create_wf op s i s' :
  witness_create_apply op s = Ok (i, s') → wf_candidates s →
  next_available_vote_id (gpo s) < vote_id_instances → kept_and_extended s s'.
Proof.
  unfold witness_create_apply. intros E W Hn. monad_inv.
  split_ids. split_create HN.
  assert (witness_ids s !! i = None) as HN'.
  { unfold witness_ids. by rewrite lookup_fmap, HN. }
  match goal with |- kept_and_extended _ ?x => assert (witness_ids x = <[i :=
    make_vote_id vt_witness (next_available_vote_id (gpo s))]> (witness_ids s)) as EW;
    [unfold witness_ids; simpl; by rewrite fmap_insert|set (s' := x) in *] end.
  assert (ids_extended s s' [make_vote_id vt_witness (next_available_vote_id (gpo s))]) as X.
  { split; try done; [unfold vote_ids|]; rewrite EW; [by rewrite vals_insert|by apply insert_subseteq]. }
  split; [|by eexists]. apply (wf_one_more vt_witness s s'); try done; try apply W.
  rewrite EW. apply vals_type; [done| |apply W]. by apply next_type.
Qed.

Lemma committee_create_wf op s i s' :
  committee_member_create_apply op s = Ok (i, s') → wf_candidates s →
  next_available_vote_id (gpo s) < vote_id_instances → kept_and_extended s s'.
Proof.
  unfold committee_member_create_apply. intros E W Hn. monad_inv.
  split_ids. split_create HN.
  assert (committee_ids s !! i = None) as HN'.
  { unfold committee_ids. by rewrite lookup_fmap, HN. }
  match goal with |- kept_and_extended _ ?x => assert (committee_ids x = <[i :=
    make_vote_id vt_committee (next_available_vote_id (gpo s))]> (committee_ids s)) as EW;
    [unfold committee_ids; simpl; by rewrite fmap_insert|set (s' := x) in *] end.
  assert (ids_extended s s' [make_vote_id vt_committee (next_available_vote_id (gpo s))]) as X.
  { split; try done; [unfold vote_ids|]; rewrite EW; [|by apply insert_subseteq].
    rewrite vals_insert by done. exact (symmetry (Permutation_middle _ _ _)). }
  split; [|by eexists]. apply (wf_one_more vt_committee s s'); try done; try apply W.
  rewrite EW. apply vals_type; [done| |apply W]. by apply next_type.
Qed.

Lemma worker_create_wf op s i s' :
  worker_create_apply op s = Ok (i, s') → wf_candidates s →
  next_available_vote_id (gpo s) + 1 < vote_id_instances → kept_and_extended s s'.
Proof.
  unfold worker_create_apply. intros E W Hn. pose proof (wfc_next _ W) as H0. monad_inv.
  split_ids. simpl in *.
  unfold vote_id_instances in *. set (n := next_available_vote_id (gpo s)) in *.
  assert (u32 (n + 1) = n + 1) as U1 by (apply u32_small; lia).
  assert (u32 (n + 1 + 1) = n + 2) as U2 by (rewrite u32_small; lia).
  match goal with H : init_worker _ _ _ = _ |- _ => apply init_worker_ids in H;
    change (vote_state _) with (witness_ids s, committee_ids s, for_ids s, against_ids s, u32 (u32 (n + 1) + 1)) in H at 2;
    injection H as E1 E2 E3 E4 E5 end.
  rewrite U1, U2 in E5. split_create HN.
  destruct (make_vote_id_spec vt_worker n) as [T1 I1]; [done|unfold vote_id_instances; lia|].
  destruct (make_vote_id_spec vt_worker (n + 1)) as [T2 I2]; [done|unfold vote_id_instances; lia|].
  match type of HN with _ !! ?k = _ => set (k0 := k) in * end.
  match goal with |- kept_and_extended _ ?x => set (s' := x) in * end.
  assert (for_ids s' = <[k0 := make_vote_id vt_worker n]> (for_ids s)) as EF.
  { rewrite <-E3. unfold for_ids, s'. simpl. by rewrite fmap_insert. }
  assert (against_ids s' = <[k0 := make_vote_id vt_worker (n + 1)]> (against_ids s)) as EA.
  { rewrite <-E4. unfold against_ids, s'. simpl. rewrite fmap_insert. simpl. by rewrite U1. }
  assert (for_ids s !! k0 = None) as NF. { rewrite <-E3. unfold for_ids. by rewrite lookup_fmap, HN. }
  assert (against_ids s !! k0 = None) as NA. { rewrite <-E4. unfold against_ids. by rewrite lookup_fmap, HN. }
  assert (next_available_vote_id (gpo s') = n + 2) as EN by exact E5.
  assert (witness_ids s' = witness_ids s) as EW by exact E1.
  assert (committee_ids s' = committee_ids s) as EC by exact E2.
  assert (ids_extended s s' [make_vote_id vt_worker n; make_vote_id vt_worker (n + 1)]) as X.
  { split; rewrite ?EW, ?EC, ?EF, ?EA; try done; try by apply insert_subseteq.
    unfold vote_ids. rewrite EW, EC, EF, EA, !vals_insert by done. solve_Permutation. }
  split; [|by eexists].
  eapply wf_extend; [done|exact X|rewrite EW; apply W|rewrite EC; apply W|rewrite EF|rewrite EA| | |fold n; lia].
  - by apply vals_type; [..|apply W].
  - by apply vals_type; [..|apply W].
  - fold n. rewrite EN. repeat constructor; rewrite ?I1, ?I2; lia.
  - simpl. rewrite I1, I2. apply NoDup_cons. split; [|apply NoDup_singleton].
    rewrite list_elem_of_singleton. lia.
Qed.

Lemma witness_update_wf op s s' : witness_update_apply op s = Ok (tt, s') → vote_state s' = vote_state s.
Proof.
  unfold witness_update_apply. intros E. monad_inv.
  match goal with H : get _ _ = Ok _ |- _ => apply get_Ok in H as [-> _] end. apply modify_Ok in E as (v & w & Hv & [= <-] & ->).
  unfold vote_state. f_equal. f_equal. f_equal. f_equal. unfold witness_ids. simpl. rewrite fmap_insert.
  simpl in Hv. apply insert_id. by rewrite lookup_fmap, Hv.
Qed.
Lemma committee_update_wf op s s' :
  committee_member_update_apply op s = Ok (tt, s') → vote_state s' = vote_state s.
Proof.
  unfold committee_member_update_apply. intros E. monad_inv.
  match goal with H : get _ _ = Ok _ |- _ => apply get_Ok in H as [-> _] end. apply modify_Ok in E as (v & w & Hv & [= <-] & ->).
  unfold vote_state. f_equal. f_equal. f_equal. f_equal. unfold committee_ids. simpl. rewrite fmap_insert.
  simpl in Hv. apply insert_id. by rewrite lookup_fmap, Hv.
Qed.

(** C17: While the counter fits in the 24 bits an id has for it, the evaluators that
    create and change witnesses, committee members and workers keep the ids apart: no
    two candidates of any kind share an instance, every id has the type of its table
    and an instance below the counter, and no candidate loses its id. *)
Theorem vote_ids_distinct o s r s' :
  wf_candidates s → next_available_vote_id (gpo s) + 1 < vote_id_instances →
  candidate_apply o s = Ok (r, s') →
  wf_candidates s' ∧ ∃ new, ids_extended s s' new.
Proof.
  intros W Hn E. destruct o as [op|op|op|op|op]; unfold candidate_apply in E; monad_inv.
  - eapply witness_create_wf; eauto. lia.
  - destruct x. apply witness_update_wf in H. split; [by eapply wf_candidates_same|].
    eexists. by apply ids_same.
  - eapply committee_create_wf; eauto. lia.
  - destruct x. apply committee_update_wf in H. split; [by eapply wf_candidates_same|].
    eexists. by apply ids_same.
  - by eapply worker_create_wf.
Qed.

(** ** The tally of an election *)
Definition same_roll (s s' : database) : Prop :=
  witnesses s' = witnesses s ∧ governance s' = governance s ∧ gpo s' = gpo s.
#[local] Instance same_roll_preorder : PreOrder same_roll.
Proof. split; [by intros s|]. intros s1 s2 s3 (? & ? & ?) (? & ? & ?). split_and!; congruence. Qed.

Lemma roll_process_fees i : keeps same_roll (process_fees i).
Proof.
  assert (∀ a x b, keeps same_roll (deposit_cashback a x b)) as Hd.
  { intros a x b. unfold deposit_cashback.
    assert (∀ ov amt vs ty o rv, keeps same_roll (deposit_lazy_vesting ov amt vs ty o rv))
      by (intros; apply keeps_deposit_lazy; [apply _|done..]).
    solve_keeps_with ltac:(done). }
  assert (∀ a x b, keeps same_roll (pay_out_fees a x b)) as Hp
    by (intros; unfold pay_out_fees; solve_keeps_with ltac:(done)).
  unfold process_fees. solve_keeps_with ltac:(done).
Qed.
Lemma roll_account_loop g n : ∀ itr t, keeps same_roll (account_loop n g itr t).
Proof.
  induction n as [|n IH]; intros [i|] t; cbn [account_loop]; try apply (keeps_ret same_roll); [apply keeps_throw|].
  pose proof roll_process_fees.
  assert (∀ a st t, keeps same_roll (tally_helper g a st t)).
  { intros a st t' s r s' E. by apply reads_tally_helper in E as ->. }
  solve_keeps_with ltac:(done).
Qed.
Lemma roll_account_maintenance g t : keeps same_roll (perform_account_maintenance g t).
Proof.
  intros s r s' E. unfold perform_account_maintenance in E. apply M_bind_Ok in E as ([] & s1 & E1 & E). bind_step E.
  apply roll_account_loop in E. etransitivity; [|exact E]. unfold refresh_core_balances in E1. revert E1.
  apply (while_some_keeps _ _ same_roll). intros s2 x s3 _. unfold refresh_core_balance.
  revert s2. assert (keeps same_roll (refresh_core_balance x)) as HK; [|intros s2; apply HK].
  unfold refresh_core_balance. solve_keeps_with ltac:(done).
Qed.

(** Counting votes keeps the size of the tally. *)
Definition places (t : tally) : nat := length (vote_tally_buffer t).
Lemma places_cast_ballot g stake o t : places (cast_ballot g stake o t) = places t.
Proof.
  unfold places, cast_ballot. simpl. induction (elements (votes o)) as [|id l IH]; [done|].
  cbn [foldr]. unfold count_stake at 1. by rewrite length_alter.
Qed.
Lemma places_tally_helper g a st t s t' s' : tally_helper g a st t s = Ok (t', s') → places t' = places t.
Proof.
  unfold tally_helper. intros E. monad_inv. destruct (_ || _); monad_inv; [|done]. apply places_cast_ballot.
Qed.
Lemma places_account_loop g n : ∀ itr t s t' s',
  account_loop n g itr t s = Ok (t', s') → places t' = places t.
Proof.
  induction n as [|n IH]; intros [i|] t s t' s' E; cbn [account_loop] in E; monad_inv; try done.
  apply IH in E. rewrite E. destruct (has_some_core_voting _); monad_inv; [|done].
  by eapply places_tally_helper.
Qed.

Lemma votes_of_place t id : (Z.to_nat (vote_instance id) < places t)%nat → ∃ v, votes_of t id = Ok v.
Proof. intros [v Hv]%lookup_lt_is_Some. exists v. unfold votes_of. by rewrite Hv. Qed.

(** After the accounts have voted, the tally has a place for every candidate: no
    election reads behind the end of the buffer, whose size is the number of vote ids
    given out. *)
Theorem tally_covers_candidates old s t s' :
  wf_candidates s →
  perform_account_maintenance (gpo s) (vote_tally_helper old (gpo s)) s = Ok (t, s') →
  wf_candidates s' ∧ ∀ id, id ∈ vote_ids s' → ∃ v, votes_of t id = Ok v.
Proof.
  intros W E. destruct (roll_account_maintenance _ _ _ _ _ E) as (Hw & Hg & Hp).
  assert (vote_state s' = vote_state s) as HV.
  { unfold vote_state, witness_ids, committee_ids, for_ids, against_ids. by rewrite Hw, Hg, Hp. }
  assert (wf_candidates s') as W' by by eapply wf_candidates_same. split; [done|]. intros id Hid.
  unfold perform_account_maintenance in E. apply M_bind_Ok in E as ([] & s1 & _ & E). bind_step E.
  apply places_account_loop in E. apply votes_of_place. rewrite E. unfold places, vote_tally_helper. simpl.
  unfold resize. rewrite length_app, length_take, length_replicate.
  pose proof (wfc_below _ W') as HB. rewrite Forall_forall in HB. specialize (HB _ Hid). rewrite Hp in HB. lia.
Qed.

(** ** Accepted votes *)
Lemma check_each_all {A} (f : A → result unit) l : check_each f l = Ok tt ↔ Forall (λ x, f x = Ok tt) l.
Proof.
  induction l as [|x l IH]; [by split|]. rewrite Forall_cons, <-IH. cbn.
  destruct (f x) as [[]|]; [|by split; [|intros []]]. cbn. tauto.
Qed.
Lemma votes_below_Ok m l b b' : votes_below m l b = Ok b' → Forall (λ id, vote_instance id < m) l.
Proof.
  revert b. induction l as [|id l IH]; intros b E; [done|]. cbn [votes_below] in E. monad_inv.
  constructor; [lia|by eapply IH].
Qed.
Lemma no_conflict_false {V} (f : V → bool) m :
  negb (no_conflict f m) = true ↔ ∃ i v, m !! i = Some v ∧ f v = true.
Proof.
  unfold no_conflict. rewrite negb_involutive, existsb_exists. split.
  - intros ([i v] & Hi%list_elem_of_In%elem_of_map_to_list & Hf). eauto.
  - intros (i & v & Hi & Hf). exists (i, v). split; [|done]. by apply list_elem_of_In, elem_of_map_to_list.
Qed.

Lemma candidate_found {V} (vid : V → Z) (m : gmap Z V) ty id :
  Forall (λ x, vote_type x = ty) (vals (vid <$> m)) → vote_type id = ty →
  negb (no_conflict (λ v, same_vote_id (vid v) id) m) = true → ∃ i v, m !! i = Some v ∧ vid v = id.
Proof.
  intros HF Ht (i & v & Hi & Hs%Z.eqb_eq)%no_conflict_false. exists i, v. split; [done|].
  apply vote_id_eq; [|done]. rewrite Ht. rewrite Forall_forall in HF. apply HF.
  unfold vals. apply list_elem_of_fmap. exists (i, vid v). split; [done|].
  apply elem_of_map_to_list. by rewrite lookup_fmap, Hi.
Qed.

(** The witnesses and the committee members an account votes for. *)
Definition votes_for_type (ty : Z) (o : account_options) : Z :=
  Z.of_nat (length (filter (λ id, vote_type id = ty) (elements (votes o)))).

Lemma needed_spec l : ∀ w c, 0 ≤ w → 0 ≤ c →
  needed l w c = (Z.max 0 (w - Z.of_nat (length (filter (λ id, vote_type id = vt_witness) l))),
                  Z.max 0 (c - Z.of_nat (length (filter (λ id, vote_type id = vt_committee) l)))).
Proof.
  induction l as [|id l IH]; intros w c Hw Hc; cbn [needed]; [simpl; f_equal; lia|].
  rewrite !filter_cons. unfold vt_witness, vt_committee in *.
  destruct (Z.eqb_spec (vote_type id) 1) as [E|E]; simpl.
  - rewrite decide_True, decide_False by lia. cbn [length].
    destruct (Z.eqb_spec w 0) as [->|]; cbn [negb]; rewrite ?(proj2 (Z.eqb_neq (vote_type id) 0)) by lia; cbn [andb];
      rewrite IH by lia; f_equal; lia.
  - rewrite decide_False by done. destruct (Z.eqb_spec (vote_type id) 0) as [E0|E0]; cbn [andb].
    + rewrite decide_True by done. cbn [length]. destruct (Z.eqb_spec c 0) as [->|]; cbn [negb];
        rewrite IH by lia; f_equal; lia.
    + rewrite decide_False by done. rewrite IH by lia. done.
Qed.

Lemma account_options_validate_spec o :
  0 ≤ num_witness o → 0 ≤ num_committee o →
  account_options_validate o = Ok tt ↔
  num_witness o ≤ votes_for_type vt_witness o ∧ num_committee o ≤ votes_for_type vt_committee o.
Proof.
  intros Hw Hc. unfold account_options_validate. rewrite needed_spec by done.
  assert (∀ ty, length (filter (λ id, vote_type id = ty) (votes_in_order o)) =
                length (filter (λ id, vote_type id = ty) (elements (votes o)))) as HP.
  { intros ty. unfold votes_in_order. by rewrite merge_sort_Permutation. }
  rewrite !HP. fold (votes_for_type vt_witness o) (votes_for_type vt_committee o).
  unfold fc_assert. destruct (_ && _) eqn:E; split; try done.
  - apply andb_true_iff in E as [? ?]. lia.
  - intros [? ?]. exfalso. apply andb_false_iff in E as [E|E]; apply Z.eqb_neq in E; lia.
Qed.

Lemma in_votes_in_order o id : id ∈ votes_in_order o ↔ id ∈ votes o.
Proof. unfold votes_in_order. by rewrite merge_sort_Permutation, elem_of_elements. Qed.
Lemma when_check_each (b : bool) (f : database → Z → result unit) l s s' :
  when b (read (λ s, check_each (f s) l)) s = Ok (tt, s') →
  (b = true → Forall (λ x, f s x = Ok tt) l) ∧ s' = s.
Proof.
  destruct b; simpl; [|by intros [= <-]]. unfold read. intros [E ->]%lift_Ok.
  split; [|done]. intros _. by apply check_each_all.
Qed.

(** C18: Votes that [verify_account_votes] accepts after hard fork core-143 each name an
    existing witness or committee member, or the approval of an existing worker: the
    object found has the very id voted for, although ids are compared by their
    instance only.  With [account_options::validate] the account asks for no more
    witnesses and committee members than it votes for.  Nothing is changed. *)
Theorem accepted_votes_exist o s s' :
  0 ≤ num_witness o → 0 ≤ num_committee o →
  wf_candidates s → HARDFORK_CORE_143_TIME ≤ time (dgpo s) →
  account_options_validate o = Ok tt → verify_account_votes o s = Ok (tt, s') →
  s' = s ∧
  (∀ id, id ∈ votes o →
     (∃ i w, witnesses s !! i = Some w ∧ witness_vote_id w = id) ∨
     (∃ i c, committee_members (governance s) !! i = Some c ∧ committee_vote_id c = id) ∨
     (∃ i w, workers (governance s) !! i = Some w ∧ vote_for w = id)) ∧
  num_witness o ≤ Z.min (votes_for_type vt_witness o) (maximum_witness_count (parameters (gpo s))) ∧
  num_committee o ≤ Z.min (votes_for_type vt_committee o) (maximum_committee_count (parameters (gpo s))).
Proof.
  intros Hw Hc W Ht HV E. apply account_options_validate_spec in HV as [V1 V2]; [|done..].
  unfold verify_account_votes, get_parameters, head_block_time, find in E. monad_inv. bool_to_prop.
  match goal with
  | H : when (_ >=? HARDFORK_CORE_143_TIME) _ _ = Ok (tt, s'), H1 : when _ _ _ = Ok (?x, ?s1) |- _ =>
      rename H into EL; destruct x; apply when_check_each in H1 as [_ ->]
  end.
  apply when_check_each in EL as [EL ->]. rewrite (proj2 (Z.geb_le _ _)) in EL by done. specialize (EL eq_refl).
  split; [done|]. split; [|split; apply Z.min_glb; done].
  intros id Hid. eapply Forall_forall in EL; [|by rewrite in_votes_in_order].
  unfold vote_exists in EL. destruct W. destruct (Z.eqb_spec (vote_type id) vt_committee) as [E|_].
  { right; left. apply fc_assert_Ok in EL. by eapply candidate_found. }
  destruct (Z.eqb_spec (vote_type id) vt_witness) as [E|_].
  { left. apply fc_assert_Ok in EL. by eapply candidate_found. }
  destruct (Z.eqb_spec (vote_type id) vt_worker) as [E|_]; [|done].
  right; right. apply fc_assert_Ok in EL. by eapply candidate_found.
Qed.

End candidates.

(** ** A roll of candidates *)
Definition ex_worker_object : worker_object :=
  WorkerObject 18 1500000000 1700000000 100 (refund_worker_type 0) 1026 1282 0 0 String.EmptyString String.EmptyString.
Definition ex_roll : database :=
  set_witnesses {[ 1 := ex_candidate 17 257; 2 := ex_candidate 18 513 ]}
  (set_governance (GovernanceState {[ 0 := CommitteeMember 17 768 0 String.EmptyString ]} {[ 0 := ex_worker_object ]}
     ∅ ∅ ∅ [] 3 3 (IdSequences 20 2 4 1 1 0 0)) ex_chain).
Definition ex_worker_create : worker_create_operation :=
  WorkerCreate (Asset 0 0) 18 1600000000 1700000000 500 String.EmptyString String.EmptyString
    (vesting_balance_worker_initializer 365).
Definition ex_ballot : account_options := AccountOptions 17 1 1 {[ 257; 768; 1026 ]} 60.

Lemma ex_roll_wf : wf_candidates ex_roll.
Proof. split; try (apply (bool_decide_unpack _); by vm_compute). Qed.

Lemma vote_ids_distinct_witness :
  match candidate_apply (co_worker_create ex_worker_create) ex_roll with
  | Ok (r, s') => r = Some 1 ∧ next_available_vote_id (gpo s') = 12 ∧ wf_candidates s'
  | Err _ => False
  end.
Proof.
  destruct (candidate_apply (co_worker_create ex_worker_create) ex_roll) as [[r s']|e] eqn:E;
    [|vm_compute in E; discriminate E].
  destruct (vote_ids_distinct (co_worker_create ex_worker_create) ex_roll r s' ex_roll_wf ltac:(by vm_compute) E) as [W _].
  split_and!; [| |exact W]; vm_compute in E; injection E as <- <-; reflexivity.
Defined.

Lemma tally_covers_candidates_witness :
  match perform_account_maintenance (gpo ex_roll) (vote_tally_helper empty_tally (gpo ex_roll)) ex_roll with
  | Ok (t, s') => ∃ v, votes_of t 1282 = Ok v
  | Err _ => False
  end.
Proof.
  destruct (perform_account_maintenance (gpo ex_roll) (vote_tally_helper empty_tally (gpo ex_roll)) ex_roll)
    as [[t s']|e] eqn:E; [|vm_compute in E; discriminate E].
  apply (tally_covers_candidates empty_tally ex_roll t s' ex_roll_wf E).
  vm_compute in E. injection E as <- <-. apply (bool_decide_unpack _). by vm_compute.
Defined.

Lemma accepted_votes_exist_witness :
  match verify_account_votes ex_ballot ex_roll with
  | Ok (_, s') => s' = ex_roll ∧ num_witness ex_ballot ≤ Z.min (votes_for_type vt_witness ex_ballot) 1001
  | Err _ => False
  end.
Proof.
  destruct (verify_account_votes ex_ballot ex_roll) as [[[] s']|e] eqn:E; [|vm_compute in E; discriminate E].
  destruct (accepted_votes_exist ex_ballot ex_roll s' ltac:(done) ltac:(done) ex_roll_wf ltac:(by vm_compute)
    ltac:(by vm_compute) E) as (H1 & _ & H2 & _). split; [exact H1|exact H2].
Defined.

(** A vesting period of 49711 days is more seconds than 32 bits hold: the worker's pay
    vests within a day. *)
Example worker_period_wraps :
  match worker_create_apply (WorkerCreate (Asset 0 0) 18 1600000000 1700000000 500 String.EmptyString
          String.EmptyString (vesting_balance_worker_initializer 49711)) ex_roll with
  | Ok (_, s') => vbo_policy <$> vestings s' !! 0 = Some (cdd_policy (CddVestingPolicy 63104 0 0 1600000000))
  | Err _ => False
  end.
Proof. by vm_compute. Qed.
