(* ===== verification/Accounts.v ===== *)
(** * Accounts: chain/account_evaluator.cpp, protocol/account.cpp

    Registering an account, changing its authorities, options and special
    authorities, listing other accounts and upgrading its membership: the checks
    of the operations, their fees and their evaluators, with the checks of special
    authorities (chain/special_authority_evaluation.cpp) and of buyback accounts
    (chain/buyback.cpp).  The evaluators start from the state after the fee is
    paid.  The invariant [wf_accounts] ties each account to its statistics, to the
    accounts it lists and to the table of special authorities. *)

From S2P Require Import Prelude External Asset Authority Operations Block Vesting State Balance Fill Market Trade.
From S2P Require Import Evaluator MarketOps Ledger Expire Budget Election Maintenance Names Candidates.
From Stdlib Require String.
Import Stdlib.Strings.String.StringSyntax.

Definition HARDFORK_453_TIME : Z := 1450288800.
Definition HARDFORK_516_TIME : Z := 1456250400.
Definition GRAPHENE_DEFAULT_MAX_BUYBACK_MARKETS : nat := 4.

(** ** Operations *)
Record buyback_account_options := BuybackAccountOptions {
  asset_to_buy : Z; asset_to_buy_issuer : Z; markets : gset Z }.
Record account_create_operation := AccountCreate {
  ac_fee : asset;
  ac_registrar : Z;
  ac_referrer : Z;
  ac_referrer_percent : Z;
  ac_name : String.string;
  ac_owner : authority;
  ac_active : authority;
  ac_options : account_options;
  ac_owner_special_authority : option special_authority;
  ac_active_special_authority : option special_authority;
  ac_buyback_options : option buyback_account_options
}.
Record account_update_operation := AccountUpdate {
  au_fee : asset;
  au_account : Z;
  au_owner : option authority;
  au_active : option authority;
  au_new_options : option account_options;
  au_owner_special_authority : option special_authority;
  au_active_special_authority : option special_authority
}.
Record account_whitelist_operation := AccountWhitelist {
  aw_fee : asset; aw_authorizing_account : Z; aw_account_to_list : Z; aw_new_listing : Z }.
Record account_upgrade_operation := AccountUpgrade {
  ag_fee : asset; ag_account_to_upgrade : Z; ag_upgrade_to_lifetime_member : bool }.

Definition is_some {A} (o : option A) : bool := match o with Some _ => true | None => false end.
(** [if( o.valid() ) f( *o );]. *)
Definition if_valid {A} (o : option A) (f : A → result unit) : result unit :=
  match o with Some x => f x | None => Ok tt end.

(** ** validate *)
Definition validate_special_authority (a : special_authority) : result unit :=
  match a with
  | no_special_authority => Ok tt
  | top_holders_special_authority _ n => fc_assert (n >? 0)
  end.
Definition validate_authority (a : authority) : result unit :=
  fc_assert (negb (num_auths a =? 0)%nat);;
  fc_assert (bool_decide (address_auths a = []));;
  fc_assert (negb (is_impossible a)).
Definition valid_name (n : String.string) : result unit :=
  b ← from_option_r out_of_fuel (is_valid_name n); fc_assert b.
#[export] Instance authority_eq_dec : EqDecision authority.
Proof. solve_decision. Defined.

Definition account_create_validate (op : account_create_operation) : result unit :=
  fc_assert (amount (ac_fee op) >=? 0);;
  valid_name (ac_name op);;
  fc_assert (ac_referrer_percent op <=? GRAPHENE_100_PERCENT);;
  fc_assert (negb (num_auths (ac_owner op) =? 0)%nat);;
  fc_assert (bool_decide (address_auths (ac_owner op) = []));;
  fc_assert (negb (num_auths (ac_active op) =? 0)%nat);;
  fc_assert (bool_decide (address_auths (ac_active op) = []));;
  fc_assert (negb (is_impossible (ac_owner op)));;
  fc_assert (negb (is_impossible (ac_active op)));;
  account_options_validate (ac_options op);;
  if_valid (ac_owner_special_authority op) validate_special_authority;;
  if_valid (ac_active_special_authority op) validate_special_authority;;
  if_valid (ac_buyback_options op) (λ b,
    fc_assert (negb (is_some (ac_owner_special_authority op)));;
    fc_assert (negb (is_some (ac_active_special_authority op)));;
    fc_assert (bool_decide (ac_owner op = null_authority));;
    fc_assert (bool_decide (ac_active op = null_authority));;
    fc_assert (negb (size (markets b) =? 0)%nat);;
    fc_assert (negb (bool_decide (asset_to_buy b ∈ markets b)))).

Definition account_update_validate (op : account_update_operation) : result unit :=
  fc_assert (negb (au_account op =? GRAPHENE_TEMP_ACCOUNT));;
  fc_assert (amount (au_fee op) >=? 0);;
  fc_assert (negb (au_account op =? 0));;
  fc_assert (is_some (au_owner op) || is_some (au_active op) || is_some (au_new_options op)
             || is_some (au_owner_special_authority op) || is_some (au_active_special_authority op));;
  if_valid (au_owner op) validate_authority;;
  if_valid (au_active op) validate_authority;;
  if_valid (au_new_options op) account_options_validate;;
  if_valid (au_owner_special_authority op) validate_special_authority;;
  if_valid (au_active_special_authority op) validate_special_authority.

Definition account_whitelist_validate (op : account_whitelist_operation) : result unit :=
  fc_assert (amount (aw_fee op) >=? 0);; fc_assert (aw_new_listing op <? 4).
Definition account_upgrade_validate (op : account_upgrade_operation) : result unit :=
  fc_assert (amount (ag_fee op) >=? 0).

(** ** calculate_fee *)
Record account_create_fee_parameters := AccountCreateFees {
  basic_fee : Z; premium_fee : Z; ac_price_per_kbyte : Z }.
Section fees.
Context `{EX : Ext}.
(** [bytes] is the size of the packed operation. *)
Definition account_create_calculate_fee (k : account_create_fee_parameters) (op : account_create_operation) (bytes : Z)
    : result Z :=
  let core_fee_required := if negb (is_cheap_name (ac_name op)) then premium_fee k else basic_fee k in
  data_fee (FeeParameters core_fee_required (ac_price_per_kbyte k)) bytes.
Definition account_update_calculate_fee (k : fee_parameters) (op : account_update_operation) (bytes : Z) : result Z :=
  memo_fee k (if is_some (au_new_options op) then Some bytes else None).
Definition account_upgrade_calculate_fee (annual lifetime : Z) (op : account_upgrade_operation) : Z :=
  share_of_u64 (if ag_upgrade_to_lifetime_member op then lifetime else annual).

(** ** Checks of the evaluators *)
Fixpoint accounts_exist (l : list (Z * Z)) : M database unit :=
  match l with
  | [] => mret tt
  | (a, _) :: l =>
      x ← find (V:=account_object) a;
      require (is_some x) internal_verify_auth_account_not_found;;
      accounts_exist l
  end.
Definition verify_authority_accounts (a : authority) : M database unit :=
  p ← get_parameters;
  require (Z.of_nat (num_auths a) <=? maximum_authority_membership p) internal_verify_auth_max_auth_exceeded;;
  accounts_exist (account_auths a).

(** [GRAPHENE_RECODE_EXC( cause, effect )] after a [try] block. *)
Definition recode {A} (m : M database A) (f : exn → exn) : M database A := λ s,
  match m s with Ok x => Ok x | Err e => Err (f e) end.
Definition recode_create (e : exn) : exn :=
  match e with
  | internal_verify_auth_max_auth_exceeded => account_create_max_auth_exceeded
  | internal_verify_auth_account_not_found => account_create_auth_account_not_found
  | e => e
  end.
Definition recode_update (e : exn) : exn :=
  match e with
  | internal_verify_auth_max_auth_exceeded => account_update_max_auth_exceeded
  | internal_verify_auth_account_not_found => account_update_auth_account_not_found
  | e => e
  end.

Definition when_valid {A} (o : option A) (f : A → M database unit) : M database unit :=
  match o with Some x => f x | None => mret tt end.
Definition evaluate_special_authority (a : special_authority) : M database unit :=
  match a with
  | no_special_authority => mret tt
  | top_holders_special_authority i _ => _ ← get (V:=asset_object) i; mret tt
  end.
Definition evaluate_buyback_account_options (b : buyback_account_options) : M database unit :=
  a ← get (V:=asset_object) (asset_to_buy b);
  require (issuer a =? asset_to_buy_issuer b) account_create_buyback_incorrect_issuer;;
  require (negb (is_some (buyback_account a))) account_create_buyback_already_exists;;
  require (size (markets b) <? GRAPHENE_DEFAULT_MAX_BUYBACK_MARKETS)%nat account_create_buyback_too_many_markets.
Definition special_authority_allowed (owner active : option special_authority) : M database unit :=
  now ← head_block_time;
  when (now <? HARDFORK_516_TIME) (assert_that (negb (is_some owner));; assert_that (negb (is_some active))).

(** ** Registration *)
Definition has_account_name (n : String.string) (s : database) : bool :=
  negb (no_conflict (λ a, String.eqb (acc_name a) n) (accounts s)).
Definition account_create_evaluate (op : account_create_operation) : M database unit :=
  special_authority_allowed (ac_owner_special_authority op) (ac_active_special_authority op);;
  now ← head_block_time;
  fee_paying_account ← get (V:=account_object) (ac_registrar op);
  assert_that (is_lifetime_member fee_paying_account);;
  referrer ← get (V:=account_object) (ac_referrer op);
  assert_that (is_member referrer now);;
  recode (verify_authority_accounts (ac_owner op);; verify_authority_accounts (ac_active op)) recode_create;;
  when_valid (ac_owner_special_authority op) evaluate_special_authority;;
  when_valid (ac_active_special_authority op) evaluate_special_authority;;
  when_valid (ac_buyback_options op) evaluate_buyback_account_options;;
  verify_account_votes (ac_options op);;
  when (negb (String.length (ac_name op) =? 0)%nat)
    (taken ← gets (has_account_name (ac_name op)); assert_that (negb taken)).

Definition options_voting (o : account_options) : bool :=
  negb (voting_account o =? GRAPHENE_PROXY_TO_SELF_ACCOUNT) || negb (bool_decide (votes o = ∅)).
Definition has_special_authority (a : account_object) : bool :=
  match owner_special_authority a, active_special_authority a with
  | no_special_authority, no_special_authority => false
  | _, _ => true
  end.

(** Small percentages before hard fork 453 were meant in whole percent. *)
Definition referrer_percent_of (op : account_create_operation) (now : Z) : Z :=
  if (now <=? HARDFORK_453_TIME) && negb (ac_referrer op =? ac_registrar op) && negb (ac_referrer_percent op =? 0)
     && (ac_referrer_percent op <=? 256)
  then Z.min (u16 (ac_referrer_percent op * 100)) GRAPHENE_100_PERCENT else ac_referrer_percent op.

Definition new_account (op : account_create_operation) (percent lifetime : Z) (p : chain_parameters) : account_object :=
  AccountObject 0 (ac_registrar op) (ac_referrer op) lifetime (network_percent_of_fee p)
    (lifetime_referrer_percent_of_fee p) percent ∅ ∅
    ((λ b, {[ asset_to_buy b ]} ∪ markets b) <$> ac_buyback_options op)
    None (ac_owner op) (ac_active op) (ac_options op)
    (default no_special_authority (ac_owner_special_authority op))
    (default no_special_authority (ac_active_special_authority op)) 0 (ac_name op) ∅ ∅.
Definition new_statistics (op : account_create_operation) : account_statistics_object :=
  AccountStatistics 0 0 false 0 0 0 (options_voting (ac_options op)) (ac_name op) 0.

(** [create] in the two tables of accounts and assets that have no objects of their own:
    their [by_account] and [by_asset] keys are unique. *)
Definition create_special_authority (account : Z) : M database unit :=
  i ← gets (λ s, next_special_authority_id (sequences (governance s)));
  ok ← gets (λ s, negb (is_some (special_authorities (governance s) !! i))
                  && no_conflict (λ a, a =? account) (special_authorities (governance s)));
  assert_that ok;;
  puts (λ s, set_special_authorities (<[i := account]> (special_authorities (governance s))) s);;
  puts (set_sequences (λ q, IdSequences (next_account_id q) (next_asset_id q) (next_witness_id q)
          (next_committee_member_id q) (next_worker_id q) (i + 1) (next_buyback_id q))).
Definition create_buyback (asset_type : Z) : M database unit :=
  i ← gets (λ s, next_buyback_id (sequences (governance s)));
  ok ← gets (λ s, negb (is_some (buybacks (governance s) !! i))
                  && no_conflict (λ a, a =? asset_type) (buybacks (governance s)));
  assert_that ok;;
  puts (λ s, set_buybacks (<[i := asset_type]> (buybacks (governance s))) s);;
  puts (set_sequences (λ q, IdSequences (next_account_id q) (next_asset_id q) (next_witness_id q)
          (next_committee_member_id q) (next_worker_id q) (next_special_authority_id q) (i + 1))).
Definition set_buyback_account (i : Z) (a : asset_object) : asset_object :=
  AssetObject (issuer a) (ao_options a) (bitasset_data_valid a) (Some i) (symbol a) (precision a).
Definition set_registered (n : Z) (d : dynamic_global_property_object) : dynamic_global_property_object :=
  DynamicGlobalProperties (head_block_number d) (head_block_id d) (time d) (current_witness d)
    (next_maintenance_time d) (witness_budget d) (recently_missed_count d) (current_aslot d)
    (recent_slots_filled d) (dynamic_flags d) (last_irreversible_block_num d) n (last_budget_time d).

(** The fee of the operation, under its tag, is raised at each scaling. *)
Definition scale_account_fee (registered : Z) (p : chain_parameters) : result chain_parameters :=
  if accounts_per_fee_scale p =? 0 then Err undefined_behaviour
  else if (registered mod accounts_per_fee_scale p =? 0) && negb (account_fee_scale_bitshifts p =? 0) then
    f ← from_option_r assert_exception (op_fees p !! 5);
    (if account_fee_scale_bitshifts p <? 64 then Ok tt else Err undefined_behaviour);;
    Ok (set_op_fees (<[5 := FeeParameters (u64 (Z.shiftl (fp_fee f) (account_fee_scale_bitshifts p))) (fp_rate f)]>
                       (op_fees p)) p)
  else Ok p.

Definition account_create_apply (op : account_create_operation) : M database Z :=
  now ← head_block_time;
  p ← get_parameters;
  referrer ← get (V:=account_object) (ac_referrer op);
  i ← gets (λ s, next_account_id (sequences (governance s)));
  fresh ← gets (λ s, negb (has_account_name (ac_name op) s)
                     && no_conflict (λ st, negb (need_maintenance st) && String.eqb (stats_name st) (ac_name op)) (stats s));
  assert_that fresh;;
  add i (new_statistics op);;
  i ← create (λ _, new_account op (referrer_percent_of op now) (lifetime_referrer referrer) p);
  puts (λ s, set_dgpo (set_registered (u32 (accounts_registered_this_interval (dgpo s) + 1)) (dgpo s)) s);;
  registered ← gets (λ s, accounts_registered_this_interval (dgpo s));
  p' ← lift (scale_account_fee registered p);
  puts (λ s, set_gpo (set_parameters p' (pending_parameters (gpo s)) (gpo s)) s);;
  when (is_some (ac_owner_special_authority op) || is_some (ac_active_special_authority op))
    (create_special_authority i);;
  when_valid (ac_buyback_options op) (λ b,
    create_buyback (asset_to_buy b);;
    _ ← get (V:=asset_object) (asset_to_buy b);
    modify (asset_to_buy b) (λ a, Ok (set_buyback_account i a)));;
  mret i.

(** ** Changes *)
Definition account_update_evaluate (op : account_update_operation) : M database unit :=
  special_authority_allowed (au_owner_special_authority op) (au_active_special_authority op);;
  recode (when_valid (au_owner op) verify_authority_accounts;; when_valid (au_active op) verify_authority_accounts)
    recode_update;;
  when_valid (au_owner_special_authority op) evaluate_special_authority;;
  when_valid (au_active_special_authority op) evaluate_special_authority;;
  _ ← get (V:=account_object) (au_account op);
  when_valid (au_new_options op) verify_account_votes.

(** Sets of votes are equal when the votes are, and votes are compared by their instance. *)
Definition same_votes (a b : account_options) : bool :=
  bool_decide (vote_instance <$> votes_in_order a = vote_instance <$> votes_in_order b).
Definition count_vote_change (now : Z) (new old : account_options) (st : account_statistics_object)
    : account_statistics_object :=
  let voting := if eqb (options_voting new) (options_voting old) then is_voting st else negb (is_voting st) in
  let last := if negb (same_votes new old) || negb (voting_account new =? voting_account old)
              then now else last_vote_time st in
  AccountStatistics (total_core_in_orders st) (core_in_balance st) (has_cashback_vb st) (lifetime_fees_paid st)
    (pending_fees st) (pending_vested_fees st) voting (stats_name st) last.
Definition update_account (op : account_update_operation) (a : account_object) : account_object :=
  let changed := is_some (au_owner op) || is_some (au_active op) || is_some (au_owner_special_authority op)
                 || is_some (au_active_special_authority op) in
  AccountObject (membership_expiration_date a) (registrar a) (referrer a) (lifetime_referrer a)
    (network_fee_percentage a) (lifetime_referrer_fee_percentage a) (referrer_rewards_percentage a)
    (whitelisting_accounts a) (blacklisting_accounts a) (allowed_assets a) (cashback_vb a)
    (default (acc_owner a) (au_owner op)) (default (acc_active a) (au_active op))
    (default (acc_options a) (au_new_options op))
    (default (owner_special_authority a) (au_owner_special_authority op))
    (default (active_special_authority a) (au_active_special_authority op))
    (if changed then 0 else top_n_control_flags a)
    (acc_name a) (whitelisted_accounts a) (blacklisted_accounts a).

(** [sa_idx.find( account )], which the source dereferences. *)
Definition remove_special_authority (account : Z) : M database unit :=
  l ← gets (λ s, filter (λ x : Z * Z, x.2 = account) (map_to_list (special_authorities (governance s))));
  match l with
  | [] => throw undefined_behaviour
  | (i, _) :: _ => puts (λ s, set_special_authorities (delete i (special_authorities (governance s))) s)
  end.
Definition account_update_apply (op : account_update_operation) : M database unit :=
  a ← get (V:=account_object) (au_account op);
  when_valid (au_new_options op) (λ o,
    now ← head_block_time;
    _ ← get (V:=account_statistics_object) (au_account op);
    modify (au_account op) (λ st, Ok (count_vote_change now o (acc_options a) st)));;
  modify (au_account op) (λ a, Ok (update_account op a));;
  let sa_before := has_special_authority a in
  let sa_after := has_special_authority (update_account op a) in
  if sa_before && negb sa_after then remove_special_authority (au_account op)
  else when (negb sa_before && sa_after) (create_special_authority (au_account op)).

(** ** Lists *)
Definition white_listed : Z := 1.
Definition black_listed : Z := 2.
Definition put_if (b : bool) (i : Z) (l : gset Z) : gset Z := if b then {[ i ]} ∪ l else l ∖ {[ i ]}.
Definition is_listed (listing bit : Z) : bool := negb (Z.land listing bit =? 0).
Definition set_listing (white black : gset Z) (a : account_object) : account_object :=
  AccountObject (membership_expiration_date a) (registrar a) (referrer a) (lifetime_referrer a)
    (network_fee_percentage a) (lifetime_referrer_fee_percentage a) (referrer_rewards_percentage a)
    white black (allowed_assets a) (cashback_vb a) (acc_owner a) (acc_active a) (acc_options a)
    (owner_special_authority a) (active_special_authority a) (top_n_control_flags a) (acc_name a)
    (whitelisted_accounts a) (blacklisted_accounts a).
Definition set_listed (white black : gset Z) (a : account_object) : account_object :=
  AccountObject (membership_expiration_date a) (registrar a) (referrer a) (lifetime_referrer a)
    (network_fee_percentage a) (lifetime_referrer_fee_percentage a) (referrer_rewards_percentage a)
    (whitelisting_accounts a) (blacklisting_accounts a) (allowed_assets a) (cashback_vb a) (acc_owner a)
    (acc_active a) (acc_options a) (owner_special_authority a) (active_special_authority a)
    (top_n_control_flags a) (acc_name a) white black.
Definition account_whitelist_evaluate (op : account_whitelist_operation) : M database unit :=
  _ ← get (V:=account_object) (aw_account_to_list op);
  p ← get_parameters;
  when (negb (allow_non_member_whitelists p))
    (a ← get (V:=account_object) (aw_authorizing_account op); assert_that (is_lifetime_member a)).
Definition account_whitelist_apply (op : account_whitelist_operation) : M database unit :=
  let white := is_listed (aw_new_listing op) white_listed in
  let black := is_listed (aw_new_listing op) black_listed in
  modify (aw_account_to_list op) (λ a,
    Ok (set_listing (put_if white (aw_authorizing_account op) (whitelisting_accounts a))
          (put_if black (aw_authorizing_account op) (blacklisting_accounts a)) a));;
  _ ← get (V:=account_object) (aw_authorizing_account op);
  modify (aw_authorizing_account op) (λ a,
    Ok (set_listed (put_if white (aw_account_to_list op) (whitelisted_accounts a))
          (put_if black (aw_account_to_list op) (blacklisted_accounts a)) a)).

(** ** Membership *)
Definition set_membership (expiration registrar referrer lifetime lifetime_pct : Z) (a : account_object)
    : account_object :=
  AccountObject expiration registrar referrer lifetime (network_fee_percentage a) lifetime_pct
    (referrer_rewards_percentage a) (whitelisting_accounts a) (blacklisting_accounts a) (allowed_assets a)
    (cashback_vb a) (acc_owner a) (acc_active a) (acc_options a) (owner_special_authority a)
    (active_special_authority a) (top_n_control_flags a) (acc_name a) (whitelisted_accounts a)
    (blacklisted_accounts a).
Definition SECONDS_PER_YEAR : Z := 365 * SECONDS_PER_DAY.
Definition account_upgrade_evaluate (op : account_upgrade_operation) : M database unit :=
  a ← get (V:=account_object) (ag_account_to_upgrade op);
  assert_that (negb (is_lifetime_member a)).
Definition account_upgrade_apply (op : account_upgrade_operation) : M database unit :=
  let i := ag_account_to_upgrade op in
  a ← get (V:=account_object) i;
  now ← head_block_time;
  if ag_upgrade_to_lifetime_member op then
    _ ← get (V:=account_statistics_object) i;
    process_fees i;;
    modify i (λ a, Ok (set_membership uint32_max i i i (u16 (GRAPHENE_100_PERCENT - network_fee_percentage a)) a))
  else if is_annual_member a now then
    assert_that (now <=? HARDFORK_613_TIME);;
    assert_that (tps_diff (membership_expiration_date a) now <? 3650 * SECONDS_PER_DAY);;
    modify i (λ a, Ok (set_membership (tps_add (membership_expiration_date a) SECONDS_PER_YEAR) (registrar a)
                        (referrer a) (lifetime_referrer a) (lifetime_referrer_fee_percentage a) a))
  else
    assert_that (now <=? HARDFORK_613_TIME);;
    _ ← get (V:=account_statistics_object) i;
    process_fees i;;
    modify i (λ a, Ok (set_membership (tps_add now SECONDS_PER_YEAR) (registrar a) i (lifetime_referrer a)
                        (lifetime_referrer_fee_percentage a) a)).

Inductive account_operation :=
| ao_create (op : account_create_operation)
| ao_update (op : account_update_operation)
| ao_whitelist (op : account_whitelist_operation)
| ao_upgrade (op : account_upgrade_operation).
Definition account_validate (o : account_operation) : result unit :=
  match o with
  | ao_create op => account_create_validate op
  | ao_update op => account_update_validate op
  | ao_whitelist op => account_whitelist_validate op
  | ao_upgrade op => account_upgrade_validate op
  end.
Definition account_evaluate (o : account_operation) : M database unit :=
  match o with
  | ao_create op => account_create_evaluate op
  | ao_update op => account_update_evaluate op
  | ao_whitelist op => account_whitelist_evaluate op
  | ao_upgrade op => account_upgrade_evaluate op
  end.
Definition account_apply (o : account_operation) : M database unit :=
  match o with
  | ao_create op => _ ← account_create_apply op; mret tt
  | ao_update op => account_update_apply op
  | ao_whitelist op => account_whitelist_apply op
  | ao_upgrade op => account_upgrade_apply op
  end.

End fees.

(** ** The accounts, their statistics and the table of special authorities *)

(** The members of an account that paying out its fees leaves alone. *)
Definition static_part (a : account_object) : account_object :=
  AccountObject 0 0 0 0 (network_fee_percentage a) (lifetime_referrer_fee_percentage a)
    (referrer_rewards_percentage a) (whitelisting_accounts a) (blacklisting_accounts a) None None
    null_authority null_authority (acc_options a) (owner_special_authority a) (active_special_authority a) 0
    (acc_name a) (whitelisted_accounts a) (blacklisted_accounts a).
Definition vote_part (st : account_statistics_object) : bool * String.string := (is_voting st, stats_name st).
Definition account_view (s : database) :=
  (static_part <$> accounts s, vote_part <$> stats s, special_authorities (governance s)).

Definition fee_shares_ok (net life rewards : Z) : Prop :=
  0 ≤ net ∧ 0 ≤ life ∧ net + life ≤ GRAPHENE_100_PERCENT ∧ 0 ≤ rewards ≤ GRAPHENE_100_PERCENT.
Definition lists_ok (i j : Z) (a b : account_object) : Prop :=
  (j ∈ whitelisted_accounts a ↔ i ∈ whitelisting_accounts b) ∧
  (j ∈ blacklisted_accounts a ↔ i ∈ blacklisting_accounts b).
Definition listed_by (a : account_object) : gset Z :=
  whitelisted_accounts a ∪ blacklisted_accounts a ∪ (whitelisting_accounts a ∪ blacklisting_accounts a).

Record wf_view (A : gmap Z account_object) (T : gmap Z (bool * String.string)) (SA : gmap Z Z) : Prop := {
  wv_voting i a : A !! i = Some a → T !! i = Some (options_voting (acc_options a), acc_name a);
  wv_lists i j a b : A !! i = Some a → A !! j = Some b → lists_ok i j a b;
  wv_listed i a j : A !! i = Some a → j ∈ listed_by a → is_Some (A !! j);
  wv_special i a : A !! i = Some a → has_special_authority a = true → ∃ k, SA !! k = Some i;
  wv_unique k k' i : SA !! k = Some i → SA !! k' = Some i → k = k';
  wv_names i j a b : A !! i = Some a → A !! j = Some b → acc_name a = acc_name b → i = j;
  wv_fees i a : A !! i = Some a → fee_shares_ok (network_fee_percentage a) (lifetime_referrer_fee_percentage a)
                                    (referrer_rewards_percentage a)
}.

(** The statistics of an account say whether it votes and have its name; an account is
    on the list of another exactly when that one has it among those that list it, and
    both exist; an account with a special authority is in the table of them, once;
    names are unique; the shares of the fees make at most the whole. *)
Definition wf_accounts (s : database) : Prop :=
  wf_view (static_part <$> accounts s) (vote_part <$> stats s) (special_authorities (governance s)).

Lemma wf_accounts_view s s' : account_view s' = account_view s → wf_accounts s → wf_accounts s'.
Proof. unfold wf_accounts. intros [= -> -> ->]. done. Qed.

Lemma wf_view_new A T SA SA' i a :
  wf_view A T SA → A !! i = None → listed_by a = ∅ →
  fee_shares_ok (network_fee_percentage a) (lifetime_referrer_fee_percentage a) (referrer_rewards_percentage a) →
  (∀ j b, A !! j = Some b → acc_name b ≠ acc_name a) →
  SA ⊆ SA' → (has_special_authority a = true → ∃ k, SA' !! k = Some i) →
  (∀ k k' j, SA' !! k = Some j → SA' !! k' = Some j → k = k') →
  wf_view (<[i := a]> A) (<[i := (options_voting (acc_options a), acc_name a)]> T) SA'.
Proof.
  intros [H1 H2 H3 H4 _ H6 H7] Hi Hl Hf Hn Hsub Hs Hu.
  assert (∀ j b, A !! j = Some b → j ≠ i ∧ (i ∉ listed_by b)) as Hold.
  { intros j b Hj. split; [congruence|]. intros [x Hx]%(H3 j b i Hj). congruence. }
  unfold listed_by in *. split.
  - intros j b [[<- <-]|[Hne Hj]]%lookup_insert_Some; [by rewrite lookup_insert_eq|].
    rewrite lookup_insert_ne by done. by apply H1.
  - intros j k b c [[<- <-]|[Hne Hj]]%lookup_insert_Some [[<- <-]|[Hne' Hk]]%lookup_insert_Some; unfold lists_ok.
    + set_solver.
    + destruct (Hold _ _ Hk). set_solver.
    + destruct (Hold _ _ Hj). set_solver.
    + by apply H2.
  - intros j b k [[<- <-]|[Hne Hj]]%lookup_insert_Some Hk; [set_solver|].
    apply lookup_insert_is_Some'. right. by eapply H3.
  - intros j b [[<- <-]|[Hne Hj]]%lookup_insert_Some Hb; [auto|].
    destruct (H4 _ _ Hj Hb) as [k Hk]. exists k. by eapply lookup_weaken.
  - exact Hu.
  - intros j k b c [[<- <-]|[Hne Hj]]%lookup_insert_Some [[<- <-]|[Hne' Hk]]%lookup_insert_Some E; [done| | |eauto].
    + by destruct (Hn _ _ Hk).
    + by destruct (Hn _ _ Hj).
  - intros j b [[<- <-]|[Hne Hj]]%lookup_insert_Some; [done|eauto].
Qed.

Lemma wf_view_change A T SA SA' i a a' :
  wf_view A T SA → A !! i = Some a → acc_name a' = acc_name a →
  whitelisted_accounts a' = whitelisted_accounts a → blacklisted_accounts a' = blacklisted_accounts a →
  whitelisting_accounts a' = whitelisting_accounts a → blacklisting_accounts a' = blacklisting_accounts a →
  fee_shares_ok (network_fee_percentage a') (lifetime_referrer_fee_percentage a') (referrer_rewards_percentage a') →
  (∀ j, j ≠ i → (∃ k, SA !! k = Some j) → ∃ k, SA' !! k = Some j) →
  (has_special_authority a' = true → ∃ k, SA' !! k = Some i) →
  (∀ k k' j, SA' !! k = Some j → SA' !! k' = Some j → k = k') →
  wf_view (<[i := a']> A) (<[i := (options_voting (acc_options a'), acc_name a')]> T) SA'.
Proof.
  intros [H1 H2 H3 H4 _ H6 H7] Hi Hn L1 L2 L3 L4 Hf Hsub Hs Hu. unfold lists_ok, listed_by in *. split.
  - intros j b [[<- <-]|[Hne Hj]]%lookup_insert_Some; [by rewrite lookup_insert_eq|].
    rewrite lookup_insert_ne by done. by apply H1.
  - intros j k b c [[<- <-]|[Hne Hj]]%lookup_insert_Some [[<- <-]|[Hne' Hk]]%lookup_insert_Some;
      unfold lists_ok; rewrite ?L1, ?L2, ?L3, ?L4; eauto.
  - intros j b k [[<- <-]|[Hne Hj]]%lookup_insert_Some Hk; apply lookup_insert_is_Some'; right; [|by eapply H3].
    unfold listed_by in Hk. rewrite L1, L2, L3, L4 in Hk. by eapply H3.
  - intros j b [[<- <-]|[Hne Hj]]%lookup_insert_Some Hb; [auto|]. apply Hsub; [congruence|]. by eapply H4.
  - exact Hu.
  - intros j k b c [[<- <-]|[Hne Hj]]%lookup_insert_Some [[<- <-]|[Hne' Hk]]%lookup_insert_Some E; [done| | |eauto].
    + rewrite Hn in E. eauto.
    + rewrite Hn in E. eauto.
  - intros j b [[<- <-]|[Hne Hj]]%lookup_insert_Some; [done|eauto].
Qed.

Section accounts_proofs.
Context `{EX : Ext}.

Lemma view_modify_account i f :
  (∀ a a', f a = Ok a' → static_part a' = static_part a) →
  keeps (λ s s', account_view s' = account_view s) (modify (V:=account_object) i f).
Proof.
  intros Hf. apply keeps_modify. intros s a a' Ha E. unfold account_view. cbn in *. rewrite fmap_insert.
  rewrite (Hf _ _ E), insert_id; [done|]. by rewrite lookup_fmap, Ha.
Qed.
Lemma view_modify_stats i f :
  (∀ st st', f st = Ok st' → vote_part st' = vote_part st) →
  keeps (λ s s', account_view s' = account_view s) (modify (V:=account_statistics_object) i f).
Proof.
  intros Hf. apply keeps_modify. intros s a a' Ha E. unfold account_view. cbn in *. rewrite fmap_insert.
  rewrite (Hf _ _ E), insert_id; [done|]. by rewrite lookup_fmap, Ha.
Qed.
Lemma view_preorder : PreOrder (λ s s' : database, account_view s' = account_view s).
Proof. split; [by intros s|]. intros s1 s2 s3 H1 H2. congruence. Qed.
#[local] Existing Instance view_preorder.

Lemma view_process_fees i : keeps (λ s s', account_view s' = account_view s) (process_fees i).
Proof.
  assert (∀ a x b, keeps (λ s s', account_view s' = account_view s) (deposit_cashback a x b)) as Hd.
  { intros a x b. unfold deposit_cashback.
    assert (∀ ov amt vs ty o rv, keeps (λ s s', account_view s' = account_view s) (deposit_lazy_vesting ov amt vs ty o rv))
      by (intros; apply keeps_deposit_lazy; [apply _|done..]).
    assert (keeps (λ s s', account_view s' = account_view s) (modify a set_has_cashback_vb))
      by (apply view_modify_stats; by intros ? ? [= <-]).
    assert (∀ j, keeps (λ s s', account_view s' = account_view s) (modify a (set_cashback_vb j)))
      by (intros j; apply view_modify_account; by intros ? ? [= <-]).
    solve_keeps_with ltac:(done). }
  assert (∀ a x b, keeps (λ s s', account_view s' = account_view s) (pay_out_fees a x b)) as Hp.
  { intros a x b. unfold pay_out_fees.
    assert (keeps (λ s s', account_view s' = account_view s) (modify a (λ a, Ok (set_referrer (lifetime_referrer a) a))))
      by (apply view_modify_account; by intros ? ? [= <-]).
    solve_keeps_with ltac:(done). }
  assert (keeps (λ s s', account_view s' = account_view s) (modify i clear_pending)).
  { apply view_modify_stats. intros st st' E. unfold clear_pending in E. monad_inv. done. }
  unfold process_fees. solve_keeps_with ltac:(done).
Qed.

(** ** What each evaluator does *)
Definition sa_unique (SA : gmap Z Z) : Prop := ∀ k k' i, SA !! k = Some i → SA !! k' = Some i → k = k'.

Lemma create_special_authority_Ok acct s s' :
  create_special_authority acct s = Ok (tt, s') →
  let SA := special_authorities (governance s) in let SA' := special_authorities (governance s') in
  accounts s' = accounts s ∧ stats s' = stats s ∧
  SA ⊆ SA' ∧ (∃ k, SA' !! k = Some acct) ∧ (sa_unique SA → sa_unique SA').
Proof.
  unfold create_special_authority. intros E. do 3 bind_step E. apply M_bind_Ok in E as ([] & s1 & [= <-] & [= <-]).
  bool_to_prop. cbn in *. set (n := next_special_authority_id _) in *. set (SA := special_authorities _) in *.
  assert (SA !! n = None) as Hn by (by destruct (SA !! n)).
  match goal with H : no_conflict _ _ = true |- _ => rename H into Hc end.
  assert (∀ k, SA !! k ≠ Some acct) as Hnew.
  { intros k Hk. assert (negb (no_conflict (λ a, a =? acct) SA) = true) as Hf; [|by rewrite Hc in Hf].
    apply no_conflict_false. exists k, acct. split; [done|apply Z.eqb_refl]. }
  split_and!; [done|done|by apply insert_subseteq|exists n; apply lookup_insert_eq|].
  intros Hu k k' i [[<- <-]|[? Hk]]%lookup_insert_Some [[<- E']|[? Hk']]%lookup_insert_Some; [done| | |by eapply Hu].
  - by destruct (Hnew k').
  - subst i. by destruct (Hnew k).
Qed.

Lemma add_inv {K V} `{Table K V} `{!Unique V} (k : K) (v : V) s s' :
  add k v s = Ok (tt, s') → tbl (V:=V) s !! k = None ∧ s' = set_tbl (<[k := v]> (tbl s)) s.
Proof.
  unfold add. destruct (tbl (V:=V) s !! k); [done|]. destruct (collides k v s); [done|]. by intros [= <-].
Qed.
Lemma view_buyback (o : option buyback_account_options) i :
  keeps (λ s s', account_view s' = account_view s)
    (when_valid o (λ b, create_buyback (asset_to_buy b);;
       _ ← get (V:=asset_object) (asset_to_buy b);
       modify (asset_to_buy b) (λ a, Ok (set_buyback_account i a)))).
Proof.
  destruct o as [b|]; cbn [when_valid]; [|apply keeps_ret, _]. unfold create_buyback.
  assert (∀ f, (∀ s, account_view (f s) = account_view s) → keeps (λ s s', account_view s' = account_view s) (puts f)).
  { intros f Hf s r s' [= <- <-]. apply Hf. }
  solve_keeps_with ltac:(done).
Qed.

Definition new_view (op : account_create_operation) (percent lifetime : Z) (p : chain_parameters) : account_object :=
  static_part (new_account op percent lifetime p).

Lemma account_create_Ok op s i s' :
  account_create_apply op s = Ok (i, s') →
  ∃ lifetime SA',
    let a := new_view op (referrer_percent_of op (time (dgpo s))) lifetime (parameters (gpo s)) in
    accounts s !! i = None ∧ (∀ j b, accounts s !! j = Some b → acc_name b ≠ ac_name op) ∧
    account_view s' = (<[i := a]> (static_part <$> accounts s),
                       <[i := (options_voting (acc_options a), acc_name a)]> (vote_part <$> stats s), SA') ∧
    special_authorities (governance s) ⊆ SA' ∧ (has_special_authority a = true → ∃ k, SA' !! k = Some i) ∧
    (sa_unique (special_authorities (governance s)) → sa_unique SA').
Proof.
  unfold account_create_apply. intros E. do 6 bind_step E.
  match goal with H : negb (has_account_name _ _) && _ = true |- _ => apply andb_true_iff in H as [Hn _] end.
  apply M_bind_Ok in E as ([] & s1 & Ha & E). apply add_inv in Ha as [_ ->].
  apply M_bind_Ok in E as (i' & s1 & Hc & E). apply create_inv in Hc as (Hi & -> & Hi'). cbn in Hi, Hi'. subst i'.
  apply M_bind_Ok in E as ([] & s1 & [= <-] & E). bind_step E. apply M_bind_Ok in E as (p' & s1 & Hp & E).
  apply lift_Ok in Hp as [_ ->]. apply M_bind_Ok in E as ([] & s1 & [= <-] & E).
  apply M_bind_Ok in E as ([] & s1 & Hsa & E). apply M_bind_Ok in E as ([] & s2 & Hb & E). injection E as <- <-.
  set (i := next_account_id _) in *.
  assert (account_view s2 = account_view s1) as -> by by eapply view_buyback.
  clear Hb. exists (lifetime_referrer a).
  match type of Hsa with _ ?x = _ => assert (special_authorities (governance x) = special_authorities (governance s)) as E0 by done;
    assert (accounts x = <[i := new_account op (referrer_percent_of op (time (dgpo s))) (lifetime_referrer a) (parameters (gpo s))]> (accounts s)) as E1 by done;
    assert (stats x = <[i := new_statistics op]> (stats s)) as E2 by done;
    generalize dependent x end.
  intros x Hsa E0 E1 E2. exists (special_authorities (governance s1)).
  assert (∀ j b, accounts s !! j = Some b → acc_name b ≠ ac_name op) as Hnames.
  { intros j b Hj E. assert (has_account_name (ac_name op) s = true) as Hf; [|by rewrite Hf in Hn].
    apply no_conflict_false. exists j, b. split; [done|]. by apply String.eqb_eq. }
  unfold account_view, new_view. destruct (is_some _ || is_some _) eqn:Ev; cbn [when] in Hsa.
  - apply create_special_authority_Ok in Hsa as (A1 & A2 & A3 & A4 & A5). rewrite A1, A2, E1, E2, !fmap_insert. rewrite <-E0.
    split_and!; try done.
  - injection Hsa as <-. rewrite E0, E1, E2, !fmap_insert. split_and!; try done.
    intros Hs. apply orb_false_iff in Ev as [V1 V2]. unfold has_special_authority in Hs. simpl in Hs.
    by destruct (ac_owner_special_authority op), (ac_active_special_authority op).
Qed.

Definition shares_set (p : chain_parameters) : Prop :=
  0 ≤ network_percent_of_fee p ∧ 0 ≤ lifetime_referrer_percent_of_fee p ∧
  network_percent_of_fee p + lifetime_referrer_percent_of_fee p ≤ GRAPHENE_100_PERCENT.

Lemma referrer_percent_bounds op now :
  0 ≤ ac_referrer_percent op ≤ GRAPHENE_100_PERCENT → 0 ≤ referrer_percent_of op now ≤ GRAPHENE_100_PERCENT.
Proof.
  unfold referrer_percent_of, u16, GRAPHENE_100_PERCENT. intros H. destruct (_ && _ && _ && _); [|done].
  pose proof (Z.mod_pos_bound (ac_referrer_percent op * 100) 65536). lia.
Qed.

Lemma wf_account_create op s i s' :
  account_create_apply op s = Ok (i, s') → 0 ≤ ac_referrer_percent op ≤ GRAPHENE_100_PERCENT →
  shares_set (parameters (gpo s)) → wf_accounts s → wf_accounts s'.
Proof.
  intros E Hp (P1 & P2 & P3) W. apply account_create_Ok in E as (l & SA' & Hi & Hn & HV & Hsub & Hsa & Hu).
  unfold wf_accounts. injection HV as -> -> ->. apply (wf_view_new _ _ (special_authorities (governance s))); try done.
  - by rewrite lookup_fmap, Hi.
  - split_and!; try done; simpl; by apply referrer_percent_bounds.
  - intros j b Hj. rewrite lookup_fmap in Hj. apply fmap_Some in Hj as (b0 & Hj & ->). simpl. by eapply Hn.
  - apply Hu. intros k k' j. apply W.
Qed.

(** *** Changes *)
Lemma remove_special_authority_Ok acct s s' :
  remove_special_authority acct s = Ok (tt, s') →
  accounts s' = accounts s ∧ stats s' = stats s ∧
  ∃ k, special_authorities (governance s) !! k = Some acct ∧
       special_authorities (governance s') = delete k (special_authorities (governance s)).
Proof.
  unfold remove_special_authority. intros E. bind_step E.
  destruct (filter _ _) as [|[k a] l] eqn:El; [done|]. injection E as <-. split_and!; [done|done|].
  assert ((k, a) ∈ filter (λ x : Z * Z, x.2 = acct) (map_to_list (special_authorities (governance s)))) as Hin
    by (rewrite El; left).
  apply list_elem_of_filter in Hin as [<- Hk%elem_of_map_to_list]. by exists k.
Qed.

Lemma options_voting_flip new old st now :
  is_voting st = options_voting old → is_voting (count_vote_change now new old st) = options_voting new.
Proof. unfold count_vote_change. simpl. intros ->. by destruct (options_voting new), (options_voting old). Qed.

Definition updated_view (op : account_update_operation) (a : account_object) : account_object :=
  static_part (update_account op a).

Lemma account_update_Ok op s s' :
  account_update_apply op s = Ok (tt, s') → wf_accounts s →
  ∃ a SA',
    let a' := updated_view op a in
    accounts s !! au_account op = Some a ∧
    account_view s' = (<[au_account op := a']> (static_part <$> accounts s),
                       <[au_account op := (options_voting (acc_options a'), acc_name a')]> (vote_part <$> stats s), SA') ∧
    (∀ j, j ≠ au_account op → (∃ k, special_authorities (governance s) !! k = Some j) → ∃ k, SA' !! k = Some j) ∧
    (has_special_authority a' = true → ∃ k, SA' !! k = Some (au_account op)) ∧ sa_unique SA'.
Proof.
  intros E W. unfold account_update_apply in E. bind E as a Ha. cbn in Ha.
  apply M_bind_Ok in E as ([] & s1 & H1 & E). apply M_bind_Ok in E as ([] & s2 & H2 & E).
  apply modify_Ok in H2 as (a0 & ? & Ha0 & [= <-] & ->). cbn in Ha0.
  pose proof (wv_voting _ _ _ W (au_account op) (static_part a)) as HT. rewrite lookup_fmap, Ha in HT. specialize (HT eq_refl).
  rewrite lookup_fmap in HT. apply fmap_Some in HT as (st & Hst & [= Hv Hname]).
  assert (accounts s1 = accounts s ∧ governance s1 = governance s ∧
    vote_part <$> stats s1 = <[au_account op := (options_voting (default (acc_options a) (au_new_options op)), acc_name a)]>
      (vote_part <$> stats s)) as (A1 & G1 & S1).
  { destruct (au_new_options op) as [o|]; cbn [when_valid] in H1.
    - do 2 bind_step H1. apply modify_Ok in H1 as (st0 & ? & Hst0 & [= <-] & ->). cbn in Hst0.
      rewrite Hst in Hst0. injection Hst0 as <-. split_and!; [done|done|]. cbn. rewrite fmap_insert. do 2 f_equal.
      unfold vote_part. f_equal; [|done]. by apply options_voting_flip.
    - injection H1 as <-. split_and!; [done|done|]. rewrite insert_id; [done|].
      rewrite lookup_fmap, Hst. cbn. unfold vote_part. by rewrite <-Hv, <-Hname. }
  rewrite A1, Ha in Ha0. injection Ha0 as <-. exists a, (special_authorities (governance s')). cbn zeta.
  match type of E with _ ?x = _ => set (s2 := x) in * end.
  assert (static_part <$> accounts s2 = <[au_account op := updated_view op a]> (static_part <$> accounts s)) as A2
    by (unfold s2; cbn; by rewrite A1, fmap_insert).
  assert (vote_part <$> stats s2 = <[au_account op := (options_voting (acc_options (updated_view op a)),
    acc_name (updated_view op a))]> (vote_part <$> stats s)) as S2 by exact S1.
  assert (special_authorities (governance s2) = special_authorities (governance s)) as SA2 by (unfold s2; cbn; by rewrite G1).
  assert (sa_unique (special_authorities (governance s))) as HU by (intros k k' i; apply W).
  unfold account_view. split; [done|].
  destruct (has_special_authority a && negb _) eqn:E1; [|destruct (negb (has_special_authority a) && _) eqn:E2; cbn [when] in E].
  - apply remove_special_authority_Ok in E as (-> & -> & k & Hk & ->). rewrite A2, S2, SA2. split; [done|].
    rewrite SA2 in Hk. split_and!.
    + intros j Hj [k' Hk']. exists k'. rewrite lookup_delete_ne; [done|]. congruence.
    + apply andb_true_iff in E1 as [_ E1]. intros H. change (has_special_authority (update_account op a) = true) in H.
      by rewrite H in E1.
    + intros k1 k2 i [? H3]%lookup_delete_Some [? H4]%lookup_delete_Some. by eapply HU.
  - apply create_special_authority_Ok in E as (-> & -> & Hsub & Hnew & Hu). rewrite A2, S2, SA2 in *. split; [done|].
    split_and!; [|done|by apply Hu]. intros j _ [k Hk]. exists k. by eapply lookup_weaken.
  - injection E as <-. rewrite A2, S2, SA2. split; [done|]. split_and!; [done| |done].
    intros H. apply (wv_special _ _ _ W _ (static_part a)); [by rewrite lookup_fmap, Ha|].
    change (has_special_authority (update_account op a) = true) in H. rewrite H in E2.
    change (has_special_authority a = true). by destruct (has_special_authority a).
Qed.

Lemma wf_account_update op s s' :
  account_update_apply op s = Ok (tt, s') → wf_accounts s → wf_accounts s'.
Proof.
  intros E W. destruct (account_update_Ok _ _ _ E W) as (a & SA' & Ha & HV & H1 & H2 & H3).
  unfold wf_accounts. injection HV as -> -> ->.
  assert ((static_part <$> accounts s) !! au_account op = Some (static_part a)) as Ha' by by rewrite lookup_fmap, Ha.
  apply (wf_view_change _ _ _ SA' _ _ (updated_view op a) W Ha'); try done. exact (wv_fees _ _ _ W _ _ Ha').
Qed.

(** *** Lists *)
Definition listing_change (white black : bool) (listed lister k : Z) (a : account_object) : account_object :=
  let a := if k =? listed then set_listing (put_if white lister (whitelisting_accounts a))
                                 (put_if black lister (blacklisting_accounts a)) a else a in
  if k =? lister then set_listed (put_if white listed (whitelisted_accounts a))
                        (put_if black listed (blacklisted_accounts a)) a else a.

Lemma elem_put_if b i j l : j ∈ put_if b i l ↔ if decide (j = i) then b = true else j ∈ l.
Proof. unfold put_if. destruct b, (decide (j = i)); set_solver. Qed.

Lemma listing_change_lists white black L Z0 k a :
  (∀ j, j ∈ whitelisted_accounts (listing_change white black L Z0 k a) ↔
     if decide (k = Z0 ∧ j = L) then white = true else j ∈ whitelisted_accounts a) ∧
  (∀ j, j ∈ blacklisted_accounts (listing_change white black L Z0 k a) ↔
     if decide (k = Z0 ∧ j = L) then black = true else j ∈ blacklisted_accounts a) ∧
  (∀ j, j ∈ whitelisting_accounts (listing_change white black L Z0 k a) ↔
     if decide (k = L ∧ j = Z0) then white = true else j ∈ whitelisting_accounts a) ∧
  (∀ j, j ∈ blacklisting_accounts (listing_change white black L Z0 k a) ↔
     if decide (k = L ∧ j = Z0) then black = true else j ∈ blacklisting_accounts a).
Proof.
  unfold listing_change. destruct (Z.eqb_spec k L), (Z.eqb_spec k Z0); split_and!; intros j; cbn;
    rewrite ?elem_put_if; repeat case_decide; intuition congruence.
Qed.

Lemma wf_view_listing A A' T SA white black L Z0 :
  wf_view A T SA → is_Some (A !! L) → is_Some (A !! Z0) →
  (∀ k, A' !! k = listing_change white black L Z0 k <$> A !! k) → wf_view A' T SA.
Proof.
  intros [H1 H2 H3 H4 H5 H6 H7] HL HZ HA.
  assert (∀ k a', A' !! k = Some a' → ∃ a, A !! k = Some a ∧ a' = listing_change white black L Z0 k a) as Hback.
  { intros k a'. rewrite HA. intros (a & ? & ->)%fmap_Some. eauto. }
  assert (∀ k a, acc_options (listing_change white black L Z0 k a) = acc_options a ∧
    acc_name (listing_change white black L Z0 k a) = acc_name a ∧
    has_special_authority (listing_change white black L Z0 k a) = has_special_authority a ∧
    network_fee_percentage (listing_change white black L Z0 k a) = network_fee_percentage a ∧
    lifetime_referrer_fee_percentage (listing_change white black L Z0 k a) = lifetime_referrer_fee_percentage a ∧
    referrer_rewards_percentage (listing_change white black L Z0 k a) = referrer_rewards_percentage a) as Hsame.
  { intros k a. unfold listing_change. by destruct (k =? L), (k =? Z0). }
  split.
  - intros i a' (a & Ha & ->)%Hback. destruct (Hsame i a) as (-> & -> & _). eauto.
  - intros i j a' b' (a & Ha & ->)%Hback (b & Hb & ->)%Hback. destruct (H2 i j a b Ha Hb) as [W B].
    destruct (listing_change_lists white black L Z0 i a) as (A1 & A2 & _).
    destruct (listing_change_lists white black L Z0 j b) as (_ & _ & A3 & A4).
    unfold lists_ok. rewrite A1, A2, A3, A4. repeat case_decide; intuition.
  - intros i a' j (a & Ha & ->)%Hback Hj. rewrite HA, fmap_is_Some.
    destruct (listing_change_lists white black L Z0 i a) as (A1 & A2 & A3 & A4).
    unfold listed_by in *. rewrite !elem_of_union, A1, A2, A3, A4 in Hj.
    destruct (decide (j = L)) as [->|]; [done|]. destruct (decide (j = Z0)) as [->|]; [done|].
    rewrite !decide_False in Hj by tauto. apply (H3 i a j Ha). unfold listed_by. by rewrite !elem_of_union.
  - intros i a' (a & Ha & ->)%Hback. destruct (Hsame i a) as (_ & _ & -> & _). eauto.
  - exact H5.
  - intros i j a' b' (a & Ha & ->)%Hback (b & Hb & ->)%Hback.
    destruct (Hsame i a) as (_ & -> & _), (Hsame j b) as (_ & -> & _). eauto.
  - intros i a' (a & Ha & ->)%Hback. destruct (Hsame i a) as (_ & _ & _ & -> & -> & ->). eauto.
Qed.

Lemma wf_account_whitelist op s s' :
  account_whitelist_apply op s = Ok (tt, s') → wf_accounts s → wf_accounts s'.
Proof.
  intros E W. unfold account_whitelist_apply in E. apply M_bind_Ok in E as ([] & s1 & H1 & E).
  apply modify_Ok in H1 as (a & ? & Ha & [= <-] & ->). bind_step E.
  apply modify_Ok in E as (b & ? & Hb & [= <-] & ->). cbn in Ha, Hb. clear Hx.
  unfold wf_accounts. cbn -[static_part].
  eapply (wf_view_listing _ _ _ _ (is_listed (aw_new_listing op) white_listed) (is_listed (aw_new_listing op) black_listed)
    (aw_account_to_list op) (aw_authorizing_account op) W).
  - by rewrite lookup_fmap, Ha.
  - rewrite lookup_fmap, fmap_is_Some. apply lookup_insert_Some in Hb as [[<- _]|[_ Hb]]; eauto.
  - intros k. rewrite !lookup_fmap. unfold listing_change.
    apply lookup_insert_Some in Hb as Hb'.
    destruct (Z.eqb_spec k (aw_authorizing_account op)) as [->|Hk1].
    + rewrite lookup_insert_eq. destruct Hb' as [[Hl <-]|[Hl Hb']].
      * rewrite <-Hl, Ha, Z.eqb_refl. done.
      * rewrite Hb'. cbn. by rewrite (proj2 (Z.eqb_neq _ _)) by congruence.
    + rewrite lookup_insert_ne by congruence.
      destruct (Z.eqb_spec k (aw_account_to_list op)) as [->|Hk2].
      * by rewrite lookup_insert_eq, Ha.
      * rewrite lookup_insert_ne by congruence. by destruct (accounts s !! k).
Qed.

(** *** Membership *)
Lemma wf_account_change_fees i net life s a :
  accounts s !! i = Some a → net = network_fee_percentage a →
  fee_shares_ok net life (referrer_rewards_percentage a) → wf_accounts s →
  ∀ exp reg ref ltr, wf_accounts (set_accounts (<[i := set_membership exp reg ref ltr life a]> (accounts s)) s).
Proof.
  intros Ha -> Hf W exp reg ref ltr. unfold wf_accounts. cbn -[static_part].
  assert ((static_part <$> accounts s) !! i = Some (static_part a)) as Ha' by by rewrite lookup_fmap, Ha.
  rewrite fmap_insert.
  replace (vote_part <$> stats s) with (<[i := (options_voting (acc_options a), acc_name a)]> (vote_part <$> stats s)).
  2: { apply insert_id. apply (wv_voting _ _ _ W _ _ Ha'). }
  apply (wf_view_change _ _ _ _ _ _ (static_part (set_membership exp reg ref ltr life a)) W Ha'); try done.
  - intros Hs. by apply (wv_special _ _ _ W _ _ Ha').
  - intros k k' j. apply W.
Qed.

Lemma lifetime_share net rewards life : fee_shares_ok net life rewards →
  u16 (GRAPHENE_100_PERCENT - net) = GRAPHENE_100_PERCENT - net ∧
  fee_shares_ok net (GRAPHENE_100_PERCENT - net) rewards.
Proof.
  unfold fee_shares_ok, u16, GRAPHENE_100_PERCENT. intros. rewrite Z.mod_small by lia. split; [done|lia].
Qed.

Lemma wf_account_upgrade op s s' :
  account_upgrade_apply op s = Ok (tt, s') → wf_accounts s → wf_accounts s'.
Proof.
  intros E W. unfold account_upgrade_apply in E. do 2 bind_step E.
  assert (∀ s1 a exp reg ref ltr, wf_accounts s1 → accounts s1 !! ag_account_to_upgrade op = Some a →
    wf_accounts (set_accounts (<[ag_account_to_upgrade op :=
      set_membership exp reg ref ltr (lifetime_referrer_fee_percentage a) a]> (accounts s1)) s1)) as Hkeep.
  { intros s1 a1 exp reg ref ltr W1 Ha1. eapply wf_account_change_fees; try done.
    eapply (wv_fees _ _ _ W1 _ (static_part a1)). by rewrite lookup_fmap, Ha1. }
  assert (∀ s1, process_fees (ag_account_to_upgrade op) s = Ok (tt, s1) → wf_accounts s1) as Hpf.
  { intros s1 Hp. by eapply wf_accounts_view; [eapply view_process_fees|]. }
  destruct (ag_upgrade_to_lifetime_member op); [|destruct (is_annual_member _ _)].
  - bind_step E. apply M_bind_Ok in E as ([] & s1 & Hp & E). apply Hpf in Hp.
    apply modify_Ok in E as (b & ? & Hb & [= <-] & ->). eapply wf_account_change_fees; try done.
    assert (fee_shares_ok (network_fee_percentage b) (lifetime_referrer_fee_percentage b) (referrer_rewards_percentage b)) as HS.
    { eapply (wv_fees _ _ _ Hp _ (static_part b)). cbn in Hb. by rewrite lookup_fmap, Hb. }
    apply lifetime_share in HS as [-> HS]. exact HS.
  - do 2 bind_step E. apply modify_Ok in E as (b & ? & Hb & [= <-] & ->). by apply Hkeep.
  - do 2 bind_step E. apply M_bind_Ok in E as ([] & s1 & Hp & E). apply Hpf in Hp.
    apply modify_Ok in E as (b & ? & Hb & [= <-] & ->). by apply Hkeep.
Qed.

Definition percent_in_range (o : account_operation) : Prop :=
  match o with ao_create op => 0 ≤ ac_referrer_percent op ≤ GRAPHENE_100_PERCENT | _ => True end.

(** C16: Registering, changing, listing and upgrading accounts keeps the accounts and
    what is recorded about them apart from them in step: the statistics of each
    account say whether its options vote and under what name it is looked up, a list
    of one account has another exactly when that one is marked as listed by the first,
    every account with a special authority is in the table of them and only once,
    names stay unique, and the shares of an account's fees never exceed the whole. *)
Theorem accounts_stay_wf o s s' :
  percent_in_range o → shares_set (parameters (gpo s)) → wf_accounts s →
  account_apply o s = Ok (tt, s') → wf_accounts s'.
Proof.
  intros Hp HS W E. destruct o as [op|op|op|op]; cbn [account_apply] in E.
  - apply M_bind_Ok in E as (i & s1 & E & [= <-]). by eapply wf_account_create.
  - by eapply wf_account_update.
  - by eapply wf_account_whitelist.
  - by eapply wf_account_upgrade.
Qed.

(** Changing an account never runs into the undefined case of the source: when the
    last special authority goes, the entry it dereferences is in the table. *)
Theorem account_update_defined op s :
  wf_accounts s → account_update_apply op s ≠ Err undefined_behaviour.
Proof.
  intros W E. unfold account_update_apply, mbind, M_bind in E. cbn -[collides has_special_authority] in E.
  unfold get in E at 1. cbn -[collides has_special_authority] in E.
  destruct (accounts s !! au_account op) as [a|] eqn:Ha; [|done].
  pose proof (wv_voting _ _ _ W (au_account op) (static_part a)) as HT. rewrite lookup_fmap, Ha in HT. specialize (HT eq_refl).
  rewrite lookup_fmap in HT. apply fmap_Some in HT as (st & Hst & _).
  assert (∃ x, when_valid (au_new_options op) (λ o s0,
      match get (V:=account_statistics_object) (au_account op) s0 with
      | Ok (_, s1) => modify (au_account op) (λ st, Ok (count_vote_change (time (dgpo s0)) o (acc_options a) st)) s1
      | Err e => Err e
      end) s = x ∧ (x = Err assert_exception ∨ ∃ s1, x = Ok (tt, s1) ∧ accounts s1 = accounts s ∧
        special_authorities (governance s1) = special_authorities (governance s))) as (x & Hx & Hcase).
  { eexists. split; [reflexivity|]. destruct (au_new_options op); cbn [when_valid]; [|right; by exists s].
    unfold get, modify. cbn -[collides]. rewrite Hst. cbn -[collides]. rewrite Hst.
     match goal with |- context [collides ?i ?v ?s] => destruct (collides i v s) end; [by left|]. right. by eexists. }
  cbn -[collides has_special_authority] in E, Hx. rewrite Hx in E. destruct Hcase as [->|(s1 & -> & A1 & S1)]; [done|].
  unfold modify in E. cbn -[collides has_special_authority] in E. rewrite A1, Ha in E. cbn -[collides has_special_authority] in E.
  match type of E with context [collides ?i ?v ?s] => destruct (collides i v s) end; [done|].
  destruct (has_special_authority a) eqn:H1; cbn -[collides has_special_authority] in E.
  - destruct (negb _); [|done]. unfold remove_special_authority, mbind, M_bind, gets in E. cbn in E. rewrite S1 in E.
    destruct (wv_special _ _ _ W (au_account op) (static_part a)) as [k Hk]; [by rewrite lookup_fmap, Ha|done|].
    destruct (filter _ _) as [|[] ?] eqn:El; [|done].
    assert ((k, au_account op) ∈ filter (λ x : Z * Z, x.2 = au_account op) (map_to_list (special_authorities (governance s)))) as Hin.
    { apply list_elem_of_filter. split; [done|]. by apply elem_of_map_to_list. }
    rewrite El in Hin. by apply elem_of_nil in Hin.
  - destruct (has_special_authority (update_account op a)); cbn -[collides] in E; [|done].
    unfold create_special_authority, mbind, M_bind, gets, assert_that, lift, fc_assert in E. cbn in E.
    by destruct (negb _ && _).
Qed.

(** ** No money moves *)
Definition same_money (s s' : database) : Prop := ∀ k, total (ledger k) s' = total (ledger k) s.
#[local] Instance same_money_preorder : PreOrder same_money.
Proof. split; [by intros s k|]. intros s1 s2 s3 H1 H2 k. by rewrite H2. Qed.

Lemma money_modify_account i f : keeps same_money (modify (V:=account_object) i f).
Proof. intros s [] s' E k. destruct (total_modify (ledger k) _ _ _ _ E) as (v & w & _ & _ & _ & ->). cbn. lia. Qed.
Lemma money_modify_stats i f :
  (∀ k st st', f st = Ok st' → w_stats (ledger k) i st' = w_stats (ledger k) i st) →
  keeps same_money (modify (V:=account_statistics_object) i f).
Proof.
  intros Hf s [] s' E k. destruct (total_modify (ledger k) _ _ _ _ E) as (v & w & _ & Ew & _ & ->).
  apply (Hf k) in Ew. cbn in *. lia.
Qed.
Lemma money_puts f : (∀ s k, total (ledger k) (f s) = total (ledger k) s) → keeps same_money (puts f).
Proof. intros Hf s r s' [= <- <-] k. apply Hf. Qed.
Lemma money_process_fees i : keeps same_money (process_fees i).
Proof.
  intros s [] s' E k. apply (effect_process_fees (lc k) (le k) (λ _, 0) (lg k)) in E; [unfold ledger; lia|].
  rewrite le_lc. lia.
Qed.
Lemma money_create_account f : keeps same_money (create (V:=account_object) f).
Proof. intros s i s' E k. destruct (total_create (ledger k) _ _ _ _ E) as [-> _]. cbn. lia. Qed.
Lemma money_new_statistics i op : keeps same_money (add i (new_statistics op)).
Proof. intros s [] s' E k. destruct (total_add (ledger k) _ _ _ _ E) as (_ & _ & ->). cbn. unfold ind. repeat case_match; lia. Qed.
Lemma money_modify_asset i f : keeps same_money (modify (V:=asset_object) i f).
Proof. intros s [] s' E k. destruct (total_modify (ledger k) _ _ _ _ E) as (v & w & _ & _ & _ & ->). cbn. lia. Qed.
Lemma money_registered n s k : total (ledger k) (set_dgpo (set_registered n (dgpo s)) s) = total (ledger k) s.
Proof. rewrite total_set_dgpo. cbn. lia. Qed.
Lemma money_special m s k : total (ledger k) (set_special_authorities m s) = total (ledger k) s.
Proof. unfold total. reflexivity. Qed.
Lemma money_buybacks m s k : total (ledger k) (set_buybacks m s) = total (ledger k) s.
Proof. unfold total. reflexivity. Qed.
Lemma money_sequences f s k : total (ledger k) (set_sequences f s) = total (ledger k) s.
Proof. unfold total. reflexivity. Qed.
Ltac keep_money :=
  repeat first
    [ apply money_process_fees | apply keeps_bind; [apply _| |intros]
    | apply keeps_ret; apply _ | apply keeps_get; apply _ | apply keeps_gets; apply _
    | apply keeps_assert; apply _ | apply keeps_lift; apply _ | apply keeps_throw
    | apply money_modify_account | apply money_create_account
    | apply money_new_statistics | apply money_modify_asset
    | apply money_puts; intros; first
        [apply money_registered | apply total_set_gpo | apply money_special | apply money_buybacks | apply money_sequences]
    | match goal with
      | |- keeps _ (head_block_time) => apply keeps_gets; apply _
      | |- keeps _ (get_parameters) => apply keeps_gets; apply _
      | |- keeps _ (when ?b _) => destruct b; cbn [when]
      | |- keeps _ (when_valid ?o _) => destruct o; cbn [when_valid]
      | |- keeps _ (if ?b then _ else _) => destruct b
      | |- keeps _ (match ?l with [] => _ | _ => _ end) => destruct l as [|[] ?]
      | |- keeps _ (create_special_authority _) => unfold create_special_authority
      | |- keeps _ (create_buyback _) => unfold create_buyback
      end ].

(** Registering, changing, listing and upgrading accounts moves no money by itself: of
    every asset what is held keeps adding up to the same excess over the supply, also
    when an upgrade pays out the account's pending fees. *)
Theorem accounts_keep_ledger o s s' :
  account_apply o s = Ok (tt, s') → ∀ k, total (ledger k) s' = total (ledger k) s.
Proof.
  revert s s'. enough (keeps same_money (account_apply o)) as H by (intros s s' E; by apply H in E).
  destruct o as [op|op|op|op]; cbn [account_apply].
  - unfold account_create_apply. keep_money.
  - unfold account_update_apply, remove_special_authority. keep_money.
    apply money_modify_stats. by intros k st st' [= <-].
  - unfold account_whitelist_apply. keep_money.
  - unfold account_upgrade_apply. keep_money.
Qed.
(** ** Membership for life *)
Lemma process_fees_pays i s s' :
  process_fees i s = Ok (tt, s') →
  ∃ st, stats s' !! i = Some st ∧ pending_fees st ≤ 0 ∧ pending_vested_fees st ≤ 0.
Proof.
  unfold process_fees. intros E. bind E as st Hst. cbn in Hst. destruct (_ || _) eqn:Eb.
  - apply M_bind_Ok in E as ([] & s1 & _ & E). apply M_bind_Ok in E as ([] & s2 & _ & E).
    apply modify_Ok in E as (v & w & _ & Ef & ->). unfold clear_pending in Ef. monad_inv.
    eexists. cbn. by rewrite lookup_insert_eq.
  - injection E as <-. exists st. apply orb_false_iff in Eb as [? ?]. split_and!; [done|lia..].
Qed.

(** An account that upgrades for life is a lifetime member from then on: it is its own
    registrar and referrer, the network and it share its fees completely, nothing
    that it owed before is left pending, and it cannot be upgraded again. *)
Theorem upgraded_for_life op s s' :
  wf_accounts s → ag_upgrade_to_lifetime_member op = true → account_upgrade_apply op s = Ok (tt, s') →
  ∃ a st, let i := ag_account_to_upgrade op in
    accounts s' !! i = Some a ∧ stats s' !! i = Some st ∧ is_lifetime_member a = true ∧
    registrar a = i ∧ referrer a = i ∧ lifetime_referrer a = i ∧
    network_fee_percentage a + lifetime_referrer_fee_percentage a = GRAPHENE_100_PERCENT ∧
    pending_fees st ≤ 0 ∧ pending_vested_fees st ≤ 0 ∧
    account_upgrade_evaluate op s' = Err assert_exception.
Proof.
  intros W Hl E. unfold account_upgrade_apply in E. do 2 bind_step E. rewrite Hl in E. bind_step E.
  apply M_bind_Ok in E as ([] & s1 & Hp & E). pose proof (process_fees_pays _ _ _ Hp) as (st & Hst & P1 & P2).
  assert (wf_accounts s1) as W1 by (by eapply wf_accounts_view; [eapply view_process_fees|]).
  apply modify_Ok in E as (b & ? & Hb & [= <-] & ->). cbn in Hb.
  assert (fee_shares_ok (network_fee_percentage b) (lifetime_referrer_fee_percentage b) (referrer_rewards_percentage b)) as HS.
  { eapply (wv_fees _ _ _ W1 _ (static_part b)). by rewrite lookup_fmap, Hb. }
  apply lifetime_share in HS as [EP _]. eexists _, st. cbn. rewrite lookup_insert_eq. split; [done|]. split; [done|].
  cbn. rewrite EP. split_and!; try done; [lia|].
  unfold account_upgrade_evaluate, mbind, M_bind, get. cbn. by rewrite lookup_insert_eq.
Qed.

End accounts_proofs.

(** ** A small registry *)
Definition named (n : String.string) (a : account_object) : account_object :=
  AccountObject (membership_expiration_date a) (registrar a) (referrer a) (lifetime_referrer a)
    (network_fee_percentage a) (lifetime_referrer_fee_percentage a) (referrer_rewards_percentage a)
    (whitelisting_accounts a) (blacklisting_accounts a) (allowed_assets a) (cashback_vb a) (acc_owner a)
    (acc_active a) (acc_options a) (owner_special_authority a) (active_special_authority a)
    (top_n_control_flags a) n (whitelisted_accounts a) (blacklisted_accounts a).
Definition named_stats (n : String.string) (pending : Z) : account_statistics_object :=
  AccountStatistics 0 0 false 0 pending 0 false n 0.
(** Not a member. *)
Definition ex_basic : account_object := set_membership 0 18 18 18 3000 (ex_account 18).
Definition ex_registry : database :=
  set_gpo (set_parameters (ex_parameters {[ 5 := FeeParameters 20 0 ]}) None (gpo ex_chain))
  (set_accounts {[ 5 := named "proxy-to-self" (ex_account 18); 17 := named "alice" ex_basic;
                   18 := named "bob" (ex_account 18) ]}
  (set_stats {[ 5 := named_stats "proxy-to-self" 0; 17 := named_stats "alice" 1000; 18 := named_stats "bob" 0 ]} ex_chain)).
Definition ex_key_authority : authority := Authority 1 [] [(99, 1)] [].
(** A registration that names a special authority without choosing one. *)
Definition ex_account_create : account_create_operation :=
  AccountCreate (Asset 0 0) 18 18 5000 "carol" ex_key_authority ex_key_authority (AccountOptions 5 0 0 ∅ 60)
    (Some no_special_authority) None None.
Definition ex_take_authority : account_update_operation :=
  AccountUpdate (Asset 0 0) 20 None None None None (Some (top_holders_special_authority 1 3)).

Lemma ex_registry_wf : wf_accounts ex_registry.
Proof.
  assert (accounts ex_registry = {[ 5 := named "proxy-to-self" (ex_account 18); 17 := named "alice" ex_basic;
    18 := named "bob" (ex_account 18) ]}) as EA by reflexivity.
  assert (∀ i a, (static_part <$> accounts ex_registry) !! i = Some a →
    (i = 5 ∧ a = static_part (named "proxy-to-self" (ex_account 18))) ∨
    (i = 17 ∧ a = static_part (named "alice" ex_basic)) ∨ (i = 18 ∧ a = static_part (named "bob" (ex_account 18)))) as HA.
  { intros i a. rewrite EA, lookup_fmap. intros (b & Hb & ->)%fmap_Some.
    apply lookup_insert_Some in Hb as [[<- <-]|[_ Hb]]; [by left|].
    apply lookup_insert_Some in Hb as [[<- <-]|[_ Hb]]; [by right; left|].
    apply lookup_singleton_Some in Hb as [<- <-]. by right; right. }
  split.
  - intros i a [[-> ->]|[[-> ->]|[-> ->]]]%HA; reflexivity.
  - intros i j a b Ha%HA Hb%HA. split; destruct Ha as [[-> ->]|[[-> ->]|[-> ->]]], Hb as [[-> ->]|[[-> ->]|[-> ->]]]; done.
  - intros i a j [[-> ->]|[[-> ->]|[-> ->]]]%HA Hj; cbv in Hj; set_solver.
  - by intros i a [[-> ->]|[[-> ->]|[-> ->]]]%HA.
  - intros k k' i Hk. change ((∅ : gmap Z Z) !! k = Some i) in Hk. by apply lookup_empty_Some in Hk.
  - intros i j a b [[-> ->]|[[-> ->]|[-> ->]]]%HA [[-> ->]|[[-> ->]|[-> ->]]]%HA; done.
  - intros i a [[-> ->]|[[-> ->]|[-> ->]]]%HA; split_and!; by vm_compute.
Qed.

Definition run_account (o : account_operation) (s : database) : result database :=
  account_validate o;;
  x ← account_evaluate o s; x ← account_apply o x.2; Ok x.2.

(** The new account gets an entry in the table of special authorities although it has
    none, so it can never take one: the second entry is refused. *)
Example idle_special_authority :
  match run_account (ao_create ex_account_create) ex_registry with
  | Ok s1 =>
      has_special_authority <$> accounts s1 !! 20 = Some false ∧ special_authorities (governance s1) !! 0 = Some 20 ∧
      account_update_evaluate ex_take_authority s1 = Ok (tt, s1) ∧
      account_update_apply ex_take_authority s1 = Err assert_exception
  | Err _ => False
  end.
Proof. by vm_compute. Qed.

Lemma accounts_stay_wf_witness :
  match account_apply (ao_create ex_account_create) ex_registry with
  | Ok (_, s') => wf_accounts s'
  | Err _ => False
  end.
Proof.
  destruct (account_apply (ao_create ex_account_create) ex_registry) as [[[] s']|e] eqn:E; [|vm_compute in E; discriminate E].
  apply (accounts_stay_wf (ao_create ex_account_create) ex_registry s'); [by vm_compute|by vm_compute|exact ex_registry_wf|exact E].
Defined.

Definition ex_top_holders : account_update_operation :=
  AccountUpdate (Asset 0 0) 17 None None None None (Some (top_holders_special_authority 1 3)).
Lemma account_update_defined_witness :
  account_update_apply ex_top_holders ex_registry ≠ Err undefined_behaviour.
Proof. exact (account_update_defined ex_top_holders ex_registry ex_registry_wf). Defined.

Definition ex_upgrade : account_upgrade_operation := AccountUpgrade (Asset 0 0) 17 true.
Lemma upgraded_for_life_witness :
  match account_upgrade_apply ex_upgrade ex_registry with
  | Ok (_, s') => ∃ a, accounts s' !! 17 = Some a ∧ is_lifetime_member a = true ∧ referrer a = 17
  | Err _ => False
  end.
Proof.
  destruct (account_upgrade_apply ex_upgrade ex_registry) as [[[] s']|e] eqn:E; [|vm_compute in E; discriminate E].
  destruct (upgraded_for_life ex_upgrade ex_registry s' ex_registry_wf ltac:(reflexivity) E)
    as (a & st & H1 & _ & H2 & _ & H3 & _). exists a. split_and!; [exact H1|exact H2|exact H3].
Defined.

Lemma accounts_keep_ledger_witness :
  match account_apply (ao_upgrade ex_upgrade) ex_registry with
  | Ok (_, s') => total (ledger (Some CORE)) s' = total (ledger (Some CORE)) ex_registry
  | Err _ => False
  end.
Proof.
  destruct (account_apply (ao_upgrade ex_upgrade) ex_registry) as [[[] s']|e] eqn:E; [|vm_compute in E; discriminate E].
  exact (accounts_keep_ledger (ao_upgrade ex_upgrade) ex_registry s' E (Some CORE)).
Defined.
