(* ===== verification/AssetFrame.v ===== *)
(** * What the market leaves of the configuration of assets

    Filling, matching, settling and cancelling orders changes no asset object, and of
    the data of a BitAsset neither its options nor the published feeds.  The functions
    of the market that a change of an asset's configuration calls, cancelling
    settlements and checking margin calls, are shown to keep this frame by the
    automation of [State], bottom up as in [Frame]. *)

From S2P Require Import Prelude External Asset Authority Operations Block Vesting State Balance Fill Market.
From S2P Require Import Evaluator MarketOps Ledger.

(** The options of each BitAsset and its feeds. *)
Definition published (s : database) : gmap Z (bitasset_options * gmap Z (Z * price_feed)) :=
  (λ b, (bad_options b, feeds b)) <$> bitassets s.
Definition asset_frame (s s' : database) : Prop :=
  assets s' = assets s ∧ published s' = published s ∧ governance s' = governance s.
#[export] Instance asset_frame_preorder : PreOrder asset_frame.
Proof. split; [by intros s|]. intros s1 s2 s3 (? & ? & ?) (? & ? & ?). split_and!; congruence. Qed.

Ltac solve_asset_frame :=
  repeat first [ apply keeps_deref; apply _ | progress solve_keeps_with ltac:(intros; repeat split) ].

Section asset_frame.
Context `{EX : Ext} (fuel : nat).

Lemma af_modify_bitasset i f :
  (∀ b b', f b = Ok b' → bad_options b' = bad_options b ∧ feeds b' = feeds b) →
  keeps asset_frame (modify (V:=asset_bitasset_data_object) i f).
Proof.
  intros Hf. apply keeps_modify. intros s b b' Hb E. split_and!; [done| |done]. unfold published. cbn in *.
  rewrite fmap_insert. destruct (Hf _ _ E) as [-> ->]. apply insert_id. by rewrite lookup_fmap, Hb.
Qed.
Lemma af_set_settlement i (p : asset_bitasset_data_object → result price) x :
  keeps asset_frame (modify i (λ b, q ← p b; Ok (set_settlement q x b))).
Proof. apply af_modify_bitasset. intros b b' E. by apply result_bind_Ok in E as (q & _ & [= <-]). Qed.
Lemma af_clear_settlement i q x : keeps asset_frame (modify i (λ b, Ok (set_settlement q x b))).
Proof. apply af_modify_bitasset. by intros b b' [= <-]. Qed.
Lemma af_sub_settlement_fund i x : keeps asset_frame (modify i (sub_settlement_fund x)).
Proof.
  apply af_modify_bitasset. intros b b' E. unfold sub_settlement_fund in E.
  by apply result_bind_Ok in E as (y & _ & [= <-]).
Qed.
Hint Resolve af_set_settlement af_clear_settlement af_sub_settlement_fund : graphene.
Lemma af_puts f : (∀ s, asset_frame s (f s)) → keeps asset_frame (puts f).
Proof. intros Hf s [] s' [= <-]. apply Hf. Qed.
Lemma af_read {A} (f : database → result A) : keeps asset_frame (read f).
Proof. intros s r s' E. apply lift_Ok in E as [_ ->]. reflexivity. Qed.
Hint Resolve af_read : graphene.
Lemma af_adjust_balance acct d : keeps asset_frame (adjust_balance acct d).
Proof. unfold adjust_balance. solve_asset_frame. Qed.
Hint Resolve af_adjust_balance : graphene.
Lemma af_find_mfs acct a : keeps asset_frame (find_mfs acct a).
Proof. unfold find_mfs. solve_asset_frame. Qed.
Hint Resolve af_find_mfs : graphene.
Lemma af_deposit_mfs acct d : keeps asset_frame (deposit_market_fee_vesting_balance acct d).
Proof. unfold deposit_market_fee_vesting_balance. solve_asset_frame. Qed.
Hint Resolve af_deposit_mfs : graphene.
Lemma af_pay_fee_default p core : keeps asset_frame (pay_fee_default p core).
Proof. unfold pay_fee_default. solve_asset_frame. Qed.
Hint Resolve af_pay_fee_default : graphene.

(** ** Filling and cancelling *)
Lemma af_pay_market_fees i a x : keeps asset_frame (pay_market_fees i a x).
Proof. unfold pay_market_fees. solve_asset_frame. Qed.
Hint Resolve af_pay_market_fees : graphene.
Lemma af_pay_rewards acct i a f : keeps asset_frame (pay_rewards acct i a f).
Proof. unfold pay_rewards. solve_asset_frame. Qed.
Hint Resolve af_pay_rewards : graphene.
Lemma af_pay_market_fees_shared acct i a x : keeps asset_frame (pay_market_fees_shared acct i a x).
Proof. unfold pay_market_fees_shared. solve_asset_frame. Qed.
Hint Resolve af_pay_market_fees_shared : graphene.
Lemma af_pay_order acct r p : keeps asset_frame (pay_order acct r p).
Proof. unfold pay_order. solve_asset_frame. Qed.
Hint Resolve af_pay_order : graphene.
Lemma af_deduct_cancel_fee o : keeps asset_frame (deduct_cancel_fee o).
Proof. unfold deduct_cancel_fee. solve_asset_frame. Qed.
Hint Resolve af_deduct_cancel_fee : graphene.
Lemma af_refund i v sk : keeps asset_frame (refund_limit_order i v sk).
Proof. unfold refund_limit_order. solve_asset_frame. Qed.
Hint Resolve af_refund : graphene.
Lemma af_cancel_limit_order i v sk : keeps asset_frame (cancel_limit_order i v sk).
Proof. unfold cancel_limit_order. solve_asset_frame. Qed.
Hint Resolve af_cancel_limit_order : graphene.
Lemma af_maybe_cull i : keeps asset_frame (maybe_cull_small_order i).
Proof. unfold maybe_cull_small_order. solve_asset_frame. Qed.
Hint Resolve af_maybe_cull : graphene.
Lemma af_cancel_bid i v : keeps asset_frame (cancel_bid i v).
Proof. unfold cancel_bid. solve_asset_frame. Qed.
Hint Resolve af_cancel_bid : graphene.
Lemma af_cancel_settle i v : keeps asset_frame (cancel_settle_order i v).
Proof. unfold cancel_settle_order. solve_asset_frame. Qed.
Hint Resolve af_cancel_settle : graphene.
Lemma af_pay_deferred o : keeps asset_frame (pay_deferred_fees o).
Proof. unfold pay_deferred_fees. solve_asset_frame. Qed.
Hint Resolve af_pay_deferred : graphene.
Lemma af_fill_limit_order i p r cl fp mk : keeps asset_frame (fill_limit_order i p r cl fp mk).
Proof. unfold fill_limit_order. solve_asset_frame. Qed.
Hint Resolve af_fill_limit_order : graphene.
Lemma af_fill_call_order i p r fp mk : keeps asset_frame (fill_call_order i p r fp mk).
Proof. unfold fill_call_order. solve_asset_frame. Qed.
Hint Resolve af_fill_call_order : graphene.
Lemma af_fill_settle_order i p r fp mk : keeps asset_frame (fill_settle_order i p r fp mk).
Proof. unfold fill_settle_order. solve_asset_frame. Qed.
Hint Resolve af_fill_settle_order : graphene.
Lemma af_execute_bid i d cf f : keeps asset_frame (execute_bid i d cf f).
Proof. unfold execute_bid. solve_asset_frame. Qed.
Hint Resolve af_execute_bid : graphene.

(** ** Settlement, black swans and margin calls *)
Lemma af_settle_calls p b ids : ∀ g, keeps asset_frame (settle_calls p b ids g).
Proof. induction ids as [|i ids IH]; intros g; cbn [settle_calls]; solve_asset_frame. Qed.
Hint Resolve af_settle_calls : graphene.
Lemma af_globally_settle a p : keeps asset_frame (globally_settle_asset a p).
Proof. unfold globally_settle_asset. solve_asset_frame. Qed.
Hint Resolve af_globally_settle : graphene.
Lemma af_cancel_bids ids : keeps asset_frame (cancel_bids ids).
Proof. induction ids as [|i ids IH]; cbn [cancel_bids]; solve_asset_frame. Qed.
Hint Resolve af_cancel_bids : graphene.
Lemma af_revive a : keeps asset_frame (revive_bitasset a).
Proof. unfold revive_bitasset, _cancel_bids_and_revive_mpa. solve_asset_frame. Qed.
Hint Resolve af_revive : graphene.
Lemma af_blackswan a en : keeps asset_frame (check_for_blackswan a en).
Proof. unfold check_for_blackswan. solve_asset_frame. Qed.
Hint Resolve af_blackswan : graphene.
Lemma af_match_limits u c p : keeps asset_frame (match_limits u c p).
Proof. unfold match_limits. solve_asset_frame. Qed.
Hint Resolve af_match_limits : graphene.
Lemma af_match_limit_call b a mp fp mcr mc : keeps asset_frame (match_limit_call b a mp fp mcr mc).
Proof. unfold match_limit_call. solve_asset_frame. Qed.
Hint Resolve af_match_limit_call : graphene.
Lemma af_match_call_settle c f mp ms fp : keeps asset_frame (match_call_settle c f mp ms fp).
Proof. unfold match_call_settle. solve_asset_frame. Qed.
Hint Resolve af_match_call_settle : graphene.
Lemma af_call_loop n a en fo : ∀ ls cs fl mc, keeps asset_frame (call_loop n a en fo ls cs fl mc).
Proof.
  induction n as [|n IH]; intros ls cs fl mc; cbn [call_loop]; [solve_asset_frame|].
  pose proof (af_puts (λ s, set_issue_453_affected_assets ({[ a ]} ∪ issue_453_affected_assets s) s)
    ltac:(intros; repeat split)). solve_asset_frame.
Qed.
Hint Resolve af_call_loop : graphene.
Lemma af_check_call_orders n a en fo : keeps asset_frame (check_call_orders n a en fo).
Proof. unfold check_call_orders. solve_asset_frame. Qed.
Hint Resolve af_check_call_orders : graphene.

End asset_frame.
#[export] Hint Resolve af_cancel_settle af_check_call_orders : graphene.
