(* ===== verification/AssetConfig.v ===== *)
(** * Configuration of assets: chain/asset_evaluator.cpp, protocol/asset_ops.cpp

    Creating an asset and changing its options, issuer, backing and feed producers:
    the checks of the operations and their evaluators, from the state after the fee
    is paid.  The theorems follow what the issuer gave up: permissions that are
    revoked while there is supply stay revoked and their flags stay as they are; and
    BitAssets are at most two deep: what backs the backing asset of a BitAsset is no
    BitAsset. *)

From S2P Require Import Prelude External Asset Authority Operations Block Vesting State Balance Fill Market Trade.
From S2P Require Import Evaluator MarketOps Ledger Frame Transaction Expire Budget Election Maintenance AssetFrame Names Candidates Accounts.
From Stdlib Require Import Ascii.
From Stdlib Require String.
Import Stdlib.Strings.String.StringSyntax.

Definition HARDFORK_385_TIME : Z := 1445558400.
Definition HARDFORK_572_TIME : Z := 1456250400.
Definition HARDFORK_CORE_199_TIME : Z := 1532008920.
Definition HARDFORK_CORE_429_TIME : Z := 1512747600.
Definition HARDFORK_CORE_922_931_TIME : Z := 1532008920.
Definition disable_confidential : Z := 64.
Definition ASSET_ISSUER_PERMISSION_MASK : Z :=
  fold_right Z.lor 0 [charge_market_fee; white_list; override_authority; transfer_restricted; disable_force_settle;
                      global_settle; disable_confidential; witness_fed_asset; committee_fed_asset].

(** [~x] of 16 bits, and the bits of [x] that [mask] lacks. *)
Definition bits_outside (x mask : Z) : Z := Z.ldiff x mask.

(** ** Operations *)
Record asset_create_operation := AssetCreate {
  cr_fee : asset;
  cr_issuer : Z;
  cr_symbol : String.string;
  cr_precision : Z;
  cr_common_options : asset_options;
  cr_bitasset_opts : option bitasset_options;
  cr_is_prediction_market : bool
}.
Record asset_update_operation := AssetUpdate {
  up_fee : asset; up_issuer : Z; up_asset_to_update : Z; up_new_issuer : option Z; up_new_options : asset_options }.
Record asset_update_issuer_operation := AssetUpdateIssuer {
  ui_fee : asset; ui_issuer : Z; ui_asset_to_update : Z; ui_new_issuer : Z }.
Record asset_update_bitasset_operation := AssetUpdateBitasset {
  ub_fee : asset; ub_issuer : Z; ub_asset_to_update : Z; ub_new_options : bitasset_options }.
Record asset_update_feed_producers_operation := AssetUpdateFeedProducers {
  fp_op_fee : asset; fp_issuer : Z; fp_asset_to_update : Z; new_feed_producers : gset Z }.

(** ** validate *)
Definition asset_options_validate (o : asset_options) : result unit :=
  fc_assert (max_supply o >? 0);;
  fc_assert (max_supply o <=? GRAPHENE_MAX_SHARE_SUPPLY);;
  fc_assert (market_fee_percent o <=? GRAPHENE_100_PERCENT);;
  fc_assert ((max_market_fee o >=? 0) && (max_market_fee o <=? GRAPHENE_MAX_SHARE_SUPPLY));;
  fc_assert (bits_outside (issuer_permissions o) ASSET_ISSUER_PERMISSION_MASK =? 0);;
  fc_assert (negb (has_flag (flags o) global_settle));;
  let fed := Z.lor witness_fed_asset committee_fed_asset in
  fc_assert (negb (Z.land (flags o) fed =? fed));;
  price_validate (ao_core_exchange_rate o);;
  fc_assert ((asset_id (base (ao_core_exchange_rate o)) =? 0) || (asset_id (quote (ao_core_exchange_rate o)) =? 0));;
  (if negb (bool_decide (whitelist_authorities o = ∅)) || negb (bool_decide (blacklist_authorities o = ∅))
   then fc_assert (has_flag (flags o) white_list) else Ok tt);;
  check_each (λ i, fc_assert (negb (bool_decide (i ∈ blacklist_markets o)))) (elements (whitelist_markets o));;
  check_each (λ i, fc_assert (negb (bool_decide (i ∈ whitelist_markets o)))) (elements (blacklist_markets o));;
  if_valid (reward_percent o) (λ p, fc_assert (p <? GRAPHENE_100_PERCENT)).
Definition bitasset_options_validate (o : bitasset_options) : result unit :=
  fc_assert (minimum_feeds o >? 0);;
  fc_assert (force_settlement_offset_percent o <=? GRAPHENE_100_PERCENT);;
  fc_assert (maximum_force_settlement_volume o <=? GRAPHENE_100_PERCENT).

(** [asset_object::validate]. *)
Definition asset_object_validate (a : asset_object) : result unit :=
  if is_market_issued a then Ok tt
  else
    let o := ao_options a in
    fc_assert (negb (has_flag (flags o) disable_force_settle || has_flag (flags o) global_settle));;
    fc_assert (negb (has_flag (issuer_permissions o) disable_force_settle
                     || has_flag (issuer_permissions o) global_settle)).

Section validate.
Context `{EX : Ext}.
Definition asset_create_validate (op : asset_create_operation) : result unit :=
  fc_assert (amount (cr_fee op) >=? 0);;
  fc_assert (is_valid_symbol (cr_symbol op));;
  asset_options_validate (cr_common_options op);;
  (if has_flag (issuer_permissions (cr_common_options op)) (Z.lor disable_force_settle global_settle)
   then fc_assert (is_some (cr_bitasset_opts op)) else Ok tt);;
  (if cr_is_prediction_market op then
     fc_assert (is_some (cr_bitasset_opts op));;
     fc_assert (has_flag (issuer_permissions (cr_common_options op)) global_settle)
   else Ok tt);;
  if_valid (cr_bitasset_opts op) bitasset_options_validate;;
  dummy ← asset_mul (Asset 1 CORE) (ao_core_exchange_rate (cr_common_options op));
  fc_assert (asset_id dummy =? 1);;
  fc_assert (cr_precision op <=? 12).
Definition asset_update_validate (op : asset_update_operation) : result unit :=
  fc_assert (amount (up_fee op) >=? 0);;
  if_valid (up_new_issuer op) (λ i, fc_assert (negb (up_issuer op =? i)));;
  asset_options_validate (up_new_options op);;
  dummy ← asset_mul (Asset 1 (up_asset_to_update op)) (ao_core_exchange_rate (up_new_options op));
  fc_assert (asset_id dummy =? CORE).
End validate.
Definition asset_update_issuer_validate (op : asset_update_issuer_operation) : result unit :=
  fc_assert (amount (ui_fee op) >=? 0);; fc_assert (negb (ui_issuer op =? ui_new_issuer op)).
Definition asset_update_bitasset_validate (op : asset_update_bitasset_operation) : result unit :=
  fc_assert (amount (ub_fee op) >=? 0);; bitasset_options_validate (ub_new_options op).
Definition asset_update_feed_producers_validate (op : asset_update_feed_producers_operation) : result unit :=
  fc_assert (amount (fp_op_fee op) >=? 0).

(** ** calculate_fee *)
Record asset_create_fee_parameters := AssetCreateFees {
  symbol3 : Z; symbol4 : Z; long_symbol : Z; cr_price_per_kbyte : Z }.
(** [bytes] is the size of the packed operation. *)
Definition asset_create_calculate_fee (k : asset_create_fee_parameters) (op : asset_create_operation) (bytes : Z)
    : result Z :=
  let core_fee_required := match String.length (cr_symbol op) with
                           | 3%nat => symbol3 k
                           | 4%nat => symbol4 k
                           | _ => long_symbol k
                           end in
  data_fee (FeeParameters core_fee_required (cr_price_per_kbyte k)) bytes.
Definition asset_update_calculate_fee (k : fee_parameters) (bytes : Z) : result Z := data_fee k bytes.

(** ** Changes of objects *)
Definition set_issuer (i : Z) (a : asset_object) : asset_object :=
  AssetObject i (ao_options a) (bitasset_data_valid a) (buyback_account a) (symbol a) (precision a).
Definition set_ao_options (o : asset_options) (a : asset_object) : asset_object :=
  AssetObject (issuer a) o (bitasset_data_valid a) (buyback_account a) (symbol a) (precision a).
Definition set_cer_price (p : price) (o : asset_options) : asset_options :=
  AssetOptions (max_supply o) (market_fee_percent o) (max_market_fee o) (issuer_permissions o) (flags o) p
    (whitelist_authorities o) (blacklist_authorities o) (whitelist_markets o) (blacklist_markets o)
    (reward_percent o) (whitelist_market_fee_sharing o) (description o).
Definition set_bad_options (o : bitasset_options) (b : asset_bitasset_data_object) : asset_bitasset_data_object :=
  AssetBitassetData o (feeds b) (current_feed b) (current_feed_publication_time b)
    (current_maintenance_collateralization b) (is_prediction_market b) (force_settled_volume b)
    (bad_settlement_price b) (settlement_fund b) (asset_cer_updated b) (feed_cer_updated b).
Definition set_asset_cer_updated (b : asset_bitasset_data_object) : asset_bitasset_data_object :=
  AssetBitassetData (bad_options b) (feeds b) (current_feed b) (current_feed_publication_time b)
    (current_maintenance_collateralization b) (is_prediction_market b) (force_settled_volume b)
    (bad_settlement_price b) (settlement_fund b) true (feed_cer_updated b).

Section config.
Context `{EX : Ext} (nth_element : nth_element_t) (fuel : nat).

Definition check_asset_options_hf_1268 (block_time : Z) (o : asset_options) : M database unit :=
  when (block_time <? HARDFORK_1268_TIME)
    (assert_that (negb (is_some (reward_percent o)));; assert_that (negb (is_some (whitelist_market_fee_sharing o)))).
Fixpoint all_accounts_exist (l : list Z) : M database unit :=
  match l with [] => mret tt | i :: l => _ ← get (V:=account_object) i; all_accounts_exist l end.
Definition asset_by_symbol (n : String.string) (s : database) : option (Z * asset_object) :=
  head (filter (λ x : Z * asset_object, symbol x.2 = n) (map_to_list (assets s))).

(** ** asset_create *)

(** The part of a symbol before its last dot. *)
Definition symbol_prefix (n : String.string) : option String.string :=
  (λ i, String.string_of_list_ascii (take i (chars n))) <$> find_last_of "."%char (chars n).

(** A BitAsset's backing asset and what backs that one, for an asset of the committee. *)
Definition check_backing (op : asset_create_operation) (o : bitasset_options) : M database unit :=
  backing ← get (V:=asset_object) (short_backing_asset o);
  if is_market_issued backing then
    b ← get_bitasset_data (short_backing_asset o) backing;
    let i := short_backing_asset (bad_options b) in
    backing_backing ← get (V:=asset_object) i;
    assert_that (negb (is_market_issued backing_backing));;
    assert_that (negb (cr_issuer op =? GRAPHENE_COMMITTEE_ACCOUNT) || (i =? CORE))
  else
    assert_that (negb (cr_issuer op =? GRAPHENE_COMMITTEE_ACCOUNT) || (short_backing_asset o =? CORE)).

Definition asset_create_evaluate (op : asset_create_operation) : M database unit :=
  p ← get_parameters;
  let o := cr_common_options op in
  assert_that (Z.of_nat (size (whitelist_authorities o)) <=? maximum_asset_whitelist_authorities p);;
  assert_that (Z.of_nat (size (blacklist_authorities o)) <=? maximum_asset_whitelist_authorities p);;
  now ← head_block_time;
  check_asset_options_hf_1268 now o;;
  all_accounts_exist (elements (whitelist_authorities o));;
  all_accounts_exist (elements (blacklist_authorities o));;
  x ← gets (asset_by_symbol (cr_symbol op));
  assert_that (negb (is_some x));;
  when (now >? HARDFORK_385_TIME)
    (when_valid (symbol_prefix (cr_symbol op)) (λ prefix,
       x ← gets (asset_by_symbol prefix);
       match x with
       | None => throw assert_exception
       | Some (_, a) => assert_that (issuer a =? cr_issuer op)
       end));;
  when_valid (cr_bitasset_opts op) (λ b,
    check_backing op b;;
    assert_that ((feed_lifetime_sec b >? block_interval p) && (force_settlement_delay_sec b >? block_interval p)));;
  when (cr_is_prediction_market op)
    (match cr_bitasset_opts op with
     | None => throw assert_exception
     | Some b => a ← get (V:=asset_object) (short_backing_asset b); assert_that (cr_precision op =? precision a)
     end).

(** [pay_fee]: half of the fee, rounded down, goes to the pool of the asset; the caller
    pays the rest as fee.  The first component is [fee_is_odd]. *)
Definition asset_create_fee (core_fee_paid : Z) : result (bool * Z) :=
  x ← safe_sub core_fee_paid (Z.quot core_fee_paid 2); Ok (Z.odd core_fee_paid, x).

Definition new_bitasset (o : bitasset_options) (pm : bool) : asset_bitasset_data_object :=
  AssetBitassetData o ∅ default_price_feed 0 default_price pm 0 default_price 0 false false.
Definition new_asset (op : asset_create_operation) (i : Z) : asset_object :=
  let o := cr_common_options op in
  let p := ao_core_exchange_rate o in
  let p' := if asset_id (base p) =? 0 then Price (base p) (Asset (amount (quote p)) i)
            else Price (Asset (amount (base p)) i) (quote p) in
  AssetObject (cr_issuer op) (set_cer_price p' o) (is_some (cr_bitasset_opts op)) None (cr_symbol op) (cr_precision op).
Definition asset_create_apply (fee_is_odd : bool) (core_fee_paid : Z) (op : asset_create_operation) : M database Z :=
  now ← head_block_time;
  let hf_429 := fee_is_odd && (now >? HARDFORK_CORE_429_TIME) in
  i ← gets (λ s, next_asset_id (sequences (governance s)));
  pool ← lift (safe_sub core_fee_paid (Z.b2z hf_429));
  add i (AssetDynamicData 0 0 0 pool);;
  when (fee_is_odd && negb hf_429) (modify (V:=asset_dynamic_data_object) CORE (add_supply 1));;
  when_valid (cr_bitasset_opts op) (λ b, add i (new_bitasset b (cr_is_prediction_market op)));;
  x ← gets (asset_by_symbol (cr_symbol op));
  assert_that (negb (is_some x));;
  create (λ i, new_asset op i).

(** ** asset_update, asset_update_issuer *)
Definition validate_new_issuer (asset_type : Z) (a : asset_object) (new_issuer : Z) : M database unit :=
  x ← find (V:=account_object) new_issuer;
  assert_that (is_some x);;
  when (is_market_issued a && (new_issuer =? GRAPHENE_COMMITTEE_ACCOUNT))
    (b ← get_bitasset_data asset_type a;
     let i := short_backing_asset (bad_options b) in
     backing ← get (V:=asset_object) i;
     if is_market_issued backing then
       b ← get_bitasset_data i backing;
       _ ← get (V:=asset_object) (short_backing_asset (bad_options b));
       assert_that (short_backing_asset (bad_options b) =? CORE)
     else assert_that (i =? CORE)).

Definition asset_update_evaluate (op : asset_update_operation) : M database unit :=
  a ← get (V:=asset_object) (up_asset_to_update op);
  lift (asset_object_validate (set_ao_options (up_new_options op) a));;
  now ← head_block_time;
  when_valid (up_new_issuer op) (λ i,
    assert_that (now <? HARDFORK_CORE_199_TIME);; validate_new_issuer (up_asset_to_update op) a i);;
  check_asset_options_hf_1268 now (up_new_options op);;
  supplied ← (if now <? HARDFORK_572_TIME then mret true
              else d ← get (V:=asset_dynamic_data_object) (up_asset_to_update op);
                   mret (negb (current_supply d =? 0)));
  when supplied
    (assert_that (bits_outside (issuer_permissions (up_new_options op)) (issuer_permissions (ao_options a)) =? 0));;
  assert_that (bits_outside (Z.lxor (flags (up_new_options op)) (flags (ao_options a)))
                 (issuer_permissions (ao_options a)) =? 0);;
  assert_that (up_issuer op =? issuer a);;
  p ← get_parameters;
  assert_that (Z.of_nat (size (whitelist_authorities (up_new_options op))) <=? maximum_asset_whitelist_authorities p);;
  all_accounts_exist (elements (whitelist_authorities (up_new_options op)));;
  assert_that (Z.of_nat (size (blacklist_authorities (up_new_options op))) <=? maximum_asset_whitelist_authorities p);;
  all_accounts_exist (elements (blacklist_authorities (up_new_options op))).

(** The first open settlement of the asset. *)
Definition open_settlement (a : Z) (s : database) : option (Z * force_settlement_object) :=
  match settlement_lower a s with
  | Some x => if settlement_asset_id x.2 =? a then Some x else None
  | None => None
  end.
Definition cancel_settlements (a : Z) : M database unit := λ s,
  while_some (S (size (settle_orders s))) (open_settlement a) (λ x, cancel_settle_order x.1 true) s.
Definition asset_update_apply (op : asset_update_operation) : M database unit :=
  let i := up_asset_to_update op in
  a ← get (V:=asset_object) i;
  when (has_flag (flags (up_new_options op)) disable_force_settle && can_force_settle a) (cancel_settlements i);;
  when (is_market_issued a
        && negb (price_eqb (ao_core_exchange_rate (ao_options a)) (ao_core_exchange_rate (up_new_options op))))
    (b ← get_bitasset_data i a;
     when (negb (asset_cer_updated b)) (modify i (λ b, Ok (set_asset_cer_updated b))));;
  modify i (λ a, Ok (set_ao_options (up_new_options op) (set_issuer (default (issuer a) (up_new_issuer op)) a))).

Definition asset_update_issuer_evaluate (op : asset_update_issuer_operation) : M database unit :=
  a ← get (V:=asset_object) (ui_asset_to_update op);
  validate_new_issuer (ui_asset_to_update op) a (ui_new_issuer op);;
  assert_that (ui_issuer op =? issuer a).
Definition asset_update_issuer_apply (op : asset_update_issuer_operation) : M database unit :=
  modify (ui_asset_to_update op) (λ a, Ok (set_issuer (ui_new_issuer op) a)).

(** ** asset_update_bitasset *)

(** The BitAssets backed by an asset: [by_short_backing_asset]. *)
Definition children (a : Z) (s : database) : list Z :=
  ids_of (filter (λ x : Z * asset_bitasset_data_object, short_backing_asset (bad_options x.2) = a) (bitassets s)).
Definition check_child (new_backing : Z) (new_backing_asset : asset_object) (after_hf_922_931 : bool) (child : Z)
    : M database unit :=
  c ← get (V:=asset_object) child;
  when after_hf_922_931
    (assert_that (negb (child =? new_backing));;
     assert_that (negb (issuer c =? GRAPHENE_COMMITTEE_ACCOUNT));;
     assert_that (negb (is_market_issued new_backing_asset))).
Definition check_children_of_bitasset (asset_to_update new_backing : Z) (new_backing_asset : asset_object)
    (after_hf_922_931 : bool) : M database unit :=
  when (negb (new_backing =? CORE))
    (l ← gets (children asset_to_update);
     each (check_child new_backing new_backing_asset after_hf_922_931) l).

(** The checks of a new backing asset after hard fork 922/931, and those before it. *)
Definition check_new_backing (a : asset_object) (current : asset_bitasset_data_object) (op : asset_update_bitasset_operation)
    (new_backing_asset : asset_object) : M database unit :=
  let i := ub_asset_to_update op in
  let n := short_backing_asset (ub_new_options op) in
  assert_that (negb (n =? i));;
  when (is_prediction_market current) (assert_that (precision a =? precision new_backing_asset));;
  (if issuer a =? GRAPHENE_COMMITTEE_ACCOUNT then
     if is_market_issued new_backing_asset then
       b ← get_bitasset_data n new_backing_asset;
       assert_that (short_backing_asset (bad_options b) =? CORE);;
       check_children_of_bitasset i n new_backing_asset true
     else assert_that (n =? CORE)
   else when (negb (n =? CORE)) (check_children_of_bitasset i n new_backing_asset true));;
  when (is_market_issued new_backing_asset)
    (b ← get_bitasset_data n new_backing_asset;
     let bb := short_backing_asset (bad_options b) in
     ok ← (if bb =? CORE then mret true
           else x ← get (V:=asset_object) bb; mret (negb (is_market_issued x)));
     assert_that ok).
Definition check_new_backing_before (a : asset_object) (current : asset_bitasset_data_object)
    (op : asset_update_bitasset_operation) (new_backing_asset : asset_object) : M database unit :=
  let i := ub_asset_to_update op in
  let n := short_backing_asset (ub_new_options op) in
  (if issuer a =? GRAPHENE_COMMITTEE_ACCOUNT then
     when (is_market_issued new_backing_asset)
       (_ ← get_bitasset_data n new_backing_asset;
        check_children_of_bitasset i n new_backing_asset false);;
     let o := short_backing_asset (bad_options current) in
     old_backing_asset ← get (V:=asset_object) o;
     if is_market_issued old_backing_asset then
       b ← get_bitasset_data o old_backing_asset;
       assert_that (short_backing_asset (bad_options b) =? CORE)
     else assert_that (o =? CORE)
   else when (negb (n =? CORE)) (check_children_of_bitasset i n new_backing_asset false));;
  when (is_market_issued new_backing_asset)
    (b ← get_bitasset_data n new_backing_asset;
     let bb := short_backing_asset (bad_options b) in
     when (negb (bb =? CORE)) (_ ← get (V:=asset_object) bb; mret tt)).

Definition asset_update_bitasset_evaluate (op : asset_update_bitasset_operation) : M database unit :=
  a ← get (V:=asset_object) (ub_asset_to_update op);
  assert_that (is_market_issued a);;
  assert_that (ub_issuer op =? issuer a);;
  current ← get_bitasset_data (ub_asset_to_update op) a;
  assert_that (negb (has_settlement current));;
  maint_time ← next_maint_time;
  let after_hf_core_922_931 := maint_time >? HARDFORK_CORE_922_931_TIME in
  when (negb (short_backing_asset (ub_new_options op) =? short_backing_asset (bad_options current)))
    (d ← get (V:=asset_dynamic_data_object) (ub_asset_to_update op);
     assert_that (current_supply d =? 0);;
     new_backing_asset ← get (V:=asset_object) (short_backing_asset (ub_new_options op));
     if after_hf_core_922_931 then check_new_backing a current op new_backing_asset
     else check_new_backing_before a current op new_backing_asset);;
  p ← get_parameters;
  when after_hf_core_922_931
    (assert_that (feed_lifetime_sec (ub_new_options op) >? block_interval p);;
     assert_that (force_settlement_delay_sec (ub_new_options op) >? block_interval p)).

(** [update_bitasset_object_options]: the new data and whether margin calls are to be
    checked. *)
Definition update_bitasset_object_options (head_time next_maint : Z) (op : asset_update_bitasset_operation)
    (a : asset_object) (bdo : asset_bitasset_data_object) : result (asset_bitasset_data_object * bool) :=
  let after_hf_core_868_890 := next_maint >? HARDFORK_CORE_868_890_TIME in
  let old := bad_options bdo in
  let new := ub_new_options op in
  let backing_asset_changed := after_hf_core_868_890 && negb (short_backing_asset new =? short_backing_asset old) in
  let should_update_feeds := negb (minimum_feeds new =? minimum_feeds old)
    || (after_hf_core_868_890 && negb (feed_lifetime_sec new =? feed_lifetime_sec old)) || backing_asset_changed in
  let is_witness_or_committee_fed :=
    backing_asset_changed && has_flag (flags (ao_options a)) (Z.lor witness_fed_asset committee_fed_asset) in
  let bdo := set_bad_options new bdo in
  let bdo := if backing_asset_changed
             then set_feeds (if is_witness_or_committee_fed then ∅ else nullify_feed <$> feeds bdo) bdo else bdo in
  if should_update_feeds then
    let old_feed := current_feed bdo in
    bdo ← update_median_feeds nth_element head_time next_maint bdo;
    Ok (bdo, if next_maint >? HARDFORK_CORE_935_TIME then negb (price_feed_eqb old_feed (current_feed bdo))
             else after_hf_core_868_890
                  && negb (price_eqb (settlement_price old_feed) (settlement_price (current_feed bdo))))
  else Ok (bdo, false).
Definition asset_update_bitasset_apply (op : asset_update_bitasset_operation) : M database unit :=
  let i := ub_asset_to_update op in
  head_time ← head_block_time;
  next_maint ← next_maint_time;
  a ← deref (V:=asset_object) i;
  b ← deref (V:=asset_bitasset_data_object) i;
  x ← lift (update_bitasset_object_options head_time next_maint op a b);
  modify i (λ b, x ← update_bitasset_object_options head_time next_maint op a b; Ok x.1);;
  when x.2 (_ ← check_call_orders fuel i true false; mret tt).

(** ** asset_update_feed_producers *)
Definition asset_update_feed_producers_evaluate (op : asset_update_feed_producers_operation) : M database unit :=
  p ← get_parameters;
  assert_that (Z.of_nat (size (new_feed_producers op)) <=? maximum_asset_feed_publishers p);;
  a ← get (V:=asset_object) (fp_asset_to_update op);
  assert_that (is_market_issued a);;
  assert_that (negb (has_flag (flags (ao_options a)) committee_fed_asset));;
  assert_that (negb (has_flag (flags (ao_options a)) witness_fed_asset));;
  assert_that (issuer a =? fp_issuer op);;
  all_accounts_exist (elements (new_feed_producers op)).

(** Those who stay keep their feeds, new ones start without. *)
Definition keep_producers (producers : gset Z) (m : gmap Z (Z * price_feed)) : gmap Z (Z * price_feed) :=
  let kept := filter (λ x : Z * (Z * price_feed), x.1 ∈ producers) m in
  foldr (λ acc m, match m !! acc with Some _ => m | None => <[acc := (0, default_price_feed)]> m end)
    kept (elements producers).
Definition asset_update_feed_producers_apply (op : asset_update_feed_producers_operation) : M database unit :=
  let i := fp_asset_to_update op in
  head_time ← head_block_time;
  maint_time ← next_maint_time;
  a ← deref (V:=asset_object) i;
  _ ← get_bitasset_data i a;
  modify i (λ b, update_median_feeds nth_element head_time maint_time
                   (set_feeds (keep_producers (new_feed_producers op) (feeds b)) b));;
  _ ← check_call_orders fuel i true false;
  mret tt.

Inductive asset_operation :=
| co_asset_create (op : asset_create_operation) (core_fee_paid : Z)
| co_asset_update (op : asset_update_operation)
| co_asset_update_issuer (op : asset_update_issuer_operation)
| co_asset_update_bitasset (op : asset_update_bitasset_operation)
| co_asset_update_feed_producers (op : asset_update_feed_producers_operation).
Definition asset_validate (o : asset_operation) : result unit :=
  match o with
  | co_asset_create op _ => asset_create_validate op
  | co_asset_update op => asset_update_validate op
  | co_asset_update_issuer op => asset_update_issuer_validate op
  | co_asset_update_bitasset op => asset_update_bitasset_validate op
  | co_asset_update_feed_producers op => asset_update_feed_producers_validate op
  end.
Definition asset_evaluate (o : asset_operation) : M database unit :=
  match o with
  | co_asset_create op _ => asset_create_evaluate op
  | co_asset_update op => asset_update_evaluate op
  | co_asset_update_issuer op => asset_update_issuer_evaluate op
  | co_asset_update_bitasset op => asset_update_bitasset_evaluate op
  | co_asset_update_feed_producers op => asset_update_feed_producers_evaluate op
  end.
Definition asset_apply (o : asset_operation) : M database unit :=
  match o with
  | co_asset_create op fee =>
      x ← lift (asset_create_fee fee); _ ← asset_create_apply x.1 x.2 op; mret tt
  | co_asset_update op => asset_update_apply op
  | co_asset_update_issuer op => asset_update_issuer_apply op
  | co_asset_update_bitasset op => asset_update_bitasset_apply op
  | co_asset_update_feed_producers op => asset_update_feed_producers_apply op
  end.

End config.

(** ** What each evaluator does to the assets *)
Section effects.
Context `{EX : Ext} (nth_element : nth_element_t) (fuel : nat).

Lemma af_cancel_settlements a : keeps asset_frame (cancel_settlements a).
Proof.
  intros s [] s' E. revert E. unfold cancel_settlements. apply (while_some_keeps _ _ asset_frame).
  intros s1 x s2 _ E. by apply af_cancel_settle in E.
Qed.

Lemma add_bitasset_frame i b s s' :
  add i b s = Ok (tt, s') →
  published s !! i = None ∧ assets s' = assets s ∧ governance s' = governance s ∧
  published s' = <[i := (bad_options b, feeds b)]> (published s).
Proof.
  intros [HN ->]%add_inv. cbn in HN. unfold published. cbn. rewrite lookup_fmap, HN, fmap_insert. done.
Qed.

Lemma asset_create_Ok odd fee op s i s' :
  asset_create_apply odd fee op s = Ok (i, s') →
  assets s !! i = None ∧ assets s' = <[i := new_asset op i]> (assets s) ∧
  (∀ j a, assets s !! j = Some a → symbol a ≠ cr_symbol op) ∧
  match cr_bitasset_opts op with
  | None => published s' = published s
  | Some b => published s !! i = None ∧ published s' = <[i := (b, ∅)]> (published s)
  end.
Proof.
  intros E. unfold asset_create_apply in E. do 2 bind_step E. apply M_bind_Ok in E as (pool & s1 & Hp & E).
  apply lift_Ok in Hp as [_ ->]. remember (next_asset_id (sequences (governance s))) as k eqn:Ek.
  apply M_bind_Ok in E as ([] & s1 & [_ ->]%add_inv & E).
  apply M_bind_Ok in E as ([] & s1 & H1 & E).
  assert (assets s1 = assets s ∧ published s1 = published s ∧ governance s1 = governance s) as (A1 & P1 & G1).
  { destruct (odd && _); cbn [when] in H1; [|by injection H1 as <-].
    apply modify_Ok in H1 as (v & w & _ & _ & ->). done. }
  apply M_bind_Ok in E as ([] & s2 & H2 & E).
  assert (assets s2 = assets s ∧ governance s2 = governance s ∧
    match cr_bitasset_opts op with
    | None => published s2 = published s
    | Some b => published s !! k = None ∧ published s2 = <[k := (b, ∅)]> (published s)
    end) as (A2 & G2 & P2).
  { destruct (cr_bitasset_opts op) as [b|]; cbn [when_valid] in H2.
    - apply add_bitasset_frame in H2 as (N & -> & -> & ->). rewrite <-P1. done.
    - injection H2 as <-. done. }
  do 2 bind_step E. apply create_inv in E as (HN & -> & Hi). cbn in HN, Hi. rewrite G2, <-Ek in Hi. subst i.
  rewrite A2 in *. split_and!; [done|cbn; by rewrite A2| |].
  - intros j a Hj Hs. unfold asset_by_symbol in Hx.
    assert ((j, a) ∈ filter (λ x : Z * asset_object, symbol x.2 = cr_symbol op) (map_to_list (assets s2))) as Hin.
    { apply list_elem_of_filter. split; [done|]. apply elem_of_map_to_list. by rewrite A2. }
    destruct (filter _ _); [by apply elem_of_nil in Hin|done].
  - by destruct (cr_bitasset_opts op).
Qed.

Lemma asset_update_Ok op s s' :
  asset_update_apply op s = Ok (tt, s') →
  ∃ a, assets s !! up_asset_to_update op = Some a ∧
    assets s' = <[up_asset_to_update op :=
      set_ao_options (up_new_options op) (set_issuer (default (issuer a) (up_new_issuer op)) a)]> (assets s) ∧
    published s' = published s.
Proof.
  intros E. unfold asset_update_apply in E. bind E as a Ha. cbn in Ha.
  apply M_bind_Ok in E as ([] & s1 & H1 & E). apply M_bind_Ok in E as ([] & s2 & H2 & E).
  assert (asset_frame s s1) as F1.
  { destruct (_ && can_force_settle a); cbn [when] in H1; [by eapply af_cancel_settlements|by injection H1 as <-]. }
  assert (asset_frame s1 s2) as F2.
  { destruct (is_market_issued a && _); cbn [when] in H2; [|by injection H2 as <-].
    unfold get_bitasset_data in H2. apply M_bind_Ok in H2 as (b & s3 & H3 & H2).
    assert (s3 = s1) as -> by (do 1 bind_step H3; by apply get_Ok in H3 as [-> _]).
    destruct (negb _); cbn [when] in H2; [|by injection H2 as <-].
    revert H2. apply af_modify_bitasset. by intros ? ? [= <-]. }
  apply modify_Ok in E as (a' & ? & Ha' & [= <-] & ->). cbn in Ha'.
  destruct F1 as (A1 & P1 & _), F2 as (A2 & P2 & _). rewrite A2, A1, Ha in Ha'. injection Ha' as <-.
  exists a. split; [done|]. unfold published in *. cbn. rewrite A2, A1, P2, P1. done.
Qed.

Lemma asset_update_issuer_Ok op s s' :
  asset_update_issuer_apply op s = Ok (tt, s') →
  ∃ a, assets s !! ui_asset_to_update op = Some a ∧
    assets s' = <[ui_asset_to_update op := set_issuer (ui_new_issuer op) a]> (assets s) ∧ published s' = published s.
Proof. intros E. apply modify_Ok in E as (a & ? & Ha & [= <-] & ->). by exists a. Qed.

Lemma update_options_spec t mt op a b x :
  update_bitasset_object_options nth_element t mt op a b = Ok x → bad_options x.1 = ub_new_options op.
Proof.
  unfold update_bitasset_object_options. destruct (_ || _); [|by intros [= <-]; destruct (_ && _)].
  intros E. apply result_bind_Ok in E as (b' & E & [= <-]). apply update_median_feeds_frame in E as (H & _). cbn. rewrite H.
  by destruct (_ && negb _).
Qed.

Lemma asset_update_bitasset_Ok op s s' :
  asset_update_bitasset_apply nth_element fuel op s = Ok (tt, s') →
  ∃ f, assets s' = assets s ∧ is_Some (published s !! ub_asset_to_update op) ∧
    published s' = <[ub_asset_to_update op := (ub_new_options op, f)]> (published s).
Proof.
  intros E. unfold asset_update_bitasset_apply in E. do 4 bind_step E.
  apply M_bind_Ok in E as (x & s1 & Hu & E). apply lift_Ok in Hu as [Hu ->].
  apply M_bind_Ok in E as ([] & s1 & Hm & E). apply modify_Ok in Hm as (b & b' & Hb & Em & ->). cbn in Hb.
  apply result_bind_Ok in Em as (y & Ey & [= <-]). apply update_options_spec in Ey. exists (feeds y.1).
  assert (asset_frame (set_bitassets (<[ub_asset_to_update op := y.1]> (bitassets s)) s) s') as (A & P & _).
  { destruct x.2; cbn [when] in E; [|injection E as <-; reflexivity]. bind_step E. injection E as <-.
    by apply af_check_call_orders in Hx1. }
  split_and!; [exact A|unfold published; by rewrite lookup_fmap, Hb|]. rewrite P. unfold published. cbn.
  by rewrite fmap_insert, Ey.
Qed.

Lemma asset_update_feed_producers_Ok op s s' :
  asset_update_feed_producers_apply nth_element fuel op s = Ok (tt, s') →
  ∃ o f, assets s' = assets s ∧ published s !! fp_asset_to_update op = Some (o, f) ∧
    published s' = <[fp_asset_to_update op := (o, keep_producers (new_feed_producers op) f)]> (published s).
Proof.
  intros E. unfold asset_update_feed_producers_apply in E. do 3 bind_step E.
  apply M_bind_Ok in E as (b0 & s1 & Hg & E). unfold get_bitasset_data in Hg.
  assert (s1 = s) as -> by (bind_step Hg; by apply get_Ok in Hg as [-> _]).
  apply M_bind_Ok in E as ([] & s1 & Hm & E). apply modify_Ok in Hm as (b & b' & Hb & Em & ->). cbn in Hb.
  apply update_median_feeds_frame in Em as (O1 & _ & _ & F1 & _).
  bind_step E. injection E as <-. apply af_check_call_orders in Hx0 as (A & P & _).
  exists (bad_options b), (feeds b). split_and!; [exact A|unfold published; by rewrite lookup_fmap, Hb|].
  rewrite P. unfold published. cbn. by rewrite fmap_insert, O1, F1.
Qed.

End effects.

(** ** Permissions *)
Lemma bits_outside_0 x y : bits_outside x y = 0 ↔ ∀ n, 0 ≤ n → Z.testbit x n = true → Z.testbit y n = true.
Proof.
  unfold bits_outside. split.
  - intros H n Hn Hx. pose proof (f_equal (λ z, Z.testbit z n) H) as Hb. cbn in Hb.
    rewrite Z.ldiff_spec, Hx, Z.bits_0 in Hb. by destruct (Z.testbit y n).
  - intros H. apply Z.bits_inj'. intros n Hn. rewrite Z.ldiff_spec, Z.bits_0.
    destruct (Z.testbit x n) eqn:E; [|done]. by rewrite (H n Hn E).
Qed.

(** The permissions of [o'] are among those of [o], and the flags differ in permitted
    ones only. *)
Definition within_permissions (o o' : asset_options) : Prop :=
  bits_outside (issuer_permissions o') (issuer_permissions o) = 0 ∧
  bits_outside (Z.lxor (flags o') (flags o)) (issuer_permissions o) = 0.
#[export] Instance within_permissions_preorder : PreOrder within_permissions.
Proof.
  split.
  - intros o. split; apply bits_outside_0; [done|]. intros n Hn. by rewrite Z.lxor_nilpotent, Z.bits_0.
  - intros o1 o2 o3 [P1 F1] [P2 F2]. rewrite bits_outside_0 in P1, F1, P2, F2. split; apply bits_outside_0; [auto|].
    intros n Hn. specialize (F1 n Hn). specialize (F2 n Hn). specialize (P1 n Hn). rewrite Z.lxor_spec in *.
    intros Hx. destruct (Z.testbit (flags o1) n), (Z.testbit (flags o2) n), (Z.testbit (flags o3) n); cbn in *;
      try done; auto.
Qed.

Section permissions.
Context `{EX : Ext} (nth_element : nth_element_t) (fuel : nat).

Definition has_supply (i : Z) (s : database) : Prop := ∃ d, dyns s !! i = Some d ∧ current_supply d ≠ 0.

Lemma all_accounts_exist_same l s s' : all_accounts_exist l s = Ok (tt, s') → s' = s.
Proof. revert s. induction l as [|i l IH]; intros s E; [by injection E as <-|]. cbn in E. bind_step E. by apply IH. Qed.

Lemma asset_update_allowed op s s1 :
  asset_update_evaluate op s = Ok (tt, s1) →
  ∃ a, assets s !! up_asset_to_update op = Some a ∧ up_issuer op = issuer a ∧
    bits_outside (Z.lxor (flags (up_new_options op)) (flags (ao_options a))) (issuer_permissions (ao_options a)) = 0 ∧
    (has_supply (up_asset_to_update op) s → within_permissions (ao_options a) (up_new_options op)).
Proof.
  intros E. unfold asset_update_evaluate in E. bind E as a Ha. cbn in Ha. bind_step E. bind_step E.
  apply M_bind_Ok in E as ([] & s2 & H2 & E).
  assert (s2 = s) as ->.
  { destruct (up_new_issuer op) as [n|]; cbn [when_valid] in H2; [|by injection H2 as <-].
    bind_step H2. unfold validate_new_issuer in H2. revert H2.
    match goal with |- ?m s = _ → _ => enough (reads m) as HR by (intros E2; by apply HR in E2) end.
    unfold get_bitasset_data. solve_reads. }
  apply M_bind_Ok in E as ([] & s2 & H3 & E).
  assert (s2 = s) as ->.
  { unfold check_asset_options_hf_1268 in H3. destruct (_ <? _); cbn [when] in H3; [|by injection H3 as <-].
    bind_step H3. by apply lift_Ok in H3 as [_ ->]. }
  apply M_bind_Ok in E as (sup & s2 & H4 & E).
  assert (s2 = s ∧ (has_supply (up_asset_to_update op) s → sup = true)) as [-> Hsup].
  { destruct (_ <? HARDFORK_572_TIME); [injection H4 as <- <-; done|].
    bind H4 as d Hd. injection H4 as <- <-. split; [done|]. intros (d' & Hd' & Hne). cbn in Hd.
    rewrite Hd in Hd'. injection Hd' as <-. apply negb_true_iff. by apply Z.eqb_neq. }
  apply M_bind_Ok in E as ([] & s2 & H5 & E).
  assert (s2 = s ∧ (sup = true → bits_outside (issuer_permissions (up_new_options op)) (issuer_permissions (ao_options a)) = 0))
    as [-> Hperm].
  { destruct sup; cbn [when] in H5; [|by injection H5 as <-]. unfold assert_that in H5. apply lift_Ok in H5 as [H5 ->].
    apply fc_assert_Ok in H5. split; [done|]. intros _. by apply Z.eqb_eq. }
  do 2 bind_step E. bool_to_prop. exists a. split_and!; [done|lia|done|]. intros Hs. split; [by apply Hperm, Hsup|done].
Qed.

(** A state is reached from another by configuring assets, each operation accepted by
    its evaluator, and by anything else that leaves the options of the assets alone. *)
Inductive configured (i : Z) : database → database → Prop :=
| configured_refl s : configured i s s
| configured_step s s1 o s2 :
    configured i s s1 → has_supply i s1 → asset_evaluate o s1 = Ok (tt, s1) →
    asset_apply nth_element fuel o s1 = Ok (tt, s2) → configured i s s2
| configured_other s s1 s2 :
    configured i s s1 →
    (∀ a, assets s1 !! i = Some a → ∃ a', assets s2 !! i = Some a' ∧
       issuer_permissions (ao_options a') = issuer_permissions (ao_options a) ∧
       flags (ao_options a') = flags (ao_options a)) → configured i s s2.

Lemma config_step i o s s' a :
  has_supply i s → asset_evaluate o s = Ok (tt, s) → asset_apply nth_element fuel o s = Ok (tt, s') →
  assets s !! i = Some a →
  ∃ a', assets s' !! i = Some a' ∧ within_permissions (ao_options a) (ao_options a').
Proof.
  intros Hs Ev Ap Ha. destruct o as [op fee|op|op|op|op]; cbn [asset_evaluate asset_apply] in *.
  - apply M_bind_Ok in Ap as (x & s1 & Hf & Ap). apply lift_Ok in Hf as [_ ->].
    apply M_bind_Ok in Ap as (k & s1 & Ap & E). injection E as <-.
    apply asset_create_Ok in Ap as (Hk & -> & _). exists a. split; [|reflexivity].
    rewrite lookup_insert_ne; [done|congruence].
  - apply asset_update_Ok in Ap as (b & Hb & -> & _).
    apply asset_update_allowed in Ev as (b' & Hb' & _ & _ & Hw). rewrite Hb in Hb'. injection Hb' as <-.
    destruct (decide (up_asset_to_update op = i)) as [<-|Hne].
    + rewrite Hb in Ha. injection Ha as <-. rewrite lookup_insert_eq. eexists. split; [done|]. by apply Hw.
    + rewrite lookup_insert_ne by done. exists a. split; [done|reflexivity].
  - apply asset_update_issuer_Ok in Ap as (b & Hb & -> & _).
    destruct (decide (ui_asset_to_update op = i)) as [<-|Hne].
    + rewrite Hb in Ha. injection Ha as <-. rewrite lookup_insert_eq. eexists. split; [done|reflexivity].
    + rewrite lookup_insert_ne by done. exists a. split; [done|reflexivity].
  - apply asset_update_bitasset_Ok in Ap as (f & -> & _). exists a. split; [done|reflexivity].
  - apply asset_update_feed_producers_Ok in Ap as (o & f & -> & _). exists a. split; [done|reflexivity].
Qed.

(** C14: What an issuer gives up while there is supply is gone for good.  Along any
    configuration of assets, as long as the asset has a supply, its permissions only
    ever shrink, and a flag changes only while the permission to change it is among
    those it started with; so a permission that is revoked stays revoked and its flag
    stays as it is. *)
Theorem permissions_only_shrink i s s' a :
  configured i s s' → assets s !! i = Some a →
  ∃ a', assets s' !! i = Some a' ∧ within_permissions (ao_options a) (ao_options a') ∧
    ∀ n, 0 ≤ n → Z.testbit (issuer_permissions (ao_options a)) n = false →
      Z.testbit (issuer_permissions (ao_options a')) n = false ∧
      Z.testbit (flags (ao_options a')) n = Z.testbit (flags (ao_options a)) n.
Proof.
  intros H Ha. enough (∃ a', assets s' !! i = Some a' ∧ within_permissions (ao_options a) (ao_options a')) as (a' & Ha' & W).
  { exists a'. split_and!; [done|done|]. destruct W as [W1 W2]. rewrite bits_outside_0 in W1, W2. intros n Hn Hp.
    specialize (W1 n Hn). specialize (W2 n Hn). rewrite Z.lxor_spec in W2. rewrite Hp in W1, W2. split.
    - destruct (Z.testbit _ n); [|done]. by discriminate W1.
    - destruct (Z.testbit (flags (ao_options a')) n), (Z.testbit (flags (ao_options a)) n); try done; by discriminate W2. }
  induction H as [s|s s1 o s2 H IH Hs Ev Ap|s s1 s2 H IH Ho].
  - exists a. split; [done|reflexivity].
  - destruct (IH Ha) as (a1 & Ha1 & W1). destruct (config_step i o s1 s2 a1 Hs Ev Ap Ha1) as (a2 & Ha2 & W2).
    exists a2. split; [done|]. by etransitivity.
  - destruct (IH Ha) as (a1 & Ha1 & W1). destruct (Ho a1 Ha1) as (a2 & Ha2 & P & F).
    exists a2. split; [done|]. etransitivity; [exact W1|].
    pose proof (reflexivity (R:=within_permissions) (ao_options a1)) as R. unfold within_permissions in *. by rewrite P, F.
Qed.

End permissions.

(** ** Backing assets *)

(** The asset that backs a BitAsset. *)
Definition backing (s : database) (i : Z) : option Z :=
  a ← assets s !! i; if is_market_issued a then (short_backing_asset ∘ fst) <$> published s !! i else None.

Record wf_backing (s : database) : Prop := {
  wb_core : ∃ a, assets s !! CORE = Some a ∧ is_market_issued a = false;
  wb_data i a : assets s !! i = Some a → is_market_issued a = true → is_Some (published s !! i);
  wb_exists i b : backing s i = Some b → is_Some (assets s !! b);
  wb_short i b c : backing s i = Some b → backing s b = Some c → backing s c = None
}.

Lemma backing_same s s' :
  (∀ i, is_market_issued <$> assets s' !! i = is_market_issued <$> assets s !! i) →
  (∀ i, (short_backing_asset ∘ fst) <$> published s' !! i = (short_backing_asset ∘ fst) <$> published s !! i) →
  wf_backing s → wf_backing s'.
Proof.
  intros HA HP [C D X S].
  assert (∀ i, backing s' i = backing s i) as HB.
  { intros i. unfold backing. specialize (HA i). specialize (HP i).
    destruct (assets s' !! i) as [a'|], (assets s !! i) as [a|]; try done. cbn in *. injection HA as ->.
    by destruct (is_market_issued a). }
  assert (∀ i, is_Some (assets s' !! i) ↔ is_Some (assets s !! i)) as HS.
  { intros i. rewrite <-(fmap_is_Some is_market_issued), HA. apply fmap_is_Some. }
  split.
  - destruct C as (a & Ha & Hm). specialize (HA CORE). rewrite Ha in HA. apply fmap_Some in HA as (a' & Ha' & E).
    exists a'. split; [done|congruence].
  - intros i a' Ha' Hm. specialize (HA i). rewrite Ha' in HA. symmetry in HA. apply fmap_Some in HA as (a & Ha & E).
    destruct (D i a Ha) as [p Hp]; [congruence|]. specialize (HP i). rewrite Hp in HP.
    apply fmap_Some in HP as (p' & -> & _). done.
  - intros i b. rewrite HB, HS. apply X.
  - intros i b c. rewrite !HB. apply S.
Qed.

Section backing_proofs.
Context `{EX : Ext} (nth_element : nth_element_t) (fuel : nat).

Lemma get_bitasset_data_Ok i a s b s' :
  get_bitasset_data i a s = Ok (b, s') → s' = s ∧ is_market_issued a = true ∧ bitassets s !! i = Some b.
Proof. unfold get_bitasset_data. intros E. bind_step E. by apply get_Ok in E as [-> E]. Qed.

Lemma backing_bitasset s i a b :
  assets s !! i = Some a → is_market_issued a = true → bitassets s !! i = Some b →
  backing s i = Some (short_backing_asset (bad_options b)).
Proof. intros Ha Hm Hb. unfold backing, published. rewrite Ha. cbn. by rewrite Hm, lookup_fmap, Hb. Qed.
Lemma backing_Some s i b :
  backing s i = Some b → ∃ a d, assets s !! i = Some a ∧ is_market_issued a = true ∧ bitassets s !! i = Some d ∧
    short_backing_asset (bad_options d) = b.
Proof.
  unfold backing, published. destruct (assets s !! i) as [a|]; [|done]. cbn. destruct (is_market_issued a) eqn:Hm; [|done].
  rewrite lookup_fmap. destruct (bitassets s !! i) as [d|] eqn:Hd; [|done]. intros [= <-]. by exists a, d.
Qed.

Lemma each_all {A} (f : A → M database unit) l s s' :
  (∀ x, reads (f x)) → each f l s = Ok (tt, s') → s' = s ∧ ∀ x, x ∈ l → f x s = Ok (tt, s).
Proof.
  intros HR. revert s. induction l as [|x l IH]; intros s E; [injection E as <-; split; [done|by intros ? ?%elem_of_nil]|].
  cbn in E. apply M_bind_Ok in E as ([] & s1 & H1 & E). pose proof (HR x _ _ _ H1) as ->.
  apply IH in E as [-> H]. split; [done|]. intros y [->|Hy]%elem_of_cons; auto.
Qed.
Lemma reads_check_child n a af c : reads (check_child n a af c).
Proof. unfold check_child. solve_reads. Qed.

Lemma check_children_Ok x n a s s' :
  check_children_of_bitasset x n a true s = Ok (tt, s') → n ≠ CORE →
  s' = s ∧ ∀ i, backing s i = Some x → i ≠ n ∧ is_market_issued a = false.
Proof.
  unfold check_children_of_bitasset. intros E Hn. rewrite (proj2 (Z.eqb_neq _ _)) in E by done. cbn [negb when] in E.
  bind_step E. apply each_all in E as [-> H]; [|intros; apply reads_check_child]. split; [done|].
  intros i (b & d & _ & _ & Hd & Hx)%backing_Some.
  specialize (H i). assert (i ∈ children x s) as Hi.
  { unfold children, ids_of. rewrite merge_sort_Permutation. apply list_elem_of_fmap. exists (i, d). split; [done|].
    apply elem_of_map_to_list, map_lookup_filter_Some. done. }
  specialize (H Hi). unfold check_child in H. bind_step H. cbn [when] in H. do 2 bind_step H.
  apply lift_Ok in H as [H _]. apply fc_assert_Ok in H. bool_to_prop. split; [lia|done].
Qed.

(** The checks of a new backing asset rule out a chain of three BitAssets. *)
Lemma check_new_backing_Ok a cur op na s s' :
  let x := ub_asset_to_update op in let n := short_backing_asset (ub_new_options op) in
  wf_backing s → assets s !! n = Some na → check_new_backing a cur op na s = Ok (tt, s') →
  n ≠ x ∧ (∀ i, backing s i = Some x → i ≠ n ∧ backing s n = None) ∧
  (∀ b, backing s n = Some b → b = CORE ∨ ∃ ba, assets s !! b = Some ba ∧ is_market_issued ba = false).
Proof.
  intros x n W Hna E. unfold check_new_backing in E. fold x n in E. bind_step E.
  apply M_bind_Ok in E as ([] & s1 & H1 & E).
  assert (s1 = s) as ->.
  { destruct (is_prediction_market cur); cbn [when] in H1; [by apply lift_Ok in H1 as [_ ->]|by injection H1 as <-]. }
  apply M_bind_Ok in E as ([] & s1 & H2 & E).
  assert (is_market_issued na = false → backing s n = None) as Hno.
  { intros Hm. unfold backing. rewrite Hna. cbn. by rewrite Hm. }
  assert (s1 = s ∧ ∀ i, backing s i = Some x → i ≠ n ∧ backing s n = None) as [-> Hch].
  { assert (n = CORE → ∀ i, backing s i = Some x → i ≠ n ∧ backing s n = None) as Hcore.
    { intros EC i Hi. destruct (wb_core _ W) as (ca & Hca & Hcm). rewrite <-EC in Hca. rewrite Hna in Hca.
      injection Hca as <-. split; [|by apply Hno]. intros ->. rewrite (Hno Hcm) in Hi. done. }
    assert (∀ s2, check_children_of_bitasset x n na true s = Ok (tt, s2) → s2 = s ∧
      ∀ i, backing s i = Some x → i ≠ n ∧ backing s n = None) as Hcc.
    { intros s2 H3. destruct (decide (n = CORE)) as [EC|Hne].
      - unfold check_children_of_bitasset in H3. rewrite EC in H3. cbn in H3. injection H3 as <-. split; [done|auto].
      - apply check_children_Ok in H3 as [-> H3]; [|done]. split; [done|]. intros i Hi. destruct (H3 i Hi) as [? Hm].
        split; [done|by apply Hno]. }
    destruct (issuer a =? GRAPHENE_COMMITTEE_ACCOUNT).
    - destruct (is_market_issued na).
      + apply M_bind_Ok in H2 as (b & s2 & Hg & H2). apply get_bitasset_data_Ok in Hg as (-> & _ & _).
        bind_step H2. by apply Hcc.
      + apply lift_Ok in H2 as [H2 ->]. apply fc_assert_Ok in H2. split; [done|]. apply Hcore. by apply Z.eqb_eq.
    - destruct (Z.eqb_spec n CORE) as [EC|]; cbn [negb when] in H2; [injection H2 as <-; split; [done|auto]|by apply Hcc]. }
  bool_to_prop. split_and!; [lia|done|].
  intros b Hb. destruct (is_market_issued na) eqn:Hm; [|by rewrite Hno in Hb]. cbn [when] in E.
  apply M_bind_Ok in E as (d & s1 & Hg & E). apply get_bitasset_data_Ok in Hg as (-> & _ & Hd).
  rewrite (backing_bitasset _ _ _ _ Hna Hm Hd) in Hb. injection Hb as Hb. rewrite Hb in E.
  destruct (Z.eqb_spec b CORE) as [|Hne]; [by left|]. right.
  apply M_bind_Ok in E as (ok & s1 & Hg & E). bind Hg as ba Hba. injection Hg as <- <-. cbn in Hba.
  apply lift_Ok in E as [E _]. apply fc_assert_Ok in E. exists ba. split; [done|]. by apply negb_true_iff.
Qed.


Lemma create_backing_wf s s' i na o :
  wf_backing s → assets s !! i = None → assets s' = <[i := na]> (assets s) →
  match o with
  | None => is_market_issued na = false ∧ published s' = published s
  | Some b => is_market_issued na = true ∧ published s' = <[i := (b, ∅)]> (published s) ∧
      is_Some (assets s !! short_backing_asset b) ∧
      ∀ c, backing s (short_backing_asset b) = Some c → backing s c = None
  end → wf_backing s'.
Proof.
  intros W Hi HA HO.
  assert (∀ j, j ≠ i → backing s' j = backing s j) as HB.
  { intros j Hj. unfold backing. rewrite HA, lookup_insert_ne by done.
    destruct o as [b|]; [destruct HO as (_ & -> & _)|destruct HO as [_ ->]]; [|done]. by rewrite lookup_insert_ne. }
  assert (∀ j b, backing s j = Some b → b ≠ i) as Hni.
  { intros j b Hj ->. destruct (wb_exists _ W j i Hj) as [? H]. congruence. }
  assert (backing s i = None) as HiN by (unfold backing; by rewrite Hi).
  assert (∀ b, backing s' i = Some b → is_Some (assets s !! b) ∧ ∀ c, backing s b = Some c → backing s c = None) as HI.
  { intros b. unfold backing at 1. rewrite HA, lookup_insert_eq. cbn. destruct o as [o|].
    - destruct HO as (-> & -> & He & Hc). rewrite lookup_insert_eq. by intros [= <-].
    - by destruct HO as [-> _]. }
  assert (∀ j, backing s j = None → j ≠ i → backing s' j = None) as HN by (intros j ? ?; by rewrite HB).
  split.
  - destruct (wb_core _ W) as (a & Ha & Hm). exists a. split; [|done]. rewrite HA, lookup_insert_ne; congruence.
  - intros j a Hj Hm. rewrite HA in Hj. destruct (decide (j = i)) as [->|Hne].
    + rewrite lookup_insert_eq in Hj. injection Hj as <-. destruct o as [b|]; [destruct HO as (_ & -> & _)|by destruct HO; congruence].
      by rewrite lookup_insert_eq.
    + rewrite lookup_insert_ne in Hj by done. destruct (wb_data _ W j a Hj Hm) as [p Hp].
      destruct o as [b|]; [destruct HO as (_ & -> & _)|destruct HO as [_ ->]]; [rewrite lookup_insert_ne by done|]; by exists p.
  - intros j b Hj. rewrite HA. destruct (decide (b = i)) as [->|Hb]; [by rewrite lookup_insert_eq|].
    rewrite lookup_insert_ne by done. destruct (decide (j = i)) as [->|Hne]; [by apply HI|].
    rewrite HB in Hj by done. by apply (wb_exists _ W j).
  - intros j b c Hj Hb. destruct (decide (j = i)) as [->|Hne].
    + destruct (HI b Hj) as [[? He] Hc]. rewrite HB in Hb by congruence. apply HN; [by apply Hc|exact (Hni b c Hb)].
    + rewrite HB in Hj by done. pose proof (Hni _ _ Hj). rewrite HB in Hb by done.
      apply HN; [exact (wb_short _ W j b c Hj Hb)|exact (Hni b c Hb)].
Qed.

Lemma update_backing_wf s s' x a o f :
  wf_backing s → assets s' = assets s → assets s !! x = Some a → is_market_issued a = true →
  published s' = <[x := (o, f)]> (published s) →
  let n := short_backing_asset o in
  is_Some (assets s !! n) → n ≠ x → (∀ i, backing s i = Some x → i ≠ n ∧ backing s n = None) →
  (∀ b, backing s n = Some b → backing s b = None) → wf_backing s'.
Proof.
  intros W HA Hx Hm HP n Hn Hnx Hch Hb.
  assert (∀ j, j ≠ x → backing s' j = backing s j) as HB.
  { intros j Hj. unfold backing. by rewrite HA, HP, lookup_insert_ne. }
  assert (backing s' x = Some n) as HBx.
  { unfold backing. rewrite HA, HP, Hx, lookup_insert_eq. cbn. by rewrite Hm. }
  split.
  - rewrite HA. apply (wb_core _ W).
  - intros j b Hj Hmb. rewrite HA in Hj. rewrite HP. destruct (decide (j = x)) as [->|Hne]; [by rewrite lookup_insert_eq|].
    rewrite lookup_insert_ne by done. by eapply (wb_data _ W).
  - intros j b Hj. rewrite HA. destruct (decide (j = x)) as [->|Hne].
    + rewrite HBx in Hj. by injection Hj as <-.
    + rewrite HB in Hj by done. by apply (wb_exists _ W j).
  - intros j b c Hj Hbc. destruct (decide (j = x)) as [->|Hne].
    + rewrite HBx in Hj. injection Hj as <-. rewrite HB in Hbc by done.
      destruct (decide (c = x)) as [->|Hc]; [|rewrite HB by done; by apply Hb].
      by destruct (Hch n Hbc) as [? _].
    + rewrite HB in Hj by done. destruct (decide (b = x)) as [->|Hbx].
      * rewrite HBx in Hbc. injection Hbc as <-. rewrite HB by done. by apply (Hch j).
      * rewrite HB in Hbc by done. destruct (decide (c = x)) as [->|Hc]; [|rewrite HB by done; exact (wb_short _ W j b c Hj Hbc)].
        destruct (wb_data _ W x a Hx Hm) as [p Hp]. exfalso.
        assert (backing s x = Some (short_backing_asset p.1)) as Hbx' by (unfold backing; rewrite Hx; cbn; by rewrite Hm, Hp).
        rewrite (wb_short _ W j b x Hj Hbc) in Hbx'. done.
Qed.

Lemma check_backing_Ok op o s s' :
  wf_backing s → check_backing op o s = Ok (tt, s') →
  is_Some (assets s !! short_backing_asset o) ∧
  ∀ c, backing s (short_backing_asset o) = Some c → backing s c = None.
Proof.
  intros W E. unfold check_backing in E. bind E as a Ha. cbn in Ha. split; [by exists a|].
  intros c (a' & d & Ha' & Hm & Hd & Hc)%backing_Some. rewrite Ha in Ha'. injection Ha' as <-. rewrite Hm in E.
  apply M_bind_Ok in E as (b & s1 & Hg & E). apply get_bitasset_data_Ok in Hg as (-> & _ & Hb).
  rewrite Hd in Hb. injection Hb as <-. rewrite Hc in E. bind E as ca Hca. cbn in Hca. bind_step E. bool_to_prop.
  unfold backing. rewrite Hca. cbn. by destruct (is_market_issued ca).
Qed.


Lemma reads_all_accounts_exist l : reads (all_accounts_exist l).
Proof. intros s [] s' E. by apply all_accounts_exist_same in E. Qed.

Lemma asset_create_allowed op o s s1 :
  asset_create_evaluate op s = Ok (tt, s1) → cr_bitasset_opts op = Some o → check_backing op o s = Ok (tt, s).
Proof.
  intros E Ho. unfold asset_create_evaluate in E. do 4 bind_step E.
  apply M_bind_Ok in E as ([] & s2 & H2 & E). apply M_bind_Ok in E as ([] & s3 & H3%all_accounts_exist_same & E).
  apply M_bind_Ok in E as ([] & s4 & H4%all_accounts_exist_same & E). subst s3 s4.
  assert (s2 = s) as ->.
  { unfold check_asset_options_hf_1268 in H2. destruct (_ <? _); cbn [when] in H2; [|by injection H2 as <-].
    bind_step H2. by apply lift_Ok in H2 as [_ ->]. }
  do 2 bind_step E. apply M_bind_Ok in E as ([] & s2 & H3 & E).
  assert (s2 = s) as ->.
  { destruct (_ >? HARDFORK_385_TIME); cbn [when] in H3; [|by injection H3 as <-].
    destruct (symbol_prefix _) as [p|]; cbn [when_valid] in H3; [|by injection H3 as <-]. bind_step H3.
    destruct (asset_by_symbol p s) as [[j y]|]; [|done]. by apply lift_Ok in H3 as [_ ->]. }
  rewrite Ho in E. cbn [when_valid] in E. apply M_bind_Ok in E as ([] & s2 & H4 & _).
  apply M_bind_Ok in H4 as ([] & s3 & H4 & _).
  assert (s3 = s) as ->.
  { match type of H4 with ?m s = _ => enough (reads m) as HR by (by apply HR in H4) end.
    unfold check_backing, get_bitasset_data. solve_reads. }
  done.
Qed.

(** A BitAsset keeps its backing asset, or the new one was checked. *)
Lemma asset_update_bitasset_allowed op s s1 :
  wf_backing s → HARDFORK_CORE_922_931_TIME < next_maintenance_time (dgpo s) →
  asset_update_bitasset_evaluate op s = Ok (tt, s1) →
  let x := ub_asset_to_update op in let n := short_backing_asset (ub_new_options op) in
  ∃ a, assets s !! x = Some a ∧ is_market_issued a = true ∧
    (backing s x = Some n ∨
     is_Some (assets s !! n) ∧ n ≠ x ∧ (∀ i, backing s i = Some x → i ≠ n ∧ backing s n = None) ∧
     (∀ b, backing s n = Some b → backing s b = None)).
Proof.
  intros W HT E x n. unfold asset_update_bitasset_evaluate in E. fold x n in E. bind E as a Ha. cbn in Ha. do 2 bind_step E.
  apply M_bind_Ok in E as (b & s2 & Hg & E). apply get_bitasset_data_Ok in Hg as (-> & Hm & Hb). do 2 bind_step E.
  unfold next_maint_time in Hx1. unfold gets in Hx1.
  exists a. split_and!; [done|done|]. destruct (Z.eqb_spec n (short_backing_asset (bad_options b))) as [En|Hne]; cbn [negb when] in E.
  { left. rewrite (backing_bitasset _ _ _ _ Ha Hm Hb). by rewrite En. }
  right. apply M_bind_Ok in E as ([] & s2 & H & _). bind_step H. bind_step H. bind H as na Hna. cbn in Hna.
  assert (next_maintenance_time (dgpo s) >? HARDFORK_CORE_922_931_TIME = true) as HT' by lia. rewrite HT' in H.
  apply check_new_backing_Ok in H as (H1 & H2 & H3); [|done|done].
  split_and!; [by exists na|done|done|]. intros c Hc. unfold backing.
  destruct (H3 c Hc) as [->|(ca & -> & Hcm)]; [|cbn; by rewrite Hcm].
  destruct (wb_core _ W) as (ca & -> & Hcm). cbn. by rewrite Hcm.
Qed.

(** C15: BitAssets are at most two deep.  After hard fork 922/931 every accepted
    configuration of an asset keeps these facts: the core asset is no BitAsset; each
    BitAsset has its data and a backing asset that exists; and what backs the asset that
    backs a BitAsset is never a BitAsset itself. *)
Theorem backing_chain_short o s s' :
  wf_backing s → HARDFORK_CORE_922_931_TIME < next_maintenance_time (dgpo s) →
  asset_evaluate o s = Ok (tt, s) → asset_apply nth_element fuel o s = Ok (tt, s') → wf_backing s'.
Proof.
  intros W HT Ev Ap. destruct o as [op fee|op|op|op|op]; cbn [asset_evaluate asset_apply] in *.
  - apply M_bind_Ok in Ap as (x & s1 & Hf & Ap). apply lift_Ok in Hf as [_ ->].
    apply M_bind_Ok in Ap as (k & s1 & Ap & E). injection E as <-.
    apply asset_create_Ok in Ap as (Hk & HA & _ & HP).
    apply (create_backing_wf s s1 k (new_asset op k) (cr_bitasset_opts op)); [done|done|done|].
    pose proof (asset_create_allowed op) as Hc. destruct (cr_bitasset_opts op) as [o|] eqn:Ho.
    + apply (check_backing_Ok op o s s) in W as [? ?]; [|by eapply Hc]. destruct HP as [_ HP].
      split_and!; [unfold is_market_issued; cbn; by rewrite Ho|done|done|done].
    + split; [unfold is_market_issued; cbn; by rewrite Ho|done].
  - apply asset_update_Ok in Ap as (b & Hb & HA & HP). apply (backing_same s); [|by rewrite HP|done].
    intros i. rewrite HA. destruct (decide (i = up_asset_to_update op)) as [->|]; [|by rewrite lookup_insert_ne].
    by rewrite lookup_insert_eq, Hb.
  - apply asset_update_issuer_Ok in Ap as (b & Hb & HA & HP). apply (backing_same s); [|by rewrite HP|done].
    intros i. rewrite HA. destruct (decide (i = ui_asset_to_update op)) as [->|]; [|by rewrite lookup_insert_ne].
    by rewrite lookup_insert_eq, Hb.
  - apply asset_update_bitasset_allowed in Ev as (a & Ha & Hm & Hn); [|done|done].
    apply asset_update_bitasset_Ok in Ap as (f & HA & [p Hp] & HP). destruct Hn as [Hn|(H1 & H2 & H3 & H4)].
    + apply (backing_same s); [by rewrite HA| |done]. intros i. rewrite HP.
      destruct (decide (i = ub_asset_to_update op)) as [->|]; [|by rewrite lookup_insert_ne].
      rewrite lookup_insert_eq. unfold backing in Hn. rewrite Ha in Hn. cbn in Hn. rewrite Hm in Hn. by rewrite Hn.
    + by apply (update_backing_wf s s' (ub_asset_to_update op) a (ub_new_options op) f).
  - apply asset_update_feed_producers_Ok in Ap as (o & f & HA & Hp & HP). apply (backing_same s); [by rewrite HA| |done].
    intros i. rewrite HP. destruct (decide (i = fp_asset_to_update op)) as [->|]; [|by rewrite lookup_insert_ne].
    by rewrite lookup_insert_eq, Hp.
Qed.

(** Exactly the new producers have a place, and those who stay keep their feeds. *)
Lemma keep_producers_lookup ps m i :
  keep_producers ps m !! i =
    if decide (i ∈ ps) then Some (default (0, default_price_feed) (m !! i)) else None.
Proof.
  unfold keep_producers. set (F := λ acc m', _). set (k := filter _ m).
  assert (k !! i = if decide (i ∈ ps) then m !! i else None) as Hk.
  { unfold k. rewrite map_lookup_filter. destruct (m !! i) as [v|]; cbn; [|by case_decide].
    destruct (decide (i ∈ ps)); by case_guard. }
  assert (∀ l, foldr F k l !! i = if decide (i ∈ l) then Some (default (0, default_price_feed) (k !! i)) else k !! i) as HF.
  { induction l as [|a l IH]; [by rewrite decide_False by apply not_elem_of_nil|]. cbn [foldr]. unfold F at 1.
    destruct (decide (i = a)) as [->|Hne].
    - rewrite (decide_True (P:=a ∈ a :: l)) by set_solver. destruct (foldr F k l !! a) as [v|] eqn:Hv.
      + rewrite Hv. case_decide; [exact IH|by rewrite <-IH].
      + rewrite lookup_insert_eq. case_decide; [done|by rewrite <-IH].
    - rewrite (decide_ext (i ∈ a :: l) (i ∈ l)) by set_solver. rewrite <-IH.
      destruct (foldr F k l !! a); [done|by rewrite lookup_insert_ne]. }
  rewrite HF, Hk. rewrite (decide_ext (i ∈ elements ps) (i ∈ ps)) by apply elem_of_elements. by case_decide.
Qed.

End backing_proofs.

(** ** An issuer and two BitAssets

    Asset 1 is backed by core and asset 2 by asset 1, both of account 17. *)
Definition ex_issuer_options (perms fl : Z) : asset_options :=
  AssetOptions 1000000 100 1000 perms fl (Price (Asset 1 1) (Asset 1 0)) ∅ ∅ ∅ ∅ None None String.EmptyString.
Definition ex_assets : database :=
  set_assets {[ 0 := AssetObject 0 (ex_options 0 0 (ex_unit_price 0 0)) false None "CORE" 5;
                1 := AssetObject 17 (ex_issuer_options 3 1) true None "COIN" 5 ]}
    (set_bitassets {[ 1 := ex_bitasset ]} ex_chain).
Definition ex_asset_create : asset_create_operation :=
  AssetCreate (Asset 7 0) 17 "COIN.SUB" 4 (ex_issuer_options 1 0) (Some (BitassetOptions 86400 1 86400 100 2000 1)) false.
Definition ex_asset_update : asset_update_operation :=
  AssetUpdate (Asset 7 0) 17 1 None (ex_issuer_options 1 0).

Lemma ex_assets_wf : wf_backing ex_assets.
Proof.
  assert (∀ i b, backing ex_assets i = Some b → b = 0) as HB.
  { intros i b (a & d & _ & _ & Hd & <-)%backing_Some. cbn in Hd. apply lookup_singleton_Some in Hd as [_ <-]. done. }
  assert (backing ex_assets 0 = None) as H0 by done.
  split.
  - eexists. split; [done|done].
  - intros i a Ha Hm. cbn in Ha. apply lookup_insert_Some in Ha as [[<- <-]|[_ Ha]]; [done|].
    apply lookup_singleton_Some in Ha as [<- _]. eexists. done.
  - intros i b ->%HB. by eexists.
  - intros i b c ->%HB. by rewrite H0.
Qed.

Lemma permissions_only_shrink_witness :
  match asset_apply ex_nth_element 10 (co_asset_update ex_asset_update) ex_assets with
  | Ok (_, s') => ∃ a', assets s' !! 1 = Some a' ∧ Z.testbit (issuer_permissions (ao_options a')) 2 = false ∧
      Z.testbit (issuer_permissions (ao_options a')) 0 = true
  | Err _ => False
  end.
Proof.
  destruct (asset_apply ex_nth_element 10 (co_asset_update ex_asset_update) ex_assets) as [[[] s']|e] eqn:E;
    [|by vm_compute in E].
  assert (configured ex_nth_element 10 1 ex_assets s') as H.
  { apply (configured_step _ _ _ _ _ (co_asset_update ex_asset_update) _ (configured_refl _ _ _ _)); [|by vm_compute|exact E].
    eexists. split; [reflexivity|discriminate]. }
  destruct (permissions_only_shrink _ _ _ _ _ _ H eq_refl) as (a' & Ha' & _ & Hp).
  exists a'. split_and!; [exact Ha'|by apply (Hp 2)|].
  vm_compute in E. injection E as <-. vm_compute in Ha'. by injection Ha' as <-.
Defined.

Lemma backing_chain_short_witness :
  match asset_apply ex_nth_element 10 (co_asset_create ex_asset_create 0) ex_assets with
  | Ok (_, s') => wf_backing s' ∧ backing s' 2 = Some 1
  | Err _ => False
  end.
Proof.
  destruct (asset_apply ex_nth_element 10 (co_asset_create ex_asset_create 0) ex_assets) as [[[] s']|e] eqn:E;
    [|by vm_compute in E].
  split; [|vm_compute in E; by injection E as <-].
  apply (backing_chain_short ex_nth_element 10 (co_asset_create ex_asset_create 0) ex_assets s' ex_assets_wf);
    [by vm_compute|by vm_compute|exact E].
Defined.
